(* ===== verification/_CoqProject ===== *)
-Q . S2P
Prelude.v
Js.v
Dom.v
Sampler.v
Overlay.v
Scheduler.v
Invariants.v
Barrier.v
Lifecycle.v
Rendering.v
Cycle.v
Observation.v
Identity.v
Gateway.v
Pacing.v
Tracking.v
Safety.v
Refinement.v
Quiescence.v
Fair.v
Backend.v
Annotation.v
Liveness.v
Background.v
Popup.v
Panel.v
System.v
Status.v
Completion.v
Reopen.v
Session.v
Command.v
Startup.v
Shutdown.v
Refusal.v
