(* ===== verification/Prelude.v ===== *)
(** * Attentiveness monitor (browser extension): a verification development

    The program is a Chrome extension of three scripts.

    - [src/content.js] is the content script injected in the meeting page.  It
      keeps a run flag ([isAnalyzing]), the handle of the pending
      inter-cycle timer ([analysisTimeoutId]) and one shared off-screen
      canvas.  [startAnalysis] / [stopAnalysis] switch the run flag;
      [runAnalysisCycle] walks the [video] elements of the page, stamps each
      eligible one with a [data-monitor-id], samples a frame of it
      ([captureAndSendFrame]) and posts it to the inference service, waits
      for every request of the cycle to settle ([Promise.all]) and then arms
      a 1000 ms timer for the next cycle; [updateOverlay] creates or updates
      the border-and-label annotation of one participant and defers the
      styling to the next animation frame.
    - [src/background.js] ([processFrames]) is a batch variant of the request:
      it posts all frames at once and synthesises an "Error" judgment for a
      participant the service did not judge.
    - [src/popup.js] is the control panel: it sends [start] / [stop] to the
      content script, shows a status line and lists the reports of a session.

    ** Files

    - [Prelude] (this file): the libraries every file loads, the
      [monitor] hint database, the development's tactics, and the lemmas on
      strings, lists and maps that the components share.
    - [Js]: the fragment of JavaScript values the scripts compute with:
      [jval], string conversion of a template literal ([to_string]),
      truthiness, and the property lookup on an object literal that falls
      back on [Object.prototype].
    - [Dom]: the page as the content script sees it: [video] elements in
      document order with their geometry and [data-monitor-id]; the overlay
      elements the script creates, held in a store indexed by reference
      ([elems]) with the children of [document.body] as a list of references
      ([body]), so that a detached element that a queued callback still
      holds is the same object; the queue of [requestAnimationFrame]
      callbacks; the queries the script uses ([querySelector],
      [getElementById], [remove]).
    - [Sampler]: the synchronous half of [captureAndSendFrame]: the shared
      canvas, its resizing, and the sampled image.
    - [Overlay]: [updateOverlay], the status-to-colour table, the deferred
      styling callback and its rendering as CSS text and label HTML.
    - [Scheduler]: the whole content script as an event-driven machine.  Its
      [state] holds the page, the script's globals, and the browser's side of
      the asynchronous operations (pending timers, requests in flight with
      the cycle each belongs to, the clock, the console).  One definition per
      function of the script; [handle] dispatches one task of the event loop
      (a runtime message, a timer, the settling of a fetch, an animation
      frame, a host-page mutation, the passing of time), [enabled] says when
      the environment can deliver it, [step] and [reachable] are the
      induced transition system, [run] its executable form on a trace.
    - [Invariants]: the well-formedness invariant of reachable states and its
      preservation, operation by operation.
    - [Barrier]: the single scheduling chain ([single_chain]) and the
      discipline of the control panel under which it holds ([calm]: no
      [start] of a stopped script while requests are in flight); the
      all-settle barrier, and the trace on which it fails without the
      discipline.
    - [Lifecycle]: [startAnalysis], [stopAnalysis] and the settling of a
      request, branch by branch.
    - [Rendering]: the overlay contract: find-or-create, the element after
      the frame ([rendered]), the colours, the end-to-end scenario.
    - [Cycle]: a reference description of one cycle as a function of the
      list of videos ([cycle_requests], [stamped]) and the proof that the
      walk of [runAnalysisCycle] computes it; participant ids.
    - [Observation]: the equivalence of states that differ in the console
      and in the history of requests only, with the [Proper] instances of
      the setters, the handlers and [enabled].
    - [Identity]: uniqueness of the participant ids under the clock
      discipline [orderly] ([distinct_ids]).
    - [Gateway]: the requests a cycle puts in flight, one per sampled
      video ([in_flight_are]), and at most one outstanding request per
      participant ([one_per_participant]).
    - [Pacing]: the clock and the timers across the tasks, and the
      invariant [spaced] of the states after a cycle has begun.
    - [Tracking]: the overlays as a subset of the identified participants
      ([tracked]) while no participant leaves, what happens when one does,
      and a restarted script that runs without overlays.
    - [Safety]: the invariants read on reachable states.
    - [Refinement]: the run-state machine of the specification as an
      abstract labelled transition system ([phase], [phase_step]), the
      abstraction [phase_of], and the class [Refinement] (abstraction,
      invariant, initial states and steps preserved) of which the scheduler
      with [single_chain] is an instance.
    - [Quiescence]: the tasks the script causes itself ([internal_step]),
      the measure [budget] that every one of them decreases, and the state
      of rest ([quiescent]); inevitability along every schedule
      ([eventually]) and how it follows from a well-founded step relation
      with an invariant that gives progress ([wf_eventually]).
    - [Backend]: the inference service as an interface: the class
      [Backend] holds the operation behind [POST /process_frame] and the
      promise the content script relies on (the answer is a success and
      names the participant of the request); [served_step] and
      [served_time] are the tasks of the script when the answers are those
      of the service; two instances.
    - [Annotation]: scheduler, gateway, renderer and service together:
      the invariant [serving] of the states between the beginning of a
      cycle and its rest, and the state [annotated] the cycle ends in.
    - [Liveness]: the script against the service and the clock
      ([live_step]: a task of the script, or at rest the wait for the
      timer) from any reachable state, in three phases: the tasks under
      way run out, the timer fires, its cycle is answered.
    - [Background]: [processFrames] of [src/background.js], cut at its
      awaits, with [split] and the fallback judgment.
    - [Popup]: the control panel of [src/popup.js]: one definition per
      listener and callback over the status line, the list of links and the
      operations that are pending; [deliver] composes it with [onMessage]
      of the content script.
    - [Panel]: the popup as a transition system over clicks and callbacks
      ([panel_handle], [panel_reachable]) and the typing of its state
      ([wf_popup]).
    - [System]: the composition: the product of the popup and the content
      script with the two directions of [chrome.tabs.sendMessage] as queues
      ([system], [sys_handle]); the projections onto the components and the
      invariant [linked] that ties the channel to the popup's callbacks.
    - [Status]: the discipline [attentive] of the operator, the inductive
      invariant [attended] (one constructor per stage of the command under
      way), soundness of the status line, and the two scenarios in which
      attentiveness does not help or is missing.
    - [Completion]: the steps the browser takes for the popup
      ([transfer_step]) and the count [pending_work] of those still to
      take for the commands under way.
    - [Reopen]: the popup closed and opened again ([reopen],
      [reopening]): what survives of the status line.
    - [Fair]: infinite executions of a step relation as functions from the
      natural numbers ([execution]), weak fairness to a part of the steps
      ([fair]), and the two rules that carry the finite arguments over:
      what is inevitable happens in a fair execution ([eventually_fair]),
      and steps that use up a measure are taken until none is left
      ([fair_measure]).
    - [Session]: the system left to itself after a click: the steps of
      the browser for the popup with the Meet page of the script in the
      active tab ([browser_step]), the tasks of the script against the
      service and the clock ([script_step]), their interleaving
      ([session_step]), and one policy of the event loops ([turn],
      [schedule]) as a fair execution from every state.
    - [Command]: the four stages of one command of the popup between the
      click and the status line ([commanding]), as a section over the
      command, its callback, the reply of the listener and what holds of
      the script and of the popup before and after.
    - [Startup]: the section instantiated for Start, and the statement of
      the whole extension from the click to the annotated page.
    - [Shutdown]: the same for Stop and End Session: the session comes to
      rest; the status the request to [/end_session] leaves
      ([end_status]); the order in which the reports and the stop arrive.
    - [Refusal]: the section instantiated for a Start that
      [startAnalysis] refuses, because the script runs already or no
      video passes its test.

    ** How state and effects are modelled

    JavaScript runs one task at a time; an [async] function runs
    synchronously up to its first [await].  A task is therefore a total
    function on [state].  The continuation after [await fetch(..)] /
    [await response.json()] is the [Settle] event of that request; the
    continuation after [await Promise.all(..)] runs (as a micro-task, still
    inside the same task) as soon as the last request of that cycle has
    settled, or at once when the cycle issued none.  The two awaits of one
    fetch are collapsed into one event, since no global is read or written
    between them.  [Date.now()] is the clock of the state, read once per
    task.  Numbers are integers ([Z], [N]); pixel geometry is integral.
    The state also keeps what the code does not hold in a variable but a
    test would observe: the console, and the history [sent] of the
    requests issued, each with the cycle and the time of its task;
    [Observation] shows that no handler reads them.

    ** What is proved

    - Scheduling ([Barrier], [Safety]): under [calm], requests are issued
      only when none is in flight, all requests in flight belong to one
      cycle, no timer is pending while one is in flight, a running script
      always has a cycle in flight or a timer due within the delay, and a
      stopped script stays quiet.  Without [calm] the chain forks
      ([restart_forks_chain]), and an operator of the popup who waits for
      every answer can make it fork ([attentive_restart_forks_chain]).
    - Termination ([Quiescence]): while the clock stands still the script
      runs at most [budget s] tasks from a state [s] and [internal_step] is
      well founded; at rest a running script holds a timer that is due
      later than now and within the delay.
    - Identity ([Identity], [Tracking]): under [orderly] no two videos
      carry the same id and the lookup of [updateOverlay] finds the video
      that carries the id; while no participant leaves, every overlay
      belongs to an identified participant; overlays are lost only by
      [stop]; the overlay of a participant who left stays; after a stop and
      a restart the script runs without overlays while its requests fail.
    - Requests ([Gateway]): under [orderly] a task that begins a cycle
      leaves exactly the requests of the reference in flight, with
      pairwise distinct ids, and no two requests in flight are ever for
      the same participant.
    - Pace ([Pacing]): after a task has begun a cycle, and while the
      analysis is not started anew, every later request is issued at
      least one delay (1000 ms) after that task and no timer fires before.
    - Ghost state ([Observation]): the console and the history [sent] are
      written and never read: states that differ in them run every trace
      alike, with the same replies, and both lists only grow.
    - Annotation ([Annotation]): when a task begins a cycle and the
      service answers as [Backend] promises, then with the clock standing
      still every schedule of settlings and frames comes to rest in a
      state in which every sampled participant the service judged has its
      overlay on screen, over the rectangle of its video, in the colour
      and with the label of its judgment, and the next cycle is armed;
      with time passing short of the next timer the same holds whenever
      nothing is in flight and no callback is queued.
    - Liveness ([Liveness]): from any state of a running script that an
      orderly environment can bring about, when the service answers and
      nobody else acts, the script inevitably comes to rest with every
      sampled and judged participant annotated, the clock advanced by one
      delay at most, in a state to which the statement applies again.
    - Refinement ([Refinement]): under [calm] every task of the script is
      a transition of the phase machine (idle, collecting, resting,
      draining) and the phase of a reachable state is reachable there.
    - The cycle ([Cycle]): [runAnalysisCycle] is equivalent to the
      reference description; ids are stable and minted injectively in the
      time and the index; two starts within one millisecond can give two
      videos one id.
    - Handlers ([Lifecycle]): the replies of [startAnalysis]; the
      postcondition and idempotence of [stopAnalysis]; a failed request
      changes nothing but the log and the set of requests in flight; an
      answer that arrives after [stop] is still drawn; [start] succeeds on
      videos no cycle samples.
    - Overlays ([Rendering], [Invariants], [Safety]): well-formedness of
      the page in every reachable state (distinct overlay ids, live
      callback targets), find-or-create, the rendered element, the colour
      table and its [Object.prototype] leak, the stale rectangle under
      scrolling.
    - Sampling ([Sampler]): a capture encodes the video's own picture
      whatever the canvas held; the height in doubles is exact for the
      common stream sizes, within one pixel for all sizes up to 64 by 64,
      and one pixel short for 80 by 41.
    - Batch gateway ([Background]): [split] round trip, the trailing
      segment, forwarding in order, the loss of a whole batch on one
      malformed entry, and that the content script ignores the command.
    - Control panel ([Popup]): what the status line shows after each
      button once the content script has handled the command, to which
      tabs commands go, the list of links, and two orders of callbacks
      that end in different statuses.
    - The popup as a machine ([Panel]): every reachable state of the
      popup is well typed ([wf_popup]).
    - Composition ([System], [Status]): in the composed system each
      component runs as it runs alone and the messages in transit are one
      for one the callbacks the popup holds; with an attentive operator
      the status line says Running or Stopped only when the script is;
      Start followed at once by End Session leaves Running on a stopped
      script.
    - Completion ([Completion]): every step of the browser for the popup
      uses up [pending_work], so in any order the steps end, after three
      of them for Start and Stop and four for End Session, with the popup
      waiting for nothing and, for an attentive operator, a sound status.
    - Sessions ([Reopen]): when the popup is closed and opened again
      while none of its messages is on its way, the components still run
      as they run alone; the status line stays sound for an attentive
      operator when [popup.html] opens with a status that says neither
      Running nor Stopped, and a popup that opens as Stopped is wrong
      about a script that runs.
    - The whole extension ([Startup], [Shutdown], with [Fair], [Session]
      and [Command]): after a click on Start in a settled popup over a
      stopped script that sees a participant, every execution that is fair
      to the browser and to the script reaches a moment from which on the
      popup shows Running and the script runs, and after every later
      moment, within one delay, a state of rest with every sampled and
      judged participant annotated.  After a click on Stop or End Session, from any state of
      an orderly environment, every fair execution reaches a state in
      which the popup shows the outcome of the button and the script is
      stopped with nothing pending, and stays in that state for ever; an
      overlay drawn by an answer that came after the stop stays with it.
      Fair executions exist from every state ([schedule_fair]).  End
      Session does not wait for the stop: the reports can be ready while
      the script still posts frames.  A Start that the script refuses
      ([Refusal]) ends with the message of the refusal in the status line
      and the run flag as it was.

    ** Bounds

    No definition uses fuel: every handler is a structural function and
    the walk of a cycle is a fold over the indices of the videos.  The
    clock is an [N] in milliseconds and a timer is due 1000 after it is
    armed.  The bound on the tasks between two ticks is
    [(2 * videos + 1) * due timers + 2 * requests in flight + queued
    callbacks]: enough because a timer that fires issues at most one
    request per video and the timer armed in its place is not due, and a
    request that settles queues at most one callback.  The tab in which
    the script lives is a parameter ([home]) of the composed system; the
    examples use tab 5.  Messages and responses between the popup and the
    script are delivered in the order sent.  The answered cycle is
    followed up to the next timer: [served_step] lets no time pass and
    [served_time] lets the clock advance only while no timer becomes due,
    which is the span in which the annotation of that cycle is to be on
    screen; the host page is left alone in that span.  In [Liveness] the
    answers arrive while the clock stands still and the clock advances
    only at rest, to the timer: the bound of one delay is the bound of
    the code, the time the service takes comes on top.  Inevitability
    ([eventually]) is an inductive predicate: every schedule ends, so no
    fairness assumption is needed there.  A session of the popup and a
    running script never ends, so [Startup] and [Shutdown] speak of
    infinite executions, given as functions from [nat] (an execution may
    repeat its state, which also represents a session that has ended),
    and assume weak fairness to the browser and to the script: a step that
    can be taken is taken later unless it can no longer be taken.  In a
    session nobody clicks again, the host page is left alone, the active
    tab is the Meet page of the script, and the clock advances only while
    the script is at rest, to its timer.  [schedule] shows that the
    assumptions can be met from every state; its policy takes at most
    [pending_work] steps of the browser before a task of the script.  The
    status
    [popup.html] opens with is a parameter ([cls], [text]) of the popup
    and of the composed system, since the page is not among the sources.
    The exhaustive check of the canvas height covers stream sizes
    up to 64 by 64 (a larger range only takes longer to evaluate); the
    other statements on the height are for named sizes.  Canvas dimensions
    are [unsigned long] attributes: conversion is modulo 2^32 and a value
    above 2^31 - 1 gives the default.

    ** Not modelled

    The pixels of a frame and the JPEG encoder (an image is the frame it
    was drawn from and the canvas size); CSS parsing of the assigned style
    text; elements of the host page other than [video] (in particular none
    carries a [data-monitor-id] or an id starting with [overlay-]);
    fractional layout coordinates and non-integral numbers in answers;
    arrays and objects in the place of an id, a name, a status or a
    score of an answer (a [jval] is a primitive value; the conversion of
    an object to a string can throw); exceptions of the canvas API; answers whose [student_id] cannot stand
    in an attribute selector ([outcome_covered]); a tab without a readable
    [url]; a popup that is closed while one of its messages is on its way
    to a tab ([reopening] opens the popup again only when none is);
    content scripts in other tabs (a message to another tab is answered
    by the environment); what the inference service computes from an
    image: the service is the interface [Backend], and its failures are
    the outcomes of [Settle] events; the markup of [popup.html] and the
    manifest of the extension, which are not among the sources. *)

From Stdlib Require Export Ascii.
From stdpp Require Export base tactics decidable option numbers strings pretty gmap list.

(** ** Hint database and tactics *)

Create HintDb monitor discriminated.
Create Rewrite HintDb monitor_rw.

(** Case analysis on the guard of the innermost conditional of the goal. *)
Ltac case_cond :=
  match goal with
  | |- context [if ?b then _ else _] =>
      lazymatch type of b with
      | bool => destruct b eqn:?
      | _ => destruct b
      end
  | |- context [match ?o with Some _ => _ | None => _ end] => destruct o eqn:?
  end.

(** Split a conjunction of invariant clauses and try the database on each. *)
Ltac split_all := repeat match goal with |- _ ∧ _ => split end.

Ltac monitor_auto := eauto with monitor.

(** Close a goal whose hypotheses look a key up in a map that has none. *)
Ltac vacuous :=
  intros;
  repeat match goal with
  | H : is_Some (_ !! _) |- _ => destruct H as [? H]
  end;
  by simplify_map_eq.

(** Decide a closed decidable proposition by evaluation. *)
Ltac by_compute :=
  lazymatch goal with
  | |- ?P => apply (bool_decide_unpack P); by vm_compute
  end.

(** ** Strings *)

Declare Scope js_scope.
Delimit Scope js_scope with js.

(** The double quote, which cannot be written inside a literal. *)
Definition dquote : string := String "034"%char EmptyString.

Section strings.
Implicit Types (c : ascii) (s r : string).

(** [str_mem c s]: the character [c] occurs in [s]. *)
Fixpoint str_mem c s : bool :=
  match s with
  | EmptyString => false
  | String a s' => bool_decide (a = c) || str_mem c s'
  end.

Lemma str_app_nil_l s : EmptyString +:+ s = s.
Proof. done. Qed.

Lemma str_app_cons c s r : String c s +:+ r = String c (s +:+ r).
Proof. done. Qed.

Lemma str_app_nil_r s : s +:+ EmptyString = s.
Proof. induction s as [|a s IH]; [done|]. by rewrite str_app_cons, IH. Qed.

Lemma str_app_assoc s1 s2 s3 : (s1 +:+ s2) +:+ s3 = s1 +:+ (s2 +:+ s3).
Proof.
  induction s1 as [|a s1 IH]; [done|]. by rewrite !str_app_cons, IH.
Qed.

Lemma str_app_length s1 s2 :
  String.length (s1 +:+ s2) = (String.length s1 + String.length s2)%nat.
Proof.
  induction s1 as [|a s1 IH]; [done|]. rewrite str_app_cons. simpl. by rewrite IH.
Qed.

Lemma str_mem_app c s1 s2 :
  str_mem c (s1 +:+ s2) = str_mem c s1 || str_mem c s2.
Proof.
  induction s1 as [|a s1 IH]; [done|].
  rewrite str_app_cons. simpl. by rewrite IH, orb_assoc.
Qed.

(** A separator that occurs in neither left part splits uniquely. *)
Lemma str_app_sep_inj c s1 s2 r1 r2 :
  str_mem c s1 = false → str_mem c s2 = false →
  s1 +:+ String c r1 = s2 +:+ String c r2 → s1 = s2 ∧ r1 = r2.
Proof.
  revert s2. induction s1 as [|a s1 IH]; intros [|b s2];
    rewrite ?str_app_cons, ?str_app_nil_l; simpl.
  - by intros _ _ [= ->].
  - intros _ [Hb _]%orb_false_elim [= <- _].
    by rewrite bool_decide_eq_false in Hb.
  - intros [Ha _]%orb_false_elim _ [= -> _].
    by rewrite bool_decide_eq_false in Ha.
  - intros [_ H1]%orb_false_elim [_ H2]%orb_false_elim [= -> Heq].
    by destruct (IH _ H1 H2 Heq) as [-> ->].
Qed.

(** A common suffix can be cancelled. *)
Lemma str_app_inj_r s1 s2 r : s1 +:+ r = s2 +:+ r → s1 = s2.
Proof.
  revert s2. induction s1 as [|a s1 IH]; intros [|b s2];
    rewrite ?str_app_cons, ?str_app_nil_l; intros Heq; [done|..].
  - apply (f_equal String.length) in Heq. simpl in Heq.
    rewrite str_app_length in Heq. lia.
  - apply (f_equal String.length) in Heq. simpl in Heq.
    rewrite str_app_length in Heq. lia.
  - injection Heq as -> Heq. f_equal. by apply IH.
Qed.
End strings.

#[export] Hint Rewrite str_app_nil_l str_app_cons str_app_nil_r str_app_assoc str_mem_app : monitor_rw.

(** ** Decimal rendering

    [pretty] of stdpp prints an integer in decimal, as a template literal
    prints an integral JavaScript number. *)

Section decimal.
Definition is_digit (c : ascii) : bool := bool_decide (is_Some (Ascii.is_nat c)).

Fixpoint str_digits (s : string) : bool :=
  match s with
  | EmptyString => true
  | String a s' => is_digit a && str_digits s'
  end.

Lemma pretty_N_char_digit x : is_digit (pretty_N_char x) = true.
Proof. unfold pretty_N_char. by repeat case_match. Qed.

Lemma pretty_N_go_digits x s :
  str_digits s = true → str_digits (pretty_N_go x s) = true.
Proof.
  revert s. induction (N.lt_wf_0 x) as [x _ IH]; intros s Hs.
  destruct (decide (x = 0%N)) as [->|Hx]; [done|].
  rewrite pretty_N_go_step by lia.
  apply IH; [apply N.div_lt; lia|].
  simpl. by rewrite pretty_N_char_digit.
Qed.

Lemma pretty_N_digits (n : N) : str_digits (pretty n) = true.
Proof.
  unfold pretty, pretty_N. case_decide; [done|].
  by apply pretty_N_go_digits.
Qed.

Lemma pretty_nat_digits (n : nat) : str_digits (pretty n) = true.
Proof. apply pretty_N_digits. Qed.

Lemma str_digits_no_mem c s :
  is_digit c = false → str_digits s = true → str_mem c s = false.
Proof.
  intros Hc. induction s as [|a s IH]; simpl; [done|].
  intros [Ha Hs]%andb_prop. rewrite IH by done.
  rewrite orb_false_r, bool_decide_eq_false. by intros ->; congruence.
Qed.
End decimal.

#[export] Hint Resolve pretty_N_digits pretty_nat_digits : monitor.

(** ** Lists and maps *)

Section lists.
Context {A : Type}.
Implicit Types (l : list A) (i : nat).

(** [imap]-free indexed fold: the body sees the index of each position. *)
Definition foldl_index {B} (f : B → nat → B) (n : nat) (b : B) : B :=
  foldl f b (seq 0 n).

Lemma foldl_index_ind {B} (P : B → Prop) (f : B → nat → B) n b :
  P b → (∀ b' i, (i < n)%nat → P b' → P (f b' i)) → P (foldl_index f n b).
Proof.
  unfold foldl_index. intros Hb Hf.
  assert (∀ k m b0, (k + m ≤ n)%nat → P b0 → P (foldl f b0 (seq k m))) as H.
  { intros k m. revert k. induction m as [|m IH]; intros k b0 Hk Hb0; [done|].
    simpl. apply IH; [lia|]. apply Hf; [lia|done]. }
  by apply H.
Qed.

Lemma foldl_index_S {B} (f : B → nat → B) n b :
  foldl_index f (S n) b = f (foldl_index f n b) n.
Proof. unfold foldl_index. by rewrite seq_S, foldl_app. Qed.

(** Altering a position that holds [x] is writing [f x] there. *)
Lemma list_alter_lookup (f : A → A) l n x :
  l !! n = Some x → alter f n l = <[n := f x]> l.
Proof.
  revert n. induction l as [|y l IH]; intros [|n] Hx; simplify_eq/=; [done|].
  f_equal. by apply IH.
Qed.

(** When the images of a list under [f] are pairwise distinct, two
    positions whose elements have the same image are one position. *)
Lemma NoDup_fmap_lookup {B} (f : A → B) l j k x y :
  NoDup (f <$> l) → l !! j = Some x → l !! k = Some y → f x = f y → j = k.
Proof.
  intros Hnd Hj Hk Hf. apply (NoDup_lookup _ j k (f x) Hnd);
    rewrite list_lookup_fmap; [by rewrite Hj|by rewrite Hk, Hf].
Qed.

(** The values a partial function takes on a list are pairwise distinct
    iff no two positions give the same value. *)
Lemma NoDup_omap_lookup {B} (f : A → option B) l :
  NoDup (omap f l) ↔
  ∀ j k a b x, l !! j = Some a → l !! k = Some b → f a = Some x → f b = Some x → j = k.
Proof.
  induction l as [|y l IH]; simpl; [split; [by intros|constructor]|].
  assert (NoDup (omap f l) ∧ (∀ x, f y = Some x → x ∉ omap f l)
          ↔ NoDup (match f y with Some x => x :: omap f l | None => omap f l end)) as <-.
  { destruct (f y) as [x|]; [rewrite NoDup_cons|]; naive_solver. }
  rewrite IH. split.
  - intros [Hl Hy] [|j] [|k] a b x Ha Hb Hfa Hfb; simplify_eq/=; [done|..].
    + destruct (Hy x Hfa). apply list_elem_of_omap. exists b.
      split; [by eapply list_elem_of_lookup_2|done].
    + destruct (Hy x Hfb). apply list_elem_of_omap. exists a.
      split; [by eapply list_elem_of_lookup_2|done].
    + f_equal. by eapply Hl.
  - intros H. split.
    + intros j k a b x Ha Hb Hfa Hfb. by injection (H (S j) (S k) a b x Ha Hb Hfa Hfb).
    + intros x Hx (a & [j Ha]%list_elem_of_lookup_1 & Hfa)%list_elem_of_omap.
      by specialize (H 0 (S j) y a x eq_refl Ha Hx Hfa).
Qed.

Lemma omap_sublist {B} (f : A → option B) l1 l2 :
  l1 `sublist_of` l2 → omap f l1 `sublist_of` omap f l2.
Proof.
  induction 1 as [|x l1 l2 _ IH|x l1 l2 _ IH]; simpl; [constructor|..];
    destruct (f x); by try constructor.
Qed.

(** A change of one element that [f] does not see. *)
Lemma omap_alter_same {B} (f : A → option B) (g : A → A) n l :
  (∀ x, f (g x) = f x) → omap f (alter g n l) = omap f l.
Proof.
  intros Hg. revert n. induction l as [|y l IH]; intros [|n]; simpl; [done..| |].
  - by rewrite Hg.
  - destruct (f y); [f_equal|]; apply IH.
Qed.

Lemma take_snoc_lookup l n x : l !! n = Some x → take (S n) l = take n l ++ [x].
Proof. apply take_S_r. Qed.

Lemma filter_all (P : A → Prop) `{!∀ x, Decision (P x)} l :
  Forall P l → filter P l = l.
Proof.
  induction 1 as [|x l Hx _ IH]; [done|].
  by rewrite filter_cons_True, IH.
Qed.

Lemma filter_none (P : A → Prop) `{!∀ x, Decision (P x)} l :
  Forall (λ x, ¬ P x) l → filter P l = [].
Proof.
  induction 1 as [|x l Hx _ IH]; [done|].
  by rewrite filter_cons_False.
Qed.
End lists.

Section maps.
Context {V : Type}.
Implicit Types (m : gmap nat V) (n : nat).

(** Every key of [m] is below the allocation counter [n]. *)
Definition below n m : Prop := ∀ k, is_Some (m !! k) → (k < n)%nat.

Lemma below_empty n : below n (∅ : gmap nat V).
Proof. intros k [? Hk]. by rewrite lookup_empty in Hk. Qed.

Lemma below_fresh n m : below n m → m !! n = None.
Proof.
  intros Hb. destruct (m !! n) eqn:E; [|done].
  specialize (Hb n (mk_is_Some _ _ E)). lia.
Qed.

Lemma below_insert n m v : below n m → below (S n) (<[n:=v]> m).
Proof.
  intros Hb k. rewrite lookup_insert. case_decide; [lia|].
  intros Hk. specialize (Hb k Hk). lia.
Qed.

Lemma below_insert_lt n m k v : (k < n)%nat → below n m → below n (<[k:=v]> m).
Proof.
  intros Hk Hb j. rewrite lookup_insert. case_decide; [lia|]. apply Hb.
Qed.

Lemma below_delete n m k : below n m → below n (delete k m).
Proof.
  intros Hb j. rewrite lookup_delete. case_decide; [by intros [??]|]. apply Hb.
Qed.

Lemma below_alter n m k (f : V → V) : below n m → below n (alter f k m).
Proof.
  intros Hb j. rewrite lookup_alter. case_decide; [subst|apply Hb].
  rewrite fmap_is_Some. apply Hb.
Qed.

Lemma below_mono n n' m : (n ≤ n')%nat → below n m → below n' m.
Proof. intros Hn Hb k Hk. specialize (Hb k Hk). lia. Qed.
End maps.

#[export] Hint Resolve below_empty below_insert below_insert_lt below_delete
  below_alter : monitor.
