(* ===== verification/Js.v ===== *)
(** * Js: the JavaScript values the scripts compute with

    The content script interpolates values of the service's JSON answer in
    template literals, tests them for truthiness, and uses one as the key of
    an object literal.  This file fixes those three operations.  Numbers are
    the integral ones; a template literal prints them in decimal. *)

From S2P Require Import Prelude.

(** A primitive value of a parsed JSON document, or [undefined] for a
    property that is absent. *)
Inductive jval :=
| JUndefined
| JNull
| JBool (b : bool)
| JNum (n : Z)
| JStr (s : string).

#[export] Instance jval_eq_dec : EqDecision jval.
Proof. solve_decision. Defined.

#[export] Instance jval_inhabited : Inhabited jval := populate JUndefined.

(** String conversion, as done by [${v}] in a template literal and by
    the conversion of a property key. *)
Definition to_string (v : jval) : string :=
  match v with
  | JUndefined => "undefined"
  | JNull => "null"
  | JBool true => "true"
  | JBool false => "false"
  | JNum n => pretty n
  | JStr s => s
  end.

(** Truthiness, as tested by [if (v)], [!v] and [v || w]. *)
Definition truthy (v : jval) : bool :=
  match v with
  | JUndefined | JNull => false
  | JBool b => b
  | JNum n => bool_decide (n ≠ 0%Z)
  | JStr s => bool_decide (s ≠ EmptyString)
  end.

(** The judgment of the inference service: the object under [result] of an
    answer.  A property the object lacks is [JUndefined]. *)
Record judgment := Judgment {
  res_name : jval;
  res_status : jval;
  res_score : jval
}.

#[export] Instance judgment_eq_dec : EqDecision judgment.
Proof. solve_decision. Defined.

(** ** Property lookup on an object literal

    [{k1: v1, ...}[key]] finds an own property first and the members of
    [Object.prototype] next. *)

Definition object_prototype_keys : list string :=
  [ "constructor"; "__defineGetter__"; "__defineSetter__"; "hasOwnProperty";
    "__lookupGetter__"; "__lookupSetter__"; "isPrototypeOf";
    "propertyIsEnumerable"; "toString"; "valueOf"; "__proto__";
    "toLocaleString" ].

Inductive property :=
| Own (v : string)        (** an own property, here always a string *)
| Inherited (k : string)  (** a member of [Object.prototype] *)
| Absent.                 (** [undefined] *)

Fixpoint own_property (obj : list (string * string)) (k : string) : option string :=
  match obj with
  | [] => None
  | (k', v) :: obj' => if decide (k' = k) then Some v else own_property obj' k
  end.

Definition get_property (obj : list (string * string)) (key : jval) : property :=
  let k := to_string key in
  match own_property obj k with
  | Some v => Own v
  | None => if decide (k ∈ object_prototype_keys) then Inherited k else Absent
  end.

(** [p || d] followed by interpolation in a template literal.  Own values
    are non-empty strings in every use; an inherited member is a function
    (or, for [__proto__], the prototype object), which is truthy and prints
    as its source text; the function under [constructor] is named
    [Object], the others are named by their key. *)
Definition native_function (name : string) : string :=
  "function " +:+ name +:+ "() { [native code] }".

Definition property_or (p : property) (d : string) : string :=
  match p with
  | Own v => if decide (v = EmptyString) then d else v
  | Inherited k =>
      if decide (k = "__proto__") then "[object Object]"
      else if decide (k = "constructor") then native_function "Object"
      else native_function k
  | Absent => d
  end.

(** ** Lemmas *)

Lemma to_string_num_inj n m : to_string (JNum n) = to_string (JNum m) → n = m.
Proof. simpl. apply (inj pretty). Qed.

Lemma truthy_str s : truthy (JStr s) = true ↔ s ≠ EmptyString.
Proof. simpl. by rewrite bool_decide_eq_true. Qed.

Lemma own_property_Some obj k v :
  own_property obj k = Some v → (k, v) ∈ obj.
Proof.
  induction obj as [|[k' v'] obj IH]; simpl; [done|].
  case_decide as Hk; [intros [= ->]; subst; left|intros ?; right; auto].
Qed.

Lemma own_property_None obj k :
  own_property obj k = None ↔ k ∉ obj.*1.
Proof.
  induction obj as [|[k' v'] obj IH]; simpl.
  - split; [intros _ H; inversion H|done].
  - rewrite not_elem_of_cons. case_decide as Hk; [|rewrite IH]; naive_solver.
Qed.

Lemma get_property_own obj key v :
  own_property obj (to_string key) = Some v → get_property obj key = Own v.
Proof. unfold get_property. by intros ->. Qed.

Lemma get_property_absent obj key :
  to_string key ∉ obj.*1 → to_string key ∉ object_prototype_keys →
  get_property obj key = Absent.
Proof.
  intros H1%own_property_None H2. unfold get_property. rewrite H1.
  by rewrite decide_False.
Qed.

#[export] Hint Resolve get_property_own get_property_absent : monitor.
