(* ===== verification/Dom.v ===== *)
(** * Dom: the page as the content script sees it

    [video] elements in document order, the overlay elements the script
    creates (a store of objects indexed by reference, and the children of
    [document.body] as references into it), the window's scroll offset and
    its queue of animation-frame callbacks, with the DOM calls of
    [src/content.js] as functions on [page].  The host page owns the videos:
    [host_apply] is what it may do to them between two tasks. *)

From S2P Require Import Prelude Js.

(** ** Data *)

(** [getBoundingClientRect()] of a video: viewport coordinates. *)
Record rect := Rect {
  rc_left : Z;
  rc_top : Z;
  rc_width : Z;
  rc_height : Z
}.

(** A [<video>] element.  [monitorId] is [dataset.monitorId], the
    [data-monitor-id] attribute; [picture] stands for the frame it shows. *)
Record video := Video {
  readyState : Z;
  offsetHeight : Z;
  offsetWidth : Z;
  videoWidth : Z;
  videoHeight : Z;
  clientRect : rect;
  picture : N;
  monitorId : option string
}.

(** The declarations that [updateOverlay] assigns to an overlay through
    [style.cssText]; the other declarations of that text are constants. *)
Record overlay_style := OverlayStyle {
  st_left : Z;
  st_top : Z;
  st_width : Z;
  st_height : Z;
  st_border : string
}.

(** The [.monitor-label] child of an overlay. *)
Record label := Label {
  lb_className : string;
  lb_innerHTML : string;
  lb_cssText : string
}.

(** A [<div>] created by the script. *)
Record element := Element {
  el_className : string;
  el_id : string;
  el_style : option overlay_style;
  el_label : option label
}.

(** The closure passed to [requestAnimationFrame] by [updateOverlay]: the
    variables it captured. *)
Record frame_callback := FrameCallback {
  cb_overlay : nat;
  cb_videoRect : rect;
  cb_statusColor : string;
  cb_result : judgment
}.

Record page := Page {
  videos : list video;
  elems : gmap nat element;
  nextElem : nat;
  body : list nat;
  scrollX : Z;
  scrollY : Z;
  rafQueue : list frame_callback
}.

#[export] Instance rect_eq_dec : EqDecision rect.
Proof. solve_decision. Defined.
#[export] Instance video_eq_dec : EqDecision video.
Proof. solve_decision. Defined.
#[export] Instance overlay_style_eq_dec : EqDecision overlay_style.
Proof. solve_decision. Defined.
#[export] Instance label_eq_dec : EqDecision label.
Proof. solve_decision. Defined.
#[export] Instance element_eq_dec : EqDecision element.
Proof. solve_decision. Defined.
#[export] Instance frame_callback_eq_dec : EqDecision frame_callback.
Proof. solve_decision. Defined.

(** ** Field updates *)

Definition set_videos (f : list video → list video) (p : page) : page :=
  Page (f (videos p)) (elems p) (nextElem p) (body p) (scrollX p) (scrollY p) (rafQueue p).
Definition set_elems (f : gmap nat element → gmap nat element) (p : page) : page :=
  Page (videos p) (f (elems p)) (nextElem p) (body p) (scrollX p) (scrollY p) (rafQueue p).
Definition set_nextElem (f : nat → nat) (p : page) : page :=
  Page (videos p) (elems p) (f (nextElem p)) (body p) (scrollX p) (scrollY p) (rafQueue p).
Definition set_body (f : list nat → list nat) (p : page) : page :=
  Page (videos p) (elems p) (nextElem p) (f (body p)) (scrollX p) (scrollY p) (rafQueue p).
Definition set_scroll (x y : Z) (p : page) : page :=
  Page (videos p) (elems p) (nextElem p) (body p) x y (rafQueue p).
Definition set_rafQueue (f : list frame_callback → list frame_callback) (p : page) : page :=
  Page (videos p) (elems p) (nextElem p) (body p) (scrollX p) (scrollY p) (f (rafQueue p)).

Definition with_monitorId (o : option string) (v : video) : video :=
  Video (readyState v) (offsetHeight v) (offsetWidth v) (videoWidth v)
        (videoHeight v) (clientRect v) (picture v) o.

(** The page before the script has run: the host's videos, nothing else. *)
Definition initial_page (vs : list video) : page :=
  Page vs ∅ 0 [] 0 0 [].

(** ** DOM calls of the script *)

(** [document.createElement('div')]: a fresh detached element. *)
Definition blank_element : element := Element EmptyString EmptyString None None.

Definition createElement (p : page) : nat * page :=
  (nextElem p, set_nextElem S (set_elems (insert (nextElem p) blank_element) p)).

(** [document.body.appendChild(el)]: [el] becomes the last child; an
    element that is already a child is moved. *)
Definition appendChild (r : nat) (p : page) : page :=
  set_body (λ b, filter (λ x, x ≠ r) b ++ [r]) p.

(** Assignments to the properties of an element held by reference. *)
Definition update_element (r : nat) (f : element → element) (p : page) : page :=
  set_elems (alter f r) p.

Definition elem_has_id (p : page) (i : string) (r : nat) : Prop :=
  el_id <$> elems p !! r = Some i.

Definition elem_has_class (p : page) (c : string) (r : nat) : Prop :=
  el_className <$> elems p !! r = Some c.

#[export] Instance elem_has_id_dec p i r : Decision (elem_has_id p i r).
Proof. unfold elem_has_id. apply _. Defined.
#[export] Instance elem_has_class_dec p c r : Decision (elem_has_class p c r).
Proof. unfold elem_has_class. apply _. Defined.

(** [document.getElementById(i)]: the first attached element with that id. *)
Definition getElementById (i : string) (p : page) : option nat :=
  snd <$> list_find (elem_has_id p i) (body p).

(** [document.querySelector(`[data-monitor-id="${i}"]`)]: the first video, in
    document order, that carries the attribute with that value. *)
Definition querySelector_monitorId (i : string) (p : page) : option (nat * video) :=
  list_find (λ v, monitorId v = Some i) (videos p).

(** [document.querySelectorAll('.c').forEach(el => el.remove())]. *)
Definition remove_by_class (c : string) (p : page) : page :=
  set_body (filter (λ r, ¬ elem_has_class p c r)) p.

(** [videoEl.dataset.monitorId = i] on the video at position [n]. *)
Definition set_monitorId (n : nat) (i : string) (p : page) : page :=
  set_videos (alter (with_monitorId (Some i)) n) p.

(** [requestAnimationFrame(cb)]: callbacks run in the order queued. *)
Definition requestAnimationFrame (cb : frame_callback) (p : page) : page :=
  set_rafQueue (λ q, q ++ [cb]) p.

(** ** The host page

    Between two tasks the host may insert a video (without the script's
    attribute), remove one, change the geometry or the stream of one (its
    attributes stay), and scroll. *)
Inductive host_event :=
| HostInsert (n : nat) (v : video)
| HostRemove (n : nat)
| HostUpdate (n : nat) (v : video)
| HostScroll (x y : Z).

Definition host_apply (h : host_event) (p : page) : page :=
  match h with
  | HostInsert n v =>
      set_videos (λ vs, take n vs ++ with_monitorId None v :: drop n vs) p
  | HostRemove n => set_videos (delete n) p
  | HostUpdate n v =>
      set_videos (alter (λ old, with_monitorId (monitorId old) v) n) p
  | HostScroll x y => set_scroll x y p
  end.

(** ** Derived notions *)

(** The overlays on screen: attached elements of class [monitor-overlay]. *)
Definition attached (p : page) : list element :=
  omap (λ r, elems p !! r) (body p).

Definition overlay_ids (p : page) : list string := el_id <$> attached p.

(** The participant ids carried by the videos of the page. *)
Definition monitor_ids (p : page) : list string := omap monitorId (videos p).

(** ** Lemmas on the DOM calls *)

Section dom_lemmas.
Implicit Types (p : page) (r n : nat) (i c : string).

Lemma createElement_fresh p :
  below (nextElem p) (elems p) → elems p !! (createElement p).1 = None.
Proof. apply below_fresh. Qed.

Lemma createElement_lookup p :
  elems (createElement p).2 !! (createElement p).1 = Some blank_element.
Proof. simpl. apply lookup_insert_eq. Qed.

Lemma createElement_lookup_ne p r :
  r ≠ nextElem p → elems (createElement p).2 !! r = elems p !! r.
Proof. intros. simpl. by rewrite lookup_insert_ne. Qed.

Lemma createElement_body p : body (createElement p).2 = body p.
Proof. done. Qed.

Lemma createElement_videos p : videos (createElement p).2 = videos p.
Proof. done. Qed.

Lemma appendChild_fresh r p :
  r ∉ body p → body (appendChild r p) = body p ++ [r].
Proof.
  intros Hr. simpl. f_equal. apply filter_all.
  apply Forall_forall. intros x Hx ->. by apply Hr.
Qed.

Lemma appendChild_NoDup r p : NoDup (body p) → NoDup (body (appendChild r p)).
Proof.
  intros Hnd. simpl. apply NoDup_app. split_and!.
  - by apply NoDup_filter.
  - intros x [Hx _]%list_elem_of_filter ->%list_elem_of_singleton. done.
  - apply NoDup_singleton.
Qed.

Lemma elem_of_appendChild r p x :
  x ∈ body (appendChild r p) ↔ x = r ∨ x ∈ body p.
Proof.
  simpl. rewrite elem_of_app, list_elem_of_filter, list_elem_of_singleton.
  destruct (decide (x = r)); naive_solver.
Qed.

Lemma getElementById_Some i p r :
  getElementById i p = Some r → r ∈ body p ∧ elem_has_id p i r.
Proof.
  unfold getElementById. intros Hf.
  destruct (list_find _ _) as [[k r']|] eqn:E; simplify_eq/=.
  apply list_find_Some in E as (Hk & Hid & _).
  split; [by eapply list_elem_of_lookup_2|done].
Qed.

Lemma getElementById_None i p :
  getElementById i p = None ↔ ∀ r, r ∈ body p → ¬ elem_has_id p i r.
Proof.
  unfold getElementById. rewrite fmap_None, list_find_None, Forall_forall. done.
Qed.

Lemma querySelector_monitorId_Some i p n v :
  querySelector_monitorId i p = Some (n, v) →
  videos p !! n = Some v ∧ monitorId v = Some i.
Proof. intros (? & ? & _)%list_find_Some. done. Qed.

Lemma querySelector_monitorId_None i p :
  querySelector_monitorId i p = None ↔ i ∉ monitor_ids p.
Proof.
  unfold querySelector_monitorId, monitor_ids.
  rewrite list_find_None, Forall_forall, list_elem_of_omap. naive_solver.
Qed.

Lemma remove_by_class_body c p r :
  r ∈ body (remove_by_class c p) ↔ r ∈ body p ∧ ¬ elem_has_class p c r.
Proof. simpl. by rewrite list_elem_of_filter, (comm and). Qed.

Lemma remove_by_class_all c p :
  Forall (elem_has_class p c) (body p) → body (remove_by_class c p) = [].
Proof.
  intros H. simpl. apply filter_none.
  eapply Forall_impl; [exact H|]. intros x Hx Hn. by apply Hn.
Qed.

Lemma set_monitorId_lookup n i p v :
  videos p !! n = Some v →
  videos (set_monitorId n i p) !! n = Some (with_monitorId (Some i) v).
Proof. intros Hv. simpl. by rewrite list_lookup_alter_eq, Hv. Qed.

Lemma set_monitorId_lookup_ne n m i p :
  n ≠ m → videos (set_monitorId n i p) !! m = videos p !! m.
Proof. intros. simpl. by rewrite list_lookup_alter_ne. Qed.

Lemma set_monitorId_length n i p :
  length (videos (set_monitorId n i p)) = length (videos p).
Proof. simpl. apply length_alter. Qed.
End dom_lemmas.

#[export] Hint Resolve appendChild_NoDup : monitor.
#[export] Hint Rewrite createElement_body createElement_videos
  set_monitorId_length : monitor_rw.
