(* ===== verification/Sampler.v ===== *)
(** * Sampler: the synchronous half of [captureAndSendFrame]

    One off-screen canvas is shared by all captures.  A capture resizes it
    to [MAX_WIDTH] by [MAX_WIDTH * videoHeight / videoWidth], draws the
    current frame of the video and encodes the canvas.  The height is
    computed as the script computes it: a division and a multiplication of
    IEEE 754 doubles ([SpecFloat], binary64), then the conversion to the
    [unsigned long] attribute of the canvas.  An [image] is what the
    encoder was given: the picture drawn and the canvas size. *)

From Stdlib Require Import SpecFloat.
From S2P Require Import Prelude Js Dom.

#[local] Open Scope Z_scope.

(** ** Doubles *)

Definition prec64 : Z := 53.
Definition emax64 : Z := 1024.

(** The double nearest to an integer (exact below 2^53). *)
Definition f64_of_Z (z : Z) : spec_float := binary_normalize prec64 emax64 z 0 false.
Definition f64_div : spec_float → spec_float → spec_float := SFdiv prec64 emax64.
Definition f64_mul : spec_float → spec_float → spec_float := SFmul prec64 emax64.

(** Truncation toward zero of a finite double; 0 for NaN and infinities. *)
Definition f64_trunc (x : spec_float) : Z :=
  match x with
  | S754_finite s m e =>
      let a := match e with
               | Z0 => Zpos m
               | Zpos _ => Zpos m * 2 ^ e
               | Zneg _ => Zpos m / 2 ^ (- e)
               end in
      if s then - a else a
  | _ => 0
  end.

(** Conversion of a number to a WebIDL [unsigned long]. *)
Definition to_unsigned_long (x : spec_float) : Z := f64_trunc x mod 2 ^ 32.

(** ** The canvas *)

Record canvas := Canvas {
  cv_width : Z;
  cv_height : Z;
  cv_bitmap : option N   (** the picture drawn on it; [None] when blank *)
}.

Record image := Image {
  img_picture : option N;
  img_width : Z;
  img_height : Z
}.

#[export] Instance canvas_eq_dec : EqDecision canvas.
Proof. solve_decision. Defined.
#[export] Instance image_eq_dec : EqDecision image.
Proof. solve_decision. Defined.

Definition MAX_WIDTH : Z := 480.

(** [document.createElement('canvas')]: 300 by 150, blank. *)
Definition new_canvas : canvas := Canvas 300 150 None.

(** A dimension attribute reflects an [unsigned long] limited to
    non-negative numbers: a value above 2^31 - 1 sets the default. *)
Definition reflect_dimension (default : Z) (x : spec_float) : Z :=
  let n := to_unsigned_long x in
  if decide (n ≤ 2147483647) then n else default.

(** [canvasElement.width = x] and [canvasElement.height = x]; either
    assignment clears the bitmap. *)
Definition set_width (x : spec_float) (c : canvas) : canvas :=
  Canvas (reflect_dimension 300 x) (cv_height c) None.
Definition set_height (x : spec_float) (c : canvas) : canvas :=
  Canvas (cv_width c) (reflect_dimension 150 x) None.

(** [ctx.drawImage(videoEl, 0, 0, canvasElement.width, canvasElement.height)]. *)
Definition drawImage (v : video) (c : canvas) : canvas :=
  Canvas (cv_width c) (cv_height c) (Some (picture v)).

(** [canvasElement.toDataURL('image/jpeg', 0.7)]. *)
Definition toDataURL (c : canvas) : image :=
  Image (cv_bitmap c) (cv_width c) (cv_height c).

(** [videoEl.videoHeight / videoEl.videoWidth]. *)
Definition aspectRatio (v : video) : spec_float :=
  f64_div (f64_of_Z (videoHeight v)) (f64_of_Z (videoWidth v)).

(** The height the script assigns: [MAX_WIDTH * aspectRatio]. *)
Definition scaled_height (v : video) : spec_float :=
  f64_mul (f64_of_Z MAX_WIDTH) (aspectRatio v).

(** Lines 73 to 79 of [captureAndSendFrame]: [None] is the early return for
    a video without decoded width, otherwise the canvas after the capture
    and the encoded image. *)
Definition capture (v : video) (c : canvas) : option (canvas * image) :=
  if decide (videoWidth v = 0) then None
  else
    let c1 := set_width (f64_of_Z MAX_WIDTH) c in
    let c2 := set_height (scaled_height v) c1 in
    let c3 := drawImage v c2 in
    Some (c3, toDataURL c3).

(** The height an exact computation would give. *)
Definition exact_height (v : video) : Z := MAX_WIDTH * videoHeight v / videoWidth v.

(** The height the canvas gets for a video. *)
Definition canvas_height (v : video) : Z := reflect_dimension 150 (scaled_height v).

(** ** Checking the height over a range of stream sizes *)

(** A ready, visible video whose stream is [w] by [h]. *)
Definition sized (w h : Z) : video := Video 4 360 640 w h (Rect 0 0 640 360) 0 None.

(** The canvas height is the exact height or one pixel less. *)
Definition height_close (w h : Z) : bool :=
  bool_decide (exact_height (sized w h) - 1 ≤ canvas_height (sized w h)
               ≤ exact_height (sized w h)).

(** [height_close] for every width in [1..n] and every height in [0..n]. *)
Definition heights_close (n : nat) : bool :=
  forallb (λ w, forallb (λ h, height_close (Z.of_nat (S w)) (Z.of_nat h)) (seq 0 (S n)))
          (seq 0 n).

(** ** Lemmas *)

Lemma to_unsigned_long_range x : 0 ≤ to_unsigned_long x < 2 ^ 32.
Proof. unfold to_unsigned_long. apply Z.mod_pos_bound. done. Qed.

Lemma reflect_dimension_range d x :
  0 ≤ d ≤ 2147483647 → 0 ≤ reflect_dimension d x ≤ 2147483647.
Proof.
  intros Hd. unfold reflect_dimension.
  pose proof (to_unsigned_long_range x). case_decide; lia.
Qed.

Lemma reflect_MAX_WIDTH d : reflect_dimension d (f64_of_Z MAX_WIDTH) = 480.
Proof. by vm_compute. Qed.

Lemma capture_None v c : capture v c = None ↔ videoWidth v = 0.
Proof. unfold capture. case_decide; naive_solver. Qed.

Lemma capture_Some v c :
  videoWidth v ≠ 0 →
  capture v c =
    Some (Canvas 480 (canvas_height v) (Some (picture v)),
          Image (Some (picture v)) 480 (canvas_height v)).
Proof.
  intros Hw. unfold capture. rewrite decide_False by done.
  unfold drawImage, toDataURL, set_height, set_width, canvas_height. simpl.
  by rewrite reflect_MAX_WIDTH.
Qed.

#[export] Hint Resolve to_unsigned_long_range reflect_dimension_range : monitor.
#[export] Hint Rewrite reflect_MAX_WIDTH : monitor_rw.

Lemma canvas_height_sized v :
  canvas_height v = canvas_height (sized (videoWidth v) (videoHeight v)) ∧
  exact_height v = exact_height (sized (videoWidth v) (videoHeight v)).
Proof. done. Qed.

Lemma heights_close_spec n w h :
  heights_close n = true → 0 < w ≤ Z.of_nat n → 0 ≤ h ≤ Z.of_nat n →
  height_close w h = true.
Proof.
  unfold heights_close. rewrite forallb_forall. intros Hc Hw Hh.
  specialize (Hc (Z.to_nat (w - 1))). rewrite forallb_forall in Hc.
  specialize (Hc ltac:(apply in_seq; lia) (Z.to_nat h) ltac:(apply in_seq; lia)).
  by replace (Z.of_nat (S (Z.to_nat (w - 1)))) with w in Hc by lia;
     replace (Z.of_nat (Z.to_nat h)) with h in Hc by lia.
Qed.

(** ** Theorems *)

(** C30: a capture of a video whose stream has a width succeeds whatever
    the shared canvas held before, and the image encoded is the current
    picture of that video and of no other, 480 wide, with a height that is
    a valid canvas dimension; a video without a width sends nothing. *)
Theorem capture_own_picture v c :
  capture v c = capture v new_canvas ∧
  (videoWidth v = 0 → capture v c = None) ∧
  (videoWidth v ≠ 0 →
   ∃ c' img, capture v c = Some (c', img) ∧
     img_picture img = Some (picture v) ∧ cv_bitmap c' = Some (picture v) ∧
     img_width img = MAX_WIDTH ∧ img_height img = canvas_height v ∧
     0 ≤ img_height img ≤ 2147483647).
Proof.
  split_and!.
  - unfold capture. by case_decide.
  - by intros ?%(capture_None v c).
  - intros Hw. rewrite capture_Some by done. eexists _, _.
    split_and!; try done; simpl; apply reflect_dimension_range; lia.
Qed.

Lemma capture_own_picture_witness :
  capture (sized 1280 720) (Canvas 480 360 (Some 9%N))
  = Some (Canvas 480 270 (Some 0%N), Image (Some 0%N) 480 270) ∧
  ∃ c' img, capture (sized 1280 720) (Canvas 480 360 (Some 9%N)) = Some (c', img) ∧
     img_picture img = Some (picture (sized 1280 720)) ∧
     cv_bitmap c' = Some (picture (sized 1280 720)) ∧
     img_width img = MAX_WIDTH ∧ img_height img = canvas_height (sized 1280 720) ∧
     0 ≤ img_height img ≤ 2147483647.
Proof.
  split; [by vm_compute|].
  apply (capture_own_picture (sized 1280 720) (Canvas 480 360 (Some 9%N))). done.
Defined.

(** For the stream sizes in common use the canvas height computed
    with doubles is the exact scaled height. *)
Theorem canvas_height_standard :
  Forall (λ wh, canvas_height (sized wh.1 wh.2) = exact_height (sized wh.1 wh.2))
    [(1920, 1080); (1280, 720); (960, 540); (640, 480); (640, 360); (320, 240);
     (320, 180); (480, 640); (720, 1280); (1080, 1920)] ∧
  canvas_height (sized 1280 720) = 270 ∧ canvas_height (sized 640 480) = 360.
Proof. split; [|by vm_compute]. repeat constructor; by vm_compute. Qed.

(** The height is computed as [480 * (h / w)] in doubles and then
    truncated: the quotient is rounded first, so for some sizes the canvas
    is one pixel shorter than the exact scaled height; for a stream of 80
    by 41 it is 245 and not 246. *)
Theorem canvas_height_rounds_down :
  exact_height (sized 80 41) = 246 ∧ canvas_height (sized 80 41) = 245 ∧
  (∃ c, capture (sized 80 41) new_canvas = Some (c, Image (Some 0%N) 480 245)).
Proof. split_and!; [by vm_compute..|]. eexists. by vm_compute. Qed.

(** C40: for every stream of at most 64 by 64 the canvas height, computed
    as [480 * (h / w)] in doubles and truncated, is the exact scaled height
    or one pixel less; for a stream of 3 by 49 it is one less. *)
Theorem canvas_height_close v :
  0 < videoWidth v ≤ 64 → 0 ≤ videoHeight v ≤ 64 →
  exact_height v - 1 ≤ canvas_height v ≤ exact_height v.
Proof.
  intros Hw Hh. destruct (canvas_height_sized v) as [-> ->].
  eapply bool_decide_eq_true_1.
  apply (heights_close_spec 64); [by vm_compute|done..].
Qed.

Lemma canvas_height_close_witness :
  canvas_height (sized 3 49) = exact_height (sized 3 49) - 1 ∧
  exact_height (sized 3 49) - 1 ≤ canvas_height (sized 3 49) ≤ exact_height (sized 3 49).
Proof. split; [by vm_compute|]. apply canvas_height_close; simpl; lia. Defined.
