(* ===== verification/Overlay.v ===== *)
(** * Overlay: [updateOverlay] and its deferred styling

    [updateOverlay] looks the participant's video up by its
    [data-monitor-id], finds or creates the overlay element
    [overlay-<id>], reads the video's rectangle and queues a callback for
    the next animation frame.  The callback positions and colours the
    overlay (reading the scroll offset when it runs) and fills the label. *)

From S2P Require Import Prelude Js Dom.

#[local] Open Scope Z_scope.

(** ** The status table *)

Definition statusColors : list (string * string) :=
  [ ("Attentive", "#28a745"); ("Distracted", "#ffc107"); ("Inattentive", "#dc3545") ].

Definition fallbackColor : string := "#6c757d".

(** [{...}[result.status] || "#6c757d"]. *)
Definition statusColor (result : judgment) : string :=
  property_or (get_property statusColors (res_status result)) fallbackColor.

(** ** Texts assigned by the callback *)

Definition nl : string := String "010"%char EmptyString.
Definition indent : string := "            ".

(** The template literal assigned to [overlay.style.cssText]. *)
Definition overlay_cssText (st : overlay_style) : string :=
  nl +:+ indent +:+ "position: absolute; left: " +:+ pretty (st_left st)
     +:+ "px; top: " +:+ pretty (st_top st) +:+ "px;"
  +:+ nl +:+ indent +:+ "width: " +:+ pretty (st_width st)
     +:+ "px; height: " +:+ pretty (st_height st) +:+ "px;"
  +:+ nl +:+ indent +:+ "border: 5px solid " +:+ st_border st
     +:+ "; border-radius: 12px; box-sizing: border-box;"
  +:+ nl +:+ indent
     +:+ "pointer-events: none; z-index: 9999; transition: all 0.3s ease-out;"
  +:+ nl +:+ "        ".

(** The template literal assigned to [label.innerHTML]. *)
Definition label_html (result : judgment) (color : string) : string :=
  "<strong>" +:+ to_string (res_name result) +:+ "</strong> | "
  +:+ to_string (res_score result)
  +:+ " | <span style=" +:+ dquote +:+ "color:" +:+ color +:+ ";" +:+ dquote +:+ ">"
  +:+ to_string (res_status result) +:+ "</span>".

(** The literal assigned to [label.style.cssText]. *)
Definition label_cssText : string :=
  nl +:+ indent +:+ "position:absolute; top:8px; left:8px; background:rgba(0,0,0,0.8);"
  +:+ nl +:+ indent +:+ "color:white; padding:5px 10px; font-size:16px; border-radius:8px;"
  +:+ nl +:+ indent +:+ "font-weight:bold; box-shadow: 0 2px 5px rgba(0,0,0,0.5);"
  +:+ nl +:+ "        ".

(** ** [updateOverlay] *)

Definition overlay_class : string := "monitor-overlay".
Definition label_class : string := "monitor-label".

(** [`overlay-${videoId}`]. *)
Definition overlay_id (videoId : string) : string := "overlay-" +:+ videoId.

(** Lines 103 to 106: a new [div] with its class and id, appended to the body. *)
Definition create_overlay (videoId : string) (p : page) : nat * page :=
  let '(r, p1) := createElement p in
  let p2 := update_element r
              (λ e, Element overlay_class (overlay_id videoId) (el_style e) (el_label e)) p1 in
  (r, appendChild r p2).

(** Lines 101 to 107: the overlay of the participant, created when absent. *)
Definition find_or_create_overlay (videoId : string) (p : page) : nat * page :=
  match getElementById (overlay_id videoId) p with
  | Some r => (r, p)
  | None => create_overlay videoId p
  end.

Definition updateOverlay (videoId : jval) (result : judgment) (p : page) : page :=
  let vid := to_string videoId in
  match querySelector_monitorId vid p with
  | None => p
  | Some (_, videoEl) =>
      let '(overlay, p1) := find_or_create_overlay vid p in
      let videoRect := clientRect videoEl in
      requestAnimationFrame
        (FrameCallback overlay videoRect (statusColor result) result) p1
  end.

(** ** The animation-frame callback (lines 112 to 133) *)

(** [overlay.querySelector('.monitor-label')]. *)
Definition find_label (e : element) : option label :=
  match el_label e with
  | Some l => if decide (lb_className l = label_class) then Some l else None
  | None => None
  end.

Definition callback_style (cb : frame_callback) (p : page) : overlay_style :=
  OverlayStyle (scrollX p + rc_left (cb_videoRect cb))
               (scrollY p + rc_top (cb_videoRect cb))
               (rc_width (cb_videoRect cb))
               (rc_height (cb_videoRect cb))
               (cb_statusColor cb).

Definition style_element (cb : frame_callback) (p : page) (e : element) : element :=
  let l := match find_label e with
           | Some l => l
           | None => Label label_class EmptyString EmptyString
           end in
  Element (el_className e) (el_id e)
          (Some (callback_style cb p))
          (Some (Label (lb_className l)
                       (label_html (cb_result cb) (cb_statusColor cb))
                       label_cssText)).

Definition run_frame_callback (cb : frame_callback) (p : page) : page :=
  update_element (cb_overlay cb) (style_element cb p) p.

(** One animation frame: the queued callbacks run in order, once. *)
Definition animationFrame (p : page) : page :=
  set_rafQueue (λ _, []) (foldl (λ q cb, run_frame_callback cb q) p (rafQueue p)).

(** ** Lemmas *)

Section overlay_lemmas.
Implicit Types (p : page) (r : nat) (vid : string) (cb : frame_callback).

Lemma overlay_id_inj : Inj (=) (=) overlay_id.
Proof. intros a b. unfold overlay_id. apply (inj _). Qed.

Lemma find_or_create_overlay_videos vid p :
  videos (find_or_create_overlay vid p).2 = videos p.
Proof. unfold find_or_create_overlay. by case_match. Qed.

Lemma find_or_create_overlay_rafQueue vid p :
  rafQueue (find_or_create_overlay vid p).2 = rafQueue p.
Proof. unfold find_or_create_overlay. by case_match. Qed.

Lemma find_or_create_overlay_scroll vid p :
  scrollX (find_or_create_overlay vid p).2 = scrollX p ∧
  scrollY (find_or_create_overlay vid p).2 = scrollY p.
Proof. unfold find_or_create_overlay. by case_match. Qed.

(** The element created carries the overlay's class and id. *)
Lemma create_overlay_ref vid p : (create_overlay vid p).1 = nextElem p.
Proof. done. Qed.

Lemma create_overlay_lookup vid p :
  elems (create_overlay vid p).2 !! nextElem p
  = Some (Element overlay_class (overlay_id vid) None None).
Proof. simpl. by rewrite lookup_alter_eq, lookup_insert_eq. Qed.

Lemma create_overlay_lookup_ne vid p r :
  r ≠ nextElem p → elems (create_overlay vid p).2 !! r = elems p !! r.
Proof. intros. simpl. by rewrite lookup_alter_ne, lookup_insert_ne. Qed.

Lemma create_overlay_body vid p :
  nextElem p ∉ body p →
  body (create_overlay vid p).2 = body p ++ [nextElem p].
Proof. intros. simpl. f_equal. apply filter_all, Forall_forall. naive_solver. Qed.

Lemma create_overlay_nextElem vid p :
  nextElem (create_overlay vid p).2 = S (nextElem p).
Proof. done. Qed.

Lemma create_overlay_rafQueue vid p :
  rafQueue (create_overlay vid p).2 = rafQueue p.
Proof. done. Qed.

#[local] Opaque create_overlay.

Lemma updateOverlay_videos videoId result p :
  videos (updateOverlay videoId result p) = videos p.
Proof.
  unfold updateOverlay. destruct (querySelector_monitorId _ _) as [[]|]; [|done].
  destruct (find_or_create_overlay _ _) as [r p1] eqn:E. simpl.
  by rewrite <-(find_or_create_overlay_videos (to_string videoId) p), E.
Qed.

Lemma updateOverlay_scroll videoId result p :
  scrollX (updateOverlay videoId result p) = scrollX p ∧
  scrollY (updateOverlay videoId result p) = scrollY p.
Proof.
  unfold updateOverlay. destruct (querySelector_monitorId _ _) as [[]|]; [|done].
  destruct (find_or_create_overlay _ _) as [r p1] eqn:E. simpl.
  destruct (find_or_create_overlay_scroll (to_string videoId) p) as [H1 H2].
  by rewrite E in H1, H2.
Qed.

(** A participant the page does not know leaves the page as it is. *)
Lemma updateOverlay_unknown videoId result p :
  to_string videoId ∉ monitor_ids p → updateOverlay videoId result p = p.
Proof.
  intros H%querySelector_monitorId_None. unfold updateOverlay. by rewrite H.
Qed.

Lemma run_frame_callback_body cb p : body (run_frame_callback cb p) = body p.
Proof. done. Qed.

Lemma run_frame_callback_videos cb p : videos (run_frame_callback cb p) = videos p.
Proof. done. Qed.

Lemma run_frame_callback_lookup cb p :
  elems (run_frame_callback cb p) !! cb_overlay cb
  = style_element cb p <$> elems p !! cb_overlay cb.
Proof. simpl. apply lookup_alter_eq. Qed.

Lemma run_frame_callback_lookup_ne cb p r :
  r ≠ cb_overlay cb → elems (run_frame_callback cb p) !! r = elems p !! r.
Proof. intros. simpl. by rewrite lookup_alter_ne. Qed.

Lemma style_element_id cb p e : el_id (style_element cb p e) = el_id e.
Proof. done. Qed.

Lemma style_element_class cb p e :
  el_className (style_element cb p e) = el_className e.
Proof. done. Qed.

(** Styling changes neither the class nor the id of any element. *)
Lemma run_frame_callback_ident cb p r :
  el_id <$> elems (run_frame_callback cb p) !! r = el_id <$> elems p !! r ∧
  el_className <$> elems (run_frame_callback cb p) !! r
    = el_className <$> elems p !! r.
Proof.
  destruct (decide (r = cb_overlay cb)) as [->|Hne].
  - rewrite run_frame_callback_lookup. by destruct (elems p !! _).
  - by rewrite run_frame_callback_lookup_ne.
Qed.

(** Invariance of a page property under a whole animation frame. *)
Lemma animationFrame_ind (P : page → Prop) p :
  P p →
  (∀ cb q, P q → P (run_frame_callback cb q)) →
  (∀ q, P q → P (set_rafQueue (λ _, []) q)) →
  P (animationFrame p).
Proof.
  intros Hp Hcb Hq. unfold animationFrame. apply Hq.
  generalize (rafQueue p). intros l. revert p Hp.
  induction l as [|cb l IH]; intros p Hp; simpl; [done|].
  apply IH. by apply Hcb.
Qed.

Lemma animationFrame_body p : body (animationFrame p) = body p.
Proof. by apply (animationFrame_ind (λ q, body q = body p)). Qed.

Lemma animationFrame_videos p : videos (animationFrame p) = videos p.
Proof. by apply (animationFrame_ind (λ q, videos q = videos p)). Qed.

Lemma animationFrame_rafQueue p : rafQueue (animationFrame p) = [].
Proof. done. Qed.

Lemma animationFrame_ident p r :
  el_id <$> elems (animationFrame p) !! r = el_id <$> elems p !! r ∧
  el_className <$> elems (animationFrame p) !! r = el_className <$> elems p !! r.
Proof.
  apply (animationFrame_ind (λ q,
    el_id <$> elems q !! r = el_id <$> elems p !! r ∧
    el_className <$> elems q !! r = el_className <$> elems p !! r)); [done| |done].
  intros cb q [H1 H2]. destruct (run_frame_callback_ident cb q r) as [-> ->]. done.
Qed.
End overlay_lemmas.

#[export] Hint Rewrite updateOverlay_videos run_frame_callback_body
  run_frame_callback_videos animationFrame_body animationFrame_videos
  animationFrame_rafQueue find_or_create_overlay_videos
  find_or_create_overlay_rafQueue : monitor_rw.
