(* ===== verification/Scheduler.v ===== *)
(** * Scheduler: the content script as an event-driven machine

    [state] is the page, the globals of [src/content.js] and the browser's
    side of its asynchronous operations.  Each function of the script is one
    definition; a function that awaits is cut at its awaits:
    - [captureAndSendFrame] is the capture and the [fetch] call; its
      continuation is [receive], run by [settle] when the request settles;
    - [runAnalysisCycle] walks the videos and then joins ([join]): the
      continuation of [await Promise.all] is [finish_cycle], which runs as
      soon as no request of that cycle is in flight.
    [handle] runs one task; [enabled] is the environment's side. *)

From S2P Require Import Prelude Js Dom Sampler Overlay.

(** ** Data *)

(** A [fetch] in flight: the cycle whose [Promise.all] waits for it, the
    [student_id] and [image] of its body, and the time it was issued. *)
Record request := Request {
  rq_cycle : nat;
  rq_videoId : string;
  rq_image : image;
  rq_time : N
}.

Inductive log_entry :=
| ConsoleLog (m : string)
| ConsoleError (m : string).

(** The object passed to [sendResponse]. *)
Record reply := Reply {
  rp_status : string;
  rp_message : option string
}.

(** The parsed body of an answer: [null], or an object (or a primitive,
    whose properties are all absent) with its [student_id] and its [result]
    when that is truthy. *)
Inductive answer :=
| AnswerNull
| AnswerData (student_id : jval) (result : option judgment).

(** How a request settles: [fetch] rejects, or a response arrives with a
    status and a body that parses ([Some]) or not ([None]). *)
Inductive outcome :=
| NetworkError
| Response (status : Z) (body : option answer).

Record state := State {
  win : page;
  isAnalyzing : bool;
  analysisTimeoutId : option nat;
  canvasElement : canvas;
  now : N;                        (** [Date.now()] *)
  timers : gmap nat N;            (** pending [setTimeout]s and their due times *)
  nextTimer : nat;
  inflight : gmap nat request;    (** fetches that have not settled *)
  nextRequest : nat;
  nextCycle : nat;
  console : list log_entry;       (** newest first *)
  sent : list request             (** every fetch issued, newest first *)
}.

#[export] Instance request_eq_dec : EqDecision request.
Proof. solve_decision. Defined.
#[export] Instance log_entry_eq_dec : EqDecision log_entry.
Proof. solve_decision. Defined.
#[export] Instance reply_eq_dec : EqDecision reply.
Proof. solve_decision. Defined.

(** ** Field updates *)

Definition set_win (f : page → page) (s : state) : state :=
  State (f (win s)) (isAnalyzing s) (analysisTimeoutId s) (canvasElement s) (now s)
        (timers s) (nextTimer s) (inflight s) (nextRequest s) (nextCycle s)
        (console s) (sent s).
Definition set_isAnalyzing (b : bool) (s : state) : state :=
  State (win s) b (analysisTimeoutId s) (canvasElement s) (now s)
        (timers s) (nextTimer s) (inflight s) (nextRequest s) (nextCycle s)
        (console s) (sent s).
Definition set_analysisTimeoutId (o : option nat) (s : state) : state :=
  State (win s) (isAnalyzing s) o (canvasElement s) (now s)
        (timers s) (nextTimer s) (inflight s) (nextRequest s) (nextCycle s)
        (console s) (sent s).
Definition set_canvasElement (c : canvas) (s : state) : state :=
  State (win s) (isAnalyzing s) (analysisTimeoutId s) c (now s)
        (timers s) (nextTimer s) (inflight s) (nextRequest s) (nextCycle s)
        (console s) (sent s).
Definition set_now (t : N) (s : state) : state :=
  State (win s) (isAnalyzing s) (analysisTimeoutId s) (canvasElement s) t
        (timers s) (nextTimer s) (inflight s) (nextRequest s) (nextCycle s)
        (console s) (sent s).
Definition set_timers (f : gmap nat N → gmap nat N) (s : state) : state :=
  State (win s) (isAnalyzing s) (analysisTimeoutId s) (canvasElement s) (now s)
        (f (timers s)) (nextTimer s) (inflight s) (nextRequest s) (nextCycle s)
        (console s) (sent s).
Definition set_nextTimer (n : nat) (s : state) : state :=
  State (win s) (isAnalyzing s) (analysisTimeoutId s) (canvasElement s) (now s)
        (timers s) n (inflight s) (nextRequest s) (nextCycle s)
        (console s) (sent s).
Definition set_inflight (f : gmap nat request → gmap nat request) (s : state) : state :=
  State (win s) (isAnalyzing s) (analysisTimeoutId s) (canvasElement s) (now s)
        (timers s) (nextTimer s) (f (inflight s)) (nextRequest s) (nextCycle s)
        (console s) (sent s).
Definition set_nextRequest (n : nat) (s : state) : state :=
  State (win s) (isAnalyzing s) (analysisTimeoutId s) (canvasElement s) (now s)
        (timers s) (nextTimer s) (inflight s) n (nextCycle s)
        (console s) (sent s).
Definition set_nextCycle (n : nat) (s : state) : state :=
  State (win s) (isAnalyzing s) (analysisTimeoutId s) (canvasElement s) (now s)
        (timers s) (nextTimer s) (inflight s) (nextRequest s) n
        (console s) (sent s).
Definition set_console (f : list log_entry → list log_entry) (s : state) : state :=
  State (win s) (isAnalyzing s) (analysisTimeoutId s) (canvasElement s) (now s)
        (timers s) (nextTimer s) (inflight s) (nextRequest s) (nextCycle s)
        (f (console s)) (sent s).
Definition set_sent (f : list request → list request) (s : state) : state :=
  State (win s) (isAnalyzing s) (analysisTimeoutId s) (canvasElement s) (now s)
        (timers s) (nextTimer s) (inflight s) (nextRequest s) (nextCycle s)
        (console s) (f (sent s)).

(** ** Browser primitives *)

Definition console_log (m : string) : state → state := set_console (cons (ConsoleLog m)).
Definition console_error (m : string) : state → state := set_console (cons (ConsoleError m)).

(** [setTimeout(runAnalysisCycle, delay)]: a fresh handle, due [delay]
    milliseconds from now. *)
Definition setTimeout (delay : N) (s : state) : nat * state :=
  (nextTimer s,
   set_nextTimer (S (nextTimer s)) (set_timers (insert (nextTimer s) (now s + delay)%N) s)).

(** [clearTimeout(id)]; [undefined] and handles that already fired are ignored. *)
Definition clearTimeout (id : option nat) (s : state) : state :=
  match id with
  | Some t => set_timers (delete t) s
  | None => s
  end.

(** [fetch(url, {method: 'POST', body: ...})]: the request is in flight. *)
Definition fetch (rq : request) (s : state) : state :=
  set_sent (cons rq)
    (set_nextRequest (S (nextRequest s)) (set_inflight (insert (nextRequest s) rq) s)).

(** [response.ok]. *)
Definition response_ok (status : Z) : bool :=
  bool_decide (200 ≤ status ≤ 299)%Z.

(** ** The functions of the script *)

(** The filter of [startAnalysis] (line 29). *)
Definition start_visible (v : video) : bool :=
  bool_decide (4 ≤ readyState v)%Z && bool_decide (100 < offsetHeight v)%Z.

(** The condition of [runAnalysisCycle] (line 55). *)
Definition cycle_eligible (v : video) : bool :=
  bool_decide (4 ≤ readyState v)%Z && bool_decide (100 < offsetHeight v)%Z
  && bool_decide (100 < offsetWidth v)%Z.

(** [`participant-${Date.now()}-${index}`]. *)
Definition mint_id (t : N) (index : nat) : string :=
  "participant-" +:+ pretty t +:+ "-" +:+ pretty index.

(** Lines 56 to 60: the id of the video at [index], minted and attached
    when the video has none ([undefined] or empty). *)
Definition stamp (index : nat) (videoEl : video) (s : state) : string * state :=
  match monitorId videoEl with
  | Some i =>
      if truthy (JStr i) then (i, s)
      else (mint_id (now s) index,
            set_win (set_monitorId index (mint_id (now s) index)) s)
  | None =>
      (mint_id (now s) index,
       set_win (set_monitorId index (mint_id (now s) index)) s)
  end.

(** [captureAndSendFrame] up to its first [await] (lines 72 to 86), called
    for cycle [c]: nothing for a video without decoded width, otherwise the
    capture on the shared canvas and the [fetch]. *)
Definition captureAndSendFrame (c : nat) (videoId : string) (videoEl : video)
    (s : state) : state :=
  match capture videoEl (canvasElement s) with
  | None => s
  | Some (cv, imageData) =>
      fetch (Request c videoId imageData (now s)) (set_canvasElement cv s)
  end.

(** The body of the [forEach] of [runAnalysisCycle] (lines 54 to 63). *)
Definition visit (c : nat) (s : state) (index : nat) : state :=
  match videos (win s) !! index with
  | None => s
  | Some videoEl =>
      if cycle_eligible videoEl then
        let '(videoId, s1) := stamp index videoEl s in
        captureAndSendFrame c videoId videoEl s1
      else s
  end.

(** Whether a request of cycle [c] is still in flight. *)
Definition cycle_pending (c : nat) (s : state) : Prop :=
  map_Exists (λ _ rq, rq_cycle rq = c) (inflight s).

#[export] Instance cycle_pending_dec c s : Decision (cycle_pending c s).
Proof. unfold cycle_pending. apply _. Defined.

(** Lines 67 to 69: after [await Promise.all], re-arm the timer while running. *)
Definition finish_cycle (s : state) : state :=
  if isAnalyzing s then
    let '(t, s1) := setTimeout 1000 s in
    set_analysisTimeoutId (Some t) s1
  else s.

(** [await Promise.all(analysisPromises)] of cycle [c]: its continuation
    runs once no request of the cycle is in flight. *)
Definition join (c : nat) (s : state) : state :=
  if decide (cycle_pending c s) then s else finish_cycle s.

(** [runAnalysisCycle] up to and including a join that does not wait. *)
Definition runAnalysisCycle (s : state) : state :=
  if isAnalyzing s then
    let c := nextCycle s in
    let s1 := set_nextCycle (S c) s in
    let s2 := foldl_index (visit c) (length (videos (win s1))) s1 in
    join c s2
  else s.

(** [startAnalysis] (lines 26 to 38). *)
Definition startAnalysis (s : state) : reply * state :=
  if isAnalyzing s then
    (Reply "error" (Some "Analysis is already running."), s)
  else if decide (length (filter (λ v, start_visible v = true) (videos (win s))) = 0%nat) then
    (Reply "error" (Some "No participant videos found."), s)
  else
    let s1 := set_isAnalyzing true s in
    let s2 := console_log "Monitor: Analysis started successfully." s1 in
    (Reply "success" None, runAnalysisCycle s2).

(** [stopAnalysis] (lines 40 to 46). *)
Definition stopAnalysis (s : state) : state :=
  if isAnalyzing s then
    let s1 := set_isAnalyzing false s in
    let s2 := clearTimeout (analysisTimeoutId s1) s1 in
    let s3 := set_win (remove_by_class overlay_class) s2 in
    console_log "Monitor: Analysis stopped." s3
  else s.

(** The listener of [chrome.runtime.onMessage] (lines 15 to 24). *)
Definition onMessage (command : string) (s : state) : option reply * state :=
  if decide (command = "start") then
    let '(result, s1) := startAnalysis s in (Some result, s1)
  else if decide (command = "stop") then
    (Some (Reply "stopped" None), stopAnalysis s)
  else (None, s).

(** The [catch] of [captureAndSendFrame] (line 93). *)
Definition fetch_failed (videoId : string) : state → state :=
  console_error ("Monitor: Backend fetch failed for " +:+ videoId +:+ ".").

(** An outcome that ends in the [catch]. *)
Definition outcome_failed (o : outcome) : bool :=
  match o with
  | NetworkError => true
  | Response status body =>
      negb (response_ok status) ||
      match body with
      | None | Some AnswerNull => true
      | Some (AnswerData _ _) => false
      end
  end.

(** [captureAndSendFrame] after its awaits (lines 87 to 94). *)
Definition receive (rq : request) (o : outcome) (s : state) : state :=
  match o with
  | NetworkError => fetch_failed (rq_videoId rq) s
  | Response status body =>
      if response_ok status then
        match body with
        | None => fetch_failed (rq_videoId rq) s
        | Some AnswerNull => fetch_failed (rq_videoId rq) s
        | Some (AnswerData student_id (Some result)) =>
            set_win (updateOverlay student_id result) s
        | Some (AnswerData _ None) => s
        end
      else fetch_failed (rq_videoId rq) s
  end.

(** The task in which request [r] settles: the rest of its
    [captureAndSendFrame], then the join of its cycle. *)
Definition settle (r : nat) (o : outcome) (s : state) : state :=
  match inflight s !! r with
  | None => s
  | Some rq => join (rq_cycle rq) (receive rq o (set_inflight (delete r) s))
  end.

(** The task of a timer: the handle is spent, the callback runs. *)
Definition fire (t : nat) (s : state) : state :=
  runAnalysisCycle (set_timers (delete t) s).

(** ** The event loop *)

Inductive event :=
| Message (command : string)
| TimerFire (t : nat)
| Settle (r : nat) (o : outcome)
| AnimationFrame
| Host (h : host_event)
| Tick (d : N).

Definition handle (e : event) (s : state) : option reply * state :=
  match e with
  | Message command => onMessage command s
  | TimerFire t => (None, fire t s)
  | Settle r o => (None, settle r o s)
  | AnimationFrame => (None, set_win animationFrame s)
  | Host h => (None, set_win (host_apply h) s)
  | Tick d => (None, set_now (now s + d)%N s)
  end.

(** The characters that end or escape a quoted attribute value. *)
Definition selector_safe (i : string) : bool :=
  negb (str_mem "034"%char i) && negb (str_mem "092"%char i)
  && negb (str_mem "010"%char i) && negb (str_mem "013"%char i)
  && negb (str_mem "012"%char i).

(** The answers the model covers: the [student_id] of a judged answer can
    stand in the attribute selector of [updateOverlay] as it is. *)
Definition outcome_covered (o : outcome) : Prop :=
  match o with
  | Response _ (Some (AnswerData student_id (Some _))) =>
      selector_safe (to_string student_id) = true
  | _ => True
  end.

(** What the environment can deliver in state [s]: a timer that is pending
    and due, the settling of a request in flight. *)
Definition enabled (e : event) (s : state) : Prop :=
  match e with
  | TimerFire t => ∃ due, timers s !! t = Some due ∧ (due ≤ now s)%N
  | Settle r o => is_Some (inflight s !! r) ∧ outcome_covered o
  | _ => True
  end.

#[export] Instance outcome_covered_dec o : Decision (outcome_covered o).
Proof. destruct o as [|? [[|? []]|]]; simpl; apply _. Defined.

#[export] Instance enabled_dec e s : Decision (enabled e s).
Proof.
  destruct e; simpl; try apply _.
  destruct (timers s !! t) as [due|] eqn:E.
  - destruct (decide (due ≤ now s)%N); [left; eauto|right; naive_solver].
  - right. naive_solver.
Defined.

Definition next (e : event) (s : state) : state := (handle e s).2.

Inductive step : state → event → state → Prop :=
| step_event s e : enabled e s → step s e (next e s).

(** The script is injected in a page with the host's videos; none carries
    the script's attribute yet. *)
Definition initial_state (vs : list video) (t : N) : state :=
  State (initial_page (with_monitorId None <$> vs)) false None new_canvas t
        ∅ 0 ∅ 0 0 [] [].

Inductive reachable (vs : list video) (t : N) : state → Prop :=
| reachable_init : reachable vs t (initial_state vs t)
| reachable_step s e s' : reachable vs t s → step s e s' → reachable vs t s'.

(** The executable form: the state after a trace, [None] when some event
    of it was not enabled. *)
Fixpoint run (es : list event) (s : state) : option state :=
  match es with
  | [] => Some s
  | e :: es' => if decide (enabled e s) then run es' (next e s) else None
  end.

(** Reachability when the environment keeps to a discipline [D] on the
    events it delivers. *)
Inductive reachable_under (D : event → state → Prop) (vs : list video) (t : N) :
    state → Prop :=
| reachable_under_init : reachable_under D vs t (initial_state vs t)
| reachable_under_step s e :
    reachable_under D vs t s → enabled e s → D e s →
    reachable_under D vs t (next e s).

(** The part of the state that scheduling decisions read, apart from the
    requests in flight. *)
Definition same_schedule (s s' : state) : Prop :=
  timers s' = timers s ∧ nextTimer s' = nextTimer s ∧
  isAnalyzing s' = isAnalyzing s ∧ analysisTimeoutId s' = analysisTimeoutId s ∧
  now s' = now s.

(** The requests in flight in [s'] are those of [s] and requests of cycle [c]. *)
Definition issued_for (c : nat) (s s' : state) : Prop :=
  ∀ r rq, inflight s' !! r = Some rq → inflight s !! r = Some rq ∨ rq_cycle rq = c.

(** ** Lemmas: what each function leaves alone *)

Section frames.
Implicit Types (s : state) (c r index : nat) (v : video).

#[export] Instance same_schedule_refl : Reflexive same_schedule.
Proof. by intros s. Qed.

#[export] Instance same_schedule_trans : Transitive same_schedule.
Proof.
  intros s1 s2 s3 (?&?&?&?&?) (?&?&?&?&?). unfold same_schedule. split_and!; congruence.
Qed.

Lemma issued_for_refl c s : issued_for c s s.
Proof. intros r rq. by left. Qed.

Lemma issued_for_trans c s1 s2 s3 :
  issued_for c s1 s2 → issued_for c s2 s3 → issued_for c s1 s3.
Proof. intros H12 H23 r rq [H| ->]%H23; [by apply H12|by right]. Qed.

Lemma set_win_same_schedule f s : same_schedule s (set_win f s).
Proof. done. Qed.

Lemma clearTimeout_inflight o s : inflight (clearTimeout o s) = inflight s.
Proof. by destruct o. Qed.

Lemma clearTimeout_isAnalyzing o s : isAnalyzing (clearTimeout o s) = isAnalyzing s.
Proof. by destruct o. Qed.

Lemma clearTimeout_sent o s : sent (clearTimeout o s) = sent s.
Proof. by destruct o. Qed.

Lemma clearTimeout_win o s : win (clearTimeout o s) = win s.
Proof. by destruct o. Qed.

Lemma clearTimeout_now o s : now (clearTimeout o s) = now s.
Proof. by destruct o. Qed.

Lemma stamp_same_schedule index v s : same_schedule s (stamp index v s).2.
Proof. unfold stamp. by repeat case_match. Qed.

Lemma stamp_inflight index v s : inflight (stamp index v s).2 = inflight s.
Proof. unfold stamp. by repeat case_match. Qed.

Lemma stamp_canvas index v s : canvasElement (stamp index v s).2 = canvasElement s.
Proof. unfold stamp. by repeat case_match. Qed.

Lemma captureAndSendFrame_same_schedule c i v s :
  same_schedule s (captureAndSendFrame c i v s).
Proof. unfold captureAndSendFrame. by repeat case_match. Qed.

Lemma captureAndSendFrame_issued c i v s :
  issued_for c s (captureAndSendFrame c i v s).
Proof.
  unfold captureAndSendFrame. destruct (capture _ _) as [[cv img]|]; [|by left].
  intros r rq. simpl. rewrite !lookup_insert_Some. naive_solver.
Qed.

Lemma captureAndSendFrame_win c i v s : win (captureAndSendFrame c i v s) = win s.
Proof. unfold captureAndSendFrame. by repeat case_match. Qed.

Lemma visit_same_schedule c s index : same_schedule s (visit c s index).
Proof.
  unfold visit. destruct (videos _ !! _) as [v|]; [|done].
  destruct (cycle_eligible v); [|done].
  pose proof (stamp_same_schedule index v s).
  destruct (stamp index v s) as [i s1]. etrans; [done|].
  apply captureAndSendFrame_same_schedule.
Qed.

Lemma visit_issued c s index : issued_for c s (visit c s index).
Proof.
  unfold visit. destruct (videos _ !! _) as [v|]; [|by left].
  destruct (cycle_eligible v); [|by left].
  pose proof (stamp_inflight index v s) as Hs.
  destruct (stamp index v s) as [i s1]. simpl in Hs.
  intros r rq [H| ->]%captureAndSendFrame_issued; [left; by rewrite <-Hs|by right].
Qed.

(** The walk over the videos of one cycle. *)
Lemma walk_same_schedule c n s : same_schedule s (foldl_index (visit c) n s).
Proof.
  apply (foldl_index_ind (same_schedule s)); [done|].
  intros s' i _ H. etrans; [done|]. apply visit_same_schedule.
Qed.

Lemma walk_issued c n s : issued_for c s (foldl_index (visit c) n s).
Proof.
  apply (foldl_index_ind (issued_for c s)); [apply issued_for_refl|].
  intros s' i _ H. eapply issued_for_trans; [done|]. apply visit_issued.
Qed.

(** A part of the state that neither a write to the page, nor the canvas,
    nor a [fetch] changes is left as it is by the walk. *)
Section preserved.
Context {B : Type} (f : state → B).
Hypothesis Hwin : ∀ g s, f (set_win g s) = f s.
Hypothesis Hcanvas : ∀ cv s, f (set_canvasElement cv s) = f s.
Hypothesis Hfetch : ∀ rq s, f (fetch rq s) = f s.

Lemma visit_preserves c s index : f (visit c s index) = f s.
Proof.
  unfold visit. destruct (videos _ !! _) as [v|]; [|done].
  destruct (cycle_eligible v); [|done].
  assert (f (stamp index v s).2 = f s) as Hs
    by (unfold stamp; repeat case_match; simpl; by rewrite ?Hwin).
  destruct (stamp index v s) as [i s1]. simpl in Hs. rewrite <-Hs.
  unfold captureAndSendFrame. repeat case_match; by rewrite ?Hfetch, ?Hcanvas.
Qed.

Lemma walk_preserves c n s : f (foldl_index (visit c) n s) = f s.
Proof.
  apply (foldl_index_ind (λ s', f s' = f s)); [done|].
  intros s' i _ <-. apply visit_preserves.
Qed.
End preserved.

Lemma receive_same_schedule rq o s : same_schedule s (receive rq o s).
Proof. unfold receive. by repeat case_match. Qed.

Lemma receive_inflight rq o s : inflight (receive rq o s) = inflight s.
Proof. unfold receive. by repeat case_match. Qed.

Lemma cycle_pending_spec c s :
  cycle_pending c s ↔ ∃ r rq, inflight s !! r = Some rq ∧ rq_cycle rq = c.
Proof. apply map_Exists_lookup. Qed.

Lemma finish_cycle_inflight s : inflight (finish_cycle s) = inflight s.
Proof. unfold finish_cycle. by case_match. Qed.

Lemma join_inflight c s : inflight (join c s) = inflight s.
Proof. unfold join. case_decide; [done|apply finish_cycle_inflight]. Qed.

Lemma join_win c s : win (join c s) = win s.
Proof.
  unfold join. case_decide; [done|]. unfold finish_cycle. by destruct (isAnalyzing s).
Qed.

Lemma receive_sent rq o s : sent (receive rq o s) = sent s.
Proof. unfold receive. by repeat case_match. Qed.

Lemma join_sent c s : sent (join c s) = sent s.
Proof.
  unfold join. case_decide; [done|]. unfold finish_cycle. by destruct (isAnalyzing s).
Qed.

Lemma settle_sent r o s : sent (settle r o s) = sent s.
Proof.
  unfold settle. destruct (inflight s !! r); [|done].
  by rewrite ?join_sent, ?receive_sent.
Qed.

Lemma stopAnalysis_sent s : sent (stopAnalysis s) = sent s.
Proof.
  unfold stopAnalysis. destruct (isAnalyzing s); [|done]. simpl.
  by rewrite ?clearTimeout_sent.
Qed.

Lemma startAnalysis_running s :
  isAnalyzing s = true →
  startAnalysis s = (Reply "error" (Some "Analysis is already running."), s).
Proof. intros H. unfold startAnalysis. by rewrite H. Qed.

Lemma reachable_under_reachable D vs t s :
  reachable_under D vs t s → reachable vs t s.
Proof.
  induction 1 as [|s e _ IH He _]; [constructor|].
  eapply reachable_step; [done|by constructor].
Qed.

Lemma run_app es1 es2 s :
  run (es1 ++ es2) s = run es1 s ≫= run es2.
Proof.
  revert s. induction es1 as [|e es1 IH]; intros s; simpl; [done|].
  case_decide; [apply IH|done].
Qed.

Lemma run_reachable vs t es s :
  run es (initial_state vs t) = Some s → reachable vs t s.
Proof.
  assert (∀ s0, reachable vs t s0 → run es s0 = Some s → reachable vs t s) as H.
  { induction es as [|e es IH]; intros s0 H0; simpl; [by intros [= <-]|].
    case_decide; [|done]. apply IH.
    eapply reachable_step; [done|by constructor]. }
  apply H. constructor.
Qed.
End frames.

#[export] Hint Resolve stamp_same_schedule captureAndSendFrame_same_schedule
  visit_same_schedule walk_same_schedule receive_same_schedule
  issued_for_refl visit_issued walk_issued : monitor.
#[export] Hint Rewrite stamp_inflight receive_inflight finish_cycle_inflight
  join_inflight join_win captureAndSendFrame_win clearTimeout_inflight
  clearTimeout_isAnalyzing clearTimeout_sent clearTimeout_win
  clearTimeout_now : monitor_rw.
