(* ===== verification/Invariants.v ===== *)
(** * Invariants: well-formedness of the page and of the scheduler state

    [wf_page] says that the store of overlay elements is consistent with
    the body and the callback queue: references are live, every element is
    an overlay with its class and an id of the form [overlay-<id>], and no
    two attached overlays share an id.  [wf] adds the scheduler's side:
    handles below their allocation counters, requests that belong to cycles
    that were started, no pending timer under the script's handle while it
    is stopped, and participant ids of the minted form.  Every operation
    preserves them, hence every reachable state satisfies them. *)

From S2P Require Import Prelude Js Dom Sampler Overlay Scheduler.

(** ** The page *)

(** An element made by [create_overlay], styled or not. *)
Definition overlay_element (e : element) : Prop :=
  el_className e = overlay_class ∧
  (∃ vid, el_id e = overlay_id vid) ∧
  (∀ l, el_label e = Some l → lb_className l = label_class).

Record wf_page (p : page) : Prop := WfPage {
  wf_elems_below : below (nextElem p) (elems p);
  wf_elems_overlay : ∀ r e, elems p !! r = Some e → overlay_element e;
  wf_body_live : ∀ r, r ∈ body p → is_Some (elems p !! r);
  wf_body_nodup : NoDup (body p);
  wf_ids_distinct : ∀ r1 r2 e1 e2,
    r1 ∈ body p → r2 ∈ body p →
    elems p !! r1 = Some e1 → elems p !! r2 = Some e2 →
    el_id e1 = el_id e2 → r1 = r2;
  wf_raf_live : ∀ cb, cb ∈ rafQueue p → is_Some (elems p !! cb_overlay cb)
}.

Section page_invariant.
Implicit Types (p q : page) (r : nat) (vid : string) (cb : frame_callback).

Lemma wf_page_initial vs : wf_page (initial_page vs).
Proof.
  split; simpl.
  - apply below_empty.
  - intros r e H. by rewrite lookup_empty in H.
  - intros r H. by inversion H.
  - constructor.
  - intros ???? H. by inversion H.
  - intros cb H. by inversion H.
Qed.

(** [wf_page] does not look at the videos nor at the scroll offset. *)
Lemma wf_page_same p q :
  elems q = elems p → nextElem q = nextElem p → body q = body p →
  rafQueue q = rafQueue p → wf_page p → wf_page q.
Proof.
  intros He Hn Hb Hq [H1 H2 H3 H4 H5 H6].
  split; rewrite ?He, ?Hn, ?Hb, ?Hq; done.
Qed.

Lemma wf_page_set_videos f p : wf_page p → wf_page (set_videos f p).
Proof. by apply wf_page_same. Qed.

Lemma wf_page_set_scroll x y p : wf_page p → wf_page (set_scroll x y p).
Proof. by apply wf_page_same. Qed.

Lemma wf_page_host h p : wf_page p → wf_page (host_apply h p).
Proof. destruct h; simpl; by apply wf_page_same. Qed.

(** In a well-formed page a reference of the body is below the counter. *)
Lemma wf_body_below p r : wf_page p → r ∈ body p → (r < nextElem p)%nat.
Proof. intros Hwf Hr. by apply (wf_elems_below _ Hwf), (wf_body_live _ Hwf). Qed.

Lemma wf_next_not_in_body p : wf_page p → nextElem p ∉ body p.
Proof. intros Hwf Hr. apply (wf_body_below _ _ Hwf) in Hr. lia. Qed.

Lemma wf_page_create_overlay vid p :
  wf_page p → getElementById (overlay_id vid) p = None →
  wf_page (create_overlay vid p).2.
Proof.
  intros Hwf Hnone. pose proof (wf_next_not_in_body _ Hwf) as Hfresh.
  assert (∀ r, r ∈ body p → r ≠ nextElem p) as Hne by (intros r ? ->; done).
  rewrite getElementById_None in Hnone.
  pose proof (create_overlay_lookup vid p) as Hl.
  split; rewrite ?create_overlay_body by done.
  - simpl. apply below_alter, below_insert, Hwf.
  - intros r e. destruct (decide (r = nextElem p)) as [->|Hr].
    + rewrite Hl. intros [= <-]. split_and!; [done|by eexists|done].
    + rewrite create_overlay_lookup_ne by done. apply Hwf.
  - intros r [Hr| ->%list_elem_of_singleton]%elem_of_app; [|by rewrite Hl].
    rewrite create_overlay_lookup_ne by auto. by apply Hwf.
  - apply NoDup_app; split_and!; [apply Hwf| |apply NoDup_singleton].
    intros r Hr ->%list_elem_of_singleton. done.
  - intros r1 r2 e1 e2
      [H1| ->%list_elem_of_singleton]%elem_of_app
      [H2| ->%list_elem_of_singleton]%elem_of_app;
      rewrite ?Hl, ?create_overlay_lookup_ne by auto; intros He1 He2 Hid;
      simplify_eq/=; [by eapply (wf_ids_distinct _ Hwf)|..|done].
    + exfalso. apply (Hnone r1 H1). unfold elem_has_id. rewrite He1. simpl. congruence.
    + exfalso. apply (Hnone r2 H2). unfold elem_has_id. rewrite He2. simpl. congruence.
  - rewrite create_overlay_rafQueue. intros cb Hcb%(wf_raf_live _ Hwf).
    destruct (decide (cb_overlay cb = nextElem p)) as [->|Hr]; [by rewrite Hl|].
    by rewrite create_overlay_lookup_ne.
Qed.

Lemma wf_page_find_or_create vid p :
  wf_page p → wf_page (find_or_create_overlay vid p).2.
Proof.
  intros Hwf. unfold find_or_create_overlay.
  destruct (getElementById _ _) eqn:E; [done|]. by apply wf_page_create_overlay.
Qed.

(** The overlay returned is a live element attached to the body, and its id
    is the participant's. *)
Lemma find_or_create_overlay_spec vid p :
  wf_page p →
  let '(r, q) := find_or_create_overlay vid p in
  r ∈ body q ∧ ∃ e, elems q !! r = Some e ∧ el_id e = overlay_id vid.
Proof.
  intros Hwf. unfold find_or_create_overlay.
  destruct (getElementById _ _) as [r|] eqn:E.
  - apply getElementById_Some in E as [Hr Hid]. split; [done|].
    unfold elem_has_id in Hid. destruct (elems p !! r) as [e|]; simplify_eq/=. eauto.
  - pose proof (create_overlay_lookup vid p) as Hl.
    pose proof (create_overlay_body vid p (wf_next_not_in_body _ Hwf)) as Hb.
    pose proof (create_overlay_ref vid p) as Hr.
    destruct (create_overlay vid p) as [r q]. simpl in Hl, Hb, Hr. subst r. split.
    + rewrite Hb. set_solver.
    + eauto.
Qed.

Lemma wf_page_requestAnimationFrame cb p :
  wf_page p → is_Some (elems p !! cb_overlay cb) →
  wf_page (requestAnimationFrame cb p).
Proof.
  intros [H1 H2 H3 H4 H5 H6] Hcb. split; simpl; try done.
  intros cb' Hin. assert (cb' = cb ∨ cb' ∈ rafQueue p) as [->|?] by set_solver; auto.
Qed.

Lemma wf_page_updateOverlay videoId result p :
  wf_page p → wf_page (updateOverlay videoId result p).
Proof.
  intros Hwf. unfold updateOverlay.
  destruct (querySelector_monitorId _ _) as [[n v]|]; [|done].
  pose proof (find_or_create_overlay_spec (to_string videoId) p Hwf) as Hs.
  pose proof (wf_page_find_or_create (to_string videoId) p Hwf) as Hq.
  destruct (find_or_create_overlay _ _) as [r q]. simpl in Hq.
  destruct Hs as (_ & e & He & _).
  apply wf_page_requestAnimationFrame; [done|]. simpl. by rewrite He.
Qed.

Lemma style_element_overlay cb p e :
  overlay_element e → overlay_element (style_element cb p e).
Proof.
  intros (Hc & Hi & Hl). split_and!; [done|done|].
  intros l [= <-]. simpl. unfold find_label.
  destruct (el_label e) as [l|]; [|done]. by case_decide.
Qed.

Lemma wf_page_run_frame_callback cb p :
  wf_page p → wf_page (run_frame_callback cb p).
Proof.
  intros [H1 H2 H3 H4 H5 H6].
  assert (∀ r, is_Some (elems (run_frame_callback cb p) !! r)
               ↔ is_Some (elems p !! r)) as Hlive.
  { intros r. simpl. rewrite lookup_alter. case_decide; [subst|done].
    by rewrite fmap_is_Some. }
  split; simpl body; simpl rafQueue; simpl nextElem.
  - intros k Hk. apply H1. by apply Hlive.
  - intros r e. destruct (decide (r = cb_overlay cb)) as [->|Hne].
    + rewrite run_frame_callback_lookup.
      destruct (elems p !! cb_overlay cb) as [e0|] eqn:E; intros [= <-].
      apply style_element_overlay. by eapply H2.
    + rewrite run_frame_callback_lookup_ne by done. apply H2.
  - intros r Hr. apply Hlive. by apply H3.
  - done.
  - intros r1 r2 e1 e2 Hr1 Hr2 He1 He2 Hid.
    destruct (run_frame_callback_ident cb p r1) as [Hi1 _].
    destruct (run_frame_callback_ident cb p r2) as [Hi2 _].
    rewrite He1 in Hi1. rewrite He2 in Hi2.
    destruct (elems p !! r1) as [e1'|] eqn:E1; [|done].
    destruct (elems p !! r2) as [e2'|] eqn:E2; [|done].
    simplify_eq/=. eapply (H5 r1 r2); eauto. congruence.
  - intros cb' Hcb'. apply Hlive. by apply H6.
Qed.

Lemma wf_page_animationFrame p : wf_page p → wf_page (animationFrame p).
Proof.
  intros Hwf. apply (animationFrame_ind wf_page); [done|..].
  - intros cb q. apply wf_page_run_frame_callback.
  - intros q [H1 H2 H3 H4 H5 H6]. split; simpl; try done.
    intros cb H. inversion H.
Qed.

Lemma wf_page_remove_by_class c p : wf_page p → wf_page (remove_by_class c p).
Proof.
  intros [H1 H2 H3 H4 H5 H6]. split; simpl; try done.
  - intros r [_ Hr]%list_elem_of_filter. auto.
  - by apply NoDup_filter.
  - intros r1 r2 e1 e2 [_ Hr1]%list_elem_of_filter [_ Hr2]%list_elem_of_filter.
    by apply H5.
Qed.

(** Every child the script gave the body is an overlay: it carries the
    class that [stopAnalysis] removes. *)
Lemma wf_body_all_overlays p :
  wf_page p → Forall (elem_has_class p overlay_class) (body p).
Proof.
  intros Hwf. apply Forall_forall. intros r Hr.
  destruct (wf_body_live _ Hwf r Hr) as [e He].
  destruct (wf_elems_overlay _ Hwf r e He) as (Hc & _).
  unfold elem_has_class. by rewrite He, <-Hc.
Qed.

Lemma overlay_ids_nil p : body p = [] → overlay_ids p = [].
Proof. unfold overlay_ids, attached. by intros ->. Qed.

(** The overlay of a participant is on screen iff its id is among the
    ids of the attached overlays. *)
Lemma getElementById_overlay_ids i p :
  is_Some (getElementById i p) ↔ i ∈ overlay_ids p.
Proof.
  unfold overlay_ids, attached. rewrite list_elem_of_fmap. split.
  - intros [r [Hr Hid]%getElementById_Some]. unfold elem_has_id in Hid.
    destruct (elems p !! r) as [e|] eqn:He; simplify_eq/=.
    exists e. split; [done|]. apply list_elem_of_omap. eauto.
  - intros (e & -> & (r & Hr & He)%list_elem_of_omap).
    destruct (getElementById (el_id e) p) eqn:E; [done|].
    rewrite getElementById_None in E. destruct (E r Hr).
    unfold elem_has_id. by rewrite He.
Qed.

(** No two overlays on screen share an id. *)
Lemma wf_overlay_ids_NoDup p : wf_page p → NoDup (overlay_ids p).
Proof.
  intros [_ _ Hlive Hnd Hdist _]. unfold overlay_ids, attached.
  induction (body p) as [|r b IH]; simpl; [constructor|].
  apply NoDup_cons in Hnd as [Hr Hnd].
  destruct (Hlive r) as [e He]; [left|]. rewrite He. simpl.
  apply NoDup_cons. split.
  - intros (e' & Hid & (r' & Hr' & He')%list_elem_of_omap)%list_elem_of_fmap.
    apply Hr. rewrite (Hdist r r' e e'); [done|left|by right|done..].
  - apply IH; [|done|].
    + intros r' Hr'. apply Hlive. by right.
    + intros r1 r2 e1 e2 ??. apply Hdist; by right.
Qed.
End page_invariant.

#[export] Hint Resolve wf_page_initial wf_page_set_videos wf_page_set_scroll
  wf_page_host wf_page_updateOverlay wf_page_animationFrame
  wf_page_remove_by_class wf_page_find_or_create : monitor.

(** ** The scheduler state *)

(** A participant id carried by a video was minted by the script, at a time
    that is not in the future. *)
Definition minted (t : N) (v : video) : Prop :=
  ∀ i, monitorId v = Some i → ∃ t' n, i = mint_id t' n ∧ (t' ≤ t)%N.

Record wf (s : state) : Prop := Wf {
  wf_win : wf_page (win s);
  wf_timers : below (nextTimer s) (timers s);
  wf_timeout : ∀ t, analysisTimeoutId s = Some t → (t < nextTimer s)%nat;
  wf_inflight : below (nextRequest s) (inflight s);
  wf_cycles : ∀ r rq, inflight s !! r = Some rq → (rq_cycle rq < nextCycle s)%nat;
  wf_stopped : isAnalyzing s = false →
    ∀ t, analysisTimeoutId s = Some t → timers s !! t = None;
  wf_due : ∀ t due, timers s !! t = Some due → (due ≤ now s + 1000)%N;
  wf_minted : Forall (minted (now s)) (videos (win s))
}.

Section state_invariant.
Implicit Types (s : state) (c r t : nat) (v : video).

Lemma minted_mono (t t' : N) v : (t ≤ t')%N → minted t v → minted t' v.
Proof.
  intros Ht Hv i Hi. destruct (Hv i Hi) as (t0 & n & -> & ?).
  exists t0, n. split; [done|lia].
Qed.

Lemma minted_None (t : N) v : minted t (with_monitorId None v).
Proof. by intros i. Qed.

Lemma minted_keep (t : N) v v' : minted t v → minted t (with_monitorId (monitorId v) v').
Proof. done. Qed.

Lemma minted_mint (t : N) n v : minted t (with_monitorId (Some (mint_id t n)) v).
Proof. intros i [= <-]. by exists t, n. Qed.

Lemma wf_initial vs (t : N) : wf (initial_state vs t).
Proof.
  split; simpl; try done; try apply below_empty.
  - apply wf_page_initial.
  - apply Forall_fmap, Forall_true. intros v. apply minted_None.
Qed.

(** The console, the request log and the canvas are not constrained. *)
Lemma wf_set_console f s : wf s → wf (set_console f s).
Proof. by intros []. Qed.

Lemma wf_set_sent f s : wf s → wf (set_sent f s).
Proof. by intros []. Qed.

Lemma wf_set_canvasElement cv s : wf s → wf (set_canvasElement cv s).
Proof. by intros []. Qed.

(** A change of the page that keeps it well-formed and keeps the ids of
    the videos minted. *)
Lemma wf_set_win f s :
  wf s → wf_page (f (win s)) → Forall (minted (now s)) (videos (f (win s))) →
  wf (set_win f s).
Proof. by intros []. Qed.

Lemma wf_setTimeout (delay : N) s :
  wf s → isAnalyzing s = true → (delay ≤ 1000)%N →
  wf (set_analysisTimeoutId (Some (setTimeout delay s).1) (setTimeout delay s).2).
Proof.
  intros [H1 H2 H3 H4 H5 H6 H7 H8] Hrun Hd. split; simpl; try done.
  - by apply below_insert.
  - intros t [= <-]. lia.
  - congruence.
  - intros t due. rewrite lookup_insert. case_decide; [intros [= <-]; lia|apply H7].
Qed.

Lemma wf_clearTimeout o s :
  wf s → wf (clearTimeout o s).
Proof.
  intros Hwf. destruct o as [t|]; [|done].
  destruct Hwf as [H1 H2 H3 H4 H5 H6 H7 H8]. split; simpl; try done.
  - by apply below_delete.
  - intros Hs t' Ht'. rewrite lookup_delete. case_decide; [done|by apply H6].
  - intros t' due [_ ?]%lookup_delete_Some. by eapply H7.
Qed.

Lemma wf_fetch rq s :
  wf s → (rq_cycle rq < nextCycle s)%nat → wf (fetch rq s).
Proof.
  intros [H1 H2 H3 H4 H5 H6 H7 H8] Hc. split; simpl; try done.
  - by apply below_insert.
  - intros r rq'. rewrite lookup_insert. case_decide; [by intros [= <-]|apply H5].
Qed.

Lemma wf_stamp index v s :
  wf s → wf (stamp index v s).2.
Proof.
  intros Hwf. unfold stamp.
  assert (wf (set_win (set_monitorId index (mint_id (now s) index)) s)) as Hmint.
  { apply wf_set_win; [done|by apply wf_page_set_videos, Hwf|].
    simpl. apply Forall_alter; [apply Hwf|]. intros v' _ _. apply minted_mint. }
  destruct (monitorId v); [case_match|]; done.
Qed.

Lemma stamp_nextCycle index v s : nextCycle (stamp index v s).2 = nextCycle s.
Proof. unfold stamp. by repeat case_match. Qed.

Lemma wf_captureAndSendFrame c i v s :
  wf s → (c < nextCycle s)%nat → wf (captureAndSendFrame c i v s).
Proof.
  intros Hwf Hc. unfold captureAndSendFrame.
  destruct (capture _ _) as [[cv img]|]; [|done].
  apply wf_fetch; [by apply wf_set_canvasElement|done].
Qed.

Lemma captureAndSendFrame_nextCycle c i v s :
  nextCycle (captureAndSendFrame c i v s) = nextCycle s.
Proof. unfold captureAndSendFrame. by repeat case_match. Qed.

Lemma wf_visit c s index :
  wf s ∧ (c < nextCycle s)%nat →
  wf (visit c s index) ∧ (c < nextCycle (visit c s index))%nat.
Proof.
  intros [Hwf Hc]. unfold visit.
  destruct (videos (win s) !! index) as [v|]; [|done].
  destruct (cycle_eligible v); [|done].
  pose proof (wf_stamp index v s Hwf) as Hs.
  pose proof (stamp_nextCycle index v s) as Hn.
  destruct (stamp index v s) as [i s1]. simpl in Hs, Hn.
  rewrite captureAndSendFrame_nextCycle, Hn. split; [|done].
  apply wf_captureAndSendFrame; [done|lia].
Qed.

Lemma wf_finish_cycle s : wf s → wf (finish_cycle s).
Proof.
  intros Hwf. unfold finish_cycle. destruct (isAnalyzing s) eqn:Hrun; [|done].
  by apply wf_setTimeout.
Qed.

Lemma wf_join c s : wf s → wf (join c s).
Proof. intros Hwf. unfold join. case_decide; [done|by apply wf_finish_cycle]. Qed.

Lemma wf_set_nextCycle s : wf s → wf (set_nextCycle (S (nextCycle s)) s).
Proof.
  intros [H1 H2 H3 H4 H5 H6 H7 H8]. split; simpl; try done.
  intros r rq Hr. specialize (H5 r rq Hr). lia.
Qed.

Lemma wf_runAnalysisCycle s : wf s → wf (runAnalysisCycle s).
Proof.
  intros Hwf. unfold runAnalysisCycle. destruct (isAnalyzing s); [|done].
  apply wf_join.
  apply (foldl_index_ind (λ s', wf s' ∧ (nextCycle s < nextCycle s')%nat)).
  - split; [by apply wf_set_nextCycle|simpl; lia].
  - intros s' i _. apply wf_visit.
Qed.

Lemma wf_set_isAnalyzing_true s : wf s → wf (set_isAnalyzing true s).
Proof. by intros []. Qed.

Lemma wf_startAnalysis s : wf s → wf (startAnalysis s).2.
Proof.
  intros Hwf. unfold startAnalysis. destruct (isAnalyzing s); [done|].
  case_decide; [done|].
  by apply wf_runAnalysisCycle, wf_set_console, wf_set_isAnalyzing_true.
Qed.

(** Clearing the script's own handle while the flag goes down. *)
Lemma wf_stop_core s :
  wf s → wf (clearTimeout (analysisTimeoutId s) (set_isAnalyzing false s)).
Proof.
  intros [H1 H2 H3 H4 H5 H6 H7 H8].
  destruct (analysisTimeoutId s) as [t|] eqn:Ht; split; simpl; rewrite ?Ht; try done.
  - by apply below_delete.
  - intros _ t' [= <-]. apply lookup_delete_eq.
  - intros t' due [_ ?]%lookup_delete_Some. by eapply H7.
Qed.

Lemma wf_stopAnalysis s : wf s → wf (stopAnalysis s).
Proof.
  intros Hwf. unfold stopAnalysis. destruct (isAnalyzing s) eqn:Hrun; [|done].
  apply wf_set_console, wf_set_win; [exact (wf_stop_core s Hwf)|..];
    rewrite ?clearTimeout_win, ?clearTimeout_now; simpl.
  - apply wf_page_remove_by_class, Hwf.
  - apply Hwf.
Qed.

Lemma wf_onMessage command s : wf s → wf (onMessage command s).2.
Proof.
  intros Hwf. unfold onMessage. repeat case_decide.
  - pose proof (wf_startAnalysis s Hwf). by destruct (startAnalysis s).
  - by apply wf_stopAnalysis.
  - done.
Qed.

Lemma wf_receive rq o s : wf s → wf (receive rq o s).
Proof.
  intros Hwf. unfold receive, fetch_failed, console_error.
  destruct o as [|status [[|sid [res|]]|]]; repeat case_match;
    try by apply wf_set_console.
  - apply wf_set_win; [done|by apply wf_page_updateOverlay, Hwf|].
    rewrite updateOverlay_videos. apply Hwf.
  - done.
Qed.

Lemma wf_delete_inflight r s : wf s → wf (set_inflight (delete r) s).
Proof.
  intros [H1 H2 H3 H4 H5 H6 H7 H8]. split; simpl; try done.
  - by apply below_delete.
  - intros r' rq [_ ?]%lookup_delete_Some. by eapply H5.
Qed.

Lemma wf_settle r o s : wf s → wf (settle r o s).
Proof.
  intros Hwf. unfold settle. destruct (inflight s !! r); [|done].
  by apply wf_join, wf_receive, wf_delete_inflight.
Qed.

Lemma wf_fire t s : wf s → wf (fire t s).
Proof.
  intros Hwf. apply wf_runAnalysisCycle. by apply (wf_clearTimeout (Some t)).
Qed.

Lemma wf_host h s : wf s → wf (set_win (host_apply h) s).
Proof.
  intros Hwf. apply wf_set_win; [done|by apply wf_page_host, Hwf|].
  pose proof (wf_minted _ Hwf) as Hm. destruct h as [n v|n|n v|x y]; simpl.
  - apply Forall_app. split; [by apply Forall_take|].
    apply Forall_cons. split; [apply minted_None|by apply Forall_drop].
  - by apply Forall_delete.
  - apply Forall_alter; [done|]. intros old _ Hold. by apply minted_keep.
  - done.
Qed.

Lemma wf_tick d s : wf s → wf (set_now (now s + d)%N s).
Proof.
  intros [H1 H2 H3 H4 H5 H6 H7 H8]. split; simpl; try done.
  - intros t due Ht. specialize (H7 t due Ht). lia.
  - eapply Forall_impl; [done|]. intros v. apply minted_mono. lia.
Qed.

(** Every task preserves the invariant. *)
Lemma wf_next e s : wf s → wf (next e s).
Proof.
  intros Hwf. destruct e; unfold next; simpl.
  - by apply wf_onMessage.
  - by apply wf_fire.
  - by apply wf_settle.
  - apply wf_set_win; [done|by apply wf_page_animationFrame, Hwf|].
    rewrite animationFrame_videos. apply Hwf.
  - by apply wf_host.
  - by apply wf_tick.
Qed.

Lemma wf_step s e s' : wf s → step s e s' → wf s'.
Proof. intros Hwf Hs. destruct Hs as [s e _]. by apply wf_next. Qed.

Lemma wf_reachable vs (tm : N) s : reachable vs tm s → wf s.
Proof. induction 1; [apply wf_initial|by eapply wf_step]. Qed.

Lemma wf_reachable_under D vs (tm : N) s : reachable_under D vs tm s → wf s.
Proof. intros H%reachable_under_reachable. by eapply wf_reachable. Qed.

Lemma wf_run es s s' : wf s → run es s = Some s' → wf s'.
Proof.
  revert s. induction es as [|e es IH]; intros s Hwf; simpl.
  - by intros [= <-].
  - case_decide; [|done]. apply IH. by apply wf_next.
Qed.
End state_invariant.

#[export] Hint Resolve wf_initial wf_next wf_runAnalysisCycle wf_stopAnalysis
  wf_settle wf_fire wf_host wf_tick wf_receive wf_join : monitor.
