(* ===== verification/Barrier.v ===== *)
(** * Barrier: the all-settle barrier and the single scheduling chain

    The script means to keep one chain of activity alive while it runs:
    a cycle whose requests are in flight, or the timer that will start the
    next cycle, never both and never two of either.  [single_chain] states
    it.  It is an invariant when the control panel keeps to the discipline
    [calm]: it does not restart the analysis while requests of a stopped run
    are still in flight.  Without that discipline the chain forks
    ([restart_trace]): [stopAnalysis] does not cancel the requests in
    flight, and their [Promise.all] re-arms a timer once the flag is up
    again. *)

From S2P Require Import Prelude Js Dom Sampler Overlay Scheduler Invariants.

(** ** Definitions *)

Record single_chain (s : state) : Prop := SingleChain {
  (** the requests in flight belong to one cycle *)
  sc_one_cycle : ∀ r1 r2 rq1 rq2,
    inflight s !! r1 = Some rq1 → inflight s !! r2 = Some rq2 →
    rq_cycle rq1 = rq_cycle rq2;
  (** no timer is pending while a request is in flight *)
  sc_barrier : ∀ r, is_Some (inflight s !! r) → timers s = ∅;
  (** a pending timer is the one the script holds, and the script runs *)
  sc_handle : ∀ t, is_Some (timers s !! t) →
    analysisTimeoutId s = Some t ∧ isAnalyzing s = true;
  (** while the script runs, a cycle is in flight or a timer is pending *)
  sc_progress : isAnalyzing s = true → inflight s ≠ ∅ ∨ timers s ≠ ∅
}.

(** The discipline of the control panel: [start] is not sent to a stopped
    script that still has requests in flight. *)
Definition calm (e : event) (s : state) : Prop :=
  match e with
  | Message command =>
      command = "start" → isAnalyzing s = false → inflight s = ∅
  | _ => True
  end.

(** A video that both [startAnalysis] and a cycle accept and that can be sampled. *)
Definition sample_video : video :=
  Video 4 360 640 1280 720 (Rect 10 20 640 360) 7 None.

(** Stop and restart while the first request is in flight, then let both
    requests fail. *)
Definition restart_trace : list event :=
  [ Message "start"; Message "stop"; Message "start";
    Settle 0 NetworkError; Settle 1 NetworkError ].

(** ** Preservation of [single_chain] *)

Section chain.
Implicit Types (s : state) (c r t : nat).

(** Deleting the only key a map can have empties it. *)
Lemma delete_only_key (m : gmap nat N) (o : option nat) :
  (∀ t, is_Some (m !! t) → o = Some t) →
  match o with Some t => delete t m | None => m end = ∅.
Proof.
  intros Hm. apply map_empty. intros t.
  destruct (m !! t) as [d|] eqn:E.
  - rewrite (Hm t) by (by rewrite E). apply lookup_delete_eq.
  - destruct o; [|done]. rewrite lookup_delete. by case_decide.
Qed.

Lemma no_timer_no_handle s :
  timers s = ∅ → ∀ t, is_Some (timers s !! t) →
    analysisTimeoutId s = Some t ∧ isAnalyzing s = true.
Proof. intros ->. vacuous. Qed.

Lemma single_chain_initial vs (tm : N) : single_chain (initial_state vs tm).
Proof.
  split; simpl; [vacuous..|done].
Qed.

Lemma single_chain_same s s' :
  same_schedule s s' → inflight s' = inflight s →
  single_chain s → single_chain s'.
Proof.
  intros (Ht & _ & Hr & Hh & _) Hi [H1 H2 H3 H4].
  split; rewrite ?Ht, ?Hr, ?Hh, ?Hi; done.
Qed.

(** After the last request of a cycle: the timer alone, or nothing. *)
Lemma single_chain_finish s :
  inflight s = ∅ → timers s = ∅ → single_chain (finish_cycle s).
Proof.
  intros Hi Ht. unfold finish_cycle. destruct (isAnalyzing s) eqn:Hrun.
  - split; simpl; rewrite ?Hi, ?Ht; [vacuous..| |].
    + intros t [d [[<- _]|[_ ?]]%lookup_insert_Some]; [done|vacuous].
    + intros _. right. apply insert_non_empty.
  - split; rewrite ?Hi, ?Ht, ?Hrun; [vacuous..|done].
Qed.

(** The join of cycle [c] when only requests of [c] are in flight. *)
Lemma single_chain_join c s :
  (∀ r rq, inflight s !! r = Some rq → rq_cycle rq = c) → timers s = ∅ →
  single_chain (join c s).
Proof.
  intros Hc Ht. unfold join. case_decide as Hp.
  - apply cycle_pending_spec in Hp as (r & rq & Hr & _). split.
    + intros r1 r2 rq1 rq2 ?%Hc ?%Hc. congruence.
    + done.
    + by apply no_timer_no_handle.
    + intros _. left. intros He. by rewrite He, lookup_empty in Hr.
  - apply single_chain_finish; [|done]. apply map_empty. intros r.
    destruct (inflight s !! r) as [rq|] eqn:Hr; [|done].
    destruct Hp. apply cycle_pending_spec. eauto.
Qed.

(** A cycle started when nothing is in flight and no timer is pending. *)
Lemma single_chain_cycle s :
  inflight s = ∅ → timers s = ∅ → isAnalyzing s = true →
  single_chain (runAnalysisCycle s).
Proof.
  intros Hi Ht Hrun. unfold runAnalysisCycle. rewrite Hrun.
  set (s1 := set_nextCycle _ s). set (n := length _).
  apply single_chain_join.
  - intros r rq [H|H]%(walk_issued (nextCycle s) n s1); [|done].
    simpl in H. rewrite Hi in H. vacuous.
  - by destruct (walk_same_schedule (nextCycle s) n s1) as (-> & _).
Qed.

Lemma single_chain_stopAnalysis s : single_chain s → single_chain (stopAnalysis s).
Proof.
  intros Hsc. unfold stopAnalysis.
  destruct (isAnalyzing s) eqn:Hrun; [|done]. destruct Hsc as [H1 H2 H3 H4].
  assert (timers (clearTimeout (analysisTimeoutId s) (set_isAnalyzing false s)) = ∅) as Ht.
  { pose proof (delete_only_key (timers s) (analysisTimeoutId s)) as Hd.
    destruct (analysisTimeoutId s); simpl; apply Hd; intros t Ht;
      by destruct (H3 t Ht). }
  split; simpl; rewrite ?clearTimeout_inflight, ?clearTimeout_isAnalyzing, ?Ht;
    [done|done|vacuous|done].
Qed.

Lemma stopped_no_timer s : single_chain s → isAnalyzing s = false → timers s = ∅.
Proof.
  intros Hsc Hrun. apply map_empty. intros t.
  destruct (timers s !! t) eqn:E; [|done].
  destruct (sc_handle _ Hsc t) as [_ ?]; [by rewrite E|congruence].
Qed.

Lemma single_chain_startAnalysis s :
  single_chain s → (isAnalyzing s = false → inflight s = ∅) →
  single_chain (startAnalysis s).2.
Proof.
  intros Hsc Hcalm. unfold startAnalysis.
  destruct (isAnalyzing s) eqn:Hrun; [done|]. case_decide; [done|].
  apply single_chain_cycle; simpl; [by apply Hcalm|by apply stopped_no_timer|done].
Qed.

Lemma single_chain_settle r o s : single_chain s → single_chain (settle r o s).
Proof.
  intros Hsc. unfold settle. destruct (inflight s !! r) as [rq|] eqn:Hr; [|done].
  apply single_chain_join.
  - intros r' rq'. rewrite receive_inflight. simpl.
    intros [_ Hr']%lookup_delete_Some. by eapply (sc_one_cycle _ Hsc).
  - destruct (receive_same_schedule rq o (set_inflight (delete r) s)) as (-> & _).
    simpl. apply (sc_barrier _ Hsc r). by rewrite Hr.
Qed.

Lemma single_chain_fire t s :
  single_chain s → is_Some (timers s !! t) → single_chain (fire t s).
Proof.
  intros Hsc Ht. destruct (sc_handle _ Hsc t Ht) as [Hh Hrun].
  apply single_chain_cycle; simpl; [| |done].
  - apply map_empty. intros r. destruct (inflight s !! r) eqn:Hr; [|done].
    rewrite (sc_barrier _ Hsc r) in Ht by (by rewrite Hr). vacuous.
  - apply (delete_only_key (timers s) (Some t)). intros t' Ht'.
    destruct (sc_handle _ Hsc t' Ht') as [Hh' _]. congruence.
Qed.

(** Every task of a calm environment preserves the single chain. *)
Lemma single_chain_next e s :
  single_chain s → enabled e s → calm e s → single_chain (next e s).
Proof.
  intros Hsc He Hc. destruct e as [command|t|r o| |h|d]; unfold next; simpl.
  - unfold onMessage. repeat case_decide; simplify_eq/=; [|by apply single_chain_stopAnalysis|done].
    pose proof (single_chain_startAnalysis s Hsc (Hc eq_refl)).
    by destruct (startAnalysis s).
  - destruct He as (due & Ht & _). apply single_chain_fire; [done|by rewrite Ht].
  - by apply single_chain_settle.
  - by apply (single_chain_same s); [apply set_win_same_schedule|..].
  - by apply (single_chain_same s); [apply set_win_same_schedule|..].
  - by destruct Hsc.
Qed.

Lemma single_chain_calm vs (tm : N) s :
  reachable_under calm vs tm s → single_chain s.
Proof.
  induction 1 as [|s e _ IH He Hc]; [apply single_chain_initial|].
  by apply single_chain_next.
Qed.

(** Only [start] and a timer issue requests. *)
Lemma sent_next e s :
  sent (next e s) ≠ sent s →
  (e = Message "start" ∧ isAnalyzing s = false) ∨ ∃ t, e = TimerFire t.
Proof.
  destruct e as [command|t|r o| |h|d]; unfold next, handle; cbn [snd]; try done.
  - unfold onMessage. case_decide as Hc; [subst|].
    + destruct (isAnalyzing s) eqn:Hrun; [|auto].
      by rewrite startAnalysis_running.
    + case_decide; cbn [snd]; [by rewrite stopAnalysis_sent|done].
  - eauto.
  - by rewrite settle_sent.
Qed.
End chain.

#[export] Hint Resolve single_chain_initial single_chain_next single_chain_calm : monitor.

(** ** Theorems *)

(** C2: under the calm discipline, new requests are issued only when every
    earlier request has settled: a task that issues requests starts from a
    state with none in flight. *)
Theorem requests_issued_after_all_settled vs (tm : N) s e :
  reachable_under calm vs tm s → enabled e s → calm e s →
  sent (next e s) ≠ sent s → inflight s = ∅.
Proof.
  intros Hs%single_chain_calm He Hc [[-> Hrun]|[t ->]]%sent_next.
  - by apply Hc.
  - destruct He as (due & Ht & _). apply map_empty. intros r.
    destruct (inflight s !! r) eqn:Hr; [|done].
    rewrite (sc_barrier _ Hs r) in Ht by (by rewrite Hr). vacuous.
Qed.

Lemma requests_issued_after_all_settled_witness :
  inflight (initial_state [sample_video] 1000) = ∅.
Proof.
  apply (requests_issued_after_all_settled [sample_video] 1000 _ (Message "start")).
  - constructor.
  - exact I.
  - by intros _ _.
  - by vm_compute.
Defined.

(** C8: under the calm discipline all requests in flight belong to one
    cycle, and no timer for a next cycle is pending while one is in flight. *)
Theorem one_cycle_in_flight vs (tm : N) s r1 r2 rq1 rq2 :
  reachable_under calm vs tm s →
  inflight s !! r1 = Some rq1 → inflight s !! r2 = Some rq2 →
  rq_cycle rq1 = rq_cycle rq2 ∧ timers s = ∅.
Proof.
  intros Hs%single_chain_calm H1 H2. split.
  - by eapply (sc_one_cycle _ Hs).
  - apply (sc_barrier _ Hs r1). by rewrite H1.
Qed.

Lemma one_cycle_in_flight_witness :
  let s := next (Message "start") (initial_state [sample_video; sample_video] 1000) in
  ∃ rq1 rq2, inflight s !! 0%nat = Some rq1 ∧ inflight s !! 1%nat = Some rq2 ∧
             rq_cycle rq1 = rq_cycle rq2 ∧ timers s = ∅.
Proof.
  eexists _, _. split; [by vm_compute|]. split; [by vm_compute|].
  eapply (one_cycle_in_flight [sample_video; sample_video] 1000 _ 0%nat 1%nat).
  - apply reachable_under_step; [constructor|exact I|by intros _ _].
  - by vm_compute.
  - by vm_compute.
Defined.

(** Under the calm discipline the running script never stalls: a cycle
    is in flight, or the timer it holds is pending and due within 1000 ms. *)
Theorem running_never_stalls vs (tm : N) s :
  reachable_under calm vs tm s → isAnalyzing s = true →
  inflight s ≠ ∅ ∨
  ∃ t due, analysisTimeoutId s = Some t ∧ timers s !! t = Some due ∧
           (due ≤ now s + 1000)%N.
Proof.
  intros Hr Hrun. pose proof (single_chain_calm _ _ _ Hr) as Hsc.
  destruct (sc_progress _ Hsc Hrun) as [?|Ht]; [by left|right].
  destruct (map_choose _ Ht) as (t & due & Hd).
  destruct (sc_handle _ Hsc t) as [Hh _]; [by rewrite Hd|].
  exists t, due. split_and!; [done..|].
  eapply wf_due; [|done]. eapply wf_reachable_under, Hr.
Qed.

Lemma running_never_stalls_witness :
  let s := next (Message "start") (initial_state [sample_video] 1000) in
  inflight s ≠ ∅ ∨
  ∃ t due, analysisTimeoutId s = Some t ∧ timers s !! t = Some due ∧
           (due ≤ now s + 1000)%N.
Proof.
  apply (running_never_stalls [sample_video] 1000).
  - apply reachable_under_step; [constructor|exact I|by intros _ _].
  - by vm_compute.
Defined.

(** Without the discipline the chain forks.  Stopping and restarting
    while a request is in flight leaves two cycles in flight at once, and
    once both have settled two timers are pending: from then on two cycles
    run every second, and [stopAnalysis] can cancel only the one whose
    handle the script kept. *)
Theorem restart_forks_chain :
  ∃ s1 s2,
    run (take 3 restart_trace) (initial_state [sample_video] 1000) = Some s1 ∧
    rq_cycle <$> inflight s1 !! 0%nat = Some 0%nat ∧
    rq_cycle <$> inflight s1 !! 1%nat = Some 1%nat ∧
    run (drop 3 restart_trace) s1 = Some s2 ∧
    isAnalyzing s2 = true ∧ size (timers s2) = 2%nat ∧
    size (timers (stopAnalysis s2)) = 1%nat ∧ ¬ single_chain s2.
Proof.
  eexists _, _. split; [by vm_compute|]. split; [by vm_compute|].
  split; [by vm_compute|]. split; [by vm_compute|].
  split; [by vm_compute|]. split; [by vm_compute|]. split; [by vm_compute|].
  intros [_ _ Hh _]. destruct (Hh 0%nat) as [Hid _]; [by exists 2000%N|].
  by vm_compute in Hid.
Qed.
