(* ===== verification/Lifecycle.v ===== *)
(** * Lifecycle: what [start], [stop] and a settling request do

    The functional behaviour of the handlers of [src/content.js] on every
    branch: the replies of [startAnalysis] and what each leaves behind, the
    postcondition of [stopAnalysis], the isolation of a request that fails,
    and what a request that is answered after [stopAnalysis] still does. *)

From S2P Require Import Prelude Js Dom Sampler Overlay Scheduler Invariants Barrier.

(** ** Definitions *)

(** An answer that carries a judgment for participant [sid]. *)
Definition judged (sid : jval) (result : judgment) : outcome :=
  Response 200 (Some (AnswerData sid (Some result))).

(** The three replies of [startAnalysis] (lines 27, 31 and 37). *)
Definition started : reply := Reply "success" None.
Definition already_running : reply :=
  Reply "error" (Some "Analysis is already running.").
Definition no_videos : reply :=
  Reply "error" (Some "No participant videos found.").

(** The script is stopped. *)
Definition stopped (s : state) : Prop := isAnalyzing s = false.

(** The timer whose handle [s] holds is not pending in [s']. *)
Definition cancelled (s s' : state) : Prop :=
  ∀ t, analysisTimeoutId s = Some t → timers s' !! t = None.

(** The entry the [catch] of line 93 logs for a request. *)
Definition failure_log (rq : request) : log_entry :=
  ConsoleError ("Monitor: Backend fetch failed for " +:+ rq_videoId rq +:+ ".").

(** The judgment of the end-to-end scenario of the specification. *)
Definition alice : judgment := Judgment (JStr "Alice") (JStr "Attentive") (JNum 92).

(** A video that [startAnalysis] accepts and no cycle samples: tall enough,
    too narrow. *)
Definition narrow_video : video :=
  Video 4 360 80 1280 720 (Rect 0 0 80 360) 3 None.

(** ** Lemmas *)

Section lifecycle.
Implicit Types (s : state) (r : nat) (o : outcome).

Lemma join_isAnalyzing c s : isAnalyzing (join c s) = isAnalyzing s.
Proof.
  unfold join. case_decide; [done|]. unfold finish_cycle.
  by destruct (isAnalyzing s) eqn:E.
Qed.

Lemma runAnalysisCycle_isAnalyzing s :
  isAnalyzing (runAnalysisCycle s) = isAnalyzing s.
Proof.
  unfold runAnalysisCycle. destruct (isAnalyzing s) eqn:Hrun; [|done].
  cbv zeta. rewrite join_isAnalyzing.
  by rewrite (proj1 (proj2 (proj2 (walk_same_schedule _ _ _)))).
Qed.

Lemma receive_failed rq o s :
  outcome_failed o = true → receive rq o s = fetch_failed (rq_videoId rq) s.
Proof.
  destruct o as [|status [[|sid res]|]]; simpl; try done;
    destruct (response_ok status); simpl; try done.
Qed.

Lemma join_console c s : console (join c s) = console s.
Proof.
  unfold join. case_decide; [done|]. unfold finish_cycle. by destruct (isAnalyzing s).
Qed.

(** A walk over videos none of which is eligible does nothing. *)
Lemma walk_no_eligible c n s :
  Forall (λ v, cycle_eligible v = false) (videos (win s)) →
  foldl_index (visit c) n s = s.
Proof.
  intros Hv. apply (foldl_index_ind (λ s', s' = s)); [done|].
  intros s' i _ ->. unfold visit.
  destruct (videos (win s) !! i) as [v|] eqn:E; [|done].
  by rewrite (proj1 (Forall_lookup _ _) Hv i v E).
Qed.
End lifecycle.

(** ** Theorems *)

(** C29: [startAnalysis] answers "success" exactly when the script was
    stopped and some video passes the filter of line 29, and then the
    script runs; in the two other cases it answers "error" with the message
    of that case and changes nothing. *)
Theorem startAnalysis_reply s :
  let '(reply, s') := startAnalysis s in
  (reply = started ∧ stopped s ∧
   Exists (λ v, start_visible v = true) (videos (win s)) ∧ isAnalyzing s' = true)
  ∨ (reply = already_running ∧ isAnalyzing s = true ∧ s' = s)
  ∨ (reply = no_videos ∧ stopped s ∧
     Forall (λ v, start_visible v ≠ true) (videos (win s)) ∧ s' = s).
Proof.
  unfold startAnalysis. destruct (isAnalyzing s) eqn:Hrun; [by right; left|].
  case_decide as Hn.
  - right. right. split_and!; try done.
    apply length_zero_iff_nil in Hn.
    apply Forall_forall. intros v Hv Hvis.
    assert (v ∈ filter (λ v, start_visible v = true) (videos (win s))) as Hin
      by by apply list_elem_of_filter.
    rewrite Hn in Hin. by inversion Hin.
  - left. split_and!; try done.
    + destruct (filter _ _) as [|v l] eqn:E; [done|].
      assert (v ∈ filter (λ v, start_visible v = true) (videos (win s))) as Hin
        by (rewrite E; left).
      apply list_elem_of_filter in Hin as [? ?]. apply Exists_exists. eauto.
    + by rewrite runAnalysisCycle_isAnalyzing.
Qed.

(** C15: [stopAnalysis] on a running script lowers the flag, leaves no
    overlay on screen and no pending timer under the handle the script
    holds; it cancels no request. *)
Theorem stopAnalysis_clears s :
  wf s → isAnalyzing s = true →
  stopped (stopAnalysis s) ∧
  body (win (stopAnalysis s)) = [] ∧
  overlay_ids (win (stopAnalysis s)) = [] ∧
  cancelled s (stopAnalysis s) ∧
  inflight (stopAnalysis s) = inflight s.
Proof.
  intros Hwf Hrun. unfold stopped, cancelled, stopAnalysis. rewrite Hrun. simpl.
  rewrite clearTimeout_isAnalyzing, clearTimeout_inflight, clearTimeout_win. simpl.
  assert (filter (λ r, ¬ elem_has_class (win s) overlay_class r) (body (win s)) = [])
    as Hb by apply (remove_by_class_all _ _ (wf_body_all_overlays _ (wf_win _ Hwf))).
  split_and!; [done|done|by apply overlay_ids_nil|..|done].
  intros t ->. apply lookup_delete_eq.
Qed.

Lemma stopAnalysis_clears_witness :
  let s := next (Settle 0 (judged (JStr "participant-1000-0") alice))
             (next (Message "start") (initial_state [sample_video] 1000)) in
  body (win s) = [0%nat] ∧
  stopped (stopAnalysis s) ∧
  body (win (stopAnalysis s)) = [] ∧
  overlay_ids (win (stopAnalysis s)) = [] ∧
  cancelled s (stopAnalysis s) ∧
  inflight (stopAnalysis s) = inflight s.
Proof.
  split; [by vm_compute|]. apply stopAnalysis_clears; [|by vm_compute].
  apply wf_next, wf_next, wf_initial.
Defined.

(** [stopAnalysis] is idempotent, and on a stopped script it is the
    identity. *)
Theorem stopAnalysis_idempotent s :
  stopAnalysis (stopAnalysis s) = stopAnalysis s ∧
  (stopped s → stopAnalysis s = s).
Proof.
  unfold stopped, stopAnalysis. destruct (isAnalyzing s) eqn:Hrun.
  - simpl. by rewrite clearTimeout_isAnalyzing.
  - by rewrite Hrun.
Qed.

(** C16: a request that fails (the fetch rejects, the status is not 2xx, the
    body does not parse or is null) leaves the page as it is, overlays and
    queued callbacks included; it is removed from the requests in flight,
    no other request is touched, and one error is logged. *)
Theorem failed_request_isolated s r rq o :
  inflight s !! r = Some rq → outcome_failed o = true →
  win (settle r o s) = win s ∧
  inflight (settle r o s) = delete r (inflight s) ∧
  console (settle r o s) = failure_log rq :: console s.
Proof.
  intros Hr Ho. unfold settle. rewrite Hr.
  rewrite join_win, join_inflight, join_console, receive_failed by done.
  done.
Qed.

Lemma failed_request_isolated_witness :
  let s := next (Message "start") (initial_state [sample_video; sample_video] 1000) in
  win (settle 0 (Response 500 None) s) = win s ∧
  inflight (settle 0 (Response 500 None) s) = delete 0%nat (inflight s) ∧
  console (settle 0 (Response 500 None) s)
    = ConsoleError "Monitor: Backend fetch failed for participant-1000-0."
        :: console s.
Proof.
  apply (failed_request_isolated _ 0%nat
           (Request 0 "participant-1000-0" (Image (Some 7%N) 480 270) 1000));
    by vm_compute.
Defined.

(** C18: an answer that arrives after [stopAnalysis] is still rendered: the
    continuation of [captureAndSendFrame] does not consult the run flag, so
    the stopped script puts the participant's overlay on screen, where it
    stays until the next stop of a running script. *)
Theorem answer_after_stop_rendered s r rq sid result :
  wf s → stopped s → inflight s !! r = Some rq →
  to_string sid ∈ monitor_ids (win s) →
  stopped (settle r (judged sid result) s) ∧
  overlay_id (to_string sid) ∈ overlay_ids (win (settle r (judged sid result) s)).
Proof.
  intros Hwf Hrun Hr Hid. unfold stopped, settle in *. rewrite Hr.
  rewrite join_isAnalyzing, join_win. simpl. split; [done|].
  apply getElementById_overlay_ids. unfold updateOverlay.
  destruct (querySelector_monitorId _ _) as [[n v]|] eqn:Hq;
    [|by apply querySelector_monitorId_None in Hq].
  pose proof (find_or_create_overlay_spec (to_string sid) (win s) (wf_win _ Hwf)) as Hs.
  destruct (find_or_create_overlay _ _) as [ov q]. destruct Hs as (Hb & e & He & Hi).
  destruct (getElementById _ _) eqn:E; [done|].
  rewrite getElementById_None in E. destruct (E ov Hb).
  unfold elem_has_id. simpl. by rewrite He, <-Hi.
Qed.

Lemma answer_after_stop_rendered_witness :
  let s := next (Message "stop")
             (next (Message "start") (initial_state [sample_video] 1000)) in
  let o := judged (JStr "participant-1000-0") alice in
  overlay_ids (win s) = [] ∧
  stopped (settle 0 o s) ∧
  overlay_id "participant-1000-0" ∈ overlay_ids (win (settle 0 o s)).
Proof.
  split; [by vm_compute|].
  apply (answer_after_stop_rendered _ 0%nat
           (Request 0 "participant-1000-0" (Image (Some 7%N) 480 270) 1000)
           (JStr "participant-1000-0") alice).
  - apply wf_next, wf_next, wf_initial.
  - by vm_compute.
  - by vm_compute.
  - vm_compute. left.
Defined.

(** The filter of [startAnalysis] is weaker than the condition of
    the cycle: with only videos that are tall but not wide enough, [start]
    succeeds and the script runs, yet no request is ever issued by its
    cycles; it only re-arms its timer. *)
Theorem start_without_eligible_video s :
  stopped s → inflight s = ∅ →
  Exists (λ v, start_visible v = true) (videos (win s)) →
  Forall (λ v, cycle_eligible v = false) (videos (win s)) →
  (startAnalysis s).1 = started ∧
  isAnalyzing (startAnalysis s).2 = true ∧
  sent (startAnalysis s).2 = sent s ∧
  inflight (startAnalysis s).2 = ∅ ∧
  timers (startAnalysis s).2 = <[nextTimer s := (now s + 1000)%N]> (timers s).
Proof.
  intros Hrun Hi Hvis Hel. unfold stopped in Hrun. unfold startAnalysis. rewrite Hrun.
  rewrite decide_False; last first.
  { apply Exists_exists in Hvis as (v & Hv & Hvv). intros Hn%length_zero_iff_nil.
    assert (v ∈ filter (λ v, start_visible v = true) (videos (win s))) as Hin
      by by apply list_elem_of_filter.
    rewrite Hn in Hin. by inversion Hin. }
  simpl. unfold runAnalysisCycle. simpl. rewrite walk_no_eligible by done.
  unfold join. rewrite decide_False; [done|].
  intros (r & rq & Hr & _)%cycle_pending_spec. simpl in Hr. rewrite Hi in Hr. vacuous.
Qed.

Lemma start_without_eligible_video_witness :
  let s := initial_state [narrow_video] 1000 in
  (startAnalysis s).1 = started ∧
  isAnalyzing (startAnalysis s).2 = true ∧
  sent (startAnalysis s).2 = sent s ∧
  inflight (startAnalysis s).2 = ∅ ∧
  timers (startAnalysis s).2 = <[nextTimer s := (now s + 1000)%N]> (timers s).
Proof.
  apply start_without_eligible_video; try done.
  - apply Exists_cons_hd. by vm_compute.
  - apply Forall_cons. split; [by vm_compute|constructor].
Defined.
