(* ===== verification/Rendering.v ===== *)
(** * Rendering: what an answer puts on screen

    The functional behaviour of the Overlay Renderer of [src/content.js]
    ([updateOverlay] and its animation-frame callback): the colour of each
    status, the find-or-create discipline of the overlay element, the
    geometry and the label it is given when the frame runs, and the
    end-to-end scenario of one participant. *)

From S2P Require Import Prelude Js Dom Sampler Overlay Scheduler Invariants Barrier Lifecycle.

#[local] Open Scope Z_scope.

(** ** Definitions *)

(** The element an overlay is after the frame that follows
    [updateOverlay videoId result] for a video whose rectangle is [rc]. *)
Definition rendered (videoId : string) (rc : rect) (result : judgment) (p : page) : element :=
  Element overlay_class (overlay_id videoId)
    (Some (OverlayStyle (scrollX p + rc_left rc) (scrollY p + rc_top rc)
                        (rc_width rc) (rc_height rc) (statusColor result)))
    (Some (Label label_class (label_html result (statusColor result)) label_cssText)).

(** The overlay as [updateOverlay] creates it (lines 103 to 105). *)
Definition blank_overlay (videoId : string) : element :=
  Element overlay_class (overlay_id videoId) None None.

(** The callback [updateOverlay] queues for overlay [r] of video [v]. *)
Definition queued (r : nat) (v : video) (result : judgment) : frame_callback :=
  FrameCallback r (clientRect v) (statusColor result) result.

(** The colour of a status: [statusColor] reads nothing else of a judgment. *)
Definition colour_of (status : jval) : string :=
  statusColor (Judgment JUndefined status JUndefined).

(** The trace of the end-to-end scenario: start, the answer for the one
    participant, the next animation frame. *)
Definition alice_trace : list event :=
  [Message "start"; Settle 0 (judged (JStr "participant-1000-0") alice); AnimationFrame].

(** ** Lemmas *)

Section rendering.
Implicit Types (p q : page) (r : nat) (i vid : string) (cb : frame_callback).

(** In a well-formed page the element that carries an id is the one
    [getElementById] returns. *)
Lemma getElementById_unique i p r :
  wf_page p → r ∈ body p → elem_has_id p i r → getElementById i p = Some r.
Proof.
  intros Hwf Hr Hi. destruct (getElementById i p) as [r'|] eqn:E.
  - apply getElementById_Some in E as [Hr' Hi']. f_equal.
    unfold elem_has_id in Hi, Hi'.
    destruct (elems p !! r) as [e|] eqn:He, (elems p !! r') as [e'|] eqn:He';
      simplify_eq/=.
    eapply (wf_ids_distinct _ Hwf); eauto.
  - rewrite getElementById_None in E. by destruct (E r Hr).
Qed.

(** [getElementById] depends on the body and the ids only. *)
Lemma getElementById_ext i p q :
  body q = body p → (∀ r, el_id <$> elems q !! r = el_id <$> elems p !! r) →
  getElementById i q = getElementById i p.
Proof.
  intros Hb He. unfold getElementById. rewrite Hb. f_equal.
  apply list_find_ext. intros r. unfold elem_has_id. by rewrite He.
Qed.

Lemma animationFrame_getElementById i p :
  getElementById i (animationFrame p) = getElementById i p.
Proof.
  apply getElementById_ext; [apply animationFrame_body|].
  intros r. apply animationFrame_ident.
Qed.

Lemma animationFrame_scroll p :
  scrollX (animationFrame p) = scrollX p ∧ scrollY (animationFrame p) = scrollY p.
Proof.
  by apply (animationFrame_ind (λ q, scrollX q = scrollX p ∧ scrollY q = scrollY p)).
Qed.

Lemma create_overlay_elems vid p :
  elems (create_overlay vid p).2
  = <[nextElem p := Element overlay_class (overlay_id vid) None None]> (elems p).
Proof. simpl. by rewrite alter_insert_eq. Qed.

(** The element the find-or-create step returns, and what the step adds. *)
Lemma find_or_create_overlay_cases vid p :
  wf_page p →
  let '(r, q) := find_or_create_overlay vid p in
  getElementById (overlay_id vid) q = Some r ∧
  match getElementById (overlay_id vid) p with
  | Some r0 => r = r0 ∧ q = p
  | None => r = nextElem p ∧ body q = body p ++ [r] ∧
            elems q = <[r := Element overlay_class (overlay_id vid) None None]> (elems p)
  end.
Proof.
  intros Hwf.
  pose proof (find_or_create_overlay_spec vid p Hwf) as Hs.
  pose proof (wf_page_find_or_create vid p Hwf) as Hq.
  unfold find_or_create_overlay in *.
  destruct (getElementById (overlay_id vid) p) as [r0|] eqn:E; [done|].
  pose proof (create_overlay_body vid p (wf_next_not_in_body _ Hwf)) as Hb'.
  pose proof (create_overlay_elems vid p) as He'.
  pose proof (create_overlay_ref vid p) as Hr.
  destruct (create_overlay vid p) as [r q]. simpl in Hb', He', Hr. subst r.
  destruct Hs as (Hb & e & He & Hi). split; [|done].
  apply getElementById_unique; [done..|]. unfold elem_has_id. by rewrite He, <-Hi.
Qed.

(** A frame whose last callback targets [r] leaves [r] styled by it. *)
Lemma animationFrame_last p cbs cb e :
  rafQueue p = cbs ++ [cb] →
  elems (foldl (λ q c, run_frame_callback c q) p cbs) !! cb_overlay cb = Some e →
  elems (animationFrame p) !! cb_overlay cb
  = Some (style_element cb (foldl (λ q c, run_frame_callback c q) p cbs) e).
Proof.
  intros Hq He. unfold animationFrame. rewrite Hq, foldl_app. simpl.
  by rewrite lookup_alter_eq, He.
Qed.

(** Callbacks keep the set of elements, their ids, classes and the class of
    their label, and the scroll offset. *)
Lemma callbacks_keep cbs p :
  let q := foldl (λ q c, run_frame_callback c q) p cbs in
  scrollX q = scrollX p ∧ scrollY q = scrollY p ∧
  ∀ r e, elems p !! r = Some e →
    ∃ e', elems q !! r = Some e' ∧ el_id e' = el_id e ∧
          el_className e' = el_className e.
Proof.
  revert p. induction cbs as [|c cbs IH] using rev_ind; intros p; simpl.
  { split_and!; eauto. }
  rewrite foldl_app. simpl. destruct (IH p) as (Hx & Hy & He).
  split_and!; [done..|]. intros r e Hr. destruct (He r e Hr) as (e' & He' & Hi & Hc).
  destruct (decide (r = cb_overlay c)) as [->|Hne].
  - rewrite lookup_alter_eq, He'. simpl. eauto.
  - rewrite lookup_alter_ne by done. eauto.
Qed.

Lemma style_element_rendered cb p e vid :
  el_className e = overlay_class → el_id e = overlay_id vid →
  style_element cb p e
  = rendered vid (cb_videoRect cb) (cb_result cb) p
    ↔ cb_statusColor cb = statusColor (cb_result cb).
Proof.
  intros Hc Hi. unfold style_element, rendered, callback_style. rewrite Hc, Hi.
  assert (lb_className (match find_label e with
                        | Some l => l
                        | None => Label label_class EmptyString EmptyString
                        end) = label_class) as ->.
  { unfold find_label. destruct (el_label e) as [l|]; [|done]. by case_decide. }
  split; [intros [=]; congruence|by intros ->].
Qed.

(** The frame leaves the overlay of its last callback rendered from that
    callback and from the scroll offset of the page the frame runs in. *)
Lemma frame_renders_last q cbs cb e vid :
  rafQueue q = cbs ++ [cb] → elems q !! cb_overlay cb = Some e →
  el_className e = overlay_class → el_id e = overlay_id vid →
  cb_statusColor cb = statusColor (cb_result cb) →
  elems (animationFrame q) !! cb_overlay cb
  = Some (rendered vid (cb_videoRect cb) (cb_result cb) q).
Proof.
  intros Hq He Hc Hi Hcol.
  destruct (callbacks_keep cbs q) as (Hx & Hy & Hk).
  destruct (Hk _ _ He) as (e' & He' & Hi' & Hc').
  rewrite (animationFrame_last q cbs cb e') by done. f_equal.
  rewrite (proj2 (style_element_rendered cb _ e' vid ltac:(congruence)
                    ltac:(congruence)) Hcol).
  unfold rendered. by rewrite Hx, Hy.
Qed.

Lemma updateOverlay_found videoId result p n v :
  querySelector_monitorId (to_string videoId) p = Some (n, v) →
  updateOverlay videoId result p
  = requestAnimationFrame
      (FrameCallback (find_or_create_overlay (to_string videoId) p).1
                     (clientRect v) (statusColor result) result)
      (find_or_create_overlay (to_string videoId) p).2.
Proof. intros Hq. unfold updateOverlay. rewrite Hq. by destruct (find_or_create_overlay _ _). Qed.

(** The element the find-or-create step returns is a blank or an earlier
    overlay of the participant. *)
Lemma find_or_create_overlay_element vid p :
  wf_page p →
  ∃ e, elems (find_or_create_overlay vid p).2 !! (find_or_create_overlay vid p).1 = Some e ∧
       el_className e = overlay_class ∧ el_id e = overlay_id vid.
Proof.
  intros Hwf.
  pose proof (find_or_create_overlay_spec vid p Hwf) as Hs.
  pose proof (wf_page_find_or_create vid p Hwf) as Hq.
  destruct (find_or_create_overlay vid p) as [r q]. destruct Hs as (_ & e & He & Hi).
  exists e. split_and!; [done| |done].
  by destruct (wf_elems_overlay _ Hq r e He) as (-> & _).
Qed.

(** The frame that runs in a page [q] that has the elements, the body and
    the queue [updateOverlay] left renders the participant's overlay with
    the rectangle read by [updateOverlay] and the scroll offset of [q]. *)
Lemma frame_after_update videoId result p n v q :
  wf_page p →
  querySelector_monitorId (to_string videoId) p = Some (n, v) →
  elems q = elems (updateOverlay videoId result p) →
  body q = body (updateOverlay videoId result p) →
  rafQueue q = rafQueue (updateOverlay videoId result p) →
  ∃ r, getElementById (overlay_id (to_string videoId)) (animationFrame q) = Some r ∧
       elems (animationFrame q) !! r
       = Some (rendered (to_string videoId) (clientRect v) result q).
Proof.
  intros Hwf Hq Hel Hb Hraf. rewrite animationFrame_getElementById.
  rewrite (getElementById_ext _ (updateOverlay videoId result p) q)
    by (by rewrite ?Hel).
  rewrite (updateOverlay_found _ _ _ _ _ Hq) in *.
  pose proof (find_or_create_overlay_cases (to_string videoId) p Hwf) as Hc.
  destruct (find_or_create_overlay_element (to_string videoId) p Hwf)
    as (e & He & Hcl & Hid).
  destruct (find_or_create_overlay _ p) as [r q1]. cbn [fst snd] in *.
  destruct Hc as [Hg _]. exists r. split; [done|].
  set (cb := FrameCallback r (clientRect v) (statusColor result) result) in *.
  apply (frame_renders_last q (rafQueue q1) cb e (to_string videoId));
    [done|by rewrite Hel|done..].
Qed.

Lemma statusColor_key result :
  statusColor result
  = property_or (get_property statusColors (JStr (to_string (res_status result))))
                fallbackColor.
Proof. done. Qed.
End rendering.

(** ** Theorems *)

(** C21: [updateOverlay] for a participant whose video is in the page
    finds the participant's overlay or creates it (one new element, appended
    to the body, with the class and the id of the overlay), and queues one
    callback for it that holds the rectangle the video has now and the
    colour of the status; an overlay that exists is reused untouched. *)
Theorem updateOverlay_find_or_create videoId result p n v :
  wf_page p →
  querySelector_monitorId (to_string videoId) p = Some (n, v) →
  let i := overlay_id (to_string videoId) in
  let p' := updateOverlay videoId result p in
  ∃ r, getElementById i p' = Some r ∧
    rafQueue p' = rafQueue p ++ [queued r v result] ∧
    match getElementById i p with
    | Some r0 => r = r0 ∧ body p' = body p ∧ elems p' = elems p
    | None => r = nextElem p ∧ body p' = body p ++ [r] ∧
              elems p' = <[r := blank_overlay (to_string videoId)]> (elems p)
    end.
Proof.
  intros Hwf Hq. simpl. rewrite (updateOverlay_found _ _ _ _ _ Hq).
  pose proof (find_or_create_overlay_cases (to_string videoId) p Hwf) as Hc.
  pose proof (find_or_create_overlay_rafQueue (to_string videoId) p) as Hr.
  destruct (find_or_create_overlay _ p) as [r q]. simpl in *.
  destruct Hc as [Hg Hc]. exists r. split_and!; [done|by rewrite Hr|].
  destruct (getElementById _ p); [by destruct Hc as [-> ->]|done].
Qed.

Lemma updateOverlay_find_or_create_witness :
  let p := initial_page [with_monitorId (Some "participant-1000-0") sample_video] in
  let p' := updateOverlay (JStr "participant-1000-0") alice p in
  getElementById "overlay-participant-1000-0" p = None ∧
  ∃ r, getElementById "overlay-participant-1000-0" p' = Some r ∧
    rafQueue p' = rafQueue p
                  ++ [FrameCallback r (Rect 10 20 640 360) "#28a745" alice] ∧
    match getElementById "overlay-participant-1000-0" p with
    | Some r0 => r = r0 ∧ body p' = body p ∧ elems p' = elems p
    | None => r = nextElem p ∧ body p' = body p ++ [r] ∧
              elems p' = <[r := blank_overlay "participant-1000-0"]> (elems p)
    end.
Proof.
  split; [by vm_compute|].
  apply (updateOverlay_find_or_create (JStr "participant-1000-0") alice _ 0%nat
           (with_monitorId (Some "participant-1000-0") sample_video));
    [apply wf_page_initial|by vm_compute].
Defined.

(** C20: after the animation frame that follows [updateOverlay], the
    participant's overlay covers the rectangle the video had when the
    answer arrived, shifted by the scroll offset, with a border in the
    colour of the status and the label of the judgment; the queue of
    callbacks is empty. *)
Theorem overlay_rendered_on_frame videoId result p n v :
  wf_page p →
  querySelector_monitorId (to_string videoId) p = Some (n, v) →
  let p' := animationFrame (updateOverlay videoId result p) in
  ∃ r, getElementById (overlay_id (to_string videoId)) p' = Some r ∧
       elems p' !! r = Some (rendered (to_string videoId) (clientRect v) result p) ∧
       rafQueue p' = [].
Proof.
  intros Hwf Hq. cbv zeta.
  destruct (frame_after_update videoId result p n v _ Hwf Hq eq_refl eq_refl eq_refl)
    as (r & Hg & He).
  destruct (updateOverlay_scroll videoId result p) as [Hx Hy].
  exists r. split_and!; [done| |done].
  rewrite He. unfold rendered. by rewrite Hx, Hy.
Qed.

Lemma overlay_rendered_on_frame_witness :
  let p := set_scroll 0 300
             (initial_page [with_monitorId (Some "participant-1000-0") sample_video]) in
  let p' := animationFrame (updateOverlay (JStr "participant-1000-0") alice p) in
  ∃ r, getElementById "overlay-participant-1000-0" p' = Some r ∧
       elems p' !! r
       = Some (Element "monitor-overlay" "overlay-participant-1000-0"
                 (Some (OverlayStyle 10 320 640 360 "#28a745"))
                 (Some (Label "monitor-label" (label_html alice "#28a745")
                          label_cssText))) ∧
       rafQueue p' = [].
Proof.
  intros p.
  assert (wf_page p) as Hwf by apply wf_page_set_scroll, wf_page_initial.
  assert (querySelector_monitorId (to_string (JStr "participant-1000-0")) p
          = Some (0%nat, with_monitorId (Some "participant-1000-0") sample_video))
    as Hq by by vm_compute.
  exact (overlay_rendered_on_frame (JStr "participant-1000-0") alice p _ _ Hwf Hq).
Defined.

(** The three statuses of the table get their colours, and a status
    that is neither a key of the table nor a member of [Object.prototype]
    (a missing status included) gets the fallback grey. *)
Theorem statusColor_table name score :
  (∀ status, statusColor (Judgment name status score) = colour_of status) ∧
  colour_of (JStr "Attentive") = "#28a745" ∧
  colour_of (JStr "Distracted") = "#ffc107" ∧
  colour_of (JStr "Inattentive") = "#dc3545" ∧
  colour_of JUndefined = "#6c757d" ∧
  ∀ status, to_string status ∉ statusColors.*1 →
            to_string status ∉ object_prototype_keys →
            colour_of status = "#6c757d".
Proof.
  split_and!; [done..|]. intros status H1 H2. unfold colour_of, statusColor. simpl.
  by rewrite get_property_absent.
Qed.

Lemma statusColor_table_witness :
  colour_of (JStr "Asleep") = "#6c757d".
Proof.
  apply (statusColor_table (JStr "Bob") (JNum 3)); vm_compute;
    intros H; repeat (apply elem_of_cons in H as [H|H]; [done|]); by inversion H.
Defined.

(** A status that names a member of [Object.prototype] finds that
    member in the table's object: the fallback is not taken, and the text
    put in the border and in the label's style is none of the four
    colours. *)
Theorem statusColor_inherited result :
  to_string (res_status result) ∈ object_prototype_keys →
  statusColor result = colour_of (res_status result) ∧
  statusColor result ≠ fallbackColor ∧ statusColor result ∉ statusColors.*2.
Proof.
  intros Hk. split; [done|]. revert Hk. rewrite statusColor_key. generalize (to_string (res_status result)). intros k Hk.
  unfold object_prototype_keys in Hk.
  repeat (apply elem_of_cons in Hk as [->|Hk];
          [split; [done|vm_compute; intros H;
             repeat (apply elem_of_cons in H as [H|H]; [done|]); by inversion H]|]).
  by inversion Hk.
Qed.

Lemma statusColor_inherited_witness :
  statusColor (Judgment (JStr "Bob") (JStr "constructor") (JNum 3))
    = "function Object() { [native code] }" ∧
  statusColor (Judgment (JStr "Bob") (JStr "constructor") (JNum 3))
    = colour_of (JStr "constructor") ∧
  statusColor (Judgment (JStr "Bob") (JStr "constructor") (JNum 3)) ≠ fallbackColor ∧
  statusColor (Judgment (JStr "Bob") (JStr "constructor") (JNum 3)) ∉ statusColors.*2.
Proof.
  split; [done|].
  apply (statusColor_inherited (Judgment (JStr "Bob") (JStr "constructor") (JNum 3))).
  vm_compute. left.
Defined.

(** The scroll offset is read when the frame runs and the video's
    rectangle when the answer arrived: when the host scrolls in between, the
    overlay is placed at the old viewport rectangle shifted by the new
    offset. *)
Theorem overlay_placed_with_later_scroll videoId result p n v x y :
  wf_page p →
  querySelector_monitorId (to_string videoId) p = Some (n, v) →
  let p' := animationFrame (host_apply (HostScroll x y) (updateOverlay videoId result p)) in
  ∃ r e, getElementById (overlay_id (to_string videoId)) p' = Some r ∧
         elems p' !! r = Some e ∧
         e = rendered (to_string videoId) (clientRect v) result
               (host_apply (HostScroll x y) p) ∧
         el_style e = Some (OverlayStyle (x + rc_left (clientRect v))
                              (y + rc_top (clientRect v))
                              (rc_width (clientRect v)) (rc_height (clientRect v))
                              (statusColor result)).
Proof.
  intros Hwf Hq. cbv zeta.
  destruct (frame_after_update videoId result p n v
              (host_apply (HostScroll x y) (updateOverlay videoId result p))
              Hwf Hq eq_refl eq_refl eq_refl) as (r & Hg & He).
  by exists r, (rendered (to_string videoId) (clientRect v) result
               (host_apply (HostScroll x y) (updateOverlay videoId result p))).
Qed.

Lemma overlay_placed_with_later_scroll_witness :
  let p := initial_page [with_monitorId (Some "participant-1000-0") sample_video] in
  let p' := animationFrame (host_apply (HostScroll 0 300)
                              (updateOverlay (JStr "participant-1000-0") alice p)) in
  ∃ r e, getElementById (overlay_id (to_string (JStr "participant-1000-0"))) p' = Some r ∧
         elems p' !! r = Some e ∧
         e = rendered (to_string (JStr "participant-1000-0"))
               (clientRect (with_monitorId (Some "participant-1000-0") sample_video)) alice
               (host_apply (HostScroll 0 300) p) ∧
         el_style e = Some (OverlayStyle (0 + 10) (300 + 20) 640 360 (statusColor alice)).
Proof.
  intros p.
  assert (querySelector_monitorId (to_string (JStr "participant-1000-0")) p
          = Some (0%nat, with_monitorId (Some "participant-1000-0") sample_video))
    as Hq by by vm_compute.
  exact (overlay_placed_with_later_scroll (JStr "participant-1000-0") alice p _ _ 0 300
           (wf_page_initial _) Hq).
Defined.

(** The end-to-end scenario.  One participant video, [start] at
    time 1000, the service answers Alice / Attentive / 92, the frame runs:
    one request was sent (cycle 0, the minted id, a 480 by 270 image of the
    video's own picture), the video carries the id, the one overlay on
    screen covers the video with a green border and the label of the
    judgment, and the next cycle is armed for time 2000. *)
Theorem alice_scenario :
  ∃ s, run alice_trace (initial_state [sample_video] 1000) = Some s ∧
    sent s = [Request 0 "participant-1000-0" (Image (Some 7%N) 480 270) 1000] ∧
    monitor_ids (win s) = ["participant-1000-0"] ∧
    attached (win s)
    = [Element "monitor-overlay" "overlay-participant-1000-0"
         (Some (OverlayStyle 10 20 640 360 "#28a745"))
         (Some (Label "monitor-label"
                  ("<strong>Alice</strong> | 92 | <span style=" +:+ dquote
                   +:+ "color:#28a745;" +:+ dquote +:+ ">Attentive</span>")
                  label_cssText))] ∧
    inflight s = ∅ ∧ isAnalyzing s = true ∧
    analysisTimeoutId s = Some 0%nat ∧ timers s = {[0%nat := 2000%N]}.
Proof. eexists. split; [by vm_compute|]. split_and!; by vm_compute. Qed.
