(* ===== verification/Cycle.v ===== *)
(** * Cycle: what one analysis cycle does

    A reference description of [runAnalysisCycle] of [src/content.js] as a
    function of the list of videos (which requests it issues, in which
    order, which videos it stamps) and the proof that the walk of the script
    computes it; the ids minted for participants are injective in the time
    and the index, and an id once attached stays. *)

From S2P Require Import Prelude Js Dom Sampler Overlay Scheduler Invariants Barrier Lifecycle.
From S2P Require Import Rendering.

(** ** The reference description *)

(** The id the cycle uses for the video [v] at [index] at time [t]: the id
    the video carries, or a minted one when it carries none. *)
Definition participant_id (t : N) (index : nat) (v : video) : string :=
  match monitorId v with
  | Some i => if truthy (JStr i) then i else mint_id t index
  | None => mint_id t index
  end.

(** The video after the cycle has visited it. *)
Definition stamped (t : N) (index : nat) (v : video) : video :=
  if cycle_eligible v then with_monitorId (Some (participant_id t index v)) v else v.

(** The request the cycle [c] issues for the video [v] at [index], if any. *)
Definition sample_request (c : nat) (t : N) (index : nat) (v : video) : option request :=
  if cycle_eligible v && negb (bool_decide (videoWidth v = 0%Z)) then
    Some (Request c (participant_id t index v)
            (Image (Some (picture v)) MAX_WIDTH (canvas_height v)) t)
  else None.

(** The requests of cycle [c] over the videos [vs], in document order. *)
Definition cycle_requests (c : nat) (t : N) (vs : list video) : list request :=
  omap id (imap (sample_request c t) vs).

(** The state the walk of cycle [c] reaches from [s] is described by the
    reference: the requests sent (latest first) and in flight, the videos
    stamped, everything the schedule depends on unchanged. *)
Definition walk_result (c : nat) (s s' : state) (vs : list video) (rest : list video) : Prop :=
  let rqs := cycle_requests c (now s) vs in
  sent s' = reverse rqs ++ sent s ∧
  videos (win s') = imap (stamped (now s)) vs ++ rest ∧
  nextRequest s' = (nextRequest s + length rqs)%nat ∧
  (∀ k rq, rqs !! k = Some rq → inflight s' !! (nextRequest s + k)%nat = Some rq) ∧
  (rqs = [] → inflight s' = inflight s) ∧
  same_schedule s s'.

(** ** Lemmas *)

Section cycle.
Implicit Types (s : state) (c n index : nat) (v : video) (vs : list video).

Lemma with_monitorId_same v i : monitorId v = Some i → with_monitorId (Some i) v = v.
Proof. destruct v. simpl. by intros ->. Qed.

Lemma cycle_requests_snoc c t vs v :
  cycle_requests c t (vs ++ [v])
  = cycle_requests c t vs ++ option_list (sample_request c t (length vs) v).
Proof.
  unfold cycle_requests. rewrite imap_app, omap_app. simpl.
  rewrite Nat.add_0_r. by destruct (sample_request _ _ _ _).
Qed.

(** The requests of the reference carry the cycle they are computed for. *)
Lemma cycle_requests_cycle c t vs rq :
  rq ∈ cycle_requests c t vs → rq_cycle rq = c.
Proof.
  induction vs as [|v vs IH] using rev_ind; [by inversion 1|].
  rewrite cycle_requests_snoc, elem_of_app. intros [?|Hrq]; [by apply IH|].
  unfold sample_request in Hrq. case_match; simpl in Hrq; [|by inversion Hrq].
  by apply list_elem_of_singleton in Hrq as ->.
Qed.

Lemma stamped_snoc t vs v :
  imap (stamped t) (vs ++ [v]) = imap (stamped t) vs ++ [stamped t (length vs) v].
Proof. rewrite imap_app. simpl. by rewrite Nat.add_0_r. Qed.

(** [stamp] returns the reference id and leaves the reference video. *)
Lemma stamp_spec index v s :
  videos (win s) !! index = Some v → cycle_eligible v = true →
  (stamp index v s).1 = participant_id (now s) index v ∧
  videos (win (stamp index v s).2) = <[index := stamped (now s) index v]> (videos (win s)) ∧
  inflight (stamp index v s).2 = inflight s ∧ sent (stamp index v s).2 = sent s ∧
  nextRequest (stamp index v s).2 = nextRequest s ∧
  canvasElement (stamp index v s).2 = canvasElement s.
Proof.
  intros Hv He. unfold stamp, stamped, participant_id. rewrite He.
  destruct (monitorId v) as [i|] eqn:Hi; [destruct (truthy (JStr i))|]; simpl;
    rewrite ?(list_alter_lookup _ _ _ _ Hv); split_and!; try done.
  by rewrite (with_monitorId_same _ _ Hi), list_insert_id.
Qed.

(** One iteration of the [forEach]. *)
Lemma visit_spec c s n v :
  videos (win s) !! n = Some v →
  sent (visit c s n) = option_list (sample_request c (now s) n v) ++ sent s ∧
  videos (win (visit c s n)) = <[n := stamped (now s) n v]> (videos (win s)) ∧
  nextRequest (visit c s n)
  = (nextRequest s + length (option_list (sample_request c (now s) n v)))%nat ∧
  inflight (visit c s n)
  = match sample_request c (now s) n v with
    | Some rq => <[nextRequest s := rq]> (inflight s)
    | None => inflight s
    end.
Proof.
  intros Hv. unfold visit, sample_request, stamped. rewrite Hv.
  destruct (cycle_eligible v) eqn:He; simpl;
    [|by rewrite list_insert_id, Nat.add_0_r].
  destruct (stamp_spec n v s Hv He) as (Hid & Hvs & Hin & Hse & Hnr & Hcv).
  destruct (stamp_same_schedule n v s) as (_ & _ & _ & _ & Hnow).
  unfold stamped in Hvs. rewrite He in Hvs.
  destruct (stamp n v s) as [vid s1]. simpl in *. subst vid.
  unfold captureAndSendFrame. case_bool_decide as Hw; simpl.
  - rewrite (proj2 (capture_None v (canvasElement s1)) Hw).
    by rewrite Nat.add_0_r.
  - rewrite capture_Some by done. simpl.
    rewrite Hnow, Hse, Hvs, Hin, Hnr. split_and!; [done..|lia|done].
Qed.

Lemma walk_result_refl c s : walk_result c s s [] (videos (win s)).
Proof. by split_and!. Qed.

(** The walk over the first [n] videos. *)
Lemma walk_prefix c s n :
  (n ≤ length (videos (win s)))%nat →
  walk_result c s (foldl_index (visit c) n s)
    (take n (videos (win s))) (drop n (videos (win s))).
Proof.
  induction n as [|n IH]; intros Hn.
  { rewrite take_0, drop_0. apply walk_result_refl. }
  destruct (lookup_lt_is_Some_2 (videos (win s)) n ltac:(lia)) as [v Hv].
  destruct IH as (Hse & Hvs & Hnr & Hin & Hemp & Hsch); [lia|].
  rewrite foldl_index_S. set (s1 := foldl_index (visit c) n s) in *.
  assert (length (take n (videos (win s))) = n) as Hlen by (rewrite length_take; lia).
  assert (videos (win s1) !! n = Some v) as Hv1.
  { rewrite Hvs, lookup_app_r by (rewrite length_imap; lia).
    by rewrite length_imap, Hlen, Nat.sub_diag, lookup_drop, Nat.add_0_r. }
  destruct (visit_spec c s1 n v Hv1) as (Hse' & Hvs' & Hnr' & Hin').
  assert (now s1 = now s) as Hnow by apply Hsch. rewrite Hnow in *.
  unfold walk_result. rewrite (take_snoc_lookup _ _ _ Hv), cycle_requests_snoc, Hlen.
  rewrite stamped_snoc, Hlen, reverse_app. split_and!.
  - rewrite Hse', Hse. by destruct (sample_request _ _ _ _).
  - rewrite Hvs', Hvs, insert_app_r_alt by (rewrite length_imap; lia).
    rewrite length_imap, Hlen, Nat.sub_diag, (drop_S _ _ _ Hv). simpl.
    by rewrite <-app_assoc.
  - rewrite Hnr', Hnr, length_app. lia.
  - intros k rq Hk. rewrite Hin'. apply lookup_app_Some in Hk as [Hk|[Hge Hk]].
    + destruct (sample_request _ _ _ _); [|by apply Hin].
      rewrite lookup_insert_ne; [by apply Hin|]. apply lookup_lt_Some in Hk. lia.
    + destruct (sample_request _ _ _ _) as [rq'|]; [|done].
      destruct (k - _)%nat as [|?] eqn:Hkk; simplify_eq/=.
      replace (nextRequest s + k)%nat with (nextRequest s1) by lia.
      apply lookup_insert_eq.
  - intros Hnil. apply app_eq_nil in Hnil as [Hn1 Hn2]. rewrite Hin'.
    destruct (sample_request _ _ _ _); [done|by apply Hemp].
  - etrans; [done|apply visit_same_schedule].
Qed.

(** The whole walk of a cycle. *)
Lemma walk_all c s :
  walk_result c s (foldl_index (visit c) (length (videos (win s))) s)
    (videos (win s)) [].
Proof.
  pose proof (walk_prefix c s (length (videos (win s))) ltac:(lia)) as H.
  by rewrite firstn_all, drop_all in H.
Qed.

(** An id the video carries is the id the cycle uses. *)
Lemma participant_id_kept (t : N) index v i :
  monitorId v = Some i → i ≠ EmptyString → participant_id t index v = i.
Proof.
  intros Hi Hne. unfold participant_id. rewrite Hi.
  by rewrite (proj2 (truthy_str i) Hne).
Qed.

Lemma stamped_kept (t : N) index v i :
  monitorId v = Some i → i ≠ EmptyString → stamped t index v = v.
Proof.
  intros Hi Hne. unfold stamped. rewrite (participant_id_kept t index v i Hi Hne).
  destruct (cycle_eligible v); [by apply with_monitorId_same|done].
Qed.

Lemma mint_id_nonempty (t : N) index : mint_id t index ≠ EmptyString.
Proof. done. Qed.

Lemma stopAnalysis_videos s : videos (win (stopAnalysis s)) = videos (win s).
Proof.
  unfold stopAnalysis. destruct (isAnalyzing s); [|done]. simpl.
  by rewrite clearTimeout_win.
Qed.

Lemma receive_videos rq o s : videos (win (receive rq o s)) = videos (win s).
Proof.
  unfold receive. repeat case_match; try done. simpl. apply updateOverlay_videos.
Qed.

Lemma settle_videos r o s : videos (win (settle r o s)) = videos (win s).
Proof.
  unfold settle. destruct (inflight s !! r); [|done].
  by rewrite join_win, receive_videos.
Qed.

(** The videos after [runAnalysisCycle]. *)
Lemma runAnalysisCycle_videos s :
  videos (win (runAnalysisCycle s))
  = if isAnalyzing s then imap (stamped (now s)) (videos (win s)) else videos (win s).
Proof.
  unfold runAnalysisCycle. destruct (isAnalyzing s); [|done]. cbv zeta.
  rewrite join_win.
  destruct (walk_all (nextCycle s) (set_nextCycle (S (nextCycle s)) s))
    as (_ & -> & _). by rewrite app_nil_r.
Qed.

(** The dash of a minted id is not a digit of the time. *)
Lemma pretty_N_no_dash (t : N) : str_mem "-"%char (pretty t) = false.
Proof. apply str_digits_no_mem; [done|apply pretty_N_digits]. Qed.

(** A minted id contains no character that ends or escapes a quoted
    attribute value. *)
Lemma mint_id_selector_safe (t : N) (n : nat) : selector_safe (mint_id t n) = true.
Proof.
  unfold selector_safe, mint_id. rewrite !str_mem_app.
  rewrite !(str_digits_no_mem _ (pretty t)) by (done || apply pretty_N_digits).
  by rewrite !(str_digits_no_mem _ (pretty n)) by (done || apply pretty_nat_digits).
Qed.

(** A minted id determines the time and the index it was made of. *)
Lemma mint_id_injective (t t' : N) (n n' : nat) :
  mint_id t n = mint_id t' n' → t = t' ∧ n = n'.
Proof.
  unfold mint_id. intros H%(inj (String.app "participant-")).
  rewrite !str_app_cons, !str_app_nil_l in H.
  apply str_app_sep_inj in H as [Ht Hn]; [|apply pretty_N_no_dash..].
  split; by apply (inj pretty).
Qed.

(** The videos of the page after a task that is not the host's. *)
Lemma next_videos e s :
  (∀ h, e ≠ Host h) →
  videos (win (next e s)) = videos (win s) ∨
  videos (win (next e s)) = imap (stamped (now s)) (videos (win s)).
Proof.
  intros He. destruct e as [command|t|r o| |h|d]; unfold next, handle; cbn [snd].
  - unfold onMessage. repeat case_decide; [|left; apply stopAnalysis_videos|by left].
    unfold startAnalysis. destruct (isAnalyzing s) eqn:Hrun; [by left|].
    case_decide; [by left|]. cbn [snd]. rewrite runAnalysisCycle_videos. by right.
  - unfold fire. rewrite runAnalysisCycle_videos. simpl. destruct (isAnalyzing s); auto.
  - left. apply settle_videos.
  - left. apply animationFrame_videos.
  - by destruct (He h).
  - by left.
Qed.

Lemma imap_stamped_lookup (t : N) vs n v i :
  vs !! n = Some v → monitorId v = Some i → i ≠ EmptyString →
  imap (stamped t) vs !! n = Some v.
Proof.
  intros Hv Hi Hne. rewrite list_lookup_imap, Hv. simpl.
  by rewrite (stamped_kept t n v i).
Qed.
End cycle.

(** ** Theorems *)

(** C6: in a running, well-formed state [runAnalysisCycle] issues exactly
    the requests of the reference description, in document order: one for
    each video that is ready and larger than 100 by 100 and has a stream
    width, under the id the video carries or a freshly minted one, with the
    480-wide image of the video's own picture; it stamps the eligible
    videos; and it arms the next cycle at once only when it issued no
    request. *)
Theorem runAnalysisCycle_reference s :
  wf s → isAnalyzing s = true →
  let rqs := cycle_requests (nextCycle s) (now s) (videos (win s)) in
  let s' := runAnalysisCycle s in
  sent s' = reverse rqs ++ sent s ∧
  videos (win s') = imap (stamped (now s)) (videos (win s)) ∧
  (∀ k rq, rqs !! k = Some rq → inflight s' !! (nextRequest s + k)%nat = Some rq) ∧
  (rqs ≠ [] → timers s' = timers s ∧ analysisTimeoutId s' = analysisTimeoutId s) ∧
  (rqs = [] → timers s' = <[nextTimer s := (now s + 1000)%N]> (timers s) ∧
              analysisTimeoutId s' = Some (nextTimer s)).
Proof.
  intros Hwf Hrun. cbv zeta. rewrite runAnalysisCycle_videos, Hrun.
  unfold runAnalysisCycle. rewrite Hrun. cbv zeta.
  destruct (walk_all (nextCycle s) (set_nextCycle (S (nextCycle s)) s))
    as (Hse & _ & _ & Hin & Hemp & Hsch).
  rewrite join_sent, join_inflight. simpl in *. split_and!; [done..| |].
  - intros Hne. unfold join. rewrite decide_True; [split; apply Hsch|].
    destruct (cycle_requests _ _ _) as [|rq rqs] eqn:E; [done|].
    apply cycle_pending_spec. exists (nextRequest s + 0)%nat, rq.
    split; [by apply Hin|].
    apply (cycle_requests_cycle _ (now s) (videos (win s))). rewrite E. left.
  - intros Hnil. destruct Hsch as (Ht & Hnt & Hr & _ & Hnow). simpl in *.
    unfold join. rewrite decide_False.
    + unfold finish_cycle. rewrite Hr, Hrun. simpl. by rewrite Ht, Hnt, Hnow.
    + intros (r & rq & Hr' & Hc)%cycle_pending_spec.
      rewrite (Hemp Hnil) in Hr'. apply (wf_cycles _ Hwf) in Hr'. lia.
Qed.

Lemma runAnalysisCycle_reference_witness :
  let s := set_isAnalyzing true (initial_state [sample_video; narrow_video] 1000) in
  let rqs := cycle_requests (nextCycle s) (now s) (videos (win s)) in
  let s' := runAnalysisCycle s in
  rqs = [Request 0 "participant-1000-0" (Image (Some 7%N) 480 270) 1000] ∧
  sent s' = reverse rqs ++ sent s ∧
  videos (win s') = imap (stamped (now s)) (videos (win s)) ∧
  (∀ k rq, rqs !! k = Some rq → inflight s' !! (nextRequest s + k)%nat = Some rq) ∧
  (rqs ≠ [] → timers s' = timers s ∧ analysisTimeoutId s' = analysisTimeoutId s) ∧
  (rqs = [] → timers s' = <[nextTimer s := (now s + 1000)%N]> (timers s) ∧
              analysisTimeoutId s' = Some (nextTimer s)).
Proof.
  split; [by vm_compute|].
  apply runAnalysisCycle_reference; [|done].
  apply wf_set_isAnalyzing_true, wf_initial.
Defined.

(** The id minted for a participant determines the time and the
    index it was minted with: two mintings give the same id only at the
    same millisecond and the same position. *)
Theorem mint_id_inj (t t' : N) (n n' : nat) v v' :
  monitorId v = None → monitorId v' = None →
  participant_id t n v = participant_id t' n' v' → t = t' ∧ n = n'.
Proof.
  unfold participant_id. intros -> ->. apply mint_id_injective.
Qed.

Lemma mint_id_inj_witness :
  participant_id 1000 0 sample_video = "participant-1000-0" ∧
  (1000%N = 1000%N ∧ 0%nat = 0%nat).
Proof.
  split; [by vm_compute|]. by apply (mint_id_inj _ _ _ _ sample_video sample_video).
Defined.

(** C31: identity stability.  A video that carries an id keeps it, at its
    position, through every task of the script (a cycle included): only the
    host, by removing or inserting videos, moves it. *)
Theorem monitorId_stable e s n v i :
  (∀ h, e ≠ Host h) →
  videos (win s) !! n = Some v → monitorId v = Some i → i ≠ EmptyString →
  videos (win (next e s)) !! n = Some v ∧
  participant_id (now (next e s)) n v = i.
Proof.
  intros He Hv Hi Hne. split; [|by apply participant_id_kept].
  destruct (next_videos e s He) as [->| ->]; [done|].
  by apply imap_stamped_lookup with i.
Qed.

Lemma monitorId_stable_witness :
  let s := next (Message "start") (initial_state [sample_video] 1000) in
  let v := with_monitorId (Some "participant-1000-0") sample_video in
  let e := TimerFire 0 in
  videos (win (next e (next (Tick 5000) s))) !! 0%nat = Some v ∧
  participant_id (now (next e (next (Tick 5000) s))) 0 v = "participant-1000-0".
Proof.
  apply (monitorId_stable (TimerFire 0) _ 0%nat _ "participant-1000-0"); done.
Defined.

(** Ids are minted from the clock and the position only.  When
    [start] is accepted twice within one millisecond and the host has put
    a video in front in between, the new video gets the id the old one
    carries: two participants share an id, their requests carry it with
    different pictures, and the answers for both are drawn in one overlay
    placed on the first of them. *)
Theorem same_millisecond_ids_collide :
  let front := Video 4 360 640 640 480 (Rect 700 20 640 360) 9 None in
  let bob := Judgment (JStr "Bob") (JStr "Distracted") (JNum 40) in
  ∃ s, run [Message "start"; Message "stop"; Host (HostInsert 0 front); Message "start";
            Settle 1 (judged (JStr "participant-1000-0") alice);
            Settle 2 (judged (JStr "participant-1000-0") bob);
            AnimationFrame]
         (initial_state [sample_video] 1000) = Some s ∧
    monitor_ids (win s) = ["participant-1000-0"; "participant-1000-0"] ∧
    participant_id 1000 0 front
    = participant_id 1000 1 (with_monitorId (Some (mint_id 1000 0)) sample_video) ∧
    (rq_videoId <$> sent s) = replicate 3 "participant-1000-0" ∧
    (img_picture ∘ rq_image <$> take 2 (sent s)) = [Some 7%N; Some 9%N] ∧
    attached (win s)
    = [rendered "participant-1000-0" (Rect 700 20 640 360) bob (win s)].
Proof. eexists. split; [by vm_compute|]. split_and!; by vm_compute. Qed.
