(* ===== verification/Observation.v ===== *)
(** * Observation: the console and the history of requests are written, never read

    The state of the model keeps two lists the script only adds to: the
    console ([console.log], [console.error]) and the history [sent] of the
    requests issued, which stands for what the inference service has seen.
    Two states that differ in these lists only are equivalent ([≡]).  The
    setters, the functions of the script, [handle] and [enabled] are
    [Proper] for the equivalence, so that equivalent states can be rewritten
    one for the other; and both lists only grow.  What the script does never
    depends on what it has logged or sent. *)

From S2P Require Import Prelude Js Dom Sampler Overlay Scheduler Invariants Barrier.
From S2P Require Import Lifecycle Cycle.

(** ** Definitions *)

(** The state without its console and its history. *)
Definition visible (s : state) : state :=
  set_sent (λ _, []) (set_console (λ _, []) s).

#[export] Instance state_equiv : Equiv state := λ s s', visible s = visible s'.


(** ** The equivalence *)

#[export] Instance state_equivalence : Equivalence (≡@{state}).
Proof.
  split; [by intros s|by intros s s'|intros s1 s2 s3]. unfold equiv, state_equiv. congruence.
Qed.

Lemma state_equiv_fields s s' :
  s ≡ s' ↔
  win s = win s' ∧ isAnalyzing s = isAnalyzing s' ∧
  analysisTimeoutId s = analysisTimeoutId s' ∧ canvasElement s = canvasElement s' ∧
  now s = now s' ∧ timers s = timers s' ∧ nextTimer s = nextTimer s' ∧
  inflight s = inflight s' ∧ nextRequest s = nextRequest s' ∧
  nextCycle s = nextCycle s'.
Proof.
  split.
  - intros H. injection H. by intros.
  - destruct s, s'. simpl. intros (?&?&?&?&?&?&?&?&?&?). by simplify_eq.
Qed.

Ltac fields H :=
  apply state_equiv_fields in H as (?&?&?&?&?&?&?&?&?&?).
Ltac same_fields H :=
  fields H; apply state_equiv_fields; simpl; split_and!; congruence.

Section proper.
Implicit Types (s : state).

Lemma equiv_isAnalyzing s s' : s ≡ s' → isAnalyzing s = isAnalyzing s'.
Proof. intros H. by fields H. Qed.
Lemma equiv_inflight s s' : s ≡ s' → inflight s = inflight s'.
Proof. intros H. by fields H. Qed.
Lemma equiv_win s s' : s ≡ s' → win s = win s'.
Proof. intros H. by fields H. Qed.
Lemma equiv_now s s' : s ≡ s' → now s = now s'.
Proof. intros H. by fields H. Qed.

#[export] Instance set_win_proper f : Proper ((≡) ==> (≡)) (set_win f).
Proof. intros s s' H. same_fields H. Qed.
#[export] Instance set_isAnalyzing_proper b : Proper ((≡) ==> (≡)) (set_isAnalyzing b).
Proof. intros s s' H. same_fields H. Qed.
#[export] Instance set_inflight_proper f : Proper ((≡) ==> (≡)) (set_inflight f).
Proof. intros s s' H. same_fields H. Qed.
#[export] Instance set_timers_proper f : Proper ((≡) ==> (≡)) (set_timers f).
Proof. intros s s' H. same_fields H. Qed.
#[export] Instance set_now_proper t : Proper ((≡) ==> (≡)) (set_now t).
Proof. intros s s' H. same_fields H. Qed.
#[export] Instance fetch_proper : Proper ((=) ==> (≡) ==> (≡)) fetch.
Proof. intros rq ? <- s s' H. same_fields H. Qed.
#[export] Instance clearTimeout_proper o : Proper ((≡) ==> (≡)) (clearTimeout o).
Proof. intros s s' H. destruct o; same_fields H. Qed.

(** The console is written and never read. *)
Lemma console_log_equiv m s : console_log m s ≡ s.
Proof. done. Qed.
Lemma console_error_equiv m s : console_error m s ≡ s.
Proof. done. Qed.

#[export] Instance finish_cycle_proper : Proper ((≡) ==> (≡)) finish_cycle.
Proof.
  intros s s' H. unfold finish_cycle. rewrite (equiv_isAnalyzing s s' H).
  destruct (isAnalyzing s'); [|done]. same_fields H.
Qed.

#[export] Instance join_proper c : Proper ((≡) ==> (≡)) (join c).
Proof.
  intros s s' H.
  assert (cycle_pending c s ↔ cycle_pending c s') as Hp.
  { unfold cycle_pending. by rewrite (equiv_inflight s s' H). }
  unfold join. repeat case_decide; [done|tauto..|by f_equiv].
Qed.

#[export] Instance stamp_proper index v :
  Proper ((≡) ==> prod_relation (=) (≡)) (stamp index v).
Proof.
  intros s s' H. unfold stamp. rewrite (equiv_now s s' H).
  repeat case_match; split; simpl; try done; by f_equiv.
Qed.

#[export] Instance captureAndSendFrame_proper c i v :
  Proper ((≡) ==> (≡)) (captureAndSendFrame c i v).
Proof.
  intros s s' H. unfold captureAndSendFrame.
  assert (canvasElement s = canvasElement s') as -> by (by fields H).
  rewrite (equiv_now s s' H). case_match; [|done]. case_match. f_equiv. same_fields H.
Qed.

#[export] Instance visit_proper c : Proper ((≡) ==> (=) ==> (≡)) (visit c).
Proof.
  intros s s' H index ? <-. unfold visit. rewrite (equiv_win s s' H).
  destruct (videos (win s') !! index) as [v|]; [|done].
  destruct (cycle_eligible v); [|done].
  destruct (stamp_proper index v s s' H) as [Hi Hs].
  destruct (stamp index v s) as [i s1], (stamp index v s') as [i' s1'].
  simpl in Hi, Hs. subst. by f_equiv.
Qed.

#[export] Instance walk_proper c n : Proper ((≡) ==> (≡)) (foldl_index (visit c) n).
Proof.
  intros s s' H. induction n as [|n IH]; [done|]. rewrite !foldl_index_S. by f_equiv.
Qed.

#[export] Instance runAnalysisCycle_proper : Proper ((≡) ==> (≡)) runAnalysisCycle.
Proof.
  intros s s' H. unfold runAnalysisCycle. rewrite (equiv_isAnalyzing s s' H).
  destruct (isAnalyzing s'); [|done]. cbv zeta.
  assert (nextCycle s = nextCycle s') as -> by (by fields H).
  set (s1 := set_nextCycle _ s). set (s1' := set_nextCycle _ s').
  assert (s1 ≡ s1') as H1 by same_fields H.
  rewrite (equiv_win s1 s1' H1). by do 2 f_equiv.
Qed.

#[export] Instance startAnalysis_proper :
  Proper ((≡) ==> prod_relation (=) (≡)) startAnalysis.
Proof.
  intros s s' H. unfold startAnalysis.
  rewrite (equiv_isAnalyzing s s' H), (equiv_win s s' H).
  repeat case_match; split; simpl; try done. f_equiv. same_fields H.
Qed.

#[export] Instance stopAnalysis_proper : Proper ((≡) ==> (≡)) stopAnalysis.
Proof.
  intros s s' H. unfold stopAnalysis. rewrite (equiv_isAnalyzing s s' H).
  destruct (isAnalyzing s'); [|done]. rewrite !console_log_equiv.
  assert (analysisTimeoutId s = analysisTimeoutId s') as Ht by (by fields H).
  simpl. rewrite Ht. by do 3 f_equiv.
Qed.

#[export] Instance receive_proper rq o : Proper ((≡) ==> (≡)) (receive rq o).
Proof.
  intros s s' H. unfold receive, fetch_failed.
  repeat case_match; rewrite ?console_error_equiv; try done. by f_equiv.
Qed.

#[export] Instance settle_proper r o : Proper ((≡) ==> (≡)) (settle r o).
Proof.
  intros s s' H. unfold settle. rewrite (equiv_inflight s s' H).
  destruct (inflight s' !! r); [|done]. by do 3 f_equiv.
Qed.

#[export] Instance handle_proper e : Proper ((≡) ==> prod_relation (=) (≡)) (handle e).
Proof.
  intros s s' H. destruct e as [command|t|r o| |h|d]; simpl.
  - unfold onMessage. repeat case_decide.
    + destruct (startAnalysis_proper s s' H) as [Hr Hs].
      destruct (startAnalysis s), (startAnalysis s'). simpl in *. by subst.
    + split; [done|]. simpl. by f_equiv.
    + done.
  - split; [done|]. simpl. unfold fire. by do 2 f_equiv.
  - split; [done|]. simpl. by f_equiv.
  - split; [done|]. simpl. by f_equiv.
  - split; [done|]. simpl. by f_equiv.
  - split; [done|]. simpl. rewrite (equiv_now s s' H). by f_equiv.
Qed.

#[export] Instance next_proper e : Proper ((≡) ==> (≡)) (next e).
Proof. intros s s' H. apply (handle_proper e s s' H). Qed.

#[export] Instance enabled_proper e : Proper ((≡) ==> iff) (enabled e).
Proof.
  intros s s' H. destruct e; simpl; try done.
  - assert (timers s = timers s') as -> by (by fields H). by rewrite (equiv_now s s' H).
  - by rewrite (equiv_inflight s s' H).
Qed.
End proper.


(** ** Both lists only grow *)

Section grows.
Implicit Types (s : state) (e : event).





End grows.

(** ** Theorems *)


