(* ===== verification/Identity.v ===== *)
(** * Identity: no two videos carry the same participant id

    An id is minted from the clock and the position of the video
    ([mint_id]).  Within one walk the positions differ, and between two
    walks of one scheduling chain the clock has advanced by the delay of
    the timer.  The one way left to mint an id twice is to start the script
    again in the millisecond in which it last minted one.  [punctual]
    excludes that; with [calm] it makes up the discipline [orderly], under
    which the ids carried by the videos are pairwise distinct
    ([distinct_ids]) and an answer is drawn over the video that was sampled
    under its id. *)

From S2P Require Import Prelude Js Dom Sampler Overlay Scheduler Invariants Barrier.
From S2P Require Import Lifecycle Rendering Cycle.

(** ** Definitions *)

(** The id the video carries, if any, was minted strictly before [t]. *)
Definition minted_before (t : N) (v : video) : Prop :=
  ∀ i, monitorId v = Some i → ∃ t' n, i = mint_id t' n ∧ (t' < t)%N.

(** [start] is not sent to a stopped script in a millisecond in which an id
    was minted. *)
Definition punctual (e : event) (s : state) : Prop :=
  match e with
  | Message command =>
      command = "start" → isAnalyzing s = false →
      Forall (minted_before (now s)) (videos (win s))
  | _ => True
  end.

Definition orderly (e : event) (s : state) : Prop := calm e s ∧ punctual e s.

Record distinct_ids (s : state) : Prop := DistinctIds {
  (** no two videos carry the same id *)
  di_nodup : NoDup (monitor_ids (win s));
  (** when a pending timer fires, every id is older than the clock *)
  di_timers : ∀ t d, timers s !! t = Some d →
    Forall (minted_before d) (videos (win s))
}.

(** Two participants; the second joins, in front of the first, after the
    first cycle and is stamped by the second cycle, a second later. *)
Definition second_joined : state :=
  next (TimerFire 0) (next (Tick 1000) (next (Host (HostInsert 0 sample_video))
    (next (Settle 0 NetworkError)
      (next (Message "start") (initial_state [sample_video] 1000))))).

(** ** Lemmas on lists of videos *)

Section ids.
Implicit Types (v : video) (vs : list video) (t d : N) (s : state).

Lemma minted_before_mono t d v : (t ≤ d)%N → minted_before t v → minted_before d v.
Proof.
  intros Hd Hv i Hi. destruct (Hv i Hi) as (t' & n & -> & ?).
  exists t', n. split; [done|lia].
Qed.

Lemma minted_minted_before t d v : (t < d)%N → minted t v → minted_before d v.
Proof.
  intros Hd Hv i Hi. destruct (Hv i Hi) as (t' & n & -> & ?).
  exists t', n. split; [done|lia].
Qed.

(** The id of a video after the cycle at [t] visited it at [index]: the
    one it carried, or the one minted for it. *)
Lemma stamped_id t index v x :
  monitorId (stamped t index v) = Some x →
  monitorId v = Some x ∨ x = mint_id t index.
Proof.
  unfold stamped, participant_id. destruct (cycle_eligible v); [|by left].
  destruct (monitorId v) as [i|]; [destruct (truthy _)|]; simpl; intros [= <-]; auto.
Qed.

Lemma stamped_minted_before t d index v :
  (t < d)%N → minted_before d v → minted_before d (stamped t index v).
Proof.
  intros Hd Hv i [Hi| ->]%stamped_id; [by apply Hv|]. by exists t, index.
Qed.

(** Stamping at a time at which no id was minted keeps the ids distinct. *)
Lemma stamped_NoDup t vs :
  Forall (minted_before t) vs → NoDup (omap monitorId vs) →
  NoDup (omap monitorId (imap (stamped t) vs)).
Proof.
  intros Hold. rewrite !NoDup_omap_lookup. intros Hnd j k a b x Ha Hb Hxa Hxb.
  apply list_lookup_imap_Some in Ha as (a0 & Ha0 & ->).
  apply list_lookup_imap_Some in Hb as (b0 & Hb0 & ->).
  apply stamped_id in Hxa as [Hxa| ->]; apply stamped_id in Hxb as [Hxb|Hxb].
  - by eapply Hnd.
  - destruct (Forall_lookup_1 _ _ _ _ Hold Ha0 x Hxa) as (t' & n & -> & Hlt).
    apply mint_id_injective in Hxb as [-> _]. lia.
  - destruct (Forall_lookup_1 _ _ _ _ Hold Hb0 _ Hxb) as (t' & n & Heq & Hlt).
    apply mint_id_injective in Heq as [-> _]. lia.
  - by apply mint_id_injective in Hxb as [_ ?].
Qed.

Lemma stamped_Forall t d vs :
  (t < d)%N → Forall (minted_before d) vs →
  Forall (minted_before d) (imap (stamped t) vs).
Proof.
  intros Hd Hvs. apply Forall_lookup. intros k v (v0 & Hv0 & ->)%list_lookup_imap_Some.
  apply stamped_minted_before; [done|]. by eapply Forall_lookup_1.
Qed.

(** The host adds and removes videos but mints no id. *)
Lemma host_ids (P : video → Prop) h p :
  (∀ v, P (with_monitorId None v)) →
  (∀ old v, P old → P (with_monitorId (monitorId old) v)) →
  Forall P (videos p) → Forall P (videos (host_apply h p)).
Proof.
  intros Hnone Hkeep Hvs. destruct h as [n v|n|n v|x y]; simpl; [| | |done].
  - apply Forall_app. split; [by apply Forall_take|].
    apply Forall_cons. split; [apply Hnone|by apply Forall_drop].
  - by apply Forall_delete.
  - apply Forall_alter; [done|]. intros old _. apply Hkeep.
Qed.

(** Unless it removes a video the host leaves the ids as they are. *)
Lemma host_monitor_ids_keep h p :
  (∀ n, h ≠ HostRemove n) → monitor_ids (host_apply h p) = monitor_ids p.
Proof.
  intros Hh. unfold monitor_ids. destruct h as [n v|n|n v|x y]; simpl; [| | |done].
  - rewrite omap_app. simpl. by rewrite <-omap_app, take_drop.
  - by destruct (Hh n).
  - by rewrite omap_alter_same.
Qed.

Lemma host_monitor_ids h p :
  monitor_ids (host_apply h p) `sublist_of` monitor_ids p.
Proof.
  destruct h as [n v|n|n v|x y]; [|apply omap_sublist, sublist_delete|..];
    by rewrite host_monitor_ids_keep.
Qed.
End ids.

(** ** Preservation of [distinct_ids] *)

Section distinct.
Implicit Types (v : video) (t d : N) (s : state) (e : event).

Lemma distinct_ids_initial vs (tm : N) : distinct_ids (initial_state vs tm).
Proof.
  split; simpl; [|vacuous]. unfold monitor_ids. simpl.
  induction vs as [|v vs IH]; simpl; [constructor|done].
Qed.

(** A task that keeps the videos and arms no timer. *)
Lemma distinct_ids_same s s' :
  videos (win s') = videos (win s) → timers s' ⊆ timers s →
  distinct_ids s → distinct_ids s'.
Proof.
  intros Hv Ht [H1 H2]. split; unfold monitor_ids in *; rewrite Hv; [done|].
  intros t d Htd. apply (H2 t). by eapply lookup_weaken.
Qed.

(** The timers after a join: those before, and the one armed now. *)
Lemma join_timers c s k d :
  timers (join c s) !! k = Some d →
  timers s !! k = Some d ∨ d = (now s + 1000)%N.
Proof.
  unfold join, finish_cycle. case_decide; [by left|].
  destruct (isAnalyzing s); [|by left]. simpl.
  intros [[_ <-]|[_ ?]]%lookup_insert_Some; auto.
Qed.

(** A join keeps the ids distinct: the timer it arms is due later than
    every id was minted. *)
Lemma distinct_ids_join c s :
  wf s → distinct_ids s → distinct_ids (join c s).
Proof.
  intros Hwf [H1 H2]. split; rewrite join_win; [done|].
  intros k d [Hk| ->]%join_timers; [by eapply H2|].
  eapply Forall_impl; [apply (wf_minted _ Hwf)|].
  intros v. apply minted_minted_before. lia.
Qed.

(** A cycle that starts with no timer pending and every id older than the
    clock. *)
Lemma distinct_ids_cycle s :
  wf s → timers s = ∅ → Forall (minted_before (now s)) (videos (win s)) →
  NoDup (monitor_ids (win s)) → distinct_ids (runAnalysisCycle s).
Proof.
  intros Hwf Ht Hold Hnd. pose proof (runAnalysisCycle_videos s) as Hv.
  unfold runAnalysisCycle in *. destruct (isAnalyzing s) eqn:Hrun;
    [|split; [done|rewrite Ht; vacuous]].
  set (s1 := set_nextCycle _ s) in *. set (s2 := foldl_index _ _ _) in *.
  destruct (walk_same_schedule (nextCycle s) (length (videos (win s1))) s1)
    as (Ht2 & _ & _ & _ & Hn2). fold s2 in Ht2, Hn2.
  rewrite join_win in Hv. split; unfold monitor_ids; rewrite join_win, Hv.
  - by apply stamped_NoDup.
  - intros k d [Hk| ->]%join_timers.
    { rewrite Ht2 in Hk. unfold s1 in Hk. simpl in Hk. by rewrite Ht in Hk. }
    rewrite Hn2. apply stamped_Forall; [simpl; lia|].
    eapply Forall_impl; [done|]. intros v. apply minted_before_mono. simpl. lia.
Qed.

Lemma distinct_ids_stopAnalysis s : distinct_ids s → distinct_ids (stopAnalysis s).
Proof.
  apply distinct_ids_same; [apply stopAnalysis_videos|].
  unfold stopAnalysis. destruct (isAnalyzing s); [|done]. simpl.
  destruct (analysisTimeoutId s); [apply delete_subseteq|done].
Qed.

Lemma distinct_ids_startAnalysis s :
  wf s → single_chain s → distinct_ids s →
  (isAnalyzing s = false → Forall (minted_before (now s)) (videos (win s))) →
  distinct_ids (startAnalysis s).2.
Proof.
  intros Hwf Hsc Hd Hp. unfold startAnalysis.
  destruct (isAnalyzing s) eqn:Hrun; [done|]. case_decide; [done|]. cbn [snd].
  apply distinct_ids_cycle; simpl; [|by apply stopped_no_timer|by auto|apply Hd].
  by apply wf_set_console, wf_set_isAnalyzing_true.
Qed.

Lemma distinct_ids_fire k d s :
  wf s → single_chain s → distinct_ids s →
  timers s !! k = Some d → (d ≤ now s)%N → distinct_ids (fire k s).
Proof.
  intros Hwf Hsc Hd Hk Hdue. apply distinct_ids_cycle; simpl.
  - by apply (wf_clearTimeout (Some k)).
  - apply (delete_only_key (timers s) (Some k)). intros k' Hk'.
    destruct (sc_handle _ Hsc k') as [Hh' _]; [done|].
    destruct (sc_handle _ Hsc k) as [Hh _]; [by rewrite Hk|]. congruence.
  - eapply Forall_impl; [by apply (di_timers _ Hd k d)|].
    intros v. by apply minted_before_mono.
  - apply Hd.
Qed.

Lemma distinct_ids_settle r o s : wf s → distinct_ids s → distinct_ids (settle r o s).
Proof.
  intros Hwf Hd. unfold settle. destruct (inflight s !! r) as [rq|]; [|done].
  apply distinct_ids_join; [by apply wf_receive, wf_delete_inflight|].
  apply (distinct_ids_same s); [by rewrite receive_videos| |done].
  by destruct (receive_same_schedule rq o (set_inflight (delete r) s)) as (-> & _).
Qed.

Lemma distinct_ids_host h s : distinct_ids s → distinct_ids (set_win (host_apply h) s).
Proof.
  intros [H1 H2]. split; simpl.
  - eapply sublist_NoDup; [done|apply host_monitor_ids].
  - intros k d Hk. apply host_ids; [by intros v i|by intros old v|by eapply H2].
Qed.

(** Every task of an orderly environment keeps the ids distinct. *)
Lemma distinct_ids_next e s :
  wf s → single_chain s → distinct_ids s → enabled e s → punctual e s →
  distinct_ids (next e s).
Proof.
  intros Hwf Hsc Hd He Hp. destruct e as [command|k|r o| |h|d]; unfold next; simpl.
  - unfold onMessage. repeat case_decide; simplify_eq/=;
      [|by apply distinct_ids_stopAnalysis|done].
    pose proof (distinct_ids_startAnalysis s Hwf Hsc Hd (Hp eq_refl)).
    by destruct (startAnalysis s).
  - destruct He as (due & Hk & Hdue). by eapply distinct_ids_fire.
  - by apply distinct_ids_settle.
  - apply (distinct_ids_same s); [apply animationFrame_videos|done..].
  - by apply distinct_ids_host.
  - by apply (distinct_ids_same s).
Qed.

Lemma reachable_under_mono (D D' : event → state → Prop) vs (tm : N) s :
  (∀ e s, D e s → D' e s) → reachable_under D vs tm s → reachable_under D' vs tm s.
Proof. intros HD. induction 1; constructor; auto. Qed.

(** An orderly environment is calm. *)
Lemma calm_orderly vs (tm : N) s :
  reachable_under orderly vs tm s → reachable_under calm vs tm s.
Proof. apply reachable_under_mono. by intros ?? []. Qed.

Lemma single_chain_orderly vs (tm : N) s :
  reachable_under orderly vs tm s → single_chain s.
Proof. intros Hs. by eapply single_chain_calm, calm_orderly. Qed.

Lemma distinct_ids_orderly vs (tm : N) s :
  reachable_under orderly vs tm s → distinct_ids s.
Proof.
  induction 1 as [|s e Hs IH He [Hc Hp]]; [apply distinct_ids_initial|].
  apply distinct_ids_next; [by eapply wf_reachable_under| |done..].
  by eapply single_chain_orderly.
Qed.

(** With distinct ids the lookup by id finds the video that carries it. *)
Lemma querySelector_distinct p n v i :
  NoDup (monitor_ids p) → videos p !! n = Some v → monitorId v = Some i →
  querySelector_monitorId i p = Some (n, v).
Proof.
  intros Hnd Hn Hi. destruct (querySelector_monitorId i p) as [[k w]|] eqn:E.
  - apply querySelector_monitorId_Some in E as [Hk Hw].
    pose proof (proj1 (NoDup_omap_lookup monitorId (videos p)) Hnd k n w v i Hk Hn Hw Hi).
    by simplify_eq.
  - apply querySelector_monitorId_None in E. destruct E.
    apply list_elem_of_omap. exists v. split; [by eapply list_elem_of_lookup_2|done].
Qed.
End distinct.

#[export] Hint Resolve distinct_ids_initial distinct_ids_next : monitor.

(** ** Theorems *)

(** C11: participant ids are unique.  In an orderly environment (calm, and
    no [start] of a stopped script in a millisecond in which an id was
    minted) no two videos of the page carry the same id, and the lookup
    [updateOverlay] makes for an id finds the one video that carries it. *)
Theorem participant_ids_distinct vs (tm : N) s :
  reachable_under orderly vs tm s →
  NoDup (monitor_ids (win s)) ∧
  ∀ n v i, videos (win s) !! n = Some v → monitorId v = Some i →
           querySelector_monitorId i (win s) = Some (n, v).
Proof.
  intros [Hnd _]%distinct_ids_orderly. split; [done|].
  intros n v i. by apply querySelector_distinct.
Qed.

Lemma participant_ids_distinct_witness :
  monitor_ids (win second_joined) = [mint_id 2000 0; mint_id 1000 0] ∧
  NoDup (monitor_ids (win second_joined)) ∧
  ∀ n v i, videos (win second_joined) !! n = Some v → monitorId v = Some i →
           querySelector_monitorId i (win second_joined) = Some (n, v).
Proof.
  split; [by vm_compute|].
  apply (participant_ids_distinct [sample_video] 1000). unfold second_joined.
  do 4 (apply reachable_under_step; [|by_compute|by split]).
  apply reachable_under_step; [constructor|done|split; [by intros _ _|]].
  intros _ _. repeat constructor. by intros i.
Defined.
