(* ===== verification/Gateway.v ===== *)
(** * Gateway: one request per participant

    The requests a cycle of [src/content.js] creates, one by one: the walk
    of [runAnalysisCycle] puts exactly the requests of the reference
    description in flight, one for every video that is eligible and has a
    decoded width, and in an orderly environment no two of them carry the
    same participant id.  As a cycle begins only when nothing is in
    flight, at most one request per participant is outstanding at any
    time. *)

From S2P Require Import Prelude Js Dom Sampler Overlay Scheduler Invariants Barrier.
From S2P Require Import Lifecycle Rendering Cycle Identity.

(** ** Definitions *)

(** A video the cycle samples: it passes the test of the [forEach] (line
    55) and the guard of [captureAndSendFrame] (line 73). *)
Definition sampled (v : video) : bool :=
  cycle_eligible v && negb (bool_decide (videoWidth v = 0%Z)).

(** No two requests in flight are for the same participant. *)
Definition one_per_participant (s : state) : Prop :=
  ∀ r r' rq rq', inflight s !! r = Some rq → inflight s !! r' = Some rq' →
    rq_videoId rq = rq_videoId rq' → r = r'.

(** The requests in flight are the requests [rqs], numbered from [n] on. *)
Definition in_flight_are (n : nat) (rqs : list request) (s : state) : Prop :=
  ∀ r rq, inflight s !! r = Some rq ↔ ∃ k, r = (n + k)%nat ∧ rqs !! k = Some rq.

(** The tasks that run a cycle: a timer, and a [start] that is accepted. *)
Definition begins_cycle (e : event) (s : state) : Prop :=
  match e with
  | TimerFire _ => True
  | Message command =>
      command = "start" ∧ (handle e s).1 = Some (Reply "success" None)
  | _ => False
  end.

#[export] Instance begins_cycle_dec e s : Decision (begins_cycle e s).
Proof. destruct e; simpl; apply _. Defined.

(** Two participants are sampled, the second cycle is due. *)
Definition two_sampled : state :=
  next (Tick 1000) (next (Settle 1 NetworkError) (next (Settle 0 NetworkError)
    (next (Message "start") (initial_state [sample_video; sample_video] 1000)))).

(** ** The requests of the reference *)

Section requests.
Implicit Types (s : state) (c n k r : nat) (v : video) (vs : list video) (t : N).

Lemma sample_request_Some c t n v rq :
  sample_request c t n v = Some rq →
  cycle_eligible v = true ∧ sampled v = true ∧ rq_videoId rq = participant_id t n v.
Proof.
  unfold sample_request. fold (sampled v).
  destruct (sampled v) eqn:Hs; [|done]. intros [= <-]. split_and!; [|done..].
  unfold sampled in Hs. by destruct (cycle_eligible v).
Qed.

Lemma sample_request_None c t n v : sample_request c t n v = None → sampled v = false.
Proof. unfold sample_request. fold (sampled v). by destruct (sampled v). Qed.

(** The ids of the requests are among the ids the videos carry after the
    cycle, in the same order. *)
Lemma cycle_requests_ids c t vs :
  rq_videoId <$> cycle_requests c t vs `sublist_of` omap monitorId (imap (stamped t) vs).
Proof.
  induction vs as [|v vs IH] using rev_ind; [done|].
  rewrite cycle_requests_snoc, stamped_snoc, fmap_app, omap_app.
  apply sublist_app; [done|].
  destruct (sample_request c t (length vs) v) as [rq|] eqn:E; [|apply sublist_nil_l].
  apply sample_request_Some in E as (He & _ & Hid). unfold stamped.
  rewrite He. simpl. by rewrite Hid.
Qed.

Lemma cycle_requests_NoDup c t vs :
  Forall (minted_before t) vs → NoDup (omap monitorId vs) →
  NoDup (rq_videoId <$> cycle_requests c t vs).
Proof.
  intros Hold Hnd.
  eapply sublist_NoDup; [by apply stamped_NoDup|apply cycle_requests_ids].
Qed.

(** One request for every video that is sampled. *)
Lemma cycle_requests_length c t vs :
  length (cycle_requests c t vs) = length (filter (λ v, sampled v = true) vs).
Proof.
  induction vs as [|v vs IH] using rev_ind; [done|].
  rewrite cycle_requests_snoc, filter_app, !length_app, IH. f_equal.
  rewrite filter_cons, filter_nil.
  destruct (sample_request c t (length vs) v) as [rq|] eqn:E.
  - apply sample_request_Some in E as (_ & Hs & _). by rewrite decide_True.
  - apply sample_request_None in E. rewrite decide_False; [done|]. by rewrite E.
Qed.

(** The video a request is for carries its id after the cycle. *)
Lemma cycle_requests_known c t vs rq :
  rq ∈ cycle_requests c t vs → rq_videoId rq ∈ omap monitorId (imap (stamped t) vs).
Proof.
  intros Hrq. eapply elem_of_sublist; [|apply (cycle_requests_ids c)].
  by apply list_elem_of_fmap_2.
Qed.

(** A sampled video of the page after the cycle has its request: under
    the id it carries, with the image of its own picture. *)
Lemma sampled_request c t vs n v i :
  imap (stamped t) vs !! n = Some v → sampled v = true → monitorId v = Some i →
  Request c i (Image (Some (picture v)) MAX_WIDTH (canvas_height v)) t
    ∈ cycle_requests c t vs.
Proof.
  intros (v0 & Hv0 & ->)%list_lookup_imap_Some Hs Hi.
  apply list_elem_of_omap. exists (sample_request c t n v0).
  split; [apply list_elem_of_lookup; exists n; by rewrite list_lookup_imap, Hv0|].
  assert (sampled (stamped t n v0) = sampled v0) as Hss
    by (unfold stamped; destruct (cycle_eligible v0); by destruct v0).
  rewrite Hss in Hs. unfold sample_request. fold (sampled v0). rewrite Hs.
  apply andb_prop in Hs as [He _]. unfold stamped in *. rewrite He in *.
  injection Hi as <-. by destruct v0.
Qed.
End requests.

(** ** The requests the walk puts in flight *)

Section walk.
Implicit Types (s : state) (c n k r : nat) (v : video) (rq : request).

(** The walk has not touched the videos it has not reached. *)
Lemma walk_video c s n :
  (n < length (videos (win s)))%nat →
  videos (win (foldl_index (visit c) n s)) !! n = videos (win s) !! n.
Proof.
  intros Hn. destruct (walk_prefix c s n ltac:(lia)) as (_ & -> & _).
  rewrite lookup_app_r by (rewrite length_imap, length_take; lia).
  rewrite length_imap, length_take, lookup_drop. f_equal. lia.
Qed.

(** A request in flight after the walk was in flight before it or is one
    of the reference. *)
Lemma walk_inflight c s n r rq :
  (n ≤ length (videos (win s)))%nat →
  inflight (foldl_index (visit c) n s) !! r = Some rq →
  inflight s !! r = Some rq ∨
  ∃ k, r = (nextRequest s + k)%nat ∧
       cycle_requests c (now s) (take n (videos (win s))) !! k = Some rq.
Proof.
  induction n as [|n IH]; intros Hn Hr; [by left|].
  destruct (lookup_lt_is_Some_2 (videos (win s)) n ltac:(lia)) as [v Hv].
  destruct (walk_prefix c s n ltac:(lia)) as (_ & _ & Hnr & _ & _ & Hsch).
  pose proof (walk_video c s n ltac:(lia)) as Hv1. rewrite Hv in Hv1.
  destruct (visit_spec c _ n v Hv1) as (_ & _ & _ & Hin).
  rewrite foldl_index_S, Hin in Hr.
  replace (now (foldl_index (visit c) n s)) with (now s) in Hr by (symmetry; apply Hsch).
  rewrite (take_snoc_lookup _ _ _ Hv), cycle_requests_snoc, length_take_le by lia.
  destruct (sample_request c (now s) n v) as [rq'|]; simpl;
    [|rewrite app_nil_r; apply IH; [lia|done]].
  apply lookup_insert_Some in Hr as [[<- <-]|[_ Hr]].
  - right. eexists. split; [exact Hnr|]. by rewrite lookup_app_r, Nat.sub_diag.
  - destruct (IH ltac:(lia) Hr) as [?|(k & -> & Hk)]; [by left|right].
    exists k. split; [done|]. by apply lookup_app_l_Some.
Qed.

(** A cycle that begins with nothing in flight leaves exactly the requests
    of the reference in flight. *)
Lemma runAnalysisCycle_in_flight s :
  isAnalyzing s = true → inflight s = ∅ →
  in_flight_are (nextRequest s)
    (cycle_requests (nextCycle s) (now s) (videos (win s))) (runAnalysisCycle s).
Proof.
  intros Hrun Hemp r rq. unfold runAnalysisCycle. rewrite Hrun. cbv zeta.
  rewrite join_inflight. set (s1 := set_nextCycle _ s). split.
  - intros Hr. destruct (walk_inflight _ s1 _ r rq (le_n _) Hr) as [Hold|(k & -> & Hk)].
    + simpl in Hold. by rewrite Hemp in Hold.
    + rewrite firstn_all in Hk. by exists k.
  - intros (k & -> & Hk). destruct (walk_all (nextCycle s) s1) as (_ & _ & _ & Hin & _).
    by apply Hin.
Qed.
End walk.

(** ** Preservation *)

Section outstanding.
Implicit Types (s : state) (e : event) (n k r : nat) (rq : request).

Lemma one_per_participant_subseteq s s' :
  inflight s' ⊆ inflight s → one_per_participant s → one_per_participant s'.
Proof. intros Hsub H r r' rq rq' H1 H2. apply H; by eapply lookup_weaken. Qed.

Lemma in_flight_one n rqs s :
  NoDup (rq_videoId <$> rqs) → in_flight_are n rqs s → one_per_participant s.
Proof.
  intros Hnd Hin r r' rq rq' (k & -> & Hk)%Hin (k' & -> & Hk')%Hin Hid. f_equal.
  by apply (NoDup_fmap_lookup rq_videoId rqs k k' rq rq').
Qed.

(** A timer that can fire finds the script running and nothing in flight. *)
Lemma fire_entry t s :
  single_chain s → enabled (TimerFire t) s → isAnalyzing s = true ∧ inflight s = ∅.
Proof.
  intros Hsc (due & Ht & _). split; [by apply (sc_handle _ Hsc t)|].
  apply map_empty. intros r. destruct (inflight s !! r) as [rq|] eqn:E; [|done].
  rewrite (sc_barrier _ Hsc r) in Ht by done. done.
Qed.

(** A task that begins a cycle runs [runAnalysisCycle] in a state of the
    running script with nothing in flight, every id older than the clock,
    and the page, the clock and the counters of the state it was
    delivered in. *)
Lemma cycle_entry e s :
  single_chain s → distinct_ids s → enabled e s → orderly e s → begins_cycle e s →
  ∃ s0, next e s = runAnalysisCycle s0 ∧ isAnalyzing s0 = true ∧ inflight s0 = ∅ ∧
        Forall (minted_before (now s0)) (videos (win s0)) ∧
        win s0 = win s ∧ now s0 = now s ∧
        nextRequest s0 = nextRequest s ∧ nextCycle s0 = nextCycle s ∧
        timers s0 = ∅.
Proof.
  intros Hsc Hd He [Hc Hp] Hb. destruct e as [command|t| | | |]; try done.
  - destruct Hb as [-> Hb]. unfold next in *. simpl in *.
    unfold onMessage, startAnalysis in *. rewrite decide_True in * by done.
    destruct (isAnalyzing s) eqn:Hrun; [done|]. case_decide; [done|].
    eexists. split; [done|]. simpl. split_and!; auto using stopped_no_timer.
  - destruct (fire_entry t s Hsc He) as [Hrun Hemp]. destruct He as (due & Ht & Hdue).
    eexists. split; [done|]. simpl. split_and!; try done.
    + eapply Forall_impl; [by apply (di_timers _ Hd t due)|].
      intros v. by apply minted_before_mono.
    + apply (delete_only_key (timers s) (Some t)). intros t' Ht'.
      destruct (sc_handle _ Hsc t') as [Hh' _]; [done|].
      destruct (sc_handle _ Hsc t) as [Hh _]; [by rewrite Ht|]. congruence.
Qed.

(** Any other task puts nothing in flight. *)
Lemma no_cycle_inflight e s : ¬ begins_cycle e s → inflight (next e s) ⊆ inflight s.
Proof.
  intros Hb. destruct e as [command|t|r o| |h|d]; unfold next; simpl in *; try done.
  - unfold onMessage, startAnalysis in *.
    destruct (decide (command = "start")) as [->|_].
    + destruct (isAnalyzing s); [done|].
      destruct (decide (length _ = 0%nat)); [done|]. by destruct Hb.
    + case_decide; [|done]. unfold stopAnalysis. destruct (isAnalyzing s); [|done].
      simpl. by rewrite clearTimeout_inflight.
  - unfold settle. destruct (inflight s !! r); [|done].
    rewrite join_inflight, receive_inflight. apply delete_subseteq.
Qed.

Lemma one_per_participant_initial vs (tm : N) : one_per_participant (initial_state vs tm).
Proof. intros r r' rq rq' H. simpl in H. by rewrite lookup_empty in H. Qed.

(** Every task of an orderly environment keeps one request per participant. *)
Lemma one_per_participant_next e s :
  single_chain s → distinct_ids s → one_per_participant s →
  enabled e s → orderly e s → one_per_participant (next e s).
Proof.
  intros Hsc Hd Hone He Ho. destruct (decide (begins_cycle e s)) as [Hb|Hb];
    [|by eapply one_per_participant_subseteq, Hone; apply no_cycle_inflight].
  destruct (cycle_entry e s Hsc Hd He Ho Hb) as (s0 & -> & Hrun & Hemp & Hold & Hw & _).
  eapply in_flight_one; [|by apply runAnalysisCycle_in_flight].
  apply cycle_requests_NoDup; [done|]. rewrite Hw. apply Hd.
Qed.

Lemma one_per_participant_reachable vs (tm : N) s :
  reachable_under orderly vs tm s → one_per_participant s.
Proof.
  induction 1 as [|s e Hs IH He Ho]; [apply one_per_participant_initial|].
  apply one_per_participant_next; [|by eapply distinct_ids_orderly|done..].
  by eapply single_chain_orderly.
Qed.

(** The ids of the requests in flight can stand in a selector: a request
    is for an id a video carried when its cycle began. *)
Lemma inflight_safe vs (tm : N) s r rq :
  reachable_under orderly vs tm s → inflight s !! r = Some rq →
  selector_safe (rq_videoId rq) = true.
Proof.
  intros Hs. revert r rq. induction Hs as [|s e Hs IH He Ho]; intros r rq Hr.
  { simpl in Hr. by rewrite lookup_empty in Hr. }
  destruct (decide (begins_cycle e s)) as [Hb|Hb];
    [|eapply IH, lookup_weaken, no_cycle_inflight; done].
  pose proof (wf_next e s (wf_reachable_under _ _ _ _ Hs)) as Hwf.
  destruct (cycle_entry e s (single_chain_orderly _ _ _ Hs)
              (distinct_ids_orderly _ _ _ Hs) He Ho Hb)
    as (s0 & Hnext & Hrun & Hemp & _).
  rewrite Hnext in *.
  apply (runAnalysisCycle_in_flight s0 Hrun Hemp) in Hr as (k & _ & Hk).
  apply list_elem_of_lookup_2, (cycle_requests_known (nextCycle s0)) in Hk.
  pose proof (runAnalysisCycle_videos s0) as Hv. rewrite Hrun in Hv. rewrite <-Hv in Hk.
  apply list_elem_of_omap in Hk as (v & Hv' & Hi).
  destruct (proj1 (Forall_forall _ _) (wf_minted _ Hwf) v Hv' _ Hi) as (t & n & -> & _).
  apply mint_id_selector_safe.
Qed.
End outstanding.

#[export] Hint Resolve one_per_participant_next one_per_participant_reachable : monitor.

(** ** Theorems *)

(** C12: one request per participant.  In an orderly environment no two
    requests in flight carry the same participant id; and a task that
    begins a cycle (a timer, an accepted [start]) leaves exactly the
    requests of the reference in flight, which carry pairwise distinct ids
    and are as many as there are videos that are eligible and have a
    decoded width. *)
Theorem one_request_per_participant vs (tm : N) s :
  reachable_under orderly vs tm s →
  one_per_participant s ∧
  ∀ e, enabled e s → orderly e s → begins_cycle e s →
    let rqs := cycle_requests (nextCycle s) (now s) (videos (win s)) in
    in_flight_are (nextRequest s) rqs (next e s) ∧
    NoDup (rq_videoId <$> rqs) ∧
    length rqs = length (filter (λ v, sampled v = true) (videos (win s))).
Proof.
  intros Hs. split; [by eapply one_per_participant_reachable|].
  intros e He Ho Hb. pose proof (distinct_ids_orderly _ _ _ Hs) as Hd.
  destruct (cycle_entry e s (single_chain_orderly _ _ _ Hs) Hd He Ho Hb)
    as (s0 & -> & Hrun & Hemp & Hold & Hw & Hn & Hnr & Hnc & _).
  cbv zeta. rewrite <-Hw, <-Hn, <-Hnr, <-Hnc. split_and!.
  - by apply runAnalysisCycle_in_flight.
  - apply cycle_requests_NoDup; [done|]. rewrite Hw. apply Hd.
  - apply cycle_requests_length.
Qed.

Lemma one_request_per_participant_witness :
  one_per_participant two_sampled ∧
  let rqs := cycle_requests 1 2000 (videos (win two_sampled)) in
  (rq_videoId <$> rqs) = [mint_id 1000 0; mint_id 1000 1] ∧
  in_flight_are 2 rqs (next (TimerFire 0) two_sampled) ∧
  NoDup (rq_videoId <$> rqs) ∧
  length rqs = length (filter (λ v, sampled v = true) (videos (win two_sampled))).
Proof.
  assert (reachable_under orderly [sample_video; sample_video] 1000 two_sampled) as Hs.
  { unfold two_sampled. do 3 (apply reachable_under_step; [|by_compute|by split]).
    apply reachable_under_step; [constructor|done|split; [by intros _ _|]].
    intros _ _. repeat constructor; by intros i. }
  destruct (one_request_per_participant _ _ _ Hs) as [Hone Hcycle].
  split; [done|]. cbv zeta. split; [by vm_compute|].
  apply (Hcycle (TimerFire 0)); [by_compute|by split|exact I].
Defined.
