(* ===== verification/Pacing.v ===== *)
(** * Pacing: the clock, the timers and the pace of the cycles

    The script reads the clock when it mints an id and when it arms the
    timer of the next cycle; every request carries the time it was issued
    at.  This file follows the clock through the tasks: what a join, a
    settling request and a cycle leave of the timers, and the pace that
    results.  After a task has begun a cycle, and for as long as the
    analysis is not started anew, every request of that cycle was issued
    in that task, and every later request is issued one delay later or
    more ([spaced]).  The first part is the all-settle barrier read on the
    times of the requests, the second is the delay of line 68 of
    [src/content.js]. *)

From stdpp Require Import relations.
From S2P Require Import Prelude Js Dom Sampler Overlay Scheduler Invariants Barrier.
From S2P Require Import Lifecycle Cycle Identity Gateway.

(** ** Definitions *)

(** [start] is sent only to a script that runs, which refuses it. *)
Definition no_restart (e : event) (s : state) : Prop :=
  match e with
  | Message command => command = "start" → isAnalyzing s = true
  | _ => True
  end.

#[export] Instance no_restart_dec e s : Decision (no_restart e s).
Proof. destruct e; simpl; apply _. Defined.

(** A task of the event loop that does not start the analysis anew. *)
Inductive paced_step : relation state :=
| paced_next e s : enabled e s → no_restart e s → paced_step s (next e s).

(** The executable form, on a trace. *)
Fixpoint paced_run (es : list event) (s : state) : option state :=
  match es with
  | [] => Some s
  | e :: es' =>
      if decide (enabled e s ∧ no_restart e s) then paced_run es' (next e s) else None
  end.

(** The states after cycle [c0] began at time [t0], the requests [old]
    sent before: the timers are due one delay after [t0] or later, and a
    request is an old one, one of the cycle and issued at [t0], or one of
    a later cycle issued one delay after [t0] or later. *)
Record spaced (t0 : N) (c0 : nat) (old : list request) (s : state) : Prop := Spaced {
  sp_now : (t0 ≤ now s)%N;
  sp_cycle : (c0 < nextCycle s)%nat;
  sp_timers : ∀ t d, timers s !! t = Some d → (t0 + 1000 ≤ d)%N;
  sp_sent : ∀ rq, rq ∈ sent s →
    rq ∈ old ∨ (rq_cycle rq = c0 ∧ rq_time rq = t0) ∨
    ((c0 < rq_cycle rq)%nat ∧ (t0 + 1000 ≤ rq_time rq)%N)
}.

(** The second cycle of one participant has begun, one second after the
    first. *)
Definition second_cycle : list event :=
  [ Settle 0 NetworkError; Tick 1000; TimerFire 0 ].

(** ** The clock and the timers across the tasks *)

Section clock.
Implicit Types (s : state) (c r t : nat) (rq : request) (o : outcome) (e : event).

Lemma join_now c s : now (join c s) = now s.
Proof.
  unfold join, finish_cycle. case_decide; [done|]. by destruct (isAnalyzing s).
Qed.

Lemma join_nextCycle c s : nextCycle (join c s) = nextCycle s.
Proof.
  unfold join, finish_cycle. case_decide; [done|]. by destruct (isAnalyzing s).
Qed.

(** The continuation of [Promise.all] of a running script that finds
    nothing in flight arms the next cycle, one delay from now. *)
Lemma join_armed c s :
  isAnalyzing s = true → inflight s = ∅ →
  ∃ t, analysisTimeoutId (join c s) = Some t ∧
       timers (join c s) !! t = Some (now s + 1000)%N.
Proof.
  intros Hrun Hemp. unfold join. rewrite decide_False.
  - unfold finish_cycle. rewrite Hrun. simpl. exists (nextTimer s).
    by rewrite lookup_insert_eq.
  - intros (r & rq & Hr & _)%cycle_pending_spec. by rewrite Hemp in Hr.
Qed.

Lemma settle_inflight r o s : inflight (settle r o s) = delete r (inflight s).
Proof.
  unfold settle. destruct (inflight s !! r) eqn:E.
  - by rewrite join_inflight, receive_inflight.
  - by rewrite delete_id.
Qed.

Lemma settle_now r o s : now (settle r o s) = now s.
Proof.
  unfold settle. destruct (inflight s !! r) as [rq|]; [|done]. rewrite join_now.
  apply (receive_same_schedule rq o (set_inflight (delete r) s)).
Qed.

Lemma settle_nextCycle r o s : nextCycle (settle r o s) = nextCycle s.
Proof.
  unfold settle. destruct (inflight s !! r) as [rq|]; [|done]. rewrite join_nextCycle.
  unfold receive. by repeat case_match.
Qed.

Lemma settle_timers r o s k d :
  timers (settle r o s) !! k = Some d →
  timers s !! k = Some d ∨ d = (now s + 1000)%N.
Proof.
  unfold settle. destruct (inflight s !! r) as [rq|]; [|by left].
  destruct (receive_same_schedule rq o (set_inflight (delete r) s))
    as (Ht & _ & _ & _ & Hn).
  intros [Hk| ->]%join_timers; [left; by rewrite Ht in Hk|right; by rewrite Hn].
Qed.

(** The last request of a running script to settle arms the next cycle. *)
Lemma settle_armed r o s :
  is_Some (inflight s !! r) → isAnalyzing s = true → inflight (settle r o s) = ∅ →
  ∃ t, analysisTimeoutId (settle r o s) = Some t ∧
       timers (settle r o s) !! t = Some (now s + 1000)%N.
Proof.
  intros [rq Hr] Hrun. unfold settle. rewrite Hr, join_inflight. intros Hemp.
  destruct (receive_same_schedule rq o (set_inflight (delete r) s))
    as (_ & _ & Hrun' & _ & Hn).
  simpl in Hrun', Hn. rewrite <-Hn. apply join_armed; [by rewrite Hrun'|done].
Qed.

Lemma walk_nextCycle c n s : nextCycle (foldl_index (visit c) n s) = nextCycle s.
Proof. by apply walk_preserves. Qed.

Lemma runAnalysisCycle_now s : now (runAnalysisCycle s) = now s.
Proof.
  unfold runAnalysisCycle. destruct (isAnalyzing s); [|done]. cbv zeta.
  rewrite join_now.
  by destruct (walk_same_schedule (nextCycle s) (length (videos (win s)))
                 (set_nextCycle (S (nextCycle s)) s)) as (_ & _ & _ & _ & Hn).
Qed.

Lemma runAnalysisCycle_nextCycle s :
  nextCycle (runAnalysisCycle s)
  = if isAnalyzing s then S (nextCycle s) else nextCycle s.
Proof.
  unfold runAnalysisCycle. destruct (isAnalyzing s); [|done]. cbv zeta.
  by rewrite join_nextCycle, walk_nextCycle.
Qed.

Lemma runAnalysisCycle_timers s t d :
  timers (runAnalysisCycle s) !! t = Some d →
  timers s !! t = Some d ∨ d = (now s + 1000)%N.
Proof.
  unfold runAnalysisCycle. destruct (isAnalyzing s); [|by left]. cbv zeta.
  set (s1 := set_nextCycle _ s).
  destruct (walk_same_schedule (nextCycle s) (length (videos (win s1))) s1)
    as (Ht & _ & _ & _ & Hn).
  intros [Hk| ->]%join_timers; [left; by rewrite Ht in Hk|right; by rewrite Hn].
Qed.

(** A cycle that issues no request arms the next one at once. *)
Lemma runAnalysisCycle_armed s :
  isAnalyzing s = true → inflight (runAnalysisCycle s) = ∅ →
  ∃ t, analysisTimeoutId (runAnalysisCycle s) = Some t ∧
       timers (runAnalysisCycle s) !! t = Some (now s + 1000)%N.
Proof.
  intros Hrun. unfold runAnalysisCycle. rewrite Hrun. cbv zeta.
  rewrite join_inflight. set (s1 := set_nextCycle _ s). intros Hemp.
  destruct (walk_same_schedule (nextCycle s) (length (videos (win s1))) s1)
    as (_ & _ & Hr & _ & Hn).
  change (now s) with (now s1). rewrite <-Hn.
  apply join_armed; [by rewrite Hr|done].
Qed.

(** The requests of the reference carry the time they are computed for. *)
Lemma cycle_requests_time c (tm : N) vs rq :
  rq ∈ cycle_requests c tm vs → rq_time rq = tm.
Proof.
  unfold cycle_requests. intros (o & Ho & Hrq)%list_elem_of_omap. simpl in Hrq. subst o.
  apply list_elem_of_lookup_1 in Ho as [n Hn].
  apply list_lookup_imap_Some in Hn as (v & _ & Hv).
  unfold sample_request in Hv. case_match; by simplify_eq.
Qed.

(** A cycle sends requests of its own number, at the time of its task. *)
Lemma runAnalysisCycle_sent s rq :
  rq ∈ sent (runAnalysisCycle s) →
  rq ∈ sent s ∨ (rq_cycle rq = nextCycle s ∧ rq_time rq = now s).
Proof.
  unfold runAnalysisCycle. destruct (isAnalyzing s); [|by left]. cbv zeta.
  rewrite join_sent.
  destruct (walk_all (nextCycle s) (set_nextCycle (S (nextCycle s)) s)) as (-> & _).
  rewrite elem_of_app, elem_of_reverse. simpl.
  intros [Hrq|?]; [right|by left].
  split; [by eapply cycle_requests_cycle|by eapply cycle_requests_time].
Qed.

(** What [stopAnalysis] leaves of the schedule. *)
Lemma stopAnalysis_pace s :
  now (stopAnalysis s) = now s ∧ nextCycle (stopAnalysis s) = nextCycle s ∧
  timers (stopAnalysis s) ⊆ timers s.
Proof.
  unfold stopAnalysis. destruct (isAnalyzing s); [|done]. simpl.
  rewrite clearTimeout_now. split_and!; [done| |].
  - unfold clearTimeout. by case_match.
  - unfold clearTimeout. simpl. case_match; [apply delete_subseteq|done].
Qed.
End clock.

(** ** The pace *)

Section pace.
Context (t0 : N) (c0 : nat) (old : list request).
Implicit Types (s : state) (e : event).

(** A task that begins a cycle runs [runAnalysisCycle] with no timer
    pending, at the time and with the counters of the state it was
    delivered in. *)
Lemma begin_entry e s :
  single_chain s → enabled e s → begins_cycle e s →
  ∃ s1, next e s = runAnalysisCycle s1 ∧ isAnalyzing s1 = true ∧ timers s1 = ∅ ∧
        now s1 = now s ∧ nextCycle s1 = nextCycle s ∧ sent s1 = sent s.
Proof.
  intros Hsc He Hb. destruct e as [command|t| | | |]; try done.
  - destruct Hb as [-> Hb]. unfold next in *. simpl in *.
    unfold onMessage, startAnalysis in *. rewrite decide_True in * by done.
    destruct (isAnalyzing s) eqn:Hrun; [done|]. case_decide; [done|].
    eexists. split; [done|]. simpl. split_and!; auto using stopped_no_timer.
  - destruct (fire_entry t s Hsc He) as [Hrun _]. destruct He as (due & Ht & _).
    eexists. split; [done|]. simpl. split_and!; try done.
    apply (delete_only_key (timers s) (Some t)). intros t' Ht'.
    destruct (sc_handle _ Hsc t') as [Hh' _]; [done|].
    destruct (sc_handle _ Hsc t) as [Hh _]; [by rewrite Ht|]. congruence.
Qed.

(** A cycle that runs one delay after [t0] keeps the pace. *)
Lemma spaced_cycle s s1 :
  spaced t0 c0 old s → (t0 + 1000 ≤ now s)%N →
  now s1 = now s → nextCycle s1 = nextCycle s → sent s1 = sent s →
  timers s1 ⊆ timers s →
  spaced t0 c0 old (runAnalysisCycle s1).
Proof.
  intros [Hn Hc Ht Hs] Hdue Hn1 Hc1 Hs1 Ht1. split.
  - rewrite runAnalysisCycle_now. lia.
  - rewrite runAnalysisCycle_nextCycle. case_match; lia.
  - intros t d [Htd| ->]%runAnalysisCycle_timers; [|lia].
    apply (Ht t d). by eapply lookup_weaken.
  - intros rq [Hrq|[Hrc Hrt]]%runAnalysisCycle_sent.
    + apply Hs. by rewrite <-Hs1.
    + right. right. lia.
Qed.

(** In the state a task that begins cycle [c0] at [t0] leaves, the pace
    is kept. *)
Lemma spaced_begin e s :
  single_chain s → enabled e s → begins_cycle e s →
  spaced (now s) (nextCycle s) (sent s) (next e s).
Proof.
  intros Hsc He Hb.
  destruct (begin_entry e s Hsc He Hb) as (s1 & -> & Hrun & Ht & Hn & Hc & Hs).
  split.
  - rewrite runAnalysisCycle_now. lia.
  - rewrite runAnalysisCycle_nextCycle, Hrun. lia.
  - intros t d [Htd| ->]%runAnalysisCycle_timers; [by rewrite Ht in Htd|lia].
  - intros rq [Hrq|[Hrc Hrt]]%runAnalysisCycle_sent; [left; by rewrite <-Hs|].
    right. left. split; congruence.
Qed.

(** Every task that is not a restart keeps the pace. *)
Lemma spaced_next e s :
  spaced t0 c0 old s → enabled e s → no_restart e s → spaced t0 c0 old (next e s).
Proof.
  intros Hsp He Hr. pose proof Hsp as [Hn Hc Ht Hs].
  destruct e as [command|t|r o| |h|d]; unfold next; simpl in *.
  - unfold onMessage. case_decide as Hstart.
    + by rewrite startAnalysis_running by auto.
    + case_decide; [|done]. simpl.
      destruct (stopAnalysis_pace s) as (Hn' & Hc' & Ht').
      split; rewrite ?Hn', ?Hc', ?stopAnalysis_sent; try done.
      intros t d Htd. apply (Ht t d). by eapply lookup_weaken.
  - destruct He as (due & Hdue & Hle). apply (spaced_cycle s); try done.
    + specialize (Ht t due Hdue). lia.
    + apply delete_subseteq.
  - split; rewrite ?settle_now, ?settle_nextCycle, ?settle_sent; try done.
    intros t d [Htd| ->]%settle_timers; [by apply (Ht t d)|lia].
  - done.
  - done.
  - split; simpl; try done. lia.
Qed.

Lemma spaced_rtc s s' :
  spaced t0 c0 old s → rtc paced_step s s' → spaced t0 c0 old s'.
Proof.
  intros Hsp Hrtc. induction Hrtc as [|s s1 s2 [e s0 He Hr] _ IH]; [done|].
  by apply IH, spaced_next.
Qed.
End pace.

Lemma paced_run_rtc es s s' : paced_run es s = Some s' → rtc paced_step s s'.
Proof.
  revert s. induction es as [|e es IH]; intros s; simpl; [by intros [= ->]|].
  case_decide as He; [|done]. intros Hrun.
  eapply rtc_l; [by apply paced_next; apply He|by apply IH].
Qed.

#[export] Hint Resolve spaced_begin spaced_next spaced_rtc : monitor.

(** ** Theorems *)

(** C13: the pace of the batches.  Under the calm discipline let a task
    begin a cycle (a timer, an accepted [start]).  From then on, for as
    long as the analysis is not started anew, every request the script has
    sent is one sent before that task, or a request of that cycle, issued
    in that task, or a request of a later cycle issued at least one delay
    (1000 ms) after it; and no timer of the script is due before one delay
    has passed.  The inference service gets one batch per participant set
    and then at least one second without a new request. *)
Theorem batches_one_delay_apart vs (tm : N) s e s' :
  reachable_under calm vs tm s → enabled e s → begins_cycle e s →
  rtc paced_step (next e s) s' →
  (∀ rq, rq ∈ sent s' →
     rq ∈ sent s ∨ (rq_cycle rq = nextCycle s ∧ rq_time rq = now s) ∨
     ((nextCycle s < rq_cycle rq)%nat ∧ (now s + 1000 ≤ rq_time rq)%N)) ∧
  (∀ t, enabled (TimerFire t) s' → (now s + 1000 ≤ now s')%N).
Proof.
  intros Hsc%single_chain_calm He Hb Hrtc.
  pose proof (spaced_rtc _ _ _ _ _ (spaced_begin e s Hsc He Hb) Hrtc) as [Hn Hc Ht Hs].
  split; [done|]. intros t (due & Hdue & Hle). specialize (Ht t due Hdue). lia.
Qed.

Lemma batches_one_delay_apart_witness :
  let s := initial_state [sample_video] 1000 in
  ∃ s', paced_run second_cycle (next (Message "start") s) = Some s' ∧
    (rq_cycle <$> sent s') = [1; 0]%nat ∧ (rq_time <$> sent s') = [2000; 1000]%N ∧
    (∀ rq, rq ∈ sent s' →
       rq ∈ sent s ∨ (rq_cycle rq = nextCycle s ∧ rq_time rq = now s) ∨
       ((nextCycle s < rq_cycle rq)%nat ∧ (now s + 1000 ≤ rq_time rq)%N)) ∧
    (∀ t, enabled (TimerFire t) s' → (now s + 1000 ≤ now s')%N).
Proof.
  cbv zeta. eexists. split; [by vm_compute|]. do 2 (split; [by vm_compute|]).
  apply (batches_one_delay_apart [sample_video] 1000 _ (Message "start"));
    [constructor|done|by vm_compute|].
  by apply (paced_run_rtc second_cycle).
Defined.
