(* ===== verification/Tracking.v ===== *)
(** * Tracking: overlays and the participants they belong to

    The specification keeps the overlays a subset of the participants that
    are identified at the moment.  The script creates an overlay only for
    an id that a video of the page carries, removes overlays only in
    [stopAnalysis], and never looks at the overlays when a video
    disappears.  Hence the subset property ([tracked]) is an invariant as
    long as no participant leaves ([staying]), overlays are never lost
    while the script runs, and the overlay of a participant who has left
    stays on screen until the next stop ([departure]).  A stop removes the
    overlays, and a script that is started again runs without any for as
    long as its requests fail ([bare_restart]). *)

From S2P Require Import Prelude Js Dom Sampler Overlay Scheduler Invariants Barrier.
From S2P Require Import Lifecycle Rendering Cycle Identity.

(** ** Definitions *)

(** Every overlay on screen is the overlay of a participant of the page. *)
Definition tracked (p : page) : Prop :=
  overlay_ids p ⊆ overlay_id <$> monitor_ids p.

(** The host page removes no video. *)
Definition staying (e : event) (s : state) : Prop :=
  match e with
  | Host (HostRemove _) => False
  | _ => True
  end.

(** A task that is not a [stop] reaching a running script. *)
Definition keeps_running (e : event) (s : state) : Prop :=
  e = Message "stop" → isAnalyzing s = false.

(** One participant, judged and drawn. *)
Definition alice_drawn : state :=
  next AnimationFrame (next (Settle 0 (judged (JStr "participant-1000-0") alice))
    (next (Message "start") (initial_state [sample_video] 1000))).

(** One participant is judged and drawn, then leaves; the next cycle runs. *)
Definition departure : list event :=
  [ Message "start"; Settle 0 (judged (JStr "participant-1000-0") alice);
    AnimationFrame; Host (HostRemove 0); Tick 1000; TimerFire 0 ].

(** The state after the tasks [es], delivered in order from [s]. *)
Definition after (es : list event) (s : state) : state :=
  foldl (λ s e, next e s) s es.

(** One participant is judged and drawn; the script is stopped and, a
    millisecond later, started again; from then on every request fails,
    for three cycles. *)
Definition bare_restart : list event :=
  [ Message "start"; Settle 0 (judged (JStr "participant-1000-0") alice);
    AnimationFrame; Message "stop"; Tick 1; Message "start";
    Settle 1 NetworkError; Tick 1000; TimerFire 1;
    Settle 2 NetworkError; Tick 1000; TimerFire 2;
    Settle 3 NetworkError; Tick 1000 ].

(** ** Lemmas *)

Section tracking.
Implicit Types (p q : page) (s : state) (e : event) (r : nat) (vid : string).

Lemma overlay_ids_omap p :
  overlay_ids p = omap (λ r, el_id <$> elems p !! r) (body p).
Proof. unfold overlay_ids, attached. apply list_fmap_omap. Qed.

(** The overlay ids depend on the body and on the ids of its elements. *)
Lemma overlay_ids_ext p q :
  body q = body p → (∀ r, el_id <$> elems q !! r = el_id <$> elems p !! r) →
  overlay_ids q = overlay_ids p.
Proof.
  intros Hb He. rewrite !overlay_ids_omap, Hb. apply list_omap_ext.
  apply Forall2_same_length_lookup. split; [done|].
  intros i x y Hx Hy. by simplify_eq.
Qed.

Lemma overlay_ids_animationFrame p : overlay_ids (animationFrame p) = overlay_ids p.
Proof.
  apply overlay_ids_ext; [apply animationFrame_body|].
  intros r. apply animationFrame_ident.
Qed.

(** [updateOverlay] adds at most the overlay of the participant named, and
    only when a video carries the id. *)
Lemma overlay_ids_updateOverlay videoId result p :
  wf_page p →
  overlay_ids (updateOverlay videoId result p) = overlay_ids p ∨
  (to_string videoId ∈ monitor_ids p ∧
   overlay_ids (updateOverlay videoId result p)
   = overlay_ids p ++ [overlay_id (to_string videoId)]).
Proof.
  intros Hwf. unfold updateOverlay.
  destruct (querySelector_monitorId _ p) as [[n v]|] eqn:Hq; [|by left].
  apply querySelector_monitorId_Some in Hq as [Hn Hv].
  pose proof (find_or_create_overlay_cases (to_string videoId) p Hwf) as Hc.
  destruct (find_or_create_overlay _ p) as [r q]. destruct Hc as [_ Hc].
  destruct (getElementById _ p) as [r0|] eqn:E; [destruct Hc as [-> ->]; by left|].
  destruct Hc as (-> & Hb & He). right. split.
  { apply list_elem_of_omap. exists v. split; [by eapply list_elem_of_lookup_2|done]. }
  rewrite !overlay_ids_omap. simpl. rewrite Hb, He, omap_app. simpl.
  rewrite lookup_insert_eq. simpl. f_equal.
  apply list_omap_ext, Forall2_same_length_lookup. split; [done|].
  intros i x y Hx Hy. simplify_eq. rewrite lookup_insert_ne; [done|].
  intros <-. by apply (wf_next_not_in_body p Hwf), (list_elem_of_lookup_2 _ i).
Qed.

(** The walk of a cycle touches the videos only. *)
Lemma visit_overlays c s index :
  body (win (visit c s index)) = body (win s) ∧
  elems (win (visit c s index)) = elems (win s).
Proof.
  unfold visit. destruct (videos _ !! _) as [v|]; [|done].
  destruct (cycle_eligible v); [|done].
  assert (body (win (stamp index v s).2) = body (win s) ∧
          elems (win (stamp index v s).2) = elems (win s)) as Hs
    by (unfold stamp; by repeat case_match).
  destruct (stamp index v s) as [i s1]. by rewrite captureAndSendFrame_win.
Qed.

Lemma runAnalysisCycle_overlays s :
  overlay_ids (win (runAnalysisCycle s)) = overlay_ids (win s).
Proof.
  unfold runAnalysisCycle. destruct (isAnalyzing s); [|done]. cbv zeta.
  rewrite join_win. set (s1 := set_nextCycle _ s).
  assert (body (win (foldl_index (visit (nextCycle s)) (length (videos (win s1))) s1))
            = body (win s) ∧
          elems (win (foldl_index (visit (nextCycle s)) (length (videos (win s1))) s1))
            = elems (win s)) as [Hb He].
  { apply (foldl_index_ind (λ s', body (win s') = body (win s)
                                  ∧ elems (win s') = elems (win s))); [done|].
    intros s' i _ [<- <-]. apply visit_overlays. }
  apply overlay_ids_ext; [done|]. intros r. by rewrite He.
Qed.

(** The ids on the videos are kept by every task while no video is removed. *)
Lemma monitor_ids_next e s :
  wf s → staying e s → monitor_ids (win s) ⊆ monitor_ids (win (next e s)).
Proof.
  intros Hwf Hs.
  assert (∀ task, (∀ h, task ≠ Host h) →
            monitor_ids (win s) ⊆ monitor_ids (win (next task s))) as Hscript.
  { intros task Ht. destruct (next_videos task s Ht) as [Hv|Hv];
      unfold monitor_ids; rewrite Hv; [done|].
    intros i (v & [n Hn]%list_elem_of_lookup_1 & Hi)%list_elem_of_omap.
    apply list_elem_of_omap. exists v. split; [|done].
    apply (list_elem_of_lookup_2 _ n), (imap_stamped_lookup _ _ _ _ i); [done..|].
    destruct (Forall_lookup_1 _ _ _ _ (wf_minted _ Hwf) Hn i Hi) as (t' & k & -> & _).
    apply mint_id_nonempty. }
  destruct e as [command|t|r o| |h|d]; try by apply Hscript.
  unfold next. simpl. rewrite host_monitor_ids_keep; [done|].
  intros n ->. by destruct Hs.
Qed.

(** The overlays after a task: those before, and at most one more, of a
    participant of the page; none is lost unless the task is a [stop]. *)
Lemma overlay_ids_next e s :
  wf s →
  (∀ i, i ∈ overlay_ids (win (next e s)) →
        i ∈ overlay_ids (win s) ∨ i ∈ overlay_id <$> monitor_ids (win s)) ∧
  (keeps_running e s → overlay_ids (win s) ⊆ overlay_ids (win (next e s))).
Proof.
  intros Hwf. destruct e as [command|t|r o| |h|d]; unfold next; simpl;
    try (split; [by left|done]).
  - unfold onMessage. repeat case_decide; simplify_eq/=; [| |split; [by left|done]].
    + unfold startAnalysis. destruct (isAnalyzing s); [split; [by left|done]|].
      case_decide; [split; [by left|done]|]. cbn [snd].
      rewrite runAnalysisCycle_overlays. split; [by left|done].
    + unfold stopAnalysis. destruct (isAnalyzing s) eqn:Hrun; [|split; [by left|done]].
      split; [|by intros Hk; rewrite (Hk eq_refl) in Hrun]. simpl.
      rewrite clearTimeout_win. simpl. rewrite overlay_ids_nil; [by intros ? ?%elem_of_nil|].
      apply remove_by_class_all, wf_body_all_overlays, Hwf.
  - unfold fire. rewrite runAnalysisCycle_overlays. split; [by left|done].
  - unfold settle. destruct (inflight s !! r) as [rq|]; [|split; [by left|done]].
    rewrite join_win. unfold receive, fetch_failed, console_error.
    repeat case_match; try (split; [by left|done]). simpl.
    destruct (overlay_ids_updateOverlay student_id j (win s) (wf_win _ Hwf))
      as [->|[Hin ->]]; [split; [by left|done]|].
    split; [|intros _ i Hi; apply elem_of_app; by left].
    intros i [Hi| ->%list_elem_of_singleton]%elem_of_app; [by left|right].
    by apply list_elem_of_fmap_2.
  - rewrite overlay_ids_animationFrame. split; [by left|done].
  - rewrite (overlay_ids_ext (win s) (host_apply h (win s))) by by destruct h.
    split; [by left|done].
Qed.

Lemma tracked_next e s : wf s → staying e s → tracked (win s) → tracked (win (next e s)).
Proof.
  intros Hwf Hs Ht i Hi. pose proof (monitor_ids_next e s Hwf Hs) as Hm.
  assert (overlay_id <$> monitor_ids (win s) ⊆ overlay_id <$> monitor_ids (win (next e s)))
    as Hm' by (intros x (y & -> & Hy)%list_elem_of_fmap; by apply list_elem_of_fmap_2, Hm).
  destruct (proj1 (overlay_ids_next e s Hwf) i Hi) as [Hold|Hnew]; [|by apply Hm'].
  by apply Hm', Ht.
Qed.

Lemma tracked_reachable vs (tm : N) s : reachable_under staying vs tm s → tracked (win s).
Proof.
  induction 1 as [|s e Hs IH He Hst]; [by intros i ?%elem_of_nil|].
  apply tracked_next; [by eapply wf_reachable_under|done..].
Qed.
End tracking.

#[export] Hint Resolve tracked_next tracked_reachable : monitor.

(** ** Theorems *)

(** C22: as long as no participant leaves the page, every overlay on
    screen is the overlay of a participant the page identifies, and a task
    adds at most overlays of such participants. *)
Theorem overlays_tracked vs (tm : N) s :
  reachable_under staying vs tm s →
  tracked (win s) ∧
  ∀ e i, staying e s → i ∈ overlay_ids (win (next e s)) →
         i ∈ overlay_id <$> monitor_ids (win (next e s)).
Proof.
  intros Hs. split; [by apply (tracked_reachable vs tm)|].
  intros e i He. apply tracked_next; [by eapply wf_reachable_under|done|].
  by apply (tracked_reachable vs tm).
Qed.

Lemma overlays_tracked_witness :
  overlay_ids (win alice_drawn) = [overlay_id "participant-1000-0"] ∧
  tracked (win alice_drawn) ∧
  ∀ e i, staying e alice_drawn → i ∈ overlay_ids (win (next e alice_drawn)) →
         i ∈ overlay_id <$> monitor_ids (win (next e alice_drawn)).
Proof.
  split; [by vm_compute|]. apply (overlays_tracked [sample_video] 1000).
  unfold alice_drawn.
  do 3 (apply reachable_under_step; [|by_compute|done]). constructor.
Defined.

(** C33: overlays are lost only by stopping.  In a reachable state every
    task other than a [stop] that reaches the running script keeps every
    overlay that is on screen: while the script runs, a participant that
    was judged once stays annotated. *)
Theorem overlays_kept_while_running vs (tm : N) s e :
  reachable vs tm s → enabled e s → keeps_running e s →
  overlay_ids (win s) ⊆ overlay_ids (win (next e s)).
Proof.
  intros Hs%wf_reachable _ Hk. by apply (proj2 (overlay_ids_next e s Hs)).
Qed.

Lemma overlays_kept_while_running_witness :
  overlay_ids (win alice_drawn) = [overlay_id "participant-1000-0"] ∧
  overlay_ids (win alice_drawn)
    ⊆ overlay_ids (win (next (Host (HostRemove 0)) alice_drawn)).
Proof.
  split; [by vm_compute|].
  apply (overlays_kept_while_running [sample_video] 1000); [|exact I|by intros [=]].
  apply (run_reachable _ _ alice_trace). by vm_compute.
Defined.

(** The overlay of a participant who has left stays.  One
    participant is judged and drawn and then leaves the page: the overlay
    remains on screen while the script runs on, cycle after cycle, over a
    page without participants. *)
Theorem departed_participant_keeps_overlay :
  ∃ s, run departure (initial_state [sample_video] 1000) = Some s ∧
       isAnalyzing s = true ∧ videos (win s) = [] ∧
       overlay_ids (win s) = [overlay_id "participant-1000-0"] ∧
       ¬ tracked (win s).
Proof.
  eexists. split; [by vm_compute|]. do 3 (split; [by vm_compute|]).
  intros Ht. apply (elem_of_nil (overlay_id "participant-1000-0")).
  apply (Ht (overlay_id "participant-1000-0")). by_compute.
Qed.

(** A restarted script can run without overlays.  One participant
    is judged and drawn, the script is stopped and started again a
    millisecond later, and the requests of the new run fail: in an orderly
    environment the script is running, three seconds and three cycles
    after the restart, with no overlay on screen. *)
Theorem restarted_session_runs_bare :
  let s0 := initial_state [sample_video] 1000 in
  let s := after bare_restart s0 in
  overlay_ids (win (after (take 3 bare_restart) s0)) = [overlay_id "participant-1000-0"] ∧
  reachable_under orderly [sample_video] 1000 s ∧
  isAnalyzing s = true ∧ overlay_ids (win s) = [] ∧
  now (after (take 5 bare_restart) s0) = 1001%N ∧ now s = 4001%N ∧
  (rq_time <$> sent s) = [3001; 2001; 1001; 1000]%N.
Proof.
  cbv zeta. split; [by vm_compute|]. split; [|by vm_compute].
  unfold after, bare_restart. cbn [foldl].
  do 8 (apply reachable_under_step; [|by_compute|by split]).
  apply reachable_under_step; [|done|split; intros _ _; [by vm_compute|]].
  - do 4 (apply reachable_under_step; [|by_compute|by split]).
    apply reachable_under_step; [constructor|done|split; [by intros _ _|]].
    intros _ _. repeat constructor. by intros i.
  - apply Forall_forall. intros v Hv i Hi. exists 1000%N, 0%nat.
    vm_compute in Hv. apply list_elem_of_singleton in Hv as ->.
    vm_compute in Hi. injection Hi as <-. by split.
Qed.
