(* ===== verification/Safety.v ===== *)
(** * Safety: what holds in every state the script can reach

    The invariants of [Invariants] and [Barrier] read at the level of the
    program: what is on screen, what is pending and what is in flight in any
    reachable state, and that a stopped script stays quiet. *)

From S2P Require Import Prelude Js Dom Sampler Overlay Scheduler Invariants Barrier Lifecycle.

(** ** Definitions *)

(** What can be observed of a well-formed state: the overlays on screen
    have distinct ids and were created as overlays, queued callbacks target
    live elements, timers are due within the delay, requests in flight
    belong to started cycles, ids were minted in the past. *)
Definition consistent (s : state) : Prop :=
  NoDup (overlay_ids (win s)) ∧
  Forall overlay_element (attached (win s)) ∧
  (∀ cb, cb ∈ rafQueue (win s) → is_Some (elems (win s) !! cb_overlay cb)) ∧
  (∀ t due, timers s !! t = Some due → (due ≤ now s + 1000)%N) ∧
  (∀ r rq, inflight s !! r = Some rq →
     (r < nextRequest s)%nat ∧ (rq_cycle rq < nextCycle s)%nat) ∧
  Forall (minted (now s)) (videos (win s)).

(** The step from [s] to [s'] issued no request and left the script
    stopped with no timer pending. *)
Definition quiet (s s' : state) : Prop :=
  isAnalyzing s' = false ∧ timers s' = ∅ ∧ sent s' = sent s.

(** ** Lemmas *)

Section safety.
Implicit Types (s : state) (e : event).

Lemma wf_attached_overlays p : wf_page p → Forall overlay_element (attached p).
Proof.
  intros Hwf. apply Forall_forall. intros el (r & _ & Hr)%list_elem_of_omap.
  by apply (wf_elems_overlay _ Hwf r).
Qed.

Lemma settle_isAnalyzing r o s : isAnalyzing (settle r o s) = isAnalyzing s.
Proof.
  unfold settle. destruct (inflight s !! r) as [rq|]; [|done].
  rewrite join_isAnalyzing.
  by destruct (receive_same_schedule rq o (set_inflight (delete r) s)) as (_ & _ & -> & _).
Qed.

(** Only [start] raises the run flag. *)
Lemma next_stays_stopped e s :
  e ≠ Message "start" → isAnalyzing s = false → isAnalyzing (next e s) = false.
Proof.
  intros He Hrun. destruct e as [command|t|r o| |h|d]; unfold next, handle; cbn [snd];
    try done.
  - unfold onMessage. case_decide; [by subst|]. case_decide; cbn [snd]; [|done].
    unfold stopAnalysis. by rewrite Hrun.
  - unfold fire, runAnalysisCycle. simpl. by rewrite Hrun.
  - by rewrite settle_isAnalyzing.
Qed.
End safety.

(** ** Theorems *)

(** C10: in every state the script can reach from a page it was injected
    in, the overlays on screen have pairwise distinct ids and are elements
    the script created as overlays, every queued frame callback targets a
    live element, every pending timer is due within the inter-cycle delay,
    every request in flight belongs to a cycle that was started, and every
    id a video carries was minted at a time that has passed. *)
Theorem reachable_well_formed vs (tm : N) s :
  reachable vs tm s → consistent s.
Proof.
  intros Hwf%wf_reachable. unfold consistent. split_and!.
  - apply wf_overlay_ids_NoDup, Hwf.
  - apply wf_attached_overlays, Hwf.
  - apply (wf_raf_live _ (wf_win _ Hwf)).
  - apply (wf_due _ Hwf).
  - intros r rq Hr. split; [|by apply (wf_cycles _ Hwf r)].
    apply (wf_inflight _ Hwf r). by rewrite Hr.
  - apply (wf_minted _ Hwf).
Qed.

Lemma reachable_well_formed_witness :
  let s := next (Settle 0 (judged (JStr "participant-1000-0") alice))
             (next (Message "start") (initial_state [sample_video] 1000)) in
  overlay_ids (win s) = ["overlay-participant-1000-0"] ∧ consistent s.
Proof.
  split; [by vm_compute|].
  apply (reachable_well_formed [sample_video] 1000).
  apply (run_reachable _ _
           [Message "start"; Settle 0 (judged (JStr "participant-1000-0") alice)]).
  by vm_compute.
Defined.

(** C32: a stopped script stays quiet.  When the environment does not
    restart the script while requests are in flight, a stopped script has no
    pending timer, and no event other than [start] makes it issue a request,
    arm a timer or run again; answers may still arrive. *)
Theorem stopped_stays_quiet vs (tm : N) s e :
  reachable_under calm vs tm s → isAnalyzing s = false →
  enabled e s → e ≠ Message "start" →
  timers s = ∅ ∧ quiet s (next e s).
Proof.
  intros Hr Hrun He Hne. unfold quiet.
  pose proof (stopped_no_timer s (single_chain_calm _ _ _ Hr) Hrun) as Ht.
  pose proof (next_stays_stopped e s Hne Hrun) as Hrun'.
  assert (calm e s) as Hc by (destruct e; try done; by intros ->).
  split_and!; [done..| |].
  - apply stopped_no_timer; [|done].
    apply single_chain_next; [by apply single_chain_calm with vs tm|done..].
  - destruct (decide (sent (next e s) = sent s)) as [|Hs]; [done|].
    apply sent_next in Hs as [[-> _]|[t ->]]; [done|].
    destruct He as (due & Hd & _). rewrite Ht in Hd. vacuous.
Qed.

Lemma stopped_stays_quiet_witness :
  let s := next (Message "stop")
             (next (Message "start") (initial_state [sample_video] 1000)) in
  let e := Settle 0 (judged (JStr "participant-1000-0") alice) in
  timers s = ∅ ∧ quiet s (next e s).
Proof.
  apply (stopped_stays_quiet [sample_video] 1000); [|done| |done].
  - do 2 (apply reachable_under_step; [|done|done]). apply reachable_under_init.
  - split; [by exists (Request 0 "participant-1000-0" (Image (Some 7%N) 480 270) 1000)|done].
Defined.
