(* ===== verification/Refinement.v ===== *)
(** * Refinement: the scheduler implements the phase machine

    The state machine of the specification, made precise: the script is
    idle, collecting the answers of the cycle in flight, resting until the
    timer of the next cycle fires, or draining the answers of a cycle that
    was stopped.  [phase_of] reads the phase off a state of the content
    script, and every task of the script, delivered by an environment that
    keeps to [calm], is a transition of the phase machine.  The general
    shape (a labelled transition system, an abstraction function, an
    invariant) is the class [Refinement]; the scheduler is an instance. *)

From S2P Require Import Prelude Js Dom Sampler Overlay Scheduler Invariants Barrier Lifecycle.
From S2P Require Import Safety.

(** ** Refinement of labelled transition systems *)

(** Reachability in a labelled transition system. *)
Inductive lts_reachable {S L : Type} (init : S → Prop) (step : S → L → S → Prop) :
    S → Prop :=
| lts_init s : init s → lts_reachable init step s
| lts_step s l s' :
    lts_reachable init step s → step s l s' → lts_reachable init step s'.

(** [abstraction] maps the states of a concrete system to the states of an
    abstract one so that, on the states that satisfy [invariant], initial
    states go to initial states and steps to steps with the same label. *)
Class Refinement {C A L : Type}
    (cinit : C → Prop) (cstep : C → L → C → Prop)
    (ainit : A → Prop) (astep : A → L → A → Prop) := {
  abstraction : C → A;
  invariant : C → Prop;
  refinement_init c : cinit c → ainit (abstraction c) ∧ invariant c;
  refinement_step c l c' :
    invariant c → cstep c l c' →
    astep (abstraction c) l (abstraction c') ∧ invariant c'
}.

(** ** The phase machine *)

Inductive phase :=
| Idle                  (** stopped, nothing in flight *)
| Draining (n : nat)    (** stopped, [S n] requests of the last cycle in flight *)
| Collecting (n : nat)  (** running, [S n] requests of the cycle in flight *)
| Resting.              (** running, the timer of the next cycle pending *)

#[export] Instance phase_eq_dec : EqDecision phase.
Proof. solve_decision. Defined.

(** A cycle has just been started: it waits for answers, or it issued no
    request and rests at once. *)
Definition cycle_started (p : phase) : Prop :=
  p = Resting ∨ ∃ n, p = Collecting n.

Definition running (p : phase) : Prop :=
  match p with Collecting _ | Resting => True | _ => False end.

(** The phase after [stop]. *)
Definition halt (p : phase) : phase :=
  match p with
  | Collecting n => Draining n
  | Resting => Idle
  | _ => p
  end.

(** The phase after one request has settled, if one was in flight. *)
Definition settled (p : phase) : option phase :=
  match p with
  | Collecting 0 => Some Resting
  | Collecting (S n) => Some (Collecting n)
  | Draining 0 => Some Idle
  | Draining (S n) => Some (Draining n)
  | _ => None
  end.

(** The events that are no business of the scheduler. *)
Definition silent (e : event) : Prop :=
  match e with
  | Message command => command ≠ "start" ∧ command ≠ "stop"
  | AnimationFrame | Host _ | Tick _ => True
  | _ => False
  end.

Inductive phase_step : phase → event → phase → Prop :=
| phase_start p : cycle_started p → phase_step Idle (Message "start") p
| phase_start_refused p :
    p = Idle ∨ running p → phase_step p (Message "start") p
| phase_stop p : phase_step p (Message "stop") (halt p)
| phase_settle p r o p' : settled p = Some p' → phase_step p (Settle r o) p'
| phase_fire t p : cycle_started p → phase_step Resting (TimerFire t) p
| phase_silent p e : silent e → phase_step p e p.

(** The phase of a state of the content script. *)
Definition phase_of (s : state) : phase :=
  match size (inflight s), isAnalyzing s with
  | 0, false => Idle
  | S n, false => Draining n
  | S n, true => Collecting n
  | 0, true => Resting
  end.

(** The steps of the content script in a calm environment. *)
Definition calm_step (s : state) (e : event) (s' : state) : Prop :=
  enabled e s ∧ calm e s ∧ s' = next e s.

(** ** Lemmas *)

Section refinement.
Implicit Types (s : state) (e : event) (p : phase).

Lemma refinement_reachable {C A L} (cinit : C → Prop) cstep (ainit : A → Prop) astep
    `{!@Refinement C A L cinit cstep ainit astep} c :
  lts_reachable cinit cstep c →
  lts_reachable ainit astep (abstraction c) ∧ invariant c.
Proof.
  induction 1 as [c Hc|c l c' _ [IH Hinv] Hstep].
  - destruct (refinement_init c Hc). split; [by constructor|done].
  - destruct (refinement_step c l c' Hinv Hstep). split; [by econstructor|done].
Qed.

Lemma phase_of_cases s :
  phase_of s = (if isAnalyzing s
                then match size (inflight s) with 0 => Resting | S n => Collecting n end
                else match size (inflight s) with 0 => Idle | S n => Draining n end).
Proof. unfold phase_of. by destruct (size _), (isAnalyzing s). Qed.

Lemma phase_of_same s s' :
  inflight s' = inflight s → isAnalyzing s' = isAnalyzing s → phase_of s' = phase_of s.
Proof. unfold phase_of. by intros -> ->. Qed.

Lemma phase_of_running s : isAnalyzing s = true → cycle_started (phase_of s).
Proof.
  intros Hrun. rewrite phase_of_cases, Hrun. destruct (size _); [by left|right; eauto].
Qed.

Lemma phase_of_idle s : isAnalyzing s = false → inflight s = ∅ → phase_of s = Idle.
Proof. intros Hrun Hi. by rewrite phase_of_cases, Hrun, Hi, map_size_empty. Qed.

Lemma phase_of_resting s : isAnalyzing s = true → inflight s = ∅ → phase_of s = Resting.
Proof. intros Hrun Hi. by rewrite phase_of_cases, Hrun, Hi, map_size_empty. Qed.

Lemma phase_of_stop s : phase_of (stopAnalysis s) = halt (phase_of s).
Proof.
  unfold stopAnalysis. destruct (isAnalyzing s) eqn:Hrun.
  - rewrite !phase_of_cases. simpl.
    rewrite clearTimeout_isAnalyzing, clearTimeout_inflight, Hrun. simpl.
    by destruct (size _).
  - rewrite phase_of_cases, Hrun. by destruct (size _).
Qed.

Lemma phase_of_settle r o s :
  is_Some (inflight s !! r) → settled (phase_of s) = Some (phase_of (settle r o s)).
Proof.
  intros Hr. rewrite !phase_of_cases, settle_isAnalyzing.
  assert (size (inflight (settle r o s)) = pred (size (inflight s))) as ->.
  { destruct Hr as [rq Hr]. unfold settle. rewrite Hr.
    rewrite join_inflight, receive_inflight. simpl.
    apply map_size_delete_Some. by rewrite Hr. }
  assert (size (inflight s) ≠ 0%nat) as Hn.
  { intros Hn%map_size_empty_iff. rewrite Hn in Hr. by destruct Hr. }
  destruct (size (inflight s)) as [|[|n]], (isAnalyzing s); done.
Qed.

Lemma phase_of_start s :
  (isAnalyzing s = false → inflight s = ∅) →
  phase_step (phase_of s) (Message "start") (phase_of (startAnalysis s).2).
Proof.
  intros Hcalm. unfold startAnalysis. destruct (isAnalyzing s) eqn:Hrun; cbn [snd].
  - apply phase_start_refused. right. rewrite phase_of_cases, Hrun. by destruct (size _).
  - rewrite (phase_of_idle s Hrun (Hcalm eq_refl)). case_decide; cbn [snd].
    + rewrite (phase_of_idle s Hrun (Hcalm eq_refl)). apply phase_start_refused. by left.
    + apply phase_start, phase_of_running.
      by rewrite runAnalysisCycle_isAnalyzing.
Qed.

Lemma phase_of_fire t s :
  single_chain s → is_Some (timers s !! t) →
  phase_step (phase_of s) (TimerFire t) (phase_of (fire t s)).
Proof.
  intros Hsc Ht. destruct (sc_handle _ Hsc t Ht) as [_ Hrun].
  assert (inflight s = ∅) as Hi.
  { apply map_empty. intros r. destruct (inflight s !! r) eqn:Hr; [|done].
    rewrite (sc_barrier _ Hsc r) in Ht by (by rewrite Hr). by destruct Ht. }
  rewrite (phase_of_resting s Hrun Hi). apply phase_fire, phase_of_running.
  unfold fire. by rewrite runAnalysisCycle_isAnalyzing.
Qed.

(** One task of the script is one step of the phase machine. *)
Lemma phase_of_next e s :
  single_chain s → enabled e s → calm e s →
  phase_step (phase_of s) e (phase_of (next e s)).
Proof.
  intros Hsc He Hc. destruct e as [command|t|r o| |h|d]; unfold next, handle; cbn [snd].
  - unfold onMessage. case_decide as Hs; [subst|case_decide as Hp; [subst|]]; cbn [snd].
    + pose proof (phase_of_start s (Hc eq_refl)) as H.
      by destruct (startAnalysis s).
    + rewrite phase_of_stop. apply phase_stop.
    + by apply phase_silent.
  - destruct He as (due & Ht & _). apply phase_of_fire; [done|by rewrite Ht].
  - destruct He as [Hr _]. by apply phase_settle, phase_of_settle.
  - rewrite (phase_of_same s (set_win animationFrame s)) by done. by apply phase_silent.
  - rewrite (phase_of_same s (set_win (host_apply h) s)) by done. by apply phase_silent.
  - rewrite (phase_of_same s (set_now (now s + d)%N s)) by done. by apply phase_silent.
Qed.
End refinement.

(** The scheduler refines the phase machine, with [single_chain] as the
    invariant. *)
#[export] Program Instance scheduler_refinement vs (tm : N) :
  Refinement (λ s, s = initial_state vs tm) calm_step (λ p, p = Idle) phase_step := {
  abstraction := phase_of;
  invariant := single_chain
}.
Next Obligation. intros vs tm s ->. split; [done|apply single_chain_initial]. Qed.
Next Obligation.
  intros vs tm s e s' Hsc (He & Hc & ->).
  split; [by apply phase_of_next|by apply single_chain_next].
Qed.

Lemma reachable_under_lts vs (tm : N) s :
  reachable_under calm vs tm s →
  lts_reachable (λ s, s = initial_state vs tm) calm_step s.
Proof.
  induction 1 as [|s e _ IH He Hc]; [by constructor|].
  by apply (lts_step _ _ s e).
Qed.

(** ** Theorems *)

(** C7: the content script implements the phase machine.  In a calm
    environment the phase of every reachable state is reachable in the
    phase machine from [Idle], and every task the script runs is a
    transition of the phase machine with the same label: requests are in
    flight only while collecting or draining, a timer fires only while
    resting, and a cycle starts only from [Idle] or from [Resting]. *)
Theorem scheduler_refines_phases vs (tm : N) s :
  reachable_under calm vs tm s →
  lts_reachable (λ p, p = Idle) phase_step (phase_of s) ∧
  ∀ e, enabled e s → calm e s → phase_step (phase_of s) e (phase_of (next e s)).
Proof.
  intros Hr.
  destruct (refinement_reachable _ calm_step _ phase_step s (reachable_under_lts _ _ _ Hr))
    as [Ha Hsc].
  split; [done|]. intros e He Hc. by apply phase_of_next.
Qed.

Lemma scheduler_refines_phases_witness :
  let s := next (Message "start") (initial_state [sample_video; sample_video] 1000) in
  phase_of s = Collecting 1 ∧
  phase_of (next (Settle 0 NetworkError) s) = Collecting 0 ∧
  phase_of (next (Settle 1 NetworkError) (next (Settle 0 NetworkError) s)) = Resting ∧
  lts_reachable (λ p, p = Idle) phase_step (phase_of s) ∧
  ∀ e, enabled e s → calm e s → phase_step (phase_of s) e (phase_of (next e s)).
Proof.
  cbv zeta. do 3 (split; [by vm_compute|]).
  apply (scheduler_refines_phases [sample_video; sample_video] 1000).
  apply reachable_under_step; [apply reachable_under_init|done|done].
Defined.
