(* ===== verification/Quiescence.v ===== *)
(** * Quiescence: the script comes to rest between two ticks of the clock

    [runAnalysisCycle] re-schedules itself: through [setTimeout] when a
    cycle ends, and a cycle issues requests whose settling runs more code.
    This file shows that the chain is not a busy loop.  While the clock
    stands still and neither the control panel nor the host page acts, the
    script runs finitely many tasks ([internal_step] is well founded), at
    most [budget s] of them from a state [s]: a timer that fires is spent
    and the timer armed in its place is not due before 1000 ms have passed,
    a request that settles leaves the requests in flight, and an animation
    frame empties the queue of callbacks.  [grows] is the frame condition
    that carries the count through the functions of the script. *)

From stdpp Require Import relations well_founded.
From S2P Require Import Prelude Js Dom Sampler Overlay Scheduler Invariants Barrier.

(** ** Definitions *)

(** The tasks that the script has caused itself: the timer it armed, the
    settling of a request it issued, an animation frame for callbacks it
    queued. *)
Definition internal (e : event) (s : state) : Prop :=
  match e with
  | TimerFire _ | Settle _ _ => True
  | AnimationFrame => rafQueue (win s) ≠ []
  | Message _ | Host _ | Tick _ => False
  end.

#[export] Instance internal_dec e s : Decision (internal e s).
Proof. destruct e; simpl; apply _. Defined.

(** One internal task. *)
Inductive internal_step : relation state :=
| internal_step_event s e :
    enabled e s → internal e s → internal_step s (next e s).

(** The executable form: the state after a trace of internal tasks. *)
Fixpoint run_internal (es : list event) (s : state) : option state :=
  match es with
  | [] => Some s
  | e :: es' =>
      if decide (enabled e s ∧ internal e s) then run_internal es' (next e s) else None
  end.

(** The timers of [m] that can fire at time [t]. *)
Definition due (t : N) (m : gmap nat N) : gmap nat N :=
  filter (λ kv, (kv.2 ≤ t)%N) m.

(** The number of internal tasks the script can still run while the clock
    stands still: a due timer starts a cycle of at most one request per
    video, a request settles and queues at most one callback, and one frame
    runs all callbacks. *)
Definition budget (s : state) : nat :=
  (2 * length (videos (win s)) + 1) * size (due (now s) (timers s))
  + 2 * size (inflight s) + length (rafQueue (win s)).

(** The script is at rest: no timer is due, no request is in flight and no
    callback is queued. *)
Definition quiescent (s : state) : Prop :=
  due (now s) (timers s) = ∅ ∧ inflight s = ∅ ∧ rafQueue (win s) = [].

#[export] Instance quiescent_dec s : Decision (quiescent s).
Proof. unfold quiescent. apply _. Defined.

(** [P] is inevitable from [a]: it holds now, or there is a step to take
    and [P] is inevitable after every step that can be taken. *)
Inductive eventually {A} (R : relation A) (P : A → Prop) (a : A) : Prop :=
| eventually_now : P a → eventually R P a
| eventually_step :
    red R a → (∀ b, R a b → eventually R P b) → eventually R P a.

(** [s'] has the videos of [s] in number, no more due timers, at most [i]
    more requests in flight and at most [q] more callbacks queued. *)
Record grows (i q : nat) (s s' : state) : Prop := Grows {
  gr_videos : length (videos (win s')) = length (videos (win s));
  gr_due : size (due (now s') (timers s')) ≤ size (due (now s) (timers s));
  gr_inflight : size (inflight s') ≤ size (inflight s) + i;
  gr_raf : length (rafQueue (win s')) ≤ length (rafQueue (win s)) + q
}.

(** One video, a start whose request failed, and a second later: the timer
    of the second cycle is due. *)
Definition second_cycle_due : state :=
  next (Tick 1000) (next (Settle 0 NetworkError)
    (next (Message "start") (initial_state [sample_video] 1000))).

(** The second cycle and the answer to its request. *)
Definition one_cycle : list event :=
  [ TimerFire 0; Settle 1 (Response 200 (Some (AnswerData (JStr "a") None))) ].

(** ** How much each function of the script adds *)

Section growth.
Implicit Types (s : state) (c r t i q index : nat) (m : gmap nat N).

Lemma grows_refl s : grows 0 0 s s.
Proof. split; lia. Qed.

Lemma grows_trans i1 q1 i2 q2 s1 s2 s3 :
  grows i1 q1 s1 s2 → grows i2 q2 s2 s3 → grows (i1 + i2) (q1 + q2) s1 s3.
Proof. intros [] []. split; lia. Qed.

(** A change that the count does not see. *)
Lemma grows_same s s' :
  same_schedule s s' → inflight s' = inflight s →
  length (videos (win s')) = length (videos (win s)) →
  rafQueue (win s') = rafQueue (win s) → grows 0 0 s s'.
Proof. intros (Ht & _ & _ & _ & Hn) Hi Hv Hq. split; rewrite ?Ht, ?Hn, ?Hi, ?Hq; lia. Qed.

Lemma size_insert_le {V} (m : gmap nat V) k v : size (<[k:=v]> m) ≤ S (size m).
Proof. rewrite map_size_insert. destruct (m !! k); simpl; lia. Qed.

(** A timer armed for later is not among the due ones. *)
Lemma due_insert_later (now : N) m k d :
  (now < d)%N → size (due now (<[k:=d]> m)) ≤ size (due now m).
Proof.
  intros Hd. unfold due. rewrite map_filter_insert_False by (simpl; lia).
  rewrite map_filter_delete. apply map_subseteq_size, delete_subseteq.
Qed.

(** A due timer that is spent is one due timer less. *)
Lemma due_delete (now : N) m k d :
  m !! k = Some d → (d ≤ now)%N → S (size (due now (delete k m))) = size (due now m).
Proof.
  intros Hk Hd. unfold due. rewrite map_filter_delete, map_size_delete_Some; [|].
  - assert (size (filter (λ kv : nat * N, (kv.2 ≤ now)%N) m) ≠ 0); [|lia].
    apply map_size_non_empty_iff. intros He.
    assert (filter (λ kv : nat * N, (kv.2 ≤ now)%N) m !! k = Some d) as H
      by by apply map_lookup_filter_Some.
    by rewrite He in H.
  - exists d. by apply map_lookup_filter_Some.
Qed.

Lemma grows_stamp index v s : grows 0 0 s (stamp index v s).2.
Proof.
  apply grows_same; [apply stamp_same_schedule|apply stamp_inflight|..];
    unfold stamp; repeat case_match; simpl; by rewrite ?length_alter.
Qed.

Lemma grows_captureAndSendFrame c id v s : grows 1 0 s (captureAndSendFrame c id v s).
Proof.
  unfold captureAndSendFrame. destruct (capture _ _) as [[cv img]|]; [|split; lia].
  split; simpl; [done|done| |lia]. pose proof (size_insert_le (inflight s) (nextRequest s)
    (Request c id img (now s))). lia.
Qed.

Lemma grows_visit c s index : grows 1 0 s (visit c s index).
Proof.
  unfold visit. destruct (videos _ !! _) as [v|]; [|split; lia].
  destruct (cycle_eligible v); [|split; lia].
  pose proof (grows_stamp index v s) as Hs. destruct (stamp index v s) as [id s1].
  apply (grows_trans 0 0 1 0 _ _ _ Hs), grows_captureAndSendFrame.
Qed.

(** The walk over [n] videos issues at most [n] requests. *)
Lemma grows_walk c n s : grows n 0 s (foldl_index (visit c) n s).
Proof.
  induction n as [|n IH]; [apply grows_refl|].
  rewrite foldl_index_S. replace (S n) with (n + 1) by lia.
  apply (grows_trans n 0 1 0 _ _ _ IH), grows_visit.
Qed.

Lemma grows_finish_cycle s : grows 0 0 s (finish_cycle s).
Proof.
  unfold finish_cycle. destruct (isAnalyzing s); [|apply grows_refl].
  split; simpl; [done| |lia..]. apply due_insert_later. lia.
Qed.

Lemma grows_join c s : grows 0 0 s (join c s).
Proof. unfold join. case_decide; [apply grows_refl|apply grows_finish_cycle]. Qed.

Lemma grows_runAnalysisCycle s :
  grows (length (videos (win s))) 0 s (runAnalysisCycle s).
Proof.
  unfold runAnalysisCycle. destruct (isAnalyzing s); [|split; lia].
  set (s1 := set_nextCycle _ s).
  destruct (grows_trans _ _ _ _ _ _ _
    (grows_walk (nextCycle s) (length (videos (win s1))) s1)
    (grows_join (nextCycle s) _)) as [H1 H2 H3 H4].
  split; simpl in *; lia.
Qed.

Lemma updateOverlay_rafQueue videoId result p :
  length (rafQueue (updateOverlay videoId result p)) ≤ S (length (rafQueue p)).
Proof.
  unfold updateOverlay. destruct (querySelector_monitorId _ _) as [[]|]; [|lia].
  pose proof (find_or_create_overlay_rafQueue (to_string videoId) p) as Hq.
  destruct (find_or_create_overlay _ _) as [r p1]. simpl in *.
  rewrite Hq, length_app. simpl. lia.
Qed.

Lemma grows_receive rq o s : grows 0 1 s (receive rq o s).
Proof.
  split; [| |by rewrite receive_inflight; lia|].
  - unfold receive. repeat case_match; simpl; by rewrite ?updateOverlay_videos.
  - by destruct (receive_same_schedule rq o s) as (-> & _ & _ & _ & ->).
  - unfold receive. repeat case_match; simpl; try lia.
    etrans; [apply updateOverlay_rafQueue|lia].
Qed.

Lemma grows_budget i q s s' : grows i q s s' → budget s' ≤ budget s + 2 * i + q.
Proof.
  intros [Hv Hd Hi Hq]. unfold budget. rewrite Hv.
  pose proof (Nat.mul_le_mono_l _ _ (2 * length (videos (win s)) + 1) Hd). lia.
Qed.
End growth.

(** ** Inevitability *)

Section eventually.
Context {A : Type} (R : relation A).
Implicit Types (P Q I : A → Prop) (a b : A).

Lemma eventually_mono P Q a :
  (∀ b, P b → Q b) → eventually R P a → eventually R Q a.
Proof.
  intros HPQ. induction 1 as [a Ha|a Hred _ IH];
    [by apply eventually_now, HPQ|by apply eventually_step].
Qed.

Lemma eventually_trans P Q a :
  eventually R P a → (∀ b, P b → eventually R Q b) → eventually R Q a.
Proof.
  intros Ha HPQ. induction Ha as [a Ha|a Hred _ IH];
    [by apply HPQ|by apply eventually_step].
Qed.

(** Liveness from termination: when the steps are among those of a well
    founded relation and keep an invariant under which a state satisfies
    [P] or has a step to take, [P] is inevitable. *)
Lemma wf_eventually_until (R' : relation A) I P a :
  well_founded (flip R') →
  (∀ a, I a → P a ∨ (red R a ∧ ∀ b, R a b → R' a b ∧ I b)) →
  I a → eventually R P a.
Proof.
  intros Hwf Hprog. induction (Hwf a) as [a _ IH]. intros Ha.
  destruct (Hprog a Ha) as [HP|[Hred Hstep]]; [by apply eventually_now|].
  apply eventually_step; [done|]. intros b Hab.
  destruct (Hstep b Hab) as [Hab' Hb]. by apply IH.
Qed.

Lemma wf_eventually (R' : relation A) I P a :
  well_founded (flip R') →
  (∀ a b, I a → R a b → R' a b ∧ I b) →
  (∀ a, I a → red R a ∨ P a) →
  I a → eventually R P a.
Proof.
  intros Hwf Hstep Hprog. apply (wf_eventually_until R'); [done|].
  intros b Hb. destruct (Hprog b Hb); [right|by left].
  split; [done|]. intros c Hc. by apply (Hstep b c).
Qed.

(** What is inevitable is reachable. *)
Lemma eventually_rtc P a : eventually R P a → ∃ b, rtc R a b ∧ P b.
Proof.
  induction 1 as [a Ha|a [b Hab] _ IH]; [by exists a|].
  destruct (IH b Hab) as (c & Hbc & Hc). exists c. split; [by eapply rtc_l|done].
Qed.
End eventually.

(** ** Every internal task uses up the budget *)

Section decrease.
Implicit Types (s : state) (r t : nat) (e : event).

Lemma budget_fire t d s :
  timers s !! t = Some d → (d ≤ now s)%N → budget (fire t s) < budget s.
Proof.
  intros Ht Hd. unfold fire. set (s0 := set_timers (delete t) s).
  pose proof (grows_budget _ _ _ _ (grows_runAnalysisCycle s0)) as Hb.
  pose proof (due_delete (now s) (timers s) t d Ht Hd) as Hs.
  assert (budget s0 + (2 * length (videos (win s)) + 1) = budget s) as <-; [|simpl in Hb; lia].
  unfold budget. simpl. rewrite <-Hs. lia.
Qed.

Lemma budget_settle r o s :
  is_Some (inflight s !! r) → budget (settle r o s) < budget s.
Proof.
  intros [rq Hr]. unfold settle. rewrite Hr. set (s0 := set_inflight (delete r) s).
  pose proof (grows_budget _ _ _ _
    (grows_trans _ _ _ _ _ _ _ (grows_receive rq o s0)
       (grows_join (rq_cycle rq) (receive rq o s0)))) as Hb.
  assert (budget s0 + 2 = budget s) as <-; [|lia].
  unfold budget. simpl. rewrite map_size_delete_Some by eauto.
  assert (size (inflight s) ≠ 0); [|lia].
  apply map_size_non_empty_iff. intros He. by rewrite He in Hr.
Qed.

Lemma budget_frame s :
  rafQueue (win s) ≠ [] → budget (set_win animationFrame s) < budget s.
Proof.
  intros Hq. unfold budget. cbn [win set_win now timers inflight].
  rewrite animationFrame_videos, animationFrame_rafQueue.
  destruct (rafQueue (win s)); [done|]. simpl. lia.
Qed.

Lemma budget_next e s : enabled e s → internal e s → budget (next e s) < budget s.
Proof.
  destruct e as [?|t|r o| |?|?]; unfold next; simpl; try done.
  - intros (d & Ht & Hd) _. by eapply budget_fire.
  - intros [Hr _] _. by apply budget_settle.
  - intros _. apply budget_frame.
Qed.

Lemma budget_run es s s' :
  run_internal es s = Some s' → length es + budget s' ≤ budget s.
Proof.
  revert s. induction es as [|e es IH]; intros s; simpl; [by intros [= ->]|].
  case_decide as He; [|done]. intros Hr%IH.
  pose proof (budget_next e s (proj1 He) (proj2 He)). lia.
Qed.

Lemma internal_step_wf : well_founded (flip internal_step).
Proof.
  apply (wf_projected lt budget); [|apply lt_wf].
  intros s' s [s0 e He Hi]. by apply budget_next.
Qed.

(** A state that is not at rest has an internal task to run. *)
Lemma not_quiescent_red s : ¬ quiescent s → red internal_step s.
Proof.
  intros Hq.
  destruct (map_choose_or_empty (due (now s) (timers s)))
    as [(t & d & [Ht Hd]%map_lookup_filter_Some)|Hd].
  { exists (next (TimerFire t) s). constructor; [by exists d|done]. }
  destruct (map_choose_or_empty (inflight s)) as [(r & rq & Hr)|Hi].
  { exists (next (Settle r NetworkError) s).
    constructor; [|done]. split; [by rewrite Hr|done]. }
  destruct (rafQueue (win s)) eqn:E; [by destruct Hq|].
  exists (next AnimationFrame s). constructor; [done|]. simpl. by rewrite E.
Qed.

(** A state without internal task to run is at rest, and conversely. *)
Lemma nf_quiescent s : nf internal_step s ↔ quiescent s.
Proof.
  split.
  - intros Hnf. destruct (decide (quiescent s)) as [|Hq]; [done|].
    by destruct Hnf; apply not_quiescent_red.
  - intros (Hd & Hi & Hq) [s' Hs]. inversion Hs as [s0 e He Hint]; subst.
    destruct e as [?|t|r o| |?|?]; simpl in *; try done.
    + destruct He as (d & Ht & Hle).
      assert (due (now s) (timers s) !! t = Some d) as H
        by by apply map_lookup_filter_Some.
      by rewrite Hd in H.
    + destruct He as [[rq Hr] _]. by rewrite Hi in Hr.
Qed.

(** From every state the script can come to rest. *)
Lemma rest_exists s : ∃ s', rtc internal_step s s' ∧ quiescent s'.
Proof.
  induction (internal_step_wf s) as [s _ IH].
  destruct (decide (quiescent s)) as [Hq|Hq]; [by exists s|].
  destruct (not_quiescent_red s Hq) as [s1 Hs1].
  destruct (IH s1 Hs1) as (s' & Hrtc & Hq'). exists s'. split; [|done].
  by eapply rtc_l.
Qed.

Lemma run_internal_rtc es s s' : run_internal es s = Some s' → rtc internal_step s s'.
Proof.
  revert s. induction es as [|e es IH]; intros s; simpl; [by intros [= ->]|].
  case_decide as He; [|done]. intros Hr%IH.
  eapply rtc_l; [|done]. destruct He. by constructor.
Qed.

(** Internal tasks are tasks of a calm environment. *)
Lemma internal_rtc_reachable vs (tm : N) s s' :
  reachable_under calm vs tm s → rtc internal_step s s' → reachable_under calm vs tm s'.
Proof.
  intros Hs. induction 1 as [|s1 s2 s3 [s0 e He Hi] _ IH]; [done|].
  apply IH. apply reachable_under_step; [done..|]. by destruct e.
Qed.

(** At rest a running script waits for its timer, and a stopped one for a
    message. *)
Lemma quiescent_armed vs (tm : N) s :
  reachable_under calm vs tm s → quiescent s →
  (isAnalyzing s = true →
   ∃ t d, analysisTimeoutId s = Some t ∧ timers s !! t = Some d ∧
          (now s < d ≤ now s + 1000)%N) ∧
  (isAnalyzing s = false → timers s = ∅).
Proof.
  intros Hs (Hd & Hi & _). pose proof (single_chain_calm _ _ _ Hs) as Hsc.
  split; [|by apply stopped_no_timer].
  intros Hrun. destruct (sc_progress _ Hsc Hrun) as [?|Ht]; [done|].
  destruct (map_choose _ Ht) as (t & d & Htd).
  destruct (sc_handle _ Hsc t) as [Hh _]; [by rewrite Htd|].
  exists t, d. split_and!; [done..| |].
  - destruct (decide (d ≤ now s)%N) as [Hle|]; [|lia].
    assert (due (now s) (timers s) !! t = Some d) as H
      by by apply map_lookup_filter_Some.
    by rewrite Hd in H.
  - eapply wf_due; [|done]. by eapply wf_reachable_under.
Qed.
End decrease.

#[export] Hint Resolve grows_refl grows_stamp grows_visit grows_walk grows_join
  grows_finish_cycle grows_receive grows_runAnalysisCycle budget_next : monitor.

(** ** Theorems *)

(** C9: the script does not spin.  While the clock stands still and neither
    the control panel nor the host acts, every sequence of tasks of the
    script (timers firing, requests settling, animation frames) is finite,
    a sequence from [s] has at most [budget s] tasks, and some sequence
    ends at rest. *)
Theorem script_comes_to_rest s :
  sn internal_step s ∧
  (∀ es s', run_internal es s = Some s' → length es + budget s' ≤ budget s) ∧
  (∃ s', rtc internal_step s s' ∧ quiescent s').
Proof.
  split_and!; [apply internal_step_wf| |apply rest_exists].
  intros es s'. apply budget_run.
Qed.

Lemma script_comes_to_rest_witness :
  budget second_cycle_due = 3 ∧
  ∃ s', run_internal one_cycle second_cycle_due = Some s' ∧ quiescent s' ∧
        2 + budget s' ≤ budget second_cycle_due.
Proof.
  split; [by vm_compute|]. eexists. split; [by vm_compute|].
  split; [by vm_compute|].
  apply (proj1 (proj2 (script_comes_to_rest _)) one_cycle). by vm_compute.
Defined.

(** The rest the script comes to.  Under the calm discipline a run of
    internal tasks that cannot be continued ends with nothing in flight and
    nothing queued; a running script then holds the handle of its timer,
    which is due later than now and within 1000 ms, and a stopped script
    has no timer at all: only a message can make it act again. *)
Theorem rest_is_armed vs (tm : N) s s' :
  reachable_under calm vs tm s → rtc internal_step s s' → nf internal_step s' →
  quiescent s' ∧
  (isAnalyzing s' = true →
   ∃ t d, analysisTimeoutId s' = Some t ∧ timers s' !! t = Some d ∧
          (now s' < d ≤ now s' + 1000)%N) ∧
  (isAnalyzing s' = false → timers s' = ∅).
Proof.
  intros Hs Hrtc Hnf%nf_quiescent. split; [done|].
  apply (quiescent_armed vs tm); [|done]. by apply (internal_rtc_reachable vs tm s).
Qed.

Lemma rest_is_armed_witness :
  ∃ s', run_internal one_cycle second_cycle_due = Some s' ∧ quiescent s' ∧
    (isAnalyzing s' = true →
     ∃ t d, analysisTimeoutId s' = Some t ∧ timers s' !! t = Some d ∧
            (now s' < d ≤ now s' + 1000)%N) ∧
    (isAnalyzing s' = false → timers s' = ∅).
Proof.
  eexists. split; [by vm_compute|].
  eapply (rest_is_armed [sample_video] 1000 second_cycle_due).
  - unfold second_cycle_due.
    do 3 (apply reachable_under_step;
            [|by_compute|by vm_compute]).
    constructor.
  - by apply (run_internal_rtc one_cycle).
  - apply nf_quiescent. by vm_compute.
Defined.
