(* ===== verification/Fair.v ===== *)
(** * Fair: infinite executions and fairness

    The event loops of the extension never end by themselves: a running
    script begins a cycle every second.  What such a system does in the
    long run is a statement about its infinite executions, and holds only
    of those in which no party is postponed for ever.  An [execution] of a
    relation [R] is a sequence of states, indexed by the natural numbers,
    in which each state is followed by itself or by a successor under [R];
    it is [fair] to a part [T] of the steps when, from every state in which
    a step of [T] can be taken, a step of [T] is taken later or a state is
    reached in which none can be taken (weak fairness).

    Two rules connect this to the finite arguments of the other files.
    [eventually_fair]: what is inevitable under [R] (the inductive
    [eventually] of [Quiescence]) happens in every execution that is fair
    to [R].  [fair_measure]: when the steps of [T] use up a measure that no
    step raises, and a step of [T] can be taken until [P] holds, every
    execution that is fair to [T] reaches [P], however many other steps it
    takes in between. *)

From stdpp Require Import relations.
From S2P Require Import Prelude Quiescence.

(** ** Definitions *)

Section definitions.
Context {A : Type}.

(** Every state is followed by itself or by a successor under [R]. *)
Definition execution (R : relation A) (tr : nat → A) : Prop :=
  ∀ n, tr (S n) = tr n ∨ R (tr n) (tr (S n)).

(** Where a step of [T] can be taken, one is taken later, or later none
    can be taken. *)
Definition fair (T : relation A) (tr : nat → A) : Prop :=
  ∀ n, red T (tr n) → ∃ m, n ≤ m ∧ (T (tr m) (tr (S m)) ∨ ¬ red T (tr m)).

(** The execution from its [k]-th state on. *)
Definition shift (k : nat) (tr : nat → A) : nat → A := λ n, tr (k + n).
End definitions.

(** ** Lemmas *)

Section fair.
Context {A : Type}.
Implicit Types (R T : relation A) (tr : nat → A) (P I : A → Prop).

Lemma execution_shift R k tr : execution R tr → execution R (shift k tr).
Proof. intros Hx n. unfold shift. rewrite Nat.add_succ_r. apply Hx. Qed.

Lemma fair_shift T k tr : fair T tr → fair T (shift k tr).
Proof.
  intros Hf n Hn. destruct (Hf (k + n) Hn) as (m & Hm & Hstep).
  exists (m - k). unfold shift.
  replace (k + S (m - k)) with (S m) by lia. replace (k + (m - k)) with m by lia.
  split; [lia|done].
Qed.

Lemma execution_rtc R tr n m : execution R tr → n ≤ m → rtc R (tr n) (tr m).
Proof.
  intros Hx. induction 1 as [|m _ IH]; [done|].
  destruct (Hx m) as [->|Hstep]; [done|by eapply rtc_r].
Qed.

(** An invariant of the steps, with a measure that no step raises, along
    an execution. *)
Lemma execution_invariant R (μ : A → nat) I tr n m :
  execution R tr → (∀ a b, I a → R a b → I b ∧ μ b ≤ μ a) →
  n ≤ m → I (tr n) → I (tr m) ∧ μ (tr m) ≤ μ (tr n).
Proof.
  intros Hx HI Hnm Hn. induction Hnm as [|m _ [IH Hle]]; [done|].
  destruct (Hx m) as [->|Hstep]; [done|].
  destruct (HI _ _ IH Hstep). split; [done|lia].
Qed.

(** Up to [m] the execution rests in its state at [n], or it has taken a
    step from that state. *)
Lemma execution_first_step R tr n m :
  execution R tr → n ≤ m →
  tr m = tr n ∨ ∃ k, n ≤ k < m ∧ tr k = tr n ∧ R (tr k) (tr (S k)).
Proof.
  intros Hx. induction 1 as [|m Hnm [IH|(k & ? & ? & ?)]]; [by left| |].
  - destruct (Hx m) as [Hm|Hm]; [left; congruence|].
    right. exists m. split_and!; [lia..|done|done].
  - right. exists k. split_and!; [lia..|done|done].
Qed.

(** Where no step can be taken the execution stays for ever. *)
Lemma execution_nf R tr n k : execution R tr → nf R (tr n) → n ≤ k → tr k = tr n.
Proof.
  intros Hx Hnf. induction 1 as [|k _ IH]; [done|].
  destruct (Hx k) as [->|Hstep]; [done|].
  rewrite IH in Hstep. destruct Hnf. by eexists.
Qed.

(** What is inevitable happens in a fair execution. *)
Lemma eventually_fair R P tr n :
  execution R tr → fair R tr → eventually R P (tr n) → ∃ m, n ≤ m ∧ P (tr m).
Proof.
  intros Hx Hf He. remember (tr n) as a eqn:Ha. revert n Ha.
  induction He as [a Hp|a Hred _ IH]; intros n ->; [by exists n|].
  destruct (Hf n Hred) as (m & Hnm & Hm).
  destruct (execution_first_step R tr n m Hx Hnm) as [Heq|(k & Hk & Heq & Hstep)].
  - destruct Hm as [Hm|Hm]; [|by rewrite Heq in Hm].
    rewrite Heq in Hm. destruct (IH _ Hm (S m) eq_refl) as (j & ? & ?).
    exists j. split; [lia|done].
  - rewrite Heq in Hstep. destruct (IH _ Hstep (S k) eq_refl) as (j & ? & ?).
    exists j. split; [lia|done].
Qed.

(** The steps of [T] use up a measure that no step of the execution
    raises, and one can be taken until [P] holds: fairness to [T] brings
    the execution to [P]. *)
Lemma fair_measure R T (μ : A → nat) I P tr :
  execution R tr → fair T tr →
  (∀ a b, I a → R a b → I b ∧ μ b ≤ μ a) →
  (∀ a b, I a → T a b → μ b < μ a) →
  (∀ a, I a → P a ∨ red T a) →
  ∀ n, I (tr n) → ∃ m, n ≤ m ∧ I (tr m) ∧ P (tr m).
Proof.
  intros Hx Hf HR HT HP n.
  remember (μ (tr n)) as w eqn:Hw. revert n Hw.
  induction (lt_wf w) as [w _ IH]. intros n -> Hn.
  destruct (HP _ Hn) as [Hp|Hred]; [by exists n|].
  destruct (Hf n Hred) as (m & Hnm & Hm).
  destruct (execution_invariant R μ I tr n m Hx HR Hnm Hn) as [HIm Hle].
  destruct Hm as [Hm|Hm]; [|exists m; by destruct (HP _ HIm)].
  destruct (IH (μ (tr (S m)))) with (n := S m) as (j & ? & ? & ?); [|done| |].
  - pose proof (HT _ _ HIm Hm). lia.
  - apply (execution_invariant R μ I tr m (S m)); [done..|lia|done].
  - exists j. split_and!; [lia|done..].
Qed.
End fair.
