(* ===== verification/Backend.v ===== *)
(** * Backend: the inference service as the content script relies on it

    The service is not part of the extension; [src/content.js] posts the
    id and the image of a participant to [/process_frame] and reads
    [student_id] and [result] of the answer.  The class [Backend] is the
    interface: the operation, and the promise of the service that the
    transport succeeds and the answer names the participant of the
    request, with or without a judgment.  [served_step] is the script
    running against such a service: every request in flight can settle,
    with the answer of the service and no other; [served_time] lets the
    clock advance in between, short of the next timer. *)

From stdpp Require Import relations.
From S2P Require Import Prelude Js Dom Sampler Overlay Scheduler Invariants Barrier.
From S2P Require Import Lifecycle Cycle Quiescence.

(** ** The interface *)

Class Backend := {
  (** [POST /process_frame] with body [{student_id, image}] *)
  process_frame : string → image → outcome;
  (** the answer is a success and names the participant of the request *)
  process_frame_answers : ∀ i img, ∃ status result,
    process_frame i img = Response status (Some (AnswerData (JStr i) result)) ∧
    response_ok status = true
}.

(** The judgment in the answer for participant [i] and image [img], if the
    answer carries one. *)
Definition verdict `{Backend} (i : string) (img : image) : option judgment :=
  match process_frame i img with
  | Response _ (Some (AnswerData _ result)) => result
  | _ => None
  end.

(** The answer to the request [rq]. *)
Definition answer_to `{Backend} (rq : request) : outcome :=
  process_frame (rq_videoId rq) (rq_image rq).

(** One task of the script while the service answers: a request in flight
    settles with the answer of the service, an animation frame runs the
    queued callbacks, a timer that is due fires. *)
Inductive served_step `{Backend} : relation state :=
| served_settle s r rq :
    inflight s !! r = Some rq → outcome_covered (answer_to rq) →
    served_step s (next (Settle r (answer_to rq)) s)
| served_frame s :
    rafQueue (win s) ≠ [] → served_step s (next AnimationFrame s)
| served_fire s t :
    enabled (TimerFire t) s → served_step s (next (TimerFire t) s).

(** The same while time passes: a task of the script, or a tick of the
    clock that makes no timer due. *)
Inductive served_time `{Backend} : relation state :=
| served_task s s' : served_step s s' → served_time s s'
| served_tick s d :
    (∀ t due, timers s !! t = Some due → (now s + d < due)%N) →
    served_time s (next (Tick d) s).

(** ** Two services *)

(** A service that recognises Alice in every image. *)
Definition alice_service : Backend.
Proof.
  refine {| process_frame := λ i _, judged (JStr i) alice |}.
  intros i img. by exists 200%Z, (Some alice).
Defined.

(** A service that answers and never judges. *)
Definition silent_service : Backend.
Proof.
  refine {| process_frame := λ i _, Response 200 (Some (AnswerData (JStr i) None)) |}.
  intros i img. by exists 200%Z, None.
Defined.

(** ** Lemmas *)

Section backend.
Context `{Backend}.
Implicit Types (s : state) (rq : request) (i : string) (img : image).

Lemma process_frame_verdict i img :
  ∃ status, process_frame i img
            = Response status (Some (AnswerData (JStr i) (verdict i img))) ∧
            response_ok status = true.
Proof.
  unfold verdict. destruct (process_frame_answers i img) as (status & result & -> & Hok).
  by exists status.
Qed.

(** What the continuation of [captureAndSendFrame] does with the answer of
    the service: it draws the judgment, if there is one. *)
Lemma receive_answer rq s :
  receive rq (answer_to rq) s
  = match verdict (rq_videoId rq) (rq_image rq) with
    | Some result => set_win (updateOverlay (JStr (rq_videoId rq)) result) s
    | None => s
    end.
Proof.
  unfold answer_to.
  destruct (process_frame_verdict (rq_videoId rq) (rq_image rq)) as (status & -> & Hok).
  unfold receive. rewrite Hok. by destruct (verdict _ _).
Qed.

(** The answer for an id that can stand in a selector is one the model
    covers. *)
Lemma answer_covered rq :
  selector_safe (rq_videoId rq) = true → outcome_covered (answer_to rq).
Proof.
  intros Hsafe. unfold answer_to.
  destruct (process_frame_verdict (rq_videoId rq) (rq_image rq)) as (status & -> & _).
  simpl. by destruct (verdict _ _).
Qed.

(** A task of the script against the service is an internal task. *)
Lemma served_internal s s' : served_step s s' → internal_step s s'.
Proof.
  intros [s0 r rq Hr Hc|s0 Hq|s0 t Ht]; by constructor.
Qed.
End backend.

#[export] Hint Resolve served_internal answer_covered mint_id_selector_safe : monitor.
