(* ===== verification/Annotation.v ===== *)
(** * Annotation: a cycle that is answered annotates every participant

    The promise of the extension, end to end.  A task begins a cycle (a
    timer, an accepted [start]); the service answers ([Backend]); the
    clock stands still.  Then whatever the order in which the requests
    settle and the animation frames run, the script comes to a state in
    which nothing is in flight, no callback is queued, the overlay of
    every sampled participant the service judged is on screen over the
    rectangle of the participant's video, in the colour and with the label
    of the judgment, and the next cycle is armed one delay later
    ([annotated]).

    [drawn_next] is what an answer establishes and what later answers for
    other participants and animation frames keep: if a frame ran now, the
    overlay would be rendered.  [serving] is the invariant of the tasks
    between the beginning of the cycle and its rest; termination
    ([internal_step_wf]) turns it into inevitability ([wf_eventually]). *)

From stdpp Require Import relations.
From S2P Require Import Prelude Js Dom Sampler Overlay Scheduler Invariants Barrier.
From S2P Require Import Lifecycle Rendering Cycle Identity Gateway Pacing Safety.
From S2P Require Import Quiescence Backend.

(** ** Definitions *)

(** The overlay of participant [i] is on screen, rendered with [result]
    over the rectangle [rc]. *)
Definition drawn (i : string) (rc : rect) (result : judgment) (p : page) : Prop :=
  ∃ r, getElementById (overlay_id i) p = Some r ∧
       elems p !! r = Some (rendered i rc result p).

(** The overlay of participant [i] is on screen and the next animation
    frame leaves it rendered with [result] over [rc]. *)
Definition drawn_next (i : string) (rc : rect) (result : judgment) (p : page) : Prop :=
  ∃ r, getElementById (overlay_id i) p = Some r ∧
       elems (animationFrame p) !! r = Some (rendered i rc result p).

(** The image the cycle samples of a video. *)
Definition sample_of (v : video) : image :=
  Image (Some (picture v)) MAX_WIDTH (canvas_height v).

(** [rqs] are the requests of a cycle that began in [s0]: they are for
    pairwise distinct participants, whose ids the videos of the page
    carry; no two videos carry the same id; and every sampled video has
    its request. *)
Record cycle_of (s0 : state) (rqs : list request) : Prop := CycleOf {
  co_ids : NoDup (rq_videoId <$> rqs);
  co_known : ∀ rq, rq ∈ rqs → rq_videoId rq ∈ monitor_ids (win s0);
  co_nodup : NoDup (monitor_ids (win s0));
  co_sampled : ∀ n v i,
    videos (win s0) !! n = Some v → sampled v = true → monitorId v = Some i →
    ∃ rq, rq ∈ rqs ∧ rq_videoId rq = i ∧ rq_image rq = sample_of v
}.

Section definitions.
Context `{Backend}.

(** The request [rq] is in flight, or it was answered and its judgment, if
    any, is drawn at the next frame over the video that carries its id. *)
Definition request_served (s : state) (rq : request) : Prop :=
  (∃ r, inflight s !! r = Some rq) ∨
  ∀ result, verdict (rq_videoId rq) (rq_image rq) = Some result →
    ∃ n v, querySelector_monitorId (rq_videoId rq) (win s) = Some (n, v) ∧
           drawn_next (rq_videoId rq) (clientRect v) result (win s).

(** The states between the beginning of a cycle with requests [rqs], in
    state [s0], and its rest. *)
Record serving (s0 : state) (rqs : list request) (s : state) : Prop := Serving {
  sv_wf : wf s;
  sv_running : isAnalyzing s = true;
  sv_videos : videos (win s) = videos (win s0);
  sv_timers : ∀ t d, timers s !! t = Some d → (now s < d)%N;
  sv_armed : inflight s = ∅ →
    ∃ t d, analysisTimeoutId s = Some t ∧ timers s !! t = Some d;
  sv_inflight : ∀ r rq, inflight s !! r = Some rq → rq ∈ rqs;
  sv_served : ∀ rq, rq ∈ rqs → request_served s rq
}.

(** The cycle that began in [s0] has come to rest in [s]: every sampled
    participant the service judged is annotated with the judgment, and the
    next cycle is armed. *)
Definition annotated (s0 s : state) : Prop :=
  quiescent s ∧ videos (win s) = videos (win s0) ∧
  (∃ t d, analysisTimeoutId s = Some t ∧ timers s !! t = Some d ∧
          (now s < d ≤ now s + 1000)%N) ∧
  ∀ n v i result,
    videos (win s0) !! n = Some v → sampled v = true → monitorId v = Some i →
    verdict i (sample_of v) = Some result →
    drawn i (clientRect v) result (win s).
End definitions.

(** Two participants and an accepted [start]. *)
Definition two_started : state :=
  next (Message "start") (initial_state [sample_video; sample_video] 1000).

(** The service that sees Alice answers the second request, then the first;
    the frame runs. *)
Definition two_answered : state :=
  next AnimationFrame
    (next (Settle 0 (answer_to (H := alice_service)
                       (Request 0 "participant-1000-0" (sample_of sample_video) 1000)))
       (next (Settle 1 (answer_to (H := alice_service)
                          (Request 0 "participant-1000-1" (sample_of sample_video) 1000)))
          two_started)).

(** ** What answers and frames do to an overlay *)

Section pages.
Implicit Types (p q : page) (r n : nat) (i j : string) (rc : rect) (cb : frame_callback).

(** The element a run of callbacks leaves at [r] depends on the element
    at [r] and on the scroll offset only. *)
Lemma callbacks_lookup_ext cbs p q r :
  scrollX q = scrollX p → scrollY q = scrollY p → elems q !! r = elems p !! r →
  elems (foldl (λ q c, run_frame_callback c q) q cbs) !! r
  = elems (foldl (λ q c, run_frame_callback c q) p cbs) !! r.
Proof.
  revert p q. induction cbs as [|c cbs IH]; intros p q Hx Hy He; [done|].
  cbn [foldl]. apply IH; [done..|].
  destruct (decide (r = cb_overlay c)) as [->|Hne];
    [|by rewrite !run_frame_callback_lookup_ne].
  rewrite !run_frame_callback_lookup, He. destruct (elems p !! _); [|done].
  cbn. unfold style_element, callback_style. by rewrite Hx, Hy.
Qed.

Lemma rendered_scroll i rc result p q :
  scrollX q = scrollX p → scrollY q = scrollY p →
  rendered i rc result q = rendered i rc result p.
Proof. intros Hx Hy. unfold rendered. by rewrite Hx, Hy. Qed.

(** An answer draws its judgment at the next frame. *)
Lemma drawn_next_update i result p n v :
  wf_page p → querySelector_monitorId i p = Some (n, v) →
  drawn_next i (clientRect v) result (updateOverlay (JStr i) result p).
Proof.
  intros Hwf Hq.
  destruct (frame_after_update (JStr i) result p n v _ Hwf Hq eq_refl eq_refl eq_refl)
    as (r & Hg & He).
  exists r. by rewrite <-animationFrame_getElementById.
Qed.

(** A frame draws what was to be drawn, and leaves it to be drawn. *)
Lemma drawn_next_frame i rc result p :
  drawn_next i rc result p → drawn_next i rc result (animationFrame p).
Proof.
  intros (r & Hg & He). exists r. rewrite animationFrame_getElementById.
  split; [done|]. destruct (animationFrame_scroll p) as [Hx Hy].
  by rewrite (rendered_scroll _ _ _ p).
Qed.

(** With no callback queued, what the next frame would draw is drawn. *)
Lemma drawn_next_rest i rc result p :
  rafQueue p = [] → drawn_next i rc result p → drawn i rc result p.
Proof.
  intros Hq (r & Hg & He). exists r. split; [done|].
  unfold animationFrame in He. by rewrite Hq in He.
Qed.

(** An answer for another participant leaves the overlay where it is and
    does not change what the next frame makes of it. *)
Lemma updateOverlay_other i j result p r :
  wf_page p → i ≠ j → getElementById (overlay_id i) p = Some r →
  getElementById (overlay_id i) (updateOverlay (JStr j) result p) = Some r ∧
  elems (animationFrame (updateOverlay (JStr j) result p)) !! r
  = elems (animationFrame p) !! r.
Proof.
  intros Hwf Hij Hg.
  destruct (querySelector_monitorId j p) as [[n v]|] eqn:Hq;
    [|unfold updateOverlay; simpl; by rewrite Hq].
  rewrite (updateOverlay_found (JStr j) result p n v Hq). simpl.
  pose proof (find_or_create_overlay_cases j p Hwf) as Hc.
  pose proof (wf_page_find_or_create j p Hwf) as Hwf1.
  pose proof (find_or_create_overlay_rafQueue j p) as Hraf.
  destruct (find_or_create_overlay_scroll j p) as [Hx Hy].
  destruct (find_or_create_overlay j p) as [r' p1]. cbn [fst snd] in *.
  destruct Hc as [Hg' Hc]. apply getElementById_Some in Hg as Hr. destruct Hr as [Hr Hi].
  assert (r ≠ r' ∧ elems p1 !! r = elems p !! r ∧ r ∈ body p1) as (Hne & He & Hb).
  { destruct (getElementById (overlay_id j) p) as [r0|] eqn:E.
    - destruct Hc as [-> ->]. split; [|done]. intros ->.
      apply getElementById_Some in E as [_ Hj]. unfold elem_has_id in Hi, Hj.
      apply Hij, overlay_id_inj. congruence.
    - destruct Hc as (-> & Hb1 & He1). pose proof (wf_body_below p r Hwf Hr).
      split_and!; [lia|rewrite He1, lookup_insert_ne; [done|lia]|].
      rewrite Hb1. set_solver. }
  split.
  - change (getElementById (overlay_id i) p1 = Some r).
    apply getElementById_unique; [done..|]. unfold elem_has_id. by rewrite He.
  - unfold animationFrame. cbn. rewrite Hraf, foldl_app. cbn.
    rewrite lookup_alter_ne by done.
    apply callbacks_lookup_ext; [done..|]. by cbn.
Qed.

Lemma drawn_next_other i j rc result result' p :
  wf_page p → i ≠ j → drawn_next i rc result p →
  drawn_next i rc result (updateOverlay (JStr j) result' p).
Proof.
  intros Hwf Hij (r & Hg & He).
  destruct (updateOverlay_other i j result' p r Hwf Hij Hg) as [Hg' He'].
  destruct (updateOverlay_scroll (JStr j) result' p) as [Hx Hy].
  exists r. split; [done|]. by rewrite He', (rendered_scroll _ _ _ p).
Qed.

(** The lookup of a video by its id reads the videos only. *)
Lemma querySelector_monitorId_videos i p q :
  videos q = videos p → querySelector_monitorId i q = querySelector_monitorId i p.
Proof. unfold querySelector_monitorId. by intros ->. Qed.
End pages.

(** ** What a settling request leaves of the page *)

Section tasks.
Context `{Backend}.
Implicit Types (s : state) (c r : nat) (rq : request) (o : outcome).

(** The page after a request settled with the answer of the service. *)
Lemma settle_win r rq s :
  inflight s !! r = Some rq →
  win (settle r (answer_to rq) s)
  = match verdict (rq_videoId rq) (rq_image rq) with
    | Some result => updateOverlay (JStr (rq_videoId rq)) result (win s)
    | None => win s
    end.
Proof.
  intros Hr. unfold settle. rewrite Hr, join_win, receive_answer.
  by destruct (verdict _ _).
Qed.

(** An id carried by a video of a well-formed state can stand in a
    selector. *)
Lemma known_safe s i : wf s → i ∈ monitor_ids (win s) → selector_safe i = true.
Proof.
  intros Hwf (v & Hv & Hi)%list_elem_of_omap.
  destruct (proj1 (Forall_forall _ _) (wf_minted _ Hwf) v Hv i Hi) as (t & n & -> & _).
  apply mint_id_selector_safe.
Qed.
End tasks.

(** ** The invariant of an answered cycle *)

Section cycle.
Context `{Backend} (s0 : state) (rqs : list request).
Hypothesis Hcycle : cycle_of s0 rqs.
Implicit Types (s : state) (r t : nat) (rq : request).

Lemma same_participant rq rq' :
  rq ∈ rqs → rq' ∈ rqs → rq_videoId rq = rq_videoId rq' → rq = rq'.
Proof.
  intros [k Hk]%list_elem_of_lookup_1 [k' Hk']%list_elem_of_lookup_1 Hid.
  assert (k = k') as <-; [|congruence].
  by eapply (NoDup_fmap_lookup rq_videoId rqs), Hid; [apply Hcycle|..].
Qed.

(** What a settling request does for the requests of the cycle: its own
    judgment is drawn at the next frame, the others stay as they are. *)
Lemma request_served_settle s r rq rq' :
  serving s0 rqs s → inflight s !! r = Some rq → rq' ∈ rqs →
  request_served (settle r (answer_to rq) s) rq'.
Proof.
  intros Hs Hr Hrq'. pose proof (sv_inflight _ _ _ Hs r rq Hr) as Hrq.
  pose proof (wf_win _ (sv_wf _ _ _ Hs)) as Hwf.
  destruct (decide (rq_videoId rq' = rq_videoId rq)) as [Hid|Hid].
  - rewrite (same_participant rq' rq Hrq' Hrq Hid). right. intros result Hv.
    rewrite (settle_win r rq s Hr), Hv.
    rewrite (querySelector_monitorId_videos _ (win s)) by apply updateOverlay_videos.
    destruct (querySelector_monitorId (rq_videoId rq) (win s)) as [[n v]|] eqn:Hq.
    { exists n, v. split; [done|]. by apply (drawn_next_update _ _ _ n). }
    apply querySelector_monitorId_None in Hq. destruct Hq.
    unfold monitor_ids. rewrite (sv_videos _ _ _ Hs). by apply (co_known _ _ Hcycle).
  - destruct (sv_served _ _ _ Hs rq' Hrq') as [[r' Hr']|Hdrawn].
    { left. exists r'. rewrite settle_inflight, lookup_delete_ne; [done|].
      intros <-. congruence. }
    right. intros result Hv. destruct (Hdrawn result Hv) as (n & v & Hq & Hd).
    exists n, v. rewrite (settle_win r rq s Hr).
    destruct (verdict (rq_videoId rq) _) as [res|]; [|done].
    rewrite (querySelector_monitorId_videos _ (win s)) by apply updateOverlay_videos.
    split; [done|]. by apply drawn_next_other.
Qed.

Lemma serving_settle s r rq :
  serving s0 rqs s → inflight s !! r = Some rq →
  serving s0 rqs (settle r (answer_to rq) s).
Proof.
  intros Hs Hr. split.
  - apply wf_settle, Hs.
  - rewrite settle_isAnalyzing. apply Hs.
  - rewrite settle_videos. apply Hs.
  - intros t d Htd. rewrite settle_now.
    apply settle_timers in Htd as [Ht| ->]; [by eapply sv_timers|lia].
  - intros Hemp. destruct (settle_armed r (answer_to rq) s) as (t & Ht1 & Ht2);
      [by rewrite Hr|apply Hs|done|by eauto].
  - intros r' rq'. rewrite settle_inflight. intros [_ Hr']%lookup_delete_Some.
    by eapply sv_inflight.
  - intros rq' Hrq'. by apply request_served_settle.
Qed.

Lemma serving_frame s : serving s0 rqs s → serving s0 rqs (set_win animationFrame s).
Proof.
  intros Hs. pose proof (wf_next AnimationFrame s (sv_wf _ _ _ Hs)) as Hwf.
  destruct Hs as [_ H2 H3 H4 H5 H6 H7]. split; try done.
  - change (videos (animationFrame (win s)) = videos (win s0)).
    by rewrite animationFrame_videos.
  - intros rq Hrq. destruct (H7 rq Hrq) as [?|Hd]; [by left|right].
    intros result Hv. destruct (Hd result Hv) as (n & v & Hq & Hdn).
    exists n, v. split; [|by apply drawn_next_frame].
    by rewrite (querySelector_monitorId_videos _ (win s))
      by apply animationFrame_videos.
Qed.

(** The timer of the next cycle is not due while the clock stands still. *)
Lemma serving_no_fire s t : serving s0 rqs s → ¬ enabled (TimerFire t) s.
Proof.
  intros Hs (d & Ht & Hd). pose proof (sv_timers _ _ _ Hs t d Ht). lia.
Qed.

Lemma serving_step s s' :
  serving s0 rqs s → served_step s s' → internal_step s s' ∧ serving s0 rqs s'.
Proof.
  intros Hs Hstep. split; [by apply served_internal|].
  destruct Hstep as [s1 r rq Hr Hc|s1 Hq|s1 t Ht].
  - by apply serving_settle.
  - by apply serving_frame.
  - by destruct (serving_no_fire s1 t).
Qed.

(** Time that passes short of the next timer changes nothing. *)
Lemma serving_tick s d :
  serving s0 rqs s → (∀ t due, timers s !! t = Some due → (now s + d < due)%N) →
  serving s0 rqs (next (Tick d) s).
Proof.
  intros Hs Hd. pose proof (wf_next (Tick d) s (sv_wf _ _ _ Hs)) as Hwf.
  by destruct Hs as [_ H2 H3 H4 H5 H6 H7].
Qed.

Lemma serving_time s s' :
  serving s0 rqs s → rtc served_time s s' → serving s0 rqs s'.
Proof.
  intros Hs. induction 1 as [|s1 s2 s3 [s s' Hstep|s d Hd] _ IH]; [done|..];
    apply IH; [by eapply serving_step|by apply serving_tick].
Qed.

(** With nothing in flight and no callback queued the cycle is at rest,
    and every judgment is on screen. *)
Lemma serving_rest s :
  serving s0 rqs s → inflight s = ∅ → rafQueue (win s) = [] → annotated s0 s.
Proof.
  intros Hs Hemp Hq. split_and!.
  - split_and!; [|done..]. apply map_empty. intros t. apply eq_None_not_Some.
    intros [d [Ht Hd]%map_lookup_filter_Some]. simpl in Hd.
    pose proof (sv_timers _ _ _ Hs t d Ht). lia.
  - apply Hs.
  - destruct (sv_armed _ _ _ Hs Hemp) as (t & d & Ht & Hd). exists t, d.
    split_and!; [done..|by eapply sv_timers|by eapply wf_due, Hd; apply Hs].
  - intros n v i result Hv Hsam Hi Hver.
    destruct (co_sampled _ _ Hcycle n v i Hv Hsam Hi) as (rq & Hrq & <- & Himg).
    destruct (sv_served _ _ _ Hs rq Hrq) as [[r Hr]|Hd]; [by rewrite Hemp in Hr|].
    rewrite <-Himg in Hver. destruct (Hd result Hver) as (n' & v' & Hq' & Hdn).
    pose proof (co_nodup _ _ Hcycle) as Hnodup.
    rewrite (querySelector_distinct _ n v) in Hq'
      by (unfold monitor_ids; rewrite ?(sv_videos _ _ _ Hs); done).
    simplify_eq. by apply drawn_next_rest.
Qed.

(** A state of the cycle is at rest and annotated, or has a task to run. *)
Lemma serving_progress s : serving s0 rqs s → red served_step s ∨ annotated s0 s.
Proof.
  intros Hs. destruct (map_choose_or_empty (inflight s)) as [(r & rq & Hr)|Hemp].
  { left. exists (next (Settle r (answer_to rq)) s). apply served_settle; [done|].
    apply answer_covered, (known_safe s); [apply Hs|].
    unfold monitor_ids. rewrite (sv_videos _ _ _ Hs). apply (co_known _ _ Hcycle).
    by eapply sv_inflight. }
  destruct (rafQueue (win s)) eqn:Hq; [right; by apply serving_rest|].
  left. exists (next AnimationFrame s). apply served_frame. by rewrite Hq.
Qed.

(** Inevitably the cycle comes to rest with every judgment on screen. *)
Lemma serving_eventually s :
  serving s0 rqs s → eventually served_step (annotated s0) s.
Proof.
  apply (wf_eventually served_step internal_step (serving s0 rqs)).
  - apply internal_step_wf.
  - apply serving_step.
  - apply serving_progress.
Qed.

(** Both readings: with the clock standing still the annotated rest is
    inevitable; with time passing, the cycle is annotated whenever it is at
    rest. *)
Lemma serving_annotates s :
  serving s0 rqs s →
  eventually served_step (annotated s0) s ∧
  ∀ s', rtc served_time s s' → inflight s' = ∅ → rafQueue (win s') = [] →
        annotated s0 s'.
Proof.
  intros Hs. split; [by apply serving_eventually|].
  intros s' Hrtc. apply serving_rest. by eapply serving_time.
Qed.
End cycle.

(** ** The beginning of a cycle *)

Section beginning.
Context `{Backend}.
Implicit Types (s : state).

(** The state in which a cycle has begun with nothing in flight and no
    timer pending is a state of the cycle. *)
Lemma serving_begin s :
  wf (runAnalysisCycle s) → isAnalyzing s = true → inflight s = ∅ → timers s = ∅ →
  serving (runAnalysisCycle s)
    (cycle_requests (nextCycle s) (now s) (videos (win s))) (runAnalysisCycle s).
Proof.
  intros Hwf Hrun Hemp Ht.
  pose proof (runAnalysisCycle_in_flight s Hrun Hemp) as Hin.
  split; try done.
  - by rewrite runAnalysisCycle_isAnalyzing.
  - intros t d Htd. rewrite runAnalysisCycle_now.
    apply runAnalysisCycle_timers in Htd as [Htd| ->]; [by rewrite Ht in Htd|lia].
  - intros Hemp'. destruct (runAnalysisCycle_armed s Hrun Hemp') as (t & ? & ?).
    by eauto.
  - intros r rq (k & _ & Hk)%Hin. by eapply list_elem_of_lookup_2.
  - intros rq [k Hk]%list_elem_of_lookup_1. left.
    exists (nextRequest s + k)%nat. apply Hin. by exists k.
Qed.

(** A task of an orderly environment that begins a cycle leaves a state
    of that cycle. *)
Lemma begun_cycle vs (tm : N) s e :
  reachable_under orderly vs tm s → enabled e s → orderly e s → begins_cycle e s →
  ∃ rqs, cycle_of (next e s) rqs ∧ serving (next e s) rqs (next e s).
Proof.
  intros Hs He Ho Hb. pose proof (distinct_ids_orderly _ _ _ Hs) as Hd.
  pose proof (wf_next e s (wf_reachable_under _ _ _ _ Hs)) as Hwf.
  destruct (cycle_entry e s (single_chain_orderly _ _ _ Hs) Hd He Ho Hb)
    as (sx & Hnext & Hrun & Hemp & Hold & Hw & _ & _ & _ & Ht).
  rewrite Hnext in *. pose proof (runAnalysisCycle_videos sx) as Hv.
  rewrite Hrun in Hv.
  assert (NoDup (omap monitorId (videos (win sx)))) as Hnd
    by (rewrite Hw; apply Hd).
  exists (cycle_requests (nextCycle sx) (now sx) (videos (win sx))).
  split; [split|by apply serving_begin].
  - by apply cycle_requests_NoDup.
  - intros rq Hrq. unfold monitor_ids. rewrite Hv.
    by apply (cycle_requests_known (nextCycle sx)).
  - unfold monitor_ids. rewrite Hv. by apply stamped_NoDup.
  - intros n v i Hn Hsam Hi. rewrite Hv in Hn.
    exists (Request (nextCycle sx) i (sample_of v) (now sx)).
    split_and!; [|done..]. by apply (sampled_request _ _ _ n).
Qed.
End beginning.

#[export] Hint Resolve serving_settle serving_frame serving_begin drawn_next_update
  drawn_next_frame drawn_next_other : monitor.

(** ** Theorems *)

(** C3: a cycle that is answered annotates every participant.  In an
    orderly environment let a task begin a cycle (a timer, an accepted
    [start]) and let the service answer every request.  While the clock
    stands still, whatever the order in which the requests settle and the
    animation frames run, the script inevitably comes to rest with the
    videos unchanged, the next cycle armed within one delay, and the
    overlay of every sampled participant the service judged on screen: over
    the rectangle of the participant's video, in the colour of the status
    and with the label of the judgment.  And when time passes while the
    requests are answered, short of the next timer, the same holds
    whenever nothing is in flight and no callback is queued. *)
Theorem answered_cycle_annotates `{Backend} vs (tm : N) s e :
  reachable_under orderly vs tm s → enabled e s → orderly e s → begins_cycle e s →
  eventually served_step (annotated (next e s)) (next e s) ∧
  ∀ s', rtc served_time (next e s) s' →
        inflight s' = ∅ → rafQueue (win s') = [] → annotated (next e s) s'.
Proof.
  intros Hs He Ho Hb.
  destruct (begun_cycle vs tm s e Hs He Ho Hb) as (rqs & Hc & Hsv).
  by apply (serving_annotates _ rqs).
Qed.

Lemma answered_cycle_annotates_witness :
  eventually (served_step (H := alice_service))
    (annotated (H := alice_service) two_started) two_started ∧
  annotated (H := alice_service) two_started two_answered ∧
  overlay_ids (win two_answered)
  = [overlay_id "participant-1000-1"; overlay_id "participant-1000-0"].
Proof.
  destruct (answered_cycle_annotates (H := alice_service) [sample_video; sample_video]
              1000 (initial_state [sample_video; sample_video] 1000) (Message "start"))
    as [Hev Hrest].
  - constructor.
  - done.
  - split; [by intros _ _|]. intros _ _. repeat constructor; by intros i.
  - split; [done|by vm_compute].
  - split; [exact Hev|]. split; [|by vm_compute].
    apply Hrest; [|by vm_compute..]. unfold two_answered.
    eapply rtc_l; [apply served_task, (served_settle _ 1
      (Request 0 "participant-1000-1" (sample_of sample_video) 1000));
      [by vm_compute|by_compute]|].
    eapply rtc_l; [apply served_task, (served_settle _ 0
      (Request 0 "participant-1000-0" (sample_of sample_video) 1000));
      [by vm_compute|by_compute]|].
    eapply rtc_l; [apply served_task, served_frame; by_compute|]. apply rtc_refl.
Defined.
