(* ===== verification/Liveness.v ===== *)
(** * Liveness: a running script annotates, whatever came before

    [Annotation] follows one cycle from its beginning.  This file starts
    anywhere: in any state an orderly environment can bring about, with
    requests of a disturbed cycle in flight or callbacks queued or the
    script waiting for its timer.  The script runs against the service
    ([served_step]) and, when it is at rest, the clock advances to the
    timer ([live_wait]); nobody else acts.  Then whatever the order of the
    tasks, the script comes to a rest in which every sampled participant
    the service judges is annotated, and the clock has advanced by one
    delay at most ([refreshed]).  The proof goes through three phases: the
    tasks under way run out ([drains], by the well-founded order of
    [Quiescence]), the timer fires ([rest_wakes]), and its cycle is
    answered ([serving_live], by the invariant of [Annotation]).  The
    state reached is again a running state of an orderly environment, so
    the statement applies to it anew: every cycle refreshes the
    annotations. *)

From stdpp Require Import relations.
From S2P Require Import Prelude Js Dom Sampler Overlay Scheduler Invariants Barrier.
From S2P Require Import Lifecycle Rendering Cycle Identity Gateway Pacing Safety.
From S2P Require Import Quiescence Backend Annotation.

(** ** Definitions *)

(** The script runs in an orderly environment, at time [t0]. *)
Definition running_at (vs : list video) (tm t0 : N) (s : state) : Prop :=
  reachable_under orderly vs tm s ∧ isAnalyzing s = true ∧ now s = t0.

(** A timer has just begun a cycle, at [t1] or before. *)
Definition cycle_begun (vs : list video) (tm t1 : N) (s : state) : Prop :=
  ∃ s1 t, reachable_under orderly vs tm s1 ∧ enabled (TimerFire t) s1 ∧
          s = next (TimerFire t) s1 ∧ (now s1 ≤ t1)%N.

(** While the requests of two participants are in flight, a third joins
    in front of them. *)
Definition newcomer_joined : state :=
  next (Host (HostInsert 0 sample_video)) two_started.

Section definitions.
Context `{Backend}.

(** The script against the service and the clock: a task of the script
    with the answers of the service, or, at rest, the wait for a timer. *)
Inductive live_step : relation state :=
| live_task s s' : served_step s s' → live_step s s'
| live_wait s t d :
    quiescent s → timers s !! t = Some d → live_step s (next (Tick (d - now s)) s).

(** The script runs, at rest, every sampled participant the service judges
    annotated, no later than one delay after [t0]. *)
Definition refreshed (vs : list video) (tm t0 : N) (s : state) : Prop :=
  reachable_under orderly vs tm s ∧ isAnalyzing s = true ∧
  annotated s s ∧ (now s ≤ t0 + 1000)%N.
End definitions.

(** ** Lemmas *)

Section live.
Context `{Backend} (vs : list video) (tm : N).
Implicit Types (s : state) (e : event).

Lemma internal_orderly e s : internal e s → orderly e s.
Proof. by destruct e. Qed.

Lemma internal_isAnalyzing e s : internal e s → isAnalyzing (next e s) = isAnalyzing s.
Proof.
  destruct e as [?|t|r o| |?|?]; unfold next; simpl; try done; intros _.
  - unfold fire. by rewrite runAnalysisCycle_isAnalyzing.
  - apply settle_isAnalyzing.
Qed.

Lemma internal_now e s : internal e s → now (next e s) = now s.
Proof.
  destruct e as [?|t|r o| |?|?]; unfold next; simpl; try done; intros _.
  - unfold fire. by rewrite runAnalysisCycle_now.
  - apply settle_now.
Qed.

(** A task against the service is a task of an orderly environment that
    leaves the clock and the run flag as they are. *)
Lemma served_running (t0 : N) s s' :
  served_step s s' → running_at vs tm t0 s → running_at vs tm t0 s'.
Proof.
  intros [s0 e He Hi]%served_internal (Hs & Hrun & Hn). split_and!.
  - apply reachable_under_step; [done..|by apply internal_orderly].
  - by rewrite internal_isAnalyzing.
  - by rewrite internal_now.
Qed.

(** At rest no task of the script can run. *)
Lemma quiescent_no_task s s' : quiescent s → ¬ served_step s s'.
Proof. intros Hq Hs%served_internal. apply nf_quiescent in Hq. apply Hq. by exists s'. Qed.

(** A running script that is not at rest has a task to run against the
    service. *)
Lemma served_red s :
  reachable_under orderly vs tm s → ¬ quiescent s → red served_step s.
Proof.
  intros Hs Hq.
  destruct (map_choose_or_empty (due (now s) (timers s)))
    as [(t & d & [Ht Hd]%map_lookup_filter_Some)|Hd].
  { exists (next (TimerFire t) s). apply served_fire. by exists d. }
  destruct (map_choose_or_empty (inflight s)) as [(r & rq & Hr)|Hi].
  { exists (next (Settle r (answer_to rq)) s). apply served_settle; [done|].
    by eapply answer_covered, inflight_safe. }
  destruct (rafQueue (win s)) eqn:E; [by destruct Hq|].
  exists (next AnimationFrame s). apply served_frame. by rewrite E.
Qed.
End live.

Section phases.
Context `{Backend} (vs : list video) (tm t0 : N).
Implicit Types (s : state).

(** The tasks under way run out, unless a timer fires before. *)
Lemma drains s :
  running_at vs tm t0 s →
  eventually live_step
    (λ b, cycle_begun vs tm t0 b ∨ (quiescent b ∧ running_at vs tm t0 b)) s.
Proof.
  intros Hs.
  apply (wf_eventually_until live_step internal_step
           (λ a, running_at vs tm t0 a ∨ cycle_begun vs tm t0 a));
    [apply internal_step_wf| |by left].
  intros a [Ha|Ha]; [|by left; left].
  destruct (decide (quiescent a)) as [Hq|Hq]; [by left; right|]. right. split.
  { destruct (served_red vs tm a) as [b Hb]; [apply Ha|done|].
    exists b. by apply live_task. }
  intros b Hab. inversion Hab as [a1 b1 Hstep|a1 t d Hq' _]; subst; [|done].
  split; [by apply served_internal|].
  pose proof (served_running vs tm t0 _ _ Hstep Ha) as Hb.
  inversion Hstep as [a2 r rq Hr Hc|a2 Hraf|a2 t Ht]; subst; [by left..|].
  right. exists a, t. destruct Ha as (? & ? & ->). by split_and!.
Qed.

(** With nothing in flight and nothing queued, a timer that is due begins
    a cycle. *)
Lemma due_fires s t d :
  reachable_under orderly vs tm s → inflight s = ∅ → rafQueue (win s) = [] →
  timers s !! t = Some d → (d ≤ now s)%N →
  eventually live_step (cycle_begun vs tm (now s)) s.
Proof.
  intros Hs Hi Hraf Ht Hd. apply eventually_step.
  { exists (next (TimerFire t) s). apply live_task, served_fire. by exists d. }
  intros c Hsc. inversion Hsc as [s1 c1 Hstep|s1 t2 d2 Hq2 Ht2]; subst.
  - inversion Hstep as [s2 r rq Hr _|s2 Hq2|s2 t2 Ht2]; subst.
    + by rewrite Hi in Hr.
    + done.
    + apply eventually_now. by exists s, t2.
  - destruct Hq2 as (Hdue & _). exfalso.
    assert (due (now s) (timers s) !! t = Some d) as Hin
      by by apply map_lookup_filter_Some.
    by rewrite Hdue in Hin.
Qed.

(** At rest the script waits for its timer, and the timer begins a cycle. *)
Lemma rest_wakes s :
  quiescent s → running_at vs tm t0 s →
  eventually live_step (cycle_begun vs tm (t0 + 1000)) s.
Proof.
  intros Hq (Hs & Hrun & Hn).
  destruct (quiescent_armed vs tm s (calm_orderly _ _ _ Hs) Hq) as [Harm _].
  destruct (Harm Hrun) as (t & d & Hh & Ht & Hd).
  pose proof (single_chain_orderly _ _ _ Hs) as Hsc.
  apply eventually_step; [exists (next (Tick (d - now s)) s); by eapply live_wait|].
  intros b Hab. inversion Hab as [a1 b1 Hstep|a1 t' d' _ Ht']; subst;
    [by destruct (quiescent_no_task s b)|].
  assert (t' = t) as ->.
  { destruct (sc_handle _ Hsc t') as [Hh' _]; [by rewrite Ht'|]. congruence. }
  assert (d' = d) as -> by congruence.
  destruct Hq as (_ & Hi & Hraf).
  eapply eventually_mono; [|apply (due_fires _ t d); try done].
  - intros c (s1 & t1 & ? & ? & ? & Hle). exists s1, t1. split_and!; [done..|].
    simpl in Hle. lia.
  - by apply reachable_under_step.
  - simpl. lia.
Qed.

(** The cycle of an answered timer comes to rest annotated. *)
Lemma serving_live s0 rqs (t1 : N) s :
  cycle_of s0 rqs → serving s0 rqs s → running_at vs tm t1 s →
  eventually live_step (λ b, annotated s0 b ∧ running_at vs tm t1 b) s.
Proof.
  intros Hc Hsv Hs.
  apply (wf_eventually_until live_step internal_step
           (λ a, serving s0 rqs a ∧ running_at vs tm t1 a));
    [apply internal_step_wf| |done].
  intros a [Ha Hra].
  destruct (serving_progress s0 rqs Hc a Ha) as [[b Hred]|Hann]; [right|by left].
  split; [exists b; by apply live_task|].
  intros c Hac. inversion Hac as [a1 c1 Hstep|a1 t d Hq _]; subst;
    [|by destruct (quiescent_no_task a b)].
  destruct (serving_step s0 rqs Hc a c Ha Hstep). split_and!; [done..|].
  by eapply served_running.
Qed.

Lemma annotated_self s0 s : annotated s0 s → annotated s s.
Proof.
  intros (Hq & Hv & Harm & Hd). split_and!; [done..|].
  intros n v i result Hn. apply (Hd n). by rewrite <-Hv.
Qed.
(** The three phases in a row: the tasks under way run out, the timer
    fires, and its cycle is answered. *)
Lemma running_refreshes s :
  running_at vs tm t0 s → eventually live_step (refreshed vs tm t0) s.
Proof.
  intros Hs.
  eapply eventually_trans; [by apply drains|].
  intros b Hb. apply eventually_trans with (P := cycle_begun vs tm (t0 + 1000)).
  { destruct Hb as [(s1 & t & ? & ? & ? & ?)|[Hq Hb]]; [|by apply rest_wakes].
    apply eventually_now. exists s1, t. split_and!; [done..|lia]. }
  intros c (s1 & t & Hs1 & Ht & -> & Hn).
  destruct (begun_cycle vs tm s1 (TimerFire t) Hs1 Ht) as (rqs & Hc & Hsv); [done..|].
  eapply eventually_mono;
    [|apply (serving_live (next (TimerFire t) s1) rqs (now s1)); [done..|]].
  - intros d (Hann%annotated_self & Hd & Hrd & Hnd). split_and!; [done..|lia].
  - destruct (fire_entry t s1 (single_chain_orderly _ _ _ Hs1) Ht) as [Hr1 _].
    split_and!.
    + by apply reachable_under_step.
    + by rewrite (internal_isAnalyzing (TimerFire t)).
    + by apply (internal_now (TimerFire t)).
Qed.
End phases.

(** ** Theorems *)

(** C5: a running script annotates.  In any state that an orderly
    environment can bring about and in which the script runs, let the
    service answer every request and let nobody else act: the tasks of the
    script run in any order, and when the script is at rest the clock
    advances to its timer.  Then inevitably the script comes to rest, still
    running, with the next cycle armed and every participant that is
    sampled and judged by the service annotated: its overlay on screen
    over the rectangle of its video, in the colour and with the label of
    the judgment; and the clock has advanced by one delay (1000 ms) at
    most.  The state reached satisfies the premises again. *)
Theorem running_script_annotates `{Backend} vs (tm : N) s :
  reachable_under orderly vs tm s → isAnalyzing s = true →
  eventually live_step (refreshed vs tm (now s)) s.
Proof. intros Hs Hrun. by apply running_refreshes. Qed.

Lemma running_script_annotates_witness :
  size (inflight newcomer_joined) = 2 ∧
  (monitorId <$> videos (win newcomer_joined))
  = [None; Some "participant-1000-0"; Some "participant-1000-1"] ∧
  eventually (live_step (H := alice_service))
    (refreshed (H := alice_service) [sample_video; sample_video] 1000
       (now newcomer_joined)) newcomer_joined.
Proof.
  do 2 (split; [by vm_compute|]).
  apply (running_script_annotates (H := alice_service) [sample_video; sample_video] 1000);
    [|done].
  unfold newcomer_joined, two_started.
  apply reachable_under_step; [|done|done].
  apply reachable_under_step; [constructor|done|].
  split; [by intros _ _|]. intros _ _. repeat constructor; by intros i.
Defined.
