(* ===== verification/Background.v ===== *)
(** * Background: the batch gateway of [src/background.js]

    [processFrames] posts a batch of frames to [/analyze_images] and turns
    the answer into one [update_overlays] message for the tab: each entry
    keeps its judgment, and an entry without one gets a fallback judgment
    named after the last dash-separated segment of its [student_id].  The
    function is cut at its awaits: what it posts, and what it does with the
    outcome.  Any exception inside the [try] ends in the [catch]; the
    functions that can throw return [None] there. *)

From S2P Require Import Prelude Js Dom Sampler Overlay Scheduler.

(** ** Data *)

(** A frame of the batch: opaque to the script, which only forwards it. *)
Record frame := Frame {
  fr_participant_id : string;
  fr_image : image
}.

(** An element of [data.results]. *)
Inductive batch_entry :=
| EntryNull
| Entry (student_id : jval) (result : option judgment).

(** The parsed body: [data.error] and [data.results] ([None] when it is
    not an array). *)
Record batch_data := BatchData {
  bd_error : jval;
  bd_results : option (list batch_entry)
}.

(** How the request ends: the fetch rejects, or a body arrives ([None]
    when it does not parse or is [null]).  The HTTP status is not looked
    at. *)
Inductive batch_outcome :=
| BatchNetworkError
| BatchBody (data : option batch_data).

Record update := Update {
  up_id : jval;
  up_result : judgment
}.

Inductive background_log :=
| BackendError (e : jval)
| ProcessFailed.

(** [chrome.tabs.sendMessage(tabId, {command, updates})]. *)
Record tab_message := TabMessage {
  tm_tabId : nat;
  tm_command : string;
  tm_updates : list update
}.

(** What the service worker has done: bodies posted, messages sent to
    tabs, errors logged, each latest first. *)
Record background := Background {
  bg_posted : list (list frame);
  bg_messages : list tab_message;
  bg_console : list background_log
}.

Definition initial_background : background := Background [] [] [].

(** ** [String.prototype.split] with a one-character separator *)

Fixpoint split (c : ascii) (s : string) : list string :=
  match s with
  | EmptyString => [EmptyString]
  | String a s' =>
      if decide (a = c) then EmptyString :: split c s'
      else match split c s' with
           | seg :: segs => String a seg :: segs
           | [] => [String a EmptyString]
           end
  end.

(** [Array.prototype.pop]: the last element, [undefined] on an empty array. *)
Definition pop (l : list string) : jval :=
  match last l with
  | Some x => JStr x
  | None => JUndefined
  end.

(** ** [processFrames] *)

(** [result.student_id?.split('-').pop() || 'Unknown']; [None] when the
    call throws ([split] is not a function of a number or a boolean). *)
Definition trailing_segment (student_id : jval) : option string :=
  match student_id with
  | JUndefined | JNull => Some "Unknown"
  | JStr s =>
      let seg := pop (split "-" s) in
      Some (if truthy seg then to_string seg else "Unknown")
  | JNum _ | JBool _ => None
  end.

(** The object literal of lines 20 to 24. *)
Definition fallback_judgment (segment : string) : judgment :=
  Judgment (JStr ("Student " +:+ segment)) (JStr "Error") (JNum 0).

(** The arrow function of lines 18 to 25 on one entry. *)
Definition make_update (e : batch_entry) : option update :=
  match e with
  | EntryNull => None
  | Entry student_id (Some result) => Some (Update student_id result)
  | Entry student_id None =>
      segment ← trailing_segment student_id;
      Some (Update student_id (fallback_judgment segment))
  end.

(** [data.results.map(...)]: the first entry that throws ends the map. *)
Definition make_updates (results : list batch_entry) : option (list update) :=
  mapM make_update results.

(** Line 2 and the fetch: the body posted, if any. *)
Definition processFrames_request (frames : option (list frame)) : option (list frame) :=
  match frames with
  | None | Some [] => None
  | Some fs => Some fs
  end.

Definition log_error (e : background_log) (b : background) : background :=
  Background (bg_posted b) (bg_messages b) (e :: bg_console b).

Definition sendMessage (msg : tab_message) (b : background) : background :=
  Background (bg_posted b) (msg :: bg_messages b) (bg_console b).

Definition post (fs : list frame) (b : background) : background :=
  Background (fs :: bg_posted b) (bg_messages b) (bg_console b).

(** Lines 11 to 34: what the function does once the fetch has ended. *)
Definition processFrames_continue (tabId : nat) (o : batch_outcome)
    (b : background) : background :=
  match o with
  | BatchNetworkError | BatchBody None => log_error ProcessFailed b
  | BatchBody (Some data) =>
      if truthy (bd_error data) then log_error (BackendError (bd_error data)) b
      else match bd_results data ≫= make_updates with
           | Some updates => sendMessage (TabMessage tabId "update_overlays" updates) b
           | None => log_error ProcessFailed b
           end
  end.

(** One call of [processFrames] whose fetch ends as [o]. *)
Definition processFrames (frames : option (list frame)) (tabId : nat)
    (o : batch_outcome) (b : background) : background :=
  match processFrames_request frames with
  | None => b
  | Some fs => processFrames_continue tabId o (post fs b)
  end.

(** ** Lemmas *)

Section background.
Implicit Types (c : ascii) (s seg : string) (e : batch_entry).

Lemma split_nonempty c s : split c s ≠ [].
Proof. destruct s as [|a s]; simpl; [done|]. case_decide; [done|]. by case_match. Qed.

Lemma split_cons c a s :
  a ≠ c → ∃ seg segs, split c s = seg :: segs ∧ split c (String a s) = String a seg :: segs.
Proof.
  intros Ha. simpl. rewrite decide_False by done.
  destruct (split c s) as [|seg segs] eqn:E; [by destruct (split_nonempty c s)|eauto].
Qed.

(** The last segment has no separator and ends the string; a string with
    one segment is that segment. *)
Lemma split_last_strong c s :
  ∃ seg, last (split c s) = Some seg ∧ str_mem c seg = false ∧
         ((split c s = [seg] ∧ s = seg) ∨
          (∃ pre, s = pre +:+ String c seg) ∧ (2 ≤ length (split c s))%nat).
Proof.
  induction s as [|a s (seg & Hl & Hm & Hs)]; [by exists EmptyString; auto|].
  destruct (decide (a = c)) as [->|Ha].
  - exists seg. simpl. rewrite decide_True by done.
    destruct (split c s) as [|seg0 segs] eqn:E; [done|].
    split_and!; [done..|]. right. split; [|simpl; lia].
    destruct Hs as [[_ ->]|[[pre ->] _]]; [by exists EmptyString|by exists (String c pre)].
  - destruct (split_cons c a s Ha) as (seg0 & segs & E & ->). rewrite E in Hl, Hs.
    destruct segs as [|seg1 segs].
    + exists (String a seg0). simplify_eq/=. rewrite bool_decide_eq_false_2 by done.
      split_and!; [done..|]. left. destruct Hs as [[_ ->]|[_ ?]]; [done|lia].
    + exists seg. split_and!; [done..|]. right. split; [|simpl; lia].
      destruct Hs as [[? _]|[[pre ->] _]]; [done|by exists (String a pre)].
Qed.

Lemma split_last c s :
  ∃ seg, last (split c s) = Some seg ∧ str_mem c seg = false ∧
         (s = seg ∨ ∃ pre, s = pre +:+ String c seg).
Proof.
  destruct (split_last_strong c s) as (seg & ? & ? & Hs). exists seg.
  split_and!; [done..|]. destruct Hs as [[_ ?]|[? _]]; auto.
Qed.



(** An update keeps the id of its entry. *)
Lemma make_update_id e u :
  make_update e = Some u → ∃ result, e = Entry (up_id u) result.
Proof.
  destruct e as [|student_id [result|]]; simpl; [done|intros [= <-]; eauto|].
  destruct (trailing_segment student_id); intros [= <-]; eauto.
Qed.

(** What an update holds: the judgment of its entry, or the fallback
    judgment named after the trailing segment of the id. *)
Lemma make_update_result e u :
  make_update e = Some u →
  ∃ result, e = Entry (up_id u) result ∧
    (∀ j, result = Some j → up_result u = j) ∧
    (result = None → ∃ seg, trailing_segment (up_id u) = Some seg ∧
                            up_result u = fallback_judgment seg).
Proof.
  destruct e as [|student_id [result|]]; simpl; [done|intros [= <-]|].
  - exists (Some result). split_and!; [done|by intros j [= ->]|done].
  - destruct (trailing_segment student_id) as [seg|] eqn:Hseg; intros [= <-].
    exists None. split_and!; [done..|]. intros _. by exists seg.
Qed.

Lemma make_update_judged student_id result :
  make_update (Entry student_id (Some result)) = Some (Update student_id result).
Proof. done. Qed.

(** The segment used for a string id. *)
Lemma trailing_segment_str s :
  ∃ seg, last (split "-" s) = Some seg ∧
         trailing_segment (JStr s)
         = Some (if decide (seg = EmptyString) then "Unknown" else seg).
Proof.
  destruct (split_last "-" s) as (seg & Hl & _). exists seg. split; [done|].
  unfold trailing_segment, pop. rewrite Hl. simpl.
  by repeat case_decide; rewrite ?bool_decide_eq_true_2, ?bool_decide_eq_false_2 by done.
Qed.
End background.

(** ** Theorems *)


(** The name of the fallback judgment is made of the trailing
    segment of the id: for a string id the last dash-free suffix, or
    [Unknown] when the id ends in a dash or is empty; for a missing id
    [Unknown]. *)
Theorem trailing_segment_spec s :
  ∃ seg, str_mem "-" seg = false ∧
    (s = seg ∨ ∃ pre, s = pre +:+ "-" +:+ seg) ∧
    trailing_segment (JStr s)
    = Some (if decide (seg = EmptyString) then "Unknown" else seg) ∧
    trailing_segment JUndefined = Some "Unknown" ∧
    trailing_segment JNull = Some "Unknown".
Proof.
  destruct (split_last "-" s) as (seg & Hl & Hm & Hs).
  destruct (trailing_segment_str s) as (seg' & Hl' & Ht).
  rewrite Hl in Hl'. simplify_eq. exists seg'. by split_and!.
Qed.

(** The batch scenario of the specification.  An answer whose one
    entry has [student_id] "room-7" and no judgment is forwarded to the tab
    as one [update_overlays] message whose update for "room-7" is named
    "Student 7", with status "Error" and score 0; nothing is logged. *)
Theorem processFrames_room7 fs tabId :
  fs ≠ [] →
  processFrames (Some fs) tabId
    (BatchBody (Some (BatchData JUndefined (Some [Entry (JStr "room-7") None]))))
    initial_background
  = Background [fs]
      [TabMessage tabId "update_overlays"
         [Update (JStr "room-7")
                 (Judgment (JStr "Student 7") (JStr "Error") (JNum 0))]]
      [].
Proof. intros Hfs. unfold processFrames. by destruct fs. Qed.

Lemma processFrames_room7_witness :
  processFrames (Some [Frame "room-7" (Image (Some 7%N) 480 270)]) 3
    (BatchBody (Some (BatchData JUndefined (Some [Entry (JStr "room-7") None]))))
    initial_background
  = Background [[Frame "room-7" (Image (Some 7%N) 480 270)]]
      [TabMessage 3 "update_overlays"
         [Update (JStr "room-7")
                 (Judgment (JStr "Student 7") (JStr "Error") (JNum 0))]]
      [].
Proof. by apply processFrames_room7. Defined.

(** C35: when every entry of the answer can be turned into an update,
    [processFrames] sends exactly one message, to the tab it was called
    for, with one update per entry in the order of the answer, each under
    the id of its entry; an entry that has a judgment keeps it, and an
    entry without one gets the fallback judgment (status Error, score 0)
    named after the trailing segment of its id, so that for "room-7" the
    name is "Student 7". *)
Theorem processFrames_forwards fs tabId err results updates b :
  fs ≠ [] → truthy err = false → make_updates results = Some updates →
  processFrames (Some fs) tabId (BatchBody (Some (BatchData err (Some results)))) b
  = Background (fs :: bg_posted b)
      (TabMessage tabId "update_overlays" updates :: bg_messages b) (bg_console b) ∧
  length updates = length results ∧
  Forall2 (λ e u, ∃ result, e = Entry (up_id u) result ∧
    (∀ j, result = Some j → up_result u = j) ∧
    (result = None → ∃ seg, trailing_segment (up_id u) = Some seg ∧
       up_result u = Judgment (JStr ("Student " +:+ seg)) (JStr "Error") (JNum 0)))
    results updates.
Proof.
  intros Hfs Herr Hup. split_and!.
  - unfold processFrames, processFrames_continue. destruct fs; [done|]. simpl.
    by rewrite Herr, Hup.
  - symmetry. by eapply length_mapM.
  - apply mapM_Some_1 in Hup. eapply Forall2_impl; [done|].
    intros e u Hu. by apply make_update_result.
Qed.

Lemma processFrames_forwards_witness :
  let fs := [Frame "a-1" (Image (Some 7%N) 480 270); Frame "room-7" (Image (Some 9%N) 480 360)] in
  let results := [Entry (JStr "a-1") (Some (Judgment (JStr "Ann") (JStr "Attentive") (JNum 90)));
                  Entry (JStr "room-7") None] in
  let updates := [Update (JStr "a-1") (Judgment (JStr "Ann") (JStr "Attentive") (JNum 90));
                  Update (JStr "room-7")
                    (Judgment (JStr "Student 7") (JStr "Error") (JNum 0))] in
  processFrames (Some fs) 3 (BatchBody (Some (BatchData JUndefined (Some results))))
    initial_background
  = Background (fs :: bg_posted initial_background)
      (TabMessage 3 "update_overlays" updates :: bg_messages initial_background)
      (bg_console initial_background) ∧
  length updates = length results ∧
  Forall2 (λ e u, ∃ result, e = Entry (up_id u) result ∧
    (∀ j, result = Some j → up_result u = j) ∧
    (result = None → ∃ seg, trailing_segment (up_id u) = Some seg ∧
       up_result u = Judgment (JStr ("Student " +:+ seg)) (JStr "Error") (JNum 0)))
    results updates.
Proof. by apply processFrames_forwards. Defined.

(** C36: one entry that cannot be converted (a [null] entry, or a
    numeric id without a judgment, on which [split] is not a function)
    makes the whole batch fail: no message is sent, the judgments of the
    other entries are lost, and only the generic failure is logged. *)
Theorem malformed_entry_drops_batch fs tabId err results b :
  fs ≠ [] → truthy err = false →
  Exists (λ e, e = EntryNull ∨ ∃ n, e = Entry (JNum n) None) results →
  processFrames (Some fs) tabId (BatchBody (Some (BatchData err (Some results)))) b
  = Background (fs :: bg_posted b) (bg_messages b) (ProcessFailed :: bg_console b).
Proof.
  intros Hfs Herr Hex. unfold processFrames, processFrames_continue.
  destruct fs; [done|]. simpl. rewrite Herr.
  assert (make_updates results = None) as ->; [|done].
  apply mapM_None_2. eapply Exists_impl; [done|].
  by intros e [->|[n ->]].
Qed.

Lemma malformed_entry_drops_batch_witness :
  let fs := [Frame "a-1" (Image (Some 7%N) 480 270)] in
  let results := [Entry (JStr "a-1") (Some (Judgment (JStr "Ann") (JStr "Attentive") (JNum 90)));
                  Entry (JNum 17) None] in
  processFrames (Some fs) 3 (BatchBody (Some (BatchData JUndefined (Some results))))
    initial_background
  = Background (fs :: bg_posted initial_background) (bg_messages initial_background)
      (ProcessFailed :: bg_console initial_background).
Proof.
  apply malformed_entry_drops_batch; [done..|].
  apply Exists_cons_tl, Exists_cons_hd. right. by exists 17%Z.
Defined.

(** C37: the content script has no handler for the command the batch
    gateway sends: an [update_overlays] message changes nothing in the
    content script and gets no response, so the updates of the batch path
    are never drawn. *)
Theorem update_overlays_unhandled frames tabId o b msg :
  msg ∈ bg_messages (processFrames frames tabId o b) →
  msg ∈ bg_messages b ∨
  (tm_command msg = "update_overlays" ∧ tm_tabId msg = tabId ∧
   ∀ s, onMessage (tm_command msg) s = (None, s)).
Proof.
  unfold processFrames, processFrames_continue.
  destruct (processFrames_request frames) as [fs|]; [|auto].
  destruct o as [|[data|]]; simpl; auto.
  destruct (truthy (bd_error data)); simpl; auto.
  destruct (bd_results data ≫= make_updates) as [updates|]; simpl; auto.
  intros [->|?]%elem_of_cons; auto.
Qed.

Lemma update_overlays_unhandled_witness :
  let msg := TabMessage 3 "update_overlays"
               [Update (JStr "room-7") (fallback_judgment "7")] in
  msg ∈ bg_messages initial_background ∨
  (tm_command msg = "update_overlays" ∧ tm_tabId msg = 3%nat ∧
   ∀ s, onMessage (tm_command msg) s = (None, s)).
Proof.
  apply (update_overlays_unhandled
           (Some [Frame "room-7" (Image (Some 7%N) 480 270)]) 3
           (BatchBody (Some (BatchData JUndefined (Some [Entry (JStr "room-7") None]))))
           initial_background).
  vm_compute. left.
Defined.
