(* ===== verification/Popup.v ===== *)
(** * Popup: the control panel of [src/popup.js]

    The popup shows one status line and a list of download links.  Each
    button starts asynchronous work: a tab query, a message to the content
    script, a request to [/end_session].  The state keeps the operations
    that are pending with the callback each will run; one definition per
    listener and per callback.  The tab is assumed to expose its [url]. *)

From S2P Require Import Prelude Js Dom Sampler Overlay Scheduler Invariants Barrier Lifecycle.

(** ** Data *)

Record tab := Tab {
  tab_id : nat;
  tab_url : string
}.

(** The callback given to [sendMessageToContentScript]. *)
Inductive callback :=
| OnStart   (** lines 23 to 26 *)
| OnStop    (** lines 30 to 32 *)
| NoCallback.

(** What [chrome.tabs.sendMessage] reports back. *)
Inductive delivery :=
| LastError
| Delivered (response : option reply).

Record report := Report {
  rep_filename : jval;
  rep_student_name : jval
}.

(** [data.reports]: missing, an array, or something else that is truthy. *)
Inductive reports :=
| ReportsMissing
| ReportsArray (l : list report)
| ReportsOther.

(** How the request to [/end_session] ends: [EndFailed] when the fetch
    rejects or the body does not parse or is [null]. *)
Inductive end_outcome :=
| EndFailed
| EndData (status : jval) (message : jval) (rs : reports).

Record link := Link {
  ln_href : string;
  ln_download : string;
  ln_textContent : string
}.

Record popup := Popup {
  statusClass : string;
  statusText : string;
  linksHTML : string;           (** [downloadLinksDiv.innerHTML] as assigned *)
  links : list link;            (** the anchors appended after it *)
  queries : gmap nat (string * callback);   (** pending [chrome.tabs.query] *)
  nextQuery : nat;
  messages : gmap nat callback;             (** pending [chrome.tabs.sendMessage] *)
  nextMessage : nat;
  ending : nat;                             (** pending requests to [/end_session] *)
  outbox : list (nat * string)              (** messages sent to tabs, latest first *)
}.

#[export] Instance callback_eq_dec : EqDecision callback.
Proof. solve_decision. Defined.
#[export] Instance link_eq_dec : EqDecision link.
Proof. solve_decision. Defined.

(** The popup as [popup.html] loads it. *)
Definition initial_popup (cls text : string) : popup :=
  Popup cls text EmptyString [] ∅ 0 ∅ 0 0 [].

(** ** Helpers of the script *)

(** [String.prototype.includes]. *)
Fixpoint includes (needle s : string) : bool :=
  String.prefix needle s ||
  match s with
  | EmptyString => false
  | String _ s' => includes needle s'
  end.

(** [setStatus] (line 8). *)
Definition setStatus (className text : string) (p : popup) : popup :=
  Popup className text (linksHTML p) (links p) (queries p) (nextQuery p)
        (messages p) (nextMessage p) (ending p) (outbox p).

(** [downloadLinksDiv.innerHTML = html]: the children are replaced. *)
Definition set_linksHTML (html : string) (p : popup) : popup :=
  Popup (statusClass p) (statusText p) html [] (queries p) (nextQuery p)
        (messages p) (nextMessage p) (ending p) (outbox p).

(** [downloadLinksDiv.appendChild(link)]. *)
Definition append_link (l : link) (p : popup) : popup :=
  Popup (statusClass p) (statusText p) (linksHTML p) (links p ++ [l]) (queries p)
        (nextQuery p) (messages p) (nextMessage p) (ending p) (outbox p).

Definition set_ending (n : nat) (p : popup) : popup :=
  Popup (statusClass p) (statusText p) (linksHTML p) (links p) (queries p)
        (nextQuery p) (messages p) (nextMessage p) n (outbox p).

(** [sendMessageToContentScript] up to its first callback (lines 10, 11). *)
Definition sendMessageToContentScript (command : string) (cb : callback)
    (p : popup) : popup :=
  Popup (statusClass p) (statusText p) (linksHTML p) (links p)
        (<[nextQuery p := (command, cb)]> (queries p)) (S (nextQuery p))
        (messages p) (nextMessage p) (ending p) (outbox p).

(** [chrome.tabs.sendMessage(id, {command}, ...)] (line 13). *)
Definition tabs_sendMessage (id : nat) (command : string) (cb : callback)
    (p : popup) : popup :=
  Popup (statusClass p) (statusText p) (linksHTML p) (links p) (queries p)
        (nextQuery p) (<[nextMessage p := cb]> (messages p)) (S (nextMessage p))
        (ending p) ((id, command) :: outbox p).

(** The link of one report (lines 56 to 59). *)
Definition report_link (r : report) : link :=
  Link ("http://127.0.0.1:5000/download_report/" +:+ to_string (rep_filename r))
       (to_string (rep_filename r))
       ("Report for " +:+ to_string (rep_student_name r)).

Definition no_reports_html : string :=
  "<h4>No reports generated.</h4><p>Ensure participants were visible for at least 30 seconds.</p>".

(** [displayDownloadLinks] (lines 49 to 62); the flag is [false] when
    [forEach] is not a function of [reports], which throws after the heading
    has been written. *)
Definition displayDownloadLinks (rs : reports) (p : popup) : popup * bool :=
  match rs with
  | ReportsMissing | ReportsArray [] => (set_linksHTML no_reports_html p, true)
  | ReportsArray l =>
      (foldl (λ q r, append_link (report_link r) q)
             (set_linksHTML "<h4>Download Reports:</h4>" p) l, true)
  | ReportsOther => (set_linksHTML "<h4>Download Reports:</h4>" p, false)
  end.

(** ** The listeners *)

(** The click on [startBtn] (lines 21 to 27). *)
Definition click_start (p : popup) : popup :=
  sendMessageToContentScript "start" OnStart (set_linksHTML EmptyString p).

(** The click on [stopBtn] (lines 29 to 33). *)
Definition click_stop (p : popup) : popup :=
  sendMessageToContentScript "stop" OnStop p.

(** The click on [endBtn] up to its [await] (lines 35 to 40). *)
Definition click_end (p : popup) : popup :=
  let p1 := set_linksHTML EmptyString p in
  let p2 := setStatus "status-generating" "Status: Generating reports..." p1 in
  set_ending (S (ending p)) (sendMessageToContentScript "stop" NoCallback p2).

(** The callback of [chrome.tabs.query] (lines 11 to 18). *)
Definition tabs_result (q : nat) (tabs : list tab) (p : popup) : popup :=
  match queries p !! q with
  | None => p
  | Some (command, cb) =>
      let p1 := Popup (statusClass p) (statusText p) (linksHTML p) (links p)
                      (delete q (queries p)) (nextQuery p) (messages p)
                      (nextMessage p) (ending p) (outbox p) in
      match tabs with
      | t :: _ =>
          if includes "meet.google.com" (tab_url t)
          then tabs_sendMessage (tab_id t) command cb p1
          else setStatus "status-error" "Error: Not on a Google Meet page." p1
      | [] => setStatus "status-error" "Error: Not on a Google Meet page." p1
      end
  end.

(** The callbacks of the buttons (lines 24, 25 and 31). *)
Definition run_callback (cb : callback) (response : option reply) (p : popup) : popup :=
  match cb with
  | OnStart =>
      match response with
      | Some r =>
          if decide (rp_status r = "success")
          then setStatus "status-running" "Status: Analysis Running..." p
          else setStatus "status-error"
                 ("Error: " +:+ match rp_message r with
                                | Some m => if decide (m = EmptyString)
                                            then "Could not start." else m
                                | None => "Could not start."
                                end) p
      | None => setStatus "status-error" "Error: Could not start." p
      end
  | OnStop => setStatus "status-stopped" "Status: Analysis Stopped." p
  | NoCallback => p
  end.

(** The callback of [chrome.tabs.sendMessage] (lines 13 to 16). *)
Definition message_result (m : nat) (d : delivery) (p : popup) : popup :=
  match messages p !! m with
  | None => p
  | Some cb =>
      let p1 := Popup (statusClass p) (statusText p) (linksHTML p) (links p)
                      (queries p) (nextQuery p) (delete m (messages p))
                      (nextMessage p) (ending p) (outbox p) in
      match d with
      | LastError => setStatus "status-error" "Error: Refresh Meet page." p1
      | Delivered response => run_callback cb response p1
      end
  end.

(** The rest of the click on [endBtn] (lines 41 to 46). *)
Definition end_result (o : end_outcome) (p : popup) : popup :=
  match ending p with
  | O => p
  | S n =>
    let p1 := set_ending n p in
    match o with
    | EndFailed => setStatus "status-error" "Error: Backend is unreachable." p1
    | EndData status message rs =>
        if decide (status = JStr "success") then
          let p2 := setStatus "status-generating" "Reports Ready for Download" p1 in
          let '(p3, ok) := displayDownloadLinks rs p2 in
          if ok then p3
          else setStatus "status-error" "Error: Backend is unreachable." p3
        else setStatus "status-error" ("Error: " +:+ to_string message) p1
    end
  end.

(** ** The popup and the content script together *)

(** The content script of the tab handles the message [m] of the popup
    and its response comes back. *)
Definition deliver (m : nat) (command : string) (p : popup) (s : state) : popup * state :=
  let '(response, s') := onMessage command s in
  (message_result m (Delivered response) p, s').

(** The status line. *)
Definition status (p : popup) : string * string := (statusClass p, statusText p).

(** ** Lemmas *)

Section popup.
Implicit Types (p : popup) (s : state) (needle : string).

Lemma prefix_spec needle (x : string) :
  String.prefix needle x = true ↔ ∃ post, x = needle +:+ post.
Proof.
  revert x. induction needle as [|a needle IH]; intros x.
  { destruct x; split; eauto. }
  destruct x as [|b x]; [split; [done|by intros [? ?]]|].
  cbn [String.prefix]. destruct (ascii_dec a b) as [->|Hab].
  - rewrite IH. split; intros [post Hp]; exists post.
    + by rewrite str_app_cons, <-Hp.
    + rewrite str_app_cons in Hp. by simplify_eq.
  - split; [done|]. intros [post Hp]. rewrite str_app_cons in Hp. by simplify_eq.
Qed.

Lemma includes_spec needle (x : string) :
  includes needle x = true ↔ ∃ pre post, x = pre +:+ needle +:+ post.
Proof.
  induction x as [|b x IH]; cbn [includes].
  - rewrite orb_false_r, prefix_spec. split.
    + intros [post ->]. by exists EmptyString, post.
    + intros ([|] & post & Hp); [eauto|by rewrite str_app_cons in Hp].
  - rewrite orb_true_iff, IH, prefix_spec. split.
    + intros [[post ->]|(pre & post & ->)];
        [by exists EmptyString, post|by exists (String b pre), post].
    + intros ([|c pre] & post & Hp); [left; eauto|right].
      rewrite str_app_cons in Hp. simplify_eq. eauto.
Qed.

Lemma displayDownloadLinks_array l p :
  l ≠ [] →
  displayDownloadLinks (ReportsArray l) p
  = (Popup (statusClass p) (statusText p) "<h4>Download Reports:</h4>"
           (report_link <$> l) (queries p) (nextQuery p) (messages p)
           (nextMessage p) (ending p) (outbox p), true).
Proof.
  intros Hl. unfold displayDownloadLinks. destruct l as [|r l]; [done|]. f_equal.
  set (p0 := set_linksHTML _ p).
  assert (∀ k q, foldl (λ q r, append_link (report_link r) q) q k
                 = Popup (statusClass q) (statusText q) (linksHTML q)
                     (links q ++ (report_link <$> k)) (queries q) (nextQuery q)
                     (messages q) (nextMessage q) (ending q) (outbox q)) as H.
  { induction k as [|x k IH]; intros q; simpl.
    - rewrite app_nil_r. by destruct q.
    - rewrite IH. simpl. by rewrite <-app_assoc. }
  by rewrite H.
Qed.

(** A query that is answered for a Meet tab sends its command there. *)
Lemma tabs_result_meet q t tabs command cb p :
  queries p !! q = Some (command, cb) →
  includes "meet.google.com" (tab_url t) = true →
  tabs_result q (t :: tabs) p
  = tabs_sendMessage (tab_id t) command cb
      (Popup (statusClass p) (statusText p) (linksHTML p) (links p)
             (delete q (queries p)) (nextQuery p) (messages p)
             (nextMessage p) (ending p) (outbox p)).
Proof. intros Hq Hm. unfold tabs_result. by rewrite Hq, Hm. Qed.

(** A click, the answer of the tab query for a Meet tab, and the delivery
    of the message to the content script, for a button with callback [cb]. *)
Lemma click_deliver command cb t tabs p s :
  includes "meet.google.com" (tab_url t) = true →
  let p2 := tabs_result (nextQuery p) (t :: tabs)
              (sendMessageToContentScript command cb p) in
  outbox p2 = (tab_id t, command) :: outbox p ∧
  deliver (nextMessage p) command p2 s
  = (run_callback cb (onMessage command s).1
       (Popup (statusClass p) (statusText p) (linksHTML p) (links p)
              (delete (nextQuery p) (<[nextQuery p := (command, cb)]> (queries p)))
              (S (nextQuery p))
              (delete (nextMessage p) (<[nextMessage p := cb]> (messages p)))
              (S (nextMessage p)) (ending p) ((tab_id t, command) :: outbox p)),
     (onMessage command s).2).
Proof.
  intros Hm. cbv zeta.
  rewrite (tabs_result_meet _ t tabs command cb) by (done || apply lookup_insert_eq).
  split; [done|]. unfold deliver. destruct (onMessage command s) as [response s'].
  unfold message_result. simpl. by rewrite lookup_insert_eq.
Qed.
End popup.

(** ** Theorems *)

(** A click on Start on a Meet tab sends [start] to that tab, and
    when the content script has answered, the status line shows the answer:
    Running exactly when [startAnalysis] replied success (and then the
    script runs), otherwise the error message of the reply; the list of
    links is empty. *)
Theorem start_click_shows_reply p t tabs s :
  includes "meet.google.com" (tab_url t) = true →
  let p2 := tabs_result (nextQuery p) (t :: tabs) (click_start p) in
  let ps := deliver (nextMessage p) "start" p2 s in
  outbox p2 = (tab_id t, "start") :: outbox p ∧
  ps.2 = (startAnalysis s).2 ∧
  status ps.1
  = (if decide ((startAnalysis s).1 = Reply "success" None)
     then ("status-running", "Status: Analysis Running...")
     else ("status-error",
           "Error: " +:+ default "Could not start." (rp_message (startAnalysis s).1))) ∧
  (statusClass ps.1 = "status-running" → isAnalyzing ps.2 = true) ∧
  links ps.1 = [] ∧ linksHTML ps.1 = EmptyString.
Proof.
  intros Hm. cbv zeta. unfold click_start.
  destruct (click_deliver "start" OnStart t tabs (set_linksHTML EmptyString p) s Hm)
    as [Ho Hd].
  simpl in Ho, Hd. rewrite Hd. clear Hd. split; [done|].
  unfold onMessage. rewrite decide_True by done. unfold startAnalysis.
  destruct (isAnalyzing s) eqn:Hrun; [by split_and!|].
  case_decide; [by split_and!|]. cbn [fst snd]. split_and!; try done.
  intros _. by rewrite runAnalysisCycle_isAnalyzing.
Qed.

Lemma start_click_shows_reply_witness :
  let p := initial_popup "status-stopped" "Status: Idle" in
  let t := Tab 5 "https://meet.google.com/abc-defg-hij" in
  let s := initial_state [sample_video] 1000 in
  let p2 := tabs_result (nextQuery p) [t] (click_start p) in
  let ps := deliver (nextMessage p) "start" p2 s in
  status ps.1 = ("status-running", "Status: Analysis Running...") ∧
  outbox p2 = (tab_id t, "start") :: outbox p ∧
  ps.2 = (startAnalysis s).2 ∧
  status ps.1
  = (if decide ((startAnalysis s).1 = Reply "success" None)
     then ("status-running", "Status: Analysis Running...")
     else ("status-error",
           "Error: " +:+ default "Could not start." (rp_message (startAnalysis s).1))) ∧
  (statusClass ps.1 = "status-running" → isAnalyzing ps.2 = true) ∧
  links ps.1 = [] ∧ linksHTML ps.1 = EmptyString.
Proof.
  split; [by vm_compute|].
  apply (start_click_shows_reply (initial_popup "status-stopped" "Status: Idle")
           (Tab 5 "https://meet.google.com/abc-defg-hij") []).
  by vm_compute.
Defined.

(** A click on Stop on a Meet tab sends [stop] there; once it is
    delivered the content script is stopped and the status line says so,
    whatever the script was doing. *)
Theorem stop_click_stops p t tabs s :
  includes "meet.google.com" (tab_url t) = true →
  let p2 := tabs_result (nextQuery p) (t :: tabs) (click_stop p) in
  let ps := deliver (nextMessage p) "stop" p2 s in
  outbox p2 = (tab_id t, "stop") :: outbox p ∧
  ps.2 = stopAnalysis s ∧ isAnalyzing ps.2 = false ∧
  status ps.1 = ("status-stopped", "Status: Analysis Stopped.").
Proof.
  intros Hm. cbv zeta. unfold click_stop.
  destruct (click_deliver "stop" OnStop t tabs p s Hm) as [Ho Hd].
  simpl in Ho, Hd. rewrite Hd. split_and!; try done.
  unfold onMessage. simpl. unfold stopAnalysis.
  destruct (isAnalyzing s) eqn:Hrun; [|done]. simpl.
  by rewrite clearTimeout_isAnalyzing.
Qed.

Lemma stop_click_stops_witness :
  let p := initial_popup "status-running" "Status: Analysis Running..." in
  let t := Tab 5 "https://meet.google.com/abc-defg-hij" in
  let s := next (Message "start") (initial_state [sample_video] 1000) in
  let p2 := tabs_result (nextQuery p) [t] (click_stop p) in
  let ps := deliver (nextMessage p) "stop" p2 s in
  isAnalyzing s = true ∧
  outbox p2 = (tab_id t, "stop") :: outbox p ∧
  ps.2 = stopAnalysis s ∧ isAnalyzing ps.2 = false ∧
  status ps.1 = ("status-stopped", "Status: Analysis Stopped.").
Proof.
  split; [by vm_compute|].
  apply (stop_click_stops (initial_popup "status-running" "Status: Analysis Running...")
           (Tab 5 "https://meet.google.com/abc-defg-hij") []).
  by vm_compute.
Defined.

(** The popup sends a command only to the first tab of the query and
    only when its URL contains the text [meet.google.com]; otherwise it
    sends nothing and reports that the page is not a Meet page. *)
Theorem commands_only_to_meet q tabs p :
  (∃ t command cb,
      head tabs = Some t ∧ includes "meet.google.com" (tab_url t) = true ∧
      queries p !! q = Some (command, cb) ∧
      outbox (tabs_result q tabs p) = (tab_id t, command) :: outbox p) ∨
  (outbox (tabs_result q tabs p) = outbox p ∧
   (is_Some (queries p !! q) →
    status (tabs_result q tabs p)
    = ("status-error", "Error: Not on a Google Meet page."))).
Proof.
  unfold tabs_result. destruct (queries p !! q) as [[command cb]|] eqn:Hq;
    [|right; split; [done|by intros [? ?]]].
  destruct tabs as [|t tabs]; [by right|].
  destruct (includes _ (tab_url t)) eqn:Hm; [left|by right].
  by exists t, command, cb.
Qed.

(** The test of the tab is a substring test on the whole URL: a
    page of another site whose URL merely contains the text passes it, and
    the command is sent to that tab. *)
Theorem meet_test_accepts_other_sites :
  let t := Tab 9 "https://example.org/redirect?to=meet.google.com" in
  includes "meet.google.com" (tab_url t) = true ∧
  outbox (tabs_result 0 [t] (click_start (initial_popup "status-stopped" "Idle")))
  = [(9%nat, "start")].
Proof. by vm_compute. Qed.

(** C39: when the request to [/end_session] ends, the popup shows, for an
    answer [success] with reports, the heading and one link per report in
    the order of the answer (address, file name and text made of the
    report's fields) under the status "Reports Ready for Download"; with no
    report, the note that none was generated; for another status, the
    message of the answer; when the request fails, that the backend is
    unreachable. *)
Theorem end_result_shows n p :
  ending p = S n →
  (∀ message l, l ≠ [] →
     let p' := end_result (EndData (JStr "success") message (ReportsArray l)) p in
     status p' = ("status-generating", "Reports Ready for Download") ∧
     linksHTML p' = "<h4>Download Reports:</h4>" ∧
     links p' = report_link <$> l ∧ ending p' = n) ∧
  (∀ message rs, rs = ReportsMissing ∨ rs = ReportsArray [] →
     let p' := end_result (EndData (JStr "success") message rs) p in
     status p' = ("status-generating", "Reports Ready for Download") ∧
     linksHTML p' = no_reports_html ∧ links p' = []) ∧
  (∀ st message rs, st ≠ JStr "success" →
     let p' := end_result (EndData st message rs) p in
     status p' = ("status-error", "Error: " +:+ to_string message) ∧
     linksHTML p' = linksHTML p ∧ links p' = links p) ∧
  status (end_result EndFailed p) = ("status-error", "Error: Backend is unreachable.").
Proof.
  intros He. unfold end_result. rewrite He. split_and!.
  - intros message l Hl. cbv zeta. rewrite decide_True by done.
    by rewrite displayDownloadLinks_array.
  - intros message rs [-> | ->]; by rewrite decide_True.
  - intros st message rs Hst. cbv zeta. by rewrite decide_False.
  - done.
Qed.

Lemma end_result_shows_witness :
  let p := click_end (initial_popup "status-running" "Status: Analysis Running...") in
  let l := [Report (JStr "alice.pdf") (JStr "Alice"); Report (JStr "bob.pdf") (JStr "Bob")] in
  links (end_result (EndData (JStr "success") JUndefined (ReportsArray l)) p)
  = [Link "http://127.0.0.1:5000/download_report/alice.pdf" "alice.pdf" "Report for Alice";
     Link "http://127.0.0.1:5000/download_report/bob.pdf" "bob.pdf" "Report for Bob"] ∧
  status (end_result (EndData (JStr "error") (JStr "No session") ReportsMissing) p)
  = ("status-error", "Error: No session") ∧
  status (end_result EndFailed p) = ("status-error", "Error: Backend is unreachable.").
Proof.
  intros p l.
  destruct (end_result_shows 0 p eq_refl) as (H1 & _ & H3 & H4).
  split_and!.
  - by destruct (H1 JUndefined l ltac:(done)) as (_ & _ & -> & _).
  - by destruct (H3 (JStr "error") (JStr "No session") ReportsMissing ltac:(done))
      as (-> & _).
  - exact H4.
Defined.

(** When the answer is [success] but its [reports] is not an array,
    the heading of the list is shown with no link and the status blames the
    backend for being unreachable, although it answered. *)
Theorem reports_not_array_blames_backend n message p :
  ending p = S n →
  let p' := end_result (EndData (JStr "success") message ReportsOther) p in
  status p' = ("status-error", "Error: Backend is unreachable.") ∧
  linksHTML p' = "<h4>Download Reports:</h4>" ∧ links p' = [].
Proof. intros He. unfold end_result. by rewrite He. Qed.

Lemma reports_not_array_blames_backend_witness :
  let p := click_end (initial_popup "status-running" "Status: Analysis Running...") in
  let p' := end_result (EndData (JStr "success") JUndefined ReportsOther) p in
  status p' = ("status-error", "Error: Backend is unreachable.") ∧
  linksHTML p' = "<h4>Download Reports:</h4>" ∧ links p' = [].
Proof. by apply (reports_not_array_blames_backend 0). Defined.

(** End Session starts two things that finish in either order: the
    [stop] for the tab and the request for the reports.  On a page that is
    not a Meet page the status at the end depends on that order: the
    reports are listed in both cases, but when the tab query is answered
    last the status is the error about the page. *)
Theorem end_click_status_depends_on_order :
  let p := click_end (initial_popup "status-running" "Status: Analysis Running...") in
  let t := Tab 4 "https://example.org/" in
  let o := EndData (JStr "success") JUndefined
             (ReportsArray [Report (JStr "alice.pdf") (JStr "Alice")]) in
  status (end_result o (tabs_result 0 [t] p))
  = ("status-generating", "Reports Ready for Download") ∧
  status (tabs_result 0 [t] (end_result o p))
  = ("status-error", "Error: Not on a Google Meet page.") ∧
  links (tabs_result 0 [t] (end_result o p)) = links (end_result o (tabs_result 0 [t] p)) ∧
  length (links (tabs_result 0 [t] (end_result o p))) = 1%nat.
Proof. by vm_compute. Qed.

