(* ===== verification/Panel.v ===== *)
(** * Panel: the control panel as a transition system

    [src/popup.js] registers three click listeners when the document has
    loaded; everything else it does is a callback of an operation one of
    them started.  [panel_event] is what can happen to the popup, and
    [panel_handle] the code that runs.  [wf_popup] is the typing of its
    state: the status line shows one of the four statuses of the script
    with a text that belongs to it (or still the one of [popup.html]), the
    pending operations carry handles the popup has given out and callbacks
    that fit their command, only [start] and [stop] are ever sent, and the
    download list is a heading followed by links made from reports. *)

From S2P Require Import Prelude Js Dom Sampler Overlay Scheduler Invariants Barrier.
From S2P Require Import Lifecycle Popup.

(** ** The transition system *)

(** [startBtn], [stopBtn], [endBtn] (lines 2 to 4). *)
Inductive button := StartBtn | StopBtn | EndBtn.

#[export] Instance button_eq_dec : EqDecision button.
Proof. solve_decision. Defined.

Inductive panel_event :=
| Click (b : button)
| TabsAnswer (q : nat) (tabs : list tab)        (** [chrome.tabs.query] calls back *)
| MessageAnswer (m : nat) (d : delivery)        (** [chrome.tabs.sendMessage] calls back *)
| EndAnswer (o : end_outcome).                  (** the request to [/end_session] ends *)

(** The listener of each button (lines 21, 29 and 35). *)
Definition click (b : button) : popup → popup :=
  match b with
  | StartBtn => click_start
  | StopBtn => click_stop
  | EndBtn => click_end
  end.

Definition panel_handle (e : panel_event) (p : popup) : popup :=
  match e with
  | Click b => click b p
  | TabsAnswer q tabs => tabs_result q tabs p
  | MessageAnswer m d => message_result m d p
  | EndAnswer o => end_result o p
  end.

(** A callback runs for an operation that is pending. *)
Definition panel_enabled (e : panel_event) (p : popup) : Prop :=
  match e with
  | Click _ => True
  | TabsAnswer q _ => is_Some (queries p !! q)
  | MessageAnswer m _ => is_Some (messages p !! m)
  | EndAnswer _ => 0 < ending p
  end.

#[export] Instance panel_enabled_dec e p : Decision (panel_enabled e p).
Proof. destruct e; simpl; apply _. Defined.

(** The popups reachable from [popup.html] showing class [cls] and [text]. *)
Inductive panel_reachable (cls text : string) : popup → Prop :=
| panel_reachable_init : panel_reachable cls text (initial_popup cls text)
| panel_reachable_step e p :
    panel_reachable cls text p → panel_enabled e p →
    panel_reachable cls text (panel_handle e p).

Fixpoint panel_run (es : list panel_event) (p : popup) : option popup :=
  match es with
  | [] => Some p
  | e :: es' => if decide (panel_enabled e p) then panel_run es' (panel_handle e p) else None
  end.

(** ** The typing of the popup's state *)

(** The statuses the script shows: each class with the texts it goes with. *)
Definition status_ok (cl tx : string) : Prop :=
  (cl = "status-running" ∧ tx = "Status: Analysis Running...") ∨
  (cl = "status-stopped" ∧ tx = "Status: Analysis Stopped.") ∨
  (cl = "status-generating" ∧
   (tx = "Status: Generating reports..." ∨ tx = "Reports Ready for Download")) ∨
  (cl = "status-error" ∧ String.prefix "Error: " tx = true).

(** The callback a command is sent with. *)
Definition callback_of (command : string) (cb : callback) : Prop :=
  match cb with
  | OnStart => command = "start"
  | OnStop | NoCallback => command = "stop"
  end.

Definition commands : list string := ["start"; "stop"].

Definition reports_heading : string := "<h4>Download Reports:</h4>".

Record wf_popup (cls text : string) (p : popup) : Prop := WfPopup {
  wp_status : status p = (cls, text) ∨ status_ok (statusClass p) (statusText p);
  wp_queries : below (nextQuery p) (queries p);
  wp_messages : below (nextMessage p) (messages p);
  wp_callbacks : ∀ q command cb,
    queries p !! q = Some (command, cb) → callback_of command cb;
  wp_outbox : Forall (λ x, x.2 ∈ commands) (outbox p);
  wp_sent : length (outbox p) = nextMessage p;
  wp_html : linksHTML p ∈ [EmptyString; no_reports_html; reports_heading];
  wp_links : links p ≠ [] → linksHTML p = reports_heading;
  wp_reports : Forall (λ l, ∃ r, l = report_link r) (links p)
}.

(** A session: start on a Meet tab, the answer, End Session, the reports. *)
Definition session : list panel_event :=
  [ Click StartBtn; TabsAnswer 0 [Tab 5 "https://meet.google.com/abc-defg-hij"];
    MessageAnswer 0 (Delivered (Some (Reply "success" None)));
    Click EndBtn; TabsAnswer 1 [Tab 5 "https://meet.google.com/abc-defg-hij"];
    EndAnswer (EndData (JStr "success") JUndefined
                 (ReportsArray [Report (JStr "alice.pdf") (JStr "Alice")]));
    MessageAnswer 1 (Delivered (Some (Reply "stopped" None))) ].

(** ** What each handler does to the pending operations *)

Section pending.
Implicit Types (p : popup) (q m : nat) (cb : callback) (command : string).

(** The command and the callback a button sends. *)
Definition button_command (b : button) : string * callback :=
  match b with
  | StartBtn => ("start", OnStart)
  | StopBtn => ("stop", OnStop)
  | EndBtn => ("stop", NoCallback)
  end.

Lemma click_pending b p :
  queries (click b p) = <[nextQuery p := button_command b]> (queries p) ∧
  messages (click b p) = messages p ∧ nextMessage (click b p) = nextMessage p ∧
  outbox (click b p) = outbox p.
Proof. by destruct b. Qed.

Lemma click_status b p :
  b ≠ EndBtn → statusClass (click b p) = statusClass p ∧ ending (click b p) = ending p.
Proof. by destruct b. Qed.

(** The answer of a tab query: nothing is sent, or the command of the
    query is sent to the first tab under a fresh handle. *)
Lemma tabs_result_pending q tabs p :
  let p' := tabs_result q tabs p in
  ending p' = ending p ∧
  ((messages p' = messages p ∧ nextMessage p' = nextMessage p ∧ outbox p' = outbox p ∧
    (is_Some (queries p !! q) → statusClass p' = "status-error" ∧
                                queries p' = delete q (queries p))) ∨
   (∃ t command cb,
      head tabs = Some t ∧ includes "meet.google.com" (tab_url t) = true ∧
      queries p !! q = Some (command, cb) ∧ queries p' = delete q (queries p) ∧
      messages p' = <[nextMessage p := cb]> (messages p) ∧
      nextMessage p' = S (nextMessage p) ∧
      outbox p' = (tab_id t, command) :: outbox p ∧
      statusClass p' = statusClass p)).
Proof.
  cbv zeta. unfold tabs_result.
  destruct (queries p !! q) as [[command cb]|] eqn:Hq;
    [|split; [done|left; split_and!; [done..|by intros [? ?]]]].
  destruct tabs as [|t tabs]; [split; [done|by left]|].
  destruct (includes _ (tab_url t)) eqn:Hm; [|split; [done|by left]].
  split; [done|right]. by exists t, command, cb.
Qed.

Lemma run_callback_pending cb response p :
  queries (run_callback cb response p) = queries p ∧
  messages (run_callback cb response p) = messages p ∧
  nextMessage (run_callback cb response p) = nextMessage p ∧
  ending (run_callback cb response p) = ending p.
Proof. destruct cb; simpl; repeat case_match; done. Qed.

Lemma message_result_pending m d p :
  queries (message_result m d p) = queries p ∧
  messages (message_result m d p) = delete m (messages p) ∧
  nextMessage (message_result m d p) = nextMessage p ∧
  ending (message_result m d p) = ending p.
Proof.
  unfold message_result. destruct (messages p !! m) as [cb|] eqn:Hm.
  - destruct d; [done|]. by destruct (run_callback_pending cb response
      (Popup (statusClass p) (statusText p) (linksHTML p) (links p) (queries p)
             (nextQuery p) (delete m (messages p)) (nextMessage p) (ending p)
             (outbox p))) as (-> & -> & -> & ->).
  - by rewrite delete_id.
Qed.

Lemma displayDownloadLinks_pending rs p :
  let p' := (displayDownloadLinks rs p).1 in
  status p' = status p ∧ queries p' = queries p ∧ messages p' = messages p ∧
  nextMessage p' = nextMessage p ∧ ending p' = ending p.
Proof.
  destruct rs as [|[|r l]|]; try done. cbv zeta.
  by rewrite displayDownloadLinks_array.
Qed.

(** The end of the report request leaves the pending queries and messages
    alone and shows the result or an error. *)
Lemma end_result_pending o p :
  queries (end_result o p) = queries p ∧ messages (end_result o p) = messages p ∧
  nextMessage (end_result o p) = nextMessage p ∧
  (0 < ending p →
   statusClass (end_result o p) = "status-generating" ∨
   statusClass (end_result o p) = "status-error").
Proof.
  unfold end_result. destruct (ending p) as [|n]; [split_and!; [done..|lia]|].
  destruct o as [|st message rs]; [split_and!; auto|].
  case_decide; [|split_and!; auto].
  set (p2 := setStatus _ _ _).
  destruct (displayDownloadLinks_pending rs p2) as (Hs & Hq & Hm & Hn & _).
  destruct (displayDownloadLinks rs p2) as [p3 []]; simpl in *;
    rewrite ?Hq, ?Hm, ?Hn; split_and!; auto.
  intros _. left. by injection Hs as -> _.
Qed.
End pending.

(** ** Preservation *)

Section typing.
Context (cls text : string).
Implicit Types (p : popup) (q m : nat) (cb : callback) (command : string).

Lemma wf_initial_popup : wf_popup cls text (initial_popup cls text).
Proof.
  split; simpl; try done; try apply below_empty; [by left|set_solver].
Qed.

Lemma callback_of_commands command cb : callback_of command cb → command ∈ commands.
Proof. destruct cb; simpl; intros ->; set_solver. Qed.

Lemma error_status_ok msg : status_ok "status-error" ("Error: " +:+ msg).
Proof. do 3 right. split; [done|]. apply prefix_spec. by exists msg. Qed.

Lemma wf_setStatus cl tx p : status_ok cl tx → wf_popup cls text p → wf_popup cls text (setStatus cl tx p).
Proof. intros Hs []. split; simpl; try done. by right. Qed.

Lemma wf_set_linksHTML_empty p : wf_popup cls text p → wf_popup cls text (set_linksHTML EmptyString p).
Proof. intros []. split; simpl; try done. set_solver. Qed.

Lemma wf_set_ending n p : wf_popup cls text p → wf_popup cls text (set_ending n p).
Proof. by intros []. Qed.

Lemma wf_sendMessageToContentScript command cb p :
  callback_of command cb → wf_popup cls text p →
  wf_popup cls text (sendMessageToContentScript command cb p).
Proof.
  intros Hc []. split; simpl; try done; [by apply below_insert|].
  intros q command' cb' [[_ [= <- <-]]|[_ ?]]%lookup_insert_Some; eauto.
Qed.

Lemma wf_tabs_sendMessage id command cb p :
  command ∈ commands → wf_popup cls text p → wf_popup cls text (tabs_sendMessage id command cb p).
Proof.
  intros Hc []. split; simpl; try done; [by apply below_insert| |by f_equal].
  by constructor.
Qed.

(** The answer of a query or of a message only removes it from the pending
    ones. *)
Lemma wf_answered p (qs : gmap nat (string * callback)) (ms : gmap nat callback) :
  qs ⊆ queries p → ms ⊆ messages p → wf_popup cls text p →
  wf_popup cls text (Popup (statusClass p) (statusText p) (linksHTML p) (links p)
                  qs (nextQuery p) ms (nextMessage p) (ending p) (outbox p)).
Proof.
  intros Hq Hm []. split; simpl; try done.
  - intros q [x Hx]. apply wp_queries0. exists x. by eapply lookup_weaken.
  - intros m [x Hx]. apply wp_messages0. exists x. by eapply lookup_weaken.
  - intros q command cb Hx. eapply wp_callbacks0. by eapply lookup_weaken.
Qed.

Lemma wf_click b p : wf_popup cls text p → wf_popup cls text (click b p).
Proof.
  intros Hwf. destruct b; simpl.
  - by apply wf_sendMessageToContentScript, wf_set_linksHTML_empty.
  - by apply wf_sendMessageToContentScript.
  - apply wf_set_ending, wf_sendMessageToContentScript; [done|].
    apply wf_setStatus, wf_set_linksHTML_empty; [|done]. do 2 right. left. auto.
Qed.

Lemma wf_tabs_result q tabs p : wf_popup cls text p → wf_popup cls text (tabs_result q tabs p).
Proof.
  intros Hwf. unfold tabs_result.
  destruct (queries p !! q) as [[command cb]|] eqn:Hq; [|done].
  pose proof (wf_answered p (delete q (queries p)) (messages p)
                (delete_subseteq _ _) (reflexivity _) Hwf) as Hp1.
  pose proof (error_status_ok "Not on a Google Meet page.") as He.
  destruct tabs as [|t tabs]; [by apply wf_setStatus|].
  destruct (includes _ _); [|by apply wf_setStatus].
  apply wf_tabs_sendMessage; [|done].
  eapply callback_of_commands, (wp_callbacks _ _ _ Hwf), Hq.
Qed.

Lemma wf_run_callback cb response p : wf_popup cls text p → wf_popup cls text (run_callback cb response p).
Proof.
  intros Hwf. destruct cb; simpl; [|apply wf_setStatus; [right; left|]; done|done].
  destruct response as [r|]; [|by apply wf_setStatus, Hwf; apply error_status_ok].
  case_decide; apply wf_setStatus; try done; [by left|apply error_status_ok].
Qed.

Lemma wf_message_result m d p : wf_popup cls text p → wf_popup cls text (message_result m d p).
Proof.
  intros Hwf. unfold message_result. destruct (messages p !! m) as [cb|]; [|done].
  pose proof (wf_answered p (queries p) (delete m (messages p))
                (reflexivity _) (delete_subseteq _ _) Hwf) as Hp1.
  destruct d; [|by apply wf_run_callback].
  by apply wf_setStatus; [apply (error_status_ok "Refresh Meet page.")|].
Qed.

Lemma wf_displayDownloadLinks rs p : wf_popup cls text p → wf_popup cls text (displayDownloadLinks rs p).1.
Proof.
  intros Hwf.
  assert (wf_popup cls text (set_linksHTML no_reports_html p)) as Hnone.
  { destruct Hwf. split; simpl; try done. set_solver. }
  assert (wf_popup cls text (set_linksHTML reports_heading p)) as Hhead.
  { destruct Hwf. split; simpl; try done. set_solver. }
  destruct rs as [|[|r l]|]; [exact Hnone|exact Hnone| |exact Hhead].
  rewrite displayDownloadLinks_array by done. simpl.
  destruct Hwf. split; simpl; try done; [set_solver|].
  change (Forall (λ x, ∃ y, x = report_link y) (report_link <$> r :: l)).
  apply Forall_fmap, Forall_forall. intros x _. by exists x.
Qed.

Lemma wf_end_result o p : wf_popup cls text p → wf_popup cls text (end_result o p).
Proof.
  intros Hwf. unfold end_result. destruct (ending p) as [|n]; [done|].
  pose proof (wf_set_ending n p Hwf) as Hp1.
  pose proof (error_status_ok "Backend is unreachable.") as He.
  destruct o as [|st message rs]; [by apply wf_setStatus|].
  case_decide; [|by apply wf_setStatus; [apply error_status_ok|]].
  assert (wf_popup cls text (setStatus "status-generating" "Reports Ready for Download"
                      (set_ending n p))) as Hp2.
  { apply wf_setStatus; [|done]. do 2 right. left. auto. }
  pose proof (wf_displayDownloadLinks rs _ Hp2) as Hp3.
  destruct (displayDownloadLinks rs _) as [p3 []]; [done|by apply wf_setStatus].
Qed.

Lemma wf_panel_handle e p : wf_popup cls text p → wf_popup cls text (panel_handle e p).
Proof.
  destruct e; simpl;
    auto using wf_click, wf_tabs_result, wf_message_result, wf_end_result.
Qed.

Lemma wf_panel_reachable p : panel_reachable cls text p → wf_popup cls text p.
Proof. induction 1; [apply wf_initial_popup|by apply wf_panel_handle]. Qed.

Lemma panel_run_reachable es p p' :
  panel_reachable cls text p → panel_run es p = Some p' → panel_reachable cls text p'.
Proof.
  revert p. induction es as [|e es IH]; intros p Hp; simpl; [by intros [= <-]|].
  case_decide; [|done]. apply IH. by constructor.
Qed.
End typing.

#[export] Hint Resolve wf_initial_popup wf_panel_handle wf_click wf_tabs_result
  wf_message_result wf_end_result : monitor.

(** ** Theorems *)

(** C27: the state of the popup is well typed whatever is clicked and
    whatever comes back.  The status line shows what [popup.html] showed
    or one of the four statuses with a text that belongs to it; pending
    queries and messages carry handles the popup has given out, and a
    callback that fits the command; every message sent is [start] or
    [stop], one per handle; the download list is empty, the note, or the
    heading, and links only follow the heading, each made from a report. *)
Theorem popup_well_typed cls text p :
  panel_reachable cls text p → wf_popup cls text p.
Proof. apply wf_panel_reachable. Qed.

Lemma popup_well_typed_witness :
  ∃ p, panel_run session (initial_popup "status-stopped" "Status: Idle") = Some p ∧
       status p = ("status-generating", "Reports Ready for Download") ∧
       wf_popup "status-stopped" "Status: Idle" p.
Proof.
  eexists. split; [by vm_compute|]. split; [by vm_compute|].
  apply popup_well_typed.
  apply (panel_run_reachable _ _ session (initial_popup "status-stopped" "Status: Idle"));
    [constructor|by vm_compute].
Defined.
