(* ===== verification/System.v ===== *)
(** * System: the control panel and the content script together

    The popup and the content script are two event loops that talk through
    [chrome.tabs.sendMessage].  The composed [system] is the product of
    their states and the two directions of that channel: the messages the
    popup has posted and no listener has handled yet, and the responses on
    their way back, both in the order sent.  A step of the system is a step
    of one component (a click, a callback of the popup, a task of the
    script) or the transfer of the oldest message or response; the
    script's listener runs for a message addressed to the tab [home] in
    which the script lives.

    The projections show that the components run inside the system exactly
    as they run alone, so their invariants hold of it.  [linked] ties the
    channel to the popup's pending messages: every message and response in
    transit belongs to one pending [sendMessage] and to no other, so no
    response is dropped and none is answered twice. *)

From S2P Require Import Prelude Js Dom Sampler Overlay Scheduler Invariants Barrier.
From S2P Require Import Lifecycle Safety Popup Panel.

(** ** The composed state *)

(** A message posted by [chrome.tabs.sendMessage]: the handle of its
    callback in the popup, the tab addressed, and [{command}]. *)
Record message := Msg {
  msg_handle : nat;
  msg_tab : nat;
  msg_command : string
}.

Record system := System {
  panel : popup;
  script : state;
  to_tab : list message;                (** posted, oldest first *)
  to_panel : list (nat * delivery)      (** responses, oldest first *)
}.

Inductive sys_event :=
| User (b : button)                 (** a click in the popup *)
| Tabs (q : nat) (tabs : list tab)  (** the answer of a tab query *)
| Handle                            (** the script's listener gets the oldest message *)
| Elsewhere (d : delivery)          (** the oldest message went to another tab *)
| Respond                           (** the oldest response reaches the popup *)
| Ended (o : end_outcome)           (** the request to [/end_session] ends *)
| Script (e : event).               (** a task of the content script *)

(** What the popup posted in going from [p] to [p']. *)
Definition posted (p p' : popup) : list message :=
  match outbox p' with
  | (id, command) :: _ =>
      if decide (nextMessage p' = S (nextMessage p))
      then [Msg (nextMessage p) id command] else []
  | [] => []
  end.

Definition is_message (e : event) : bool :=
  match e with Message _ => true | _ => false end.

(** Project the fields of a system that is given by its components. *)
Ltac sys_simpl := cbn [panel script to_tab to_panel] in *.

(** The popup opens on a tab whose script has just been injected. *)
Definition sys_initial (cls text : string) (vs : list video) (tm : N) : system :=
  System (initial_popup cls text) (initial_state vs tm) [] [].

(** The Meet tab of the examples, and the system as the popup opens. *)
Definition meet_tab : tab := Tab 5 "https://meet.google.com/abc-defg-hij".

Definition opened : system :=
  sys_initial "status-stopped" "Status: Idle" [sample_video] 1000.

(** A click on Start, the tab query, the listener, the response, and the
    first request failing. *)
Definition start_session : list sys_event :=
  [ User StartBtn; Tabs 0 [meet_tab]; Handle; Respond; Script (Settle 0 NetworkError) ].

Section system.
Context (home : nat).

Definition sys_handle (e : sys_event) (y : system) : system :=
  match e with
  | User b => System (click b (panel y)) (script y) (to_tab y) (to_panel y)
  | Tabs q tabs =>
      let p' := tabs_result q tabs (panel y) in
      System p' (script y) (to_tab y ++ posted (panel y) p') (to_panel y)
  | Handle =>
      match to_tab y with
      | msg :: rest =>
          match onMessage (msg_command msg) (script y) with
          | (Some response, s') =>
              System (panel y) s' rest
                     (to_panel y ++ [(msg_handle msg, Delivered (Some response))])
          | (None, s') => System (panel y) s' rest (to_panel y)
          end
      | [] => y
      end
  | Elsewhere d =>
      match to_tab y with
      | msg :: rest =>
          System (panel y) (script y) rest (to_panel y ++ [(msg_handle msg, d)])
      | [] => y
      end
  | Respond =>
      match to_panel y with
      | (m, d) :: rest =>
          System (message_result m d (panel y)) (script y) (to_tab y) rest
      | [] => y
      end
  | Ended o => System (end_result o (panel y)) (script y) (to_tab y) (to_panel y)
  | Script e => System (panel y) (next e (script y)) (to_tab y) (to_panel y)
  end.

Definition sys_enabled (e : sys_event) (y : system) : Prop :=
  match e with
  | User _ => True
  | Tabs q _ => is_Some (queries (panel y) !! q)
  | Handle =>
      match to_tab y with msg :: _ => msg_tab msg = home | [] => False end
  | Elsewhere _ =>
      match to_tab y with msg :: _ => msg_tab msg ≠ home | [] => False end
  | Respond => to_panel y ≠ []
  | Ended _ => 0 < ending (panel y)
  | Script e => is_message e = false ∧ enabled e (script y)
  end.

#[export] Instance sys_enabled_dec e y : Decision (sys_enabled e y).
Proof. destruct e; simpl; try apply _; destruct (to_tab y); apply _. Defined.

(** Reachability when the people and the browser keep to a discipline [D]. *)
Inductive sys_reachable_under (D : sys_event → system → Prop)
    (cls text : string) (vs : list video) (tm : N) : system → Prop :=
| sys_reachable_init : sys_reachable_under D cls text vs tm (sys_initial cls text vs tm)
| sys_reachable_step e y :
    sys_reachable_under D cls text vs tm y → sys_enabled e y → D e y →
    sys_reachable_under D cls text vs tm (sys_handle e y).

Definition sys_reachable : string → string → list video → N → system → Prop :=
  sys_reachable_under (λ _ _, True).

Fixpoint sys_run (es : list sys_event) (y : system) : option system :=
  match es with
  | [] => Some y
  | e :: es' => if decide (sys_enabled e y) then sys_run es' (sys_handle e y) else None
  end.

(** ** The channel and the popup's pending messages *)

(** The handles of the messages and responses in transit. *)
Definition handles (y : system) : list nat :=
  (msg_handle <$> to_tab y) ++ (fst <$> to_panel y).

Record linked (y : system) : Prop := Linked {
  lk_nodup : NoDup (handles y);
  lk_pending : ∀ m, m ∈ handles y ↔ is_Some (messages (panel y) !! m);
  lk_commands : ∀ msg, msg ∈ to_tab y →
    ∃ cb, messages (panel y) !! msg_handle msg = Some cb ∧
          callback_of (msg_command msg) cb
}.

(** ** Projections *)

Implicit Types (y : system) (e : sys_event) (p : popup) (s : state).

(** A step of the system is a task of the script or leaves it alone. *)
Lemma script_projection e y :
  sys_enabled e y →
  script (sys_handle e y) = script y ∨
  ∃ task, enabled task (script y) ∧ script (sys_handle e y) = next task (script y).
Proof.
  destruct e as [b|q tabs| |d| |o|e]; simpl; auto.
  - destruct (to_tab y) as [|msg rest]; [done|]. intros _. right.
    exists (Message (msg_command msg)). split; [done|]. unfold next. simpl.
    by destruct (onMessage _ _) as [[r|] s'].
  - destruct (to_tab y); auto.
  - destruct (to_panel y) as [|[m d] rest]; auto.
  - intros [_ He]. right. by exists e.
Qed.

(** A step of the system is a step of the popup or leaves it alone. *)
Lemma panel_projection e y :
  sys_enabled e y →
  panel (sys_handle e y) = panel y ∨
  ∃ act, panel_enabled act (panel y) ∧ panel (sys_handle e y) = panel_handle act (panel y).
Proof.
  destruct e as [b|q tabs| |d| |o|e]; simpl; auto.
  - intros _. right. by exists (Click b).
  - intros Hq. right. by exists (TabsAnswer q tabs).
  - destruct (to_tab y) as [|msg rest]; [done|].
    by destruct (onMessage _ _) as [[r|] s']; left.
  - destruct (to_tab y); auto.
  - destruct (to_panel y) as [|[m d] rest]; [done|]. intros _. simpl.
    destruct (messages (panel y) !! m) as [cb|] eqn:Hm.
    + right. exists (MessageAnswer m d). split; [simpl; by rewrite Hm|done].
    + left. unfold message_result. by rewrite Hm.
  - intros He. right. by exists (EndAnswer o).
Qed.

Lemma sys_reachable_script D cls text vs (tm : N) y :
  sys_reachable_under D cls text vs tm y → reachable vs tm (script y).
Proof.
  induction 1 as [|e y _ IH He _]; [constructor|].
  destruct (script_projection e y He) as [->|(e' & He' & ->)]; [done|].
  eapply reachable_step; [done|by constructor].
Qed.

Lemma sys_reachable_panel D cls text vs (tm : N) y :
  sys_reachable_under D cls text vs tm y → panel_reachable cls text (panel y).
Proof.
  induction 1 as [|e y _ IH He _]; [constructor|].
  destruct (panel_projection e y He) as [->|(e' & He' & ->)]; [done|].
  by constructor.
Qed.

(** ** Preservation of [linked] *)

Lemma linked_initial cls text vs (tm : N) : linked (sys_initial cls text vs tm).
Proof.
  split; simpl; [constructor| |by intros ? ?%elem_of_nil].
  intros m. rewrite lookup_empty. split; [by intros ?%elem_of_nil|by intros [? ?]].
Qed.

(** Only the popup's pending messages and the channel matter. *)
Lemma linked_same y y' :
  messages (panel y') = messages (panel y) → to_tab y' = to_tab y →
  to_panel y' = to_panel y → linked y → linked y'.
Proof.
  intros Hm Ht Hp [H1 H2 H3]. unfold handles in *.
  split; unfold handles; rewrite ?Hm, ?Ht, ?Hp; done.
Qed.

(** A command of the popup is answered by the listener. *)
Lemma onMessage_command command cb s :
  callback_of command cb → is_Some (onMessage command s).1.
Proof.
  intros Hc. assert (command = "start" ∨ command = "stop") as [-> | ->]
    by (destruct cb; auto).
  - unfold onMessage. simpl. by destruct (startAnalysis s).
  - done.
Qed.

(** The oldest message is handled: its handle moves to the responses. *)
Lemma linked_moved y msg rest d p s :
  to_tab y = msg :: rest → messages p = messages (panel y) → linked y →
  linked (System p s rest (to_panel y ++ [(msg_handle msg, d)])).
Proof.
  intros Ht Hm [H1 H2 H3]. unfold handles in *. rewrite Ht in *.
  assert ((msg_handle <$> rest) ++ (to_panel y ++ [(msg_handle msg, d)]).*1
          ≡ₚ (msg_handle <$> msg :: rest) ++ (to_panel y).*1) as Hperm.
  { rewrite fmap_app, fmap_cons. simpl. rewrite (assoc (++)).
    by rewrite <-Permutation_cons_append. }
  split; unfold handles; simpl; rewrite ?Hm.
  - by rewrite Hperm.
  - intros m. by rewrite Hperm.
  - intros msg' Hin. apply H3. by right.
Qed.

(** The answer of a tab query posts nothing, or the command of the query
    under a fresh handle. *)
Lemma posted_tabs_result q tabs p :
  let p' := tabs_result q tabs p in
  (messages p' = messages p ∧ posted p p' = [] ∧
   (is_Some (queries p !! q) →
    statusClass p' = "status-error" ∧ queries p' = delete q (queries p))) ∨
  (∃ t command cb,
     head tabs = Some t ∧ includes "meet.google.com" (tab_url t) = true ∧
     queries p !! q = Some (command, cb) ∧ queries p' = delete q (queries p) ∧
     messages p' = <[nextMessage p := cb]> (messages p) ∧
     posted p p' = [Msg (nextMessage p) (tab_id t) command] ∧
     statusClass p' = statusClass p).
Proof.
  cbv zeta. destruct (tabs_result_pending q tabs p) as
    [_ [(Hm & Hn & Ho & Hs)|(t & command & cb & Ht & Hi & Hq & Hd & Hm & Hn & Ho & Hs)]].
  - left. split_and!; [done| |done]. unfold posted.
    destruct (outbox _) as [|[]]; [done|]. rewrite decide_False; [done|lia].
  - right. exists t, command, cb. split_and!; try done.
    unfold posted. by rewrite Ho, decide_True.
Qed.

(** With a Meet page in the active tab the command of the query is posted
    to it, and the status stays. *)
Lemma posted_meet q t tabs p command cb :
  queries p !! q = Some (command, cb) → includes "meet.google.com" (tab_url t) = true →
  let p' := tabs_result q (t :: tabs) p in
  queries p' = delete q (queries p) ∧
  messages p' = <[nextMessage p := cb]> (messages p) ∧
  posted p p' = [Msg (nextMessage p) (tab_id t) command] ∧
  status p' = status p ∧ ending p' = ending p.
Proof.
  intros Hq Hi. cbv zeta. rewrite (tabs_result_meet q t tabs command cb) by done.
  unfold posted. simpl. by rewrite decide_True.
Qed.

Lemma linked_posted y q tabs cls text :
  wf_popup cls text (panel y) → linked y → linked (sys_handle (Tabs q tabs) y).
Proof.
  intros Hwf Hl. simpl.
  destruct (posted_tabs_result q tabs (panel y)) as
    [(Hm & -> & _)|(t & command & cb & _ & _ & Hq & _ & Hm & -> & _)].
  - eapply (linked_same y); [done| |done..]. simpl. by rewrite app_nil_r.
  - destruct Hl as [H1 H2 H3].
    assert (nextMessage (panel y) ∉ handles y) as Hfresh.
    { intros [x Hx]%H2. by rewrite (below_fresh _ _ (wp_messages _ _ _ Hwf)) in Hx. }
    unfold handles in *. split; unfold handles; simpl; rewrite ?Hm.
    + rewrite fmap_app. simpl. rewrite <-(assoc (++)). simpl.
      rewrite <-Permutation_middle. by constructor.
    + intros m. rewrite fmap_app. simpl. rewrite <-(assoc (++)). simpl.
      rewrite <-Permutation_middle, elem_of_cons, H2, lookup_insert_is_Some.
      destruct (decide (nextMessage (panel y) = m)); naive_solver.
    + intros msg [Hin| ->%list_elem_of_singleton]%elem_of_app; simpl.
      * destruct (H3 msg Hin) as (cb' & Hcb & Hc). exists cb'. split; [|done].
        rewrite lookup_insert_ne; [done|]. intros Heq. apply Hfresh.
        rewrite Heq. apply elem_of_app. left. by apply list_elem_of_fmap_2.
      * exists cb. split; [apply lookup_insert_eq|].
        by apply (wp_callbacks _ _ _ Hwf q).
Qed.

Lemma linked_responded y m d rest :
  to_panel y = (m, d) :: rest → linked y →
  linked (System (message_result m d (panel y)) (script y) (to_tab y) rest).
Proof.
  intros Hp [H1 H2 H3]. unfold handles in *. rewrite Hp in *. simpl in *.
  destruct (message_result_pending m d (panel y)) as (_ & Hm & _).
  apply NoDup_app in H1 as (Ha & Hb & [Hc Hd]%NoDup_cons).
  split; unfold handles; simpl; rewrite ?Hm.
  - apply NoDup_app. split_and!; [done| |done]. intros x Hx Hin. apply (Hb x Hx). by right.
  - intros x. rewrite lookup_delete_is_Some, <-H2, !elem_of_app, elem_of_cons.
    split; [|naive_solver]. intros [Hx|Hx]; (split; [|by auto]).
    + intros ->. apply (Hb x Hx). by left.
    + by intros ->.
  - intros msg Hin. destruct (H3 msg Hin) as (cb & Hcb & Hcm). exists cb.
    split; [|done]. rewrite lookup_delete_ne; [done|]. intros ->.
    apply (Hb (msg_handle msg)); [by apply list_elem_of_fmap_2|by left].
Qed.

Lemma linked_step cls text e y :
  wf_popup cls text (panel y) → linked y → sys_enabled e y → linked (sys_handle e y).
Proof.
  intros Hwf Hl He. destruct e as [b|q tabs| |d| |o|e]; simpl.
  - apply (linked_same y); [simpl|done..].
    by destruct (click_pending b (panel y)) as (_ & -> & _).
  - by eapply linked_posted.
  - destruct (to_tab y) as [|msg rest] eqn:Ht; [done|].
    destruct (lk_commands _ Hl msg) as (cb & _ & Hc); [rewrite Ht; by left|].
    pose proof (onMessage_command _ cb (script y) Hc) as [r Hr].
    destruct (onMessage _ _) as [[r'|] s']; [|by simpl in Hr].
    by apply (linked_moved y msg rest).
  - destruct (to_tab y) as [|msg rest] eqn:Ht; [done|].
    by apply (linked_moved y msg rest).
  - destruct (to_panel y) as [|[m d] rest] eqn:Hp; [done|].
    by apply linked_responded.
  - apply (linked_same y); [simpl|done..].
    by destruct (end_result_pending o (panel y)) as (_ & -> & _).
  - by apply (linked_same y).
Qed.

Lemma linked_reachable D cls text vs (tm : N) y :
  sys_reachable_under D cls text vs tm y → linked y.
Proof.
  intros Hy. induction Hy as [|e y Hy IH He _]; [apply linked_initial|].
  eapply linked_step; [|done..].
  eapply wf_panel_reachable, sys_reachable_panel, Hy.
Qed.

Lemma sys_run_reachable D cls text vs (tm : N) es y y' :
  (∀ e y, D e y) →
  sys_reachable_under D cls text vs tm y → sys_run es y = Some y' →
  sys_reachable_under D cls text vs tm y'.
Proof.
  intros HD. revert y. induction es as [|e es IH]; intros y Hy; simpl; [by intros [= <-]|].
  case_decide; [|done]. apply IH. by constructor.
Qed.
End system.

#[export] Hint Resolve linked_initial linked_step : monitor.

(** ** Theorems *)

(** C25: inside the system each component runs as it runs alone, and the
    channel is tied to the popup.  In every reachable state the script's
    state is reachable by tasks of the script, the popup's by clicks and
    callbacks, and the messages and responses in transit are, one for one,
    the [sendMessage] calls whose callback the popup still holds: no
    response is dropped, none arrives twice, and every message in transit
    is a [start] or a [stop] with the callback that fits it. *)
Theorem system_projects home D cls text vs (tm : N) y :
  sys_reachable_under home D cls text vs tm y →
  reachable vs tm (script y) ∧ panel_reachable cls text (panel y) ∧ linked y.
Proof.
  intros Hy. split_and!;
    eauto using sys_reachable_script, sys_reachable_panel, linked_reachable.
Qed.

Lemma system_projects_witness :
  ∃ y, sys_run 5 start_session opened = Some y ∧
       reachable [sample_video] 1000 (script y) ∧
       panel_reachable "status-stopped" "Status: Idle" (panel y) ∧ linked y.
Proof.
  eexists. split; [by vm_compute|].
  apply (system_projects 5 (λ _ _, True)).
  by apply (sys_run_reachable 5 _ _ _ _ _ start_session opened);
    [|constructor|vm_compute].
Defined.
