(* ===== verification/Status.v ===== *)
(** * Status: what the status line says about the script

    The popup learns the state of the content script only from the
    responses to its own commands.  This file shows when its status line
    can be trusted.  An operator is [attentive] when they click only while
    the popup waits for nothing, and the active tab, when it is a Meet
    page, is the one the script lives in.  Then, whenever the popup waits
    for nothing, "Analysis Running" is shown only while [isAnalyzing] is
    true and "Analysis Stopped" only while it is false ([status_sound]).
    [attended] is the inductive invariant: one constructor per stage of the
    one command that can be under way.

    Attentive clicking is no protection for the scheduler: the popup cannot
    see requests in flight, so Start, Stop, Start forks the scheduling
    chain ([attentive_restart]).  And without patience the status line
    itself goes wrong: Start followed at once by End Session leaves
    "Analysis Running" on a stopped script ([hasty_session]). *)

From S2P Require Import Prelude Js Dom Sampler Overlay Scheduler Invariants Barrier.
From S2P Require Import Lifecycle Safety Popup Panel System.

(** ** Definitions *)

(** The popup waits for no query and no message. *)
Definition answered (y : system) : Prop :=
  queries (panel y) = ∅ ∧ messages (panel y) = ∅.

(** The popup waits for nothing at all. *)
Definition idle (y : system) : Prop := answered y ∧ ending (panel y) = 0.

#[export] Instance answered_dec y : Decision (answered y).
Proof. unfold answered. apply _. Defined.
#[export] Instance idle_dec y : Decision (idle y).
Proof. unfold idle. apply _. Defined.

(** The status line agrees with the run flag of the script. *)
Definition sound_status (p : popup) (s : state) : Prop :=
  (statusClass p = "status-running" → isAnalyzing s = true) ∧
  (statusClass p = "status-stopped" → isAnalyzing s = false).

(** The status line says nothing about the run flag. *)
Definition undecided (p : popup) : Prop :=
  statusClass p ≠ "status-running" ∧ statusClass p ≠ "status-stopped".

(** A command without callback leaves the status as it is: it may be under
    way only while the status says nothing about the run flag. *)
Definition fits (cb : callback) (p : popup) : Prop :=
  match cb with
  | NoCallback => undecided p
  | OnStart | OnStop => True
  end.

(** The response [d] to a command sent with callback [cb] tells the truth
    about the script in state [s]. *)
Definition answer_sound (cb : callback) (d : delivery) (s : state) : Prop :=
  match d, cb with
  | Delivered response, OnStart =>
      ∀ r, response = Some r → rp_status r = "success" → isAnalyzing s = true
  | Delivered _, OnStop => isAnalyzing s = false
  | _, _ => True
  end.

Section status.
Context (home : nat).

(** The discipline: clicks only when the popup waits for nothing, and a
    Meet page in the active tab is the page of the script. *)
Definition attentive (e : sys_event) (y : system) : Prop :=
  match e with
  | User _ => idle y
  | Tabs _ tabs =>
      ∀ t, head tabs = Some t → includes "meet.google.com" (tab_url t) = true →
           tab_id t = home
  | _ => True
  end.

(** The stages of the one command under way. *)
Inductive attended : system → Prop :=
| attended_settled p s :
    queries p = ∅ → messages p = ∅ → sound_status p s →
    attended (System p s [] [])
| attended_asked p s q command cb :
    queries p = {[q := (command, cb)]} → messages p = ∅ →
    callback_of command cb → fits cb p →
    attended (System p s [] [])
| attended_sent p s m command cb :
    queries p = ∅ → messages p = {[m := cb]} →
    callback_of command cb → fits cb p →
    attended (System p s [Msg m home command] [])
| attended_answered p s m cb d :
    queries p = ∅ → messages p = {[m := cb]} →
    answer_sound cb d s → fits cb p →
    attended (System p s [] [(m, d)]).
End status.



(** The run of a trace in which every event keeps to the discipline. *)
Fixpoint sys_run_attentive (home : nat) (es : list sys_event) (y : system) : bool :=
  match es with
  | [] => true
  | e :: es' =>
      bool_decide (sys_enabled home e y) &&
      match e with
      | User _ => bool_decide (idle y)
      | Tabs _ (t :: _) =>
          implb (includes "meet.google.com" (tab_url t)) (bool_decide (tab_id t = home))
      | _ => true
      end && sys_run_attentive home es' (sys_handle e y)
  end.

(** ** Lemmas *)

Section status_lemmas.
Context (home : nat).
Implicit Types (y : system) (p : popup) (s : state) (cb : callback) (d : delivery).

Lemma undecided_sound p s : undecided p → sound_status p s.
Proof. intros [H1 H2]. by split. Qed.

Lemma undecided_class p :
  statusClass p = "status-generating" ∨ statusClass p = "status-error" → undecided p.
Proof. intros [H|H]; split; by rewrite H. Qed.

Lemma fits_class cb p p' : statusClass p' = statusClass p → fits cb p → fits cb p'.
Proof. intros H. destruct cb; simpl; unfold undecided; by rewrite ?H. Qed.

Lemma fits_undecided cb p : undecided p → fits cb p.
Proof. by destruct cb. Qed.

(** A task of the script other than a message leaves the run flag. *)
Lemma next_isAnalyzing e s : is_message e = false → isAnalyzing (next e s) = isAnalyzing s.
Proof.
  destruct e as [?|t|r o| |?|?]; unfold next; simpl; try done; intros _.
  - unfold fire. by rewrite runAnalysisCycle_isAnalyzing.
  - apply settle_isAnalyzing.
Qed.

(** The listener's response to a command of the popup tells the truth. *)
Lemma onMessage_answer command cb s :
  callback_of command cb →
  ∃ r, onMessage command s = (Some r, (onMessage command s).2) ∧
       answer_sound cb (Delivered (Some r)) (onMessage command s).2.
Proof.
  intros Hc. assert (command = "start" ∧ cb = OnStart ∨
                     command = "stop" ∧ cb ≠ OnStart) as [[-> ->]|[-> Hcb]]
    by (destruct cb; simpl in Hc; subst; auto).
  - unfold onMessage. simpl. unfold startAnalysis.
    destruct (isAnalyzing s) eqn:Hrun; [eexists; split; [done|]; by intros r [= <-]|].
    case_decide; [eexists; split; [done|]; by intros r [= <-]|].
    eexists; split; [done|]. intros r _ _. simpl.
    by rewrite runAnalysisCycle_isAnalyzing.
  - eexists. split; [done|]. destruct cb; [done| |done]. simpl.
    unfold stopAnalysis. destruct (isAnalyzing s) eqn:Hrun; [|done]. simpl.
    by rewrite clearTimeout_isAnalyzing.
Qed.

(** The callback of a truthful response sets a status that is sound. *)
Lemma message_result_sound m d cb p s :
  messages p !! m = Some cb → answer_sound cb d s → fits cb p →
  sound_status (message_result m d p) s.
Proof.
  intros Hm Ha Hf. unfold message_result. rewrite Hm.
  destruct d as [|response]; [by apply undecided_sound, undecided_class; right|].
  destruct cb; simpl in *.
  - destruct response as [r|]; [|by apply undecided_sound, undecided_class; right].
    case_decide; [|by apply undecided_sound, undecided_class; right].
    split; [intros _; by apply (Ha r)|done].
  - by split.
  - by apply undecided_sound.
Qed.

(** A step that keeps the pending operations, the channel and the run flag,
    and the status class unless it makes it undecided, keeps the stage. *)
Lemma attended_same y p s :
  queries p = queries (panel y) → messages p = messages (panel y) →
  isAnalyzing s = isAnalyzing (script y) →
  statusClass p = statusClass (panel y) ∨ undecided p →
  attended home y → attended home (System p s (to_tab y) (to_panel y)).
Proof.
  intros Hq Hm Hr Hc Hy.
  assert (∀ cb, fits cb (panel y) → fits cb p) as Hfits.
  { intros cb. destruct Hc; [by apply fits_class|by intros; apply fits_undecided]. }
  assert (sound_status (panel y) (script y) → sound_status p s) as Hsound.
  { destruct Hc as [Hc|]; [|by intros; apply undecided_sound].
    unfold sound_status. by rewrite Hc, Hr. }
  destruct Hy as [p0 s0 ? ? ?|p0 s0 q command cb ? ? ? ?|p0 s0 m command cb ? ? ? ?
                 |p0 s0 m cb d ? ? Ha ?]; sys_simpl.
  - apply attended_settled; [by rewrite Hq|by rewrite Hm|auto].
  - eapply attended_asked; [by rewrite Hq|by rewrite Hm|done|auto].
  - eapply attended_sent; [by rewrite Hq|by rewrite Hm|done|auto].
  - eapply attended_answered; [by rewrite Hq|by rewrite Hm| |auto].
    destruct d, cb; simpl in *; try done; by rewrite ?Hr.
Qed.

(** When the popup waits for nothing the channel is empty and the status
    is sound. *)
Lemma attended_settled_inv y :
  attended home y → answered y →
  to_tab y = [] ∧ to_panel y = [] ∧ sound_status (panel y) (script y).
Proof.
  intros Hy [Hq Hm].
  destruct Hy as [p s ? ? ?|p s q command cb Hq' ? ? ?|p s m command cb ? Hm' ? ?
                 |p s m cb d ? Hm' ? ?]; sys_simpl; [done|..].
  - rewrite Hq' in Hq. by apply map_non_empty_singleton in Hq.
  - rewrite Hm' in Hm. by apply map_non_empty_singleton in Hm.
  - rewrite Hm' in Hm. by apply map_non_empty_singleton in Hm.
Qed.

Lemma attended_click b y :
  attended home y → idle y → attended home (sys_handle (User b) y).
Proof.
  intros Hy [Hs He]. destruct (attended_settled_inv y Hy Hs) as (Ht & Hp & Hsound).
  destruct Hs as [Hq Hm]. destruct y as [p s tt tp]. sys_simpl. subst. simpl.
  destruct (click_pending b p) as (Hq' & Hm' & _).
  apply (attended_asked _ _ _ (nextQuery p) (button_command b).1 (button_command b).2).
  - rewrite Hq', Hq, insert_empty. by destruct (button_command b).
  - by rewrite Hm'.
  - by destruct b.
  - destruct b; [done..|]. by apply undecided_class; left.
Qed.

Lemma attended_tabs q tabs y :
  attended home y → sys_enabled home (Tabs q tabs) y → attentive home (Tabs q tabs) y →
  attended home (sys_handle (Tabs q tabs) y).
Proof.
  intros Hy [x Hx] Ha.
  destruct Hy as [p s Hq ? ?|p s q' command cb Hq Hm Hc Hf|p s m command cb Hq ? ? ?
                 |p s m cb d Hq ? ? ?]; sys_simpl; simpl in Hx |- *;
    try by rewrite Hq, lookup_empty in Hx.
  rewrite Hq in Hx. apply lookup_singleton_Some in Hx as [-> <-].
  destruct (posted_tabs_result q tabs p) as
    [(Hm' & -> & Hst)|(t & c' & cb' & Ht & Hi & Hq' & Hd & Hm' & -> & Hst)].
  - destruct Hst as [Hst Hd]; [by rewrite Hq, lookup_singleton_eq|].
    apply attended_settled; [by rewrite Hd, Hq, delete_singleton_eq|congruence|].
    by apply undecided_sound, undecided_class; right.
  - rewrite Hq, lookup_singleton_eq in Hq'. injection Hq' as <- <-.
    rewrite (Ha t Ht Hi). simpl. eapply attended_sent; [|by rewrite Hm', Hm, insert_empty|done|].
    + by rewrite Hd, Hq, delete_singleton_eq.
    + by apply (fits_class cb p).
Qed.

Lemma attended_handle y :
  attended home y → sys_enabled home Handle y → attended home (sys_handle Handle y).
Proof.
  intros Hy He.
  destruct Hy as [p s ? ? ?|p s q command cb ? ? ? ?|p s m command cb Hq Hm Hc Hf
                 |p s m cb d ? ? ? ?]; sys_simpl; simpl in He |- *; try done.
  destruct (onMessage_answer command cb s Hc) as (r & -> & Hr).
  by apply (attended_answered home _ _ _ cb).
Qed.

Lemma attended_respond y :
  attended home y → sys_enabled home Respond y → attended home (sys_handle Respond y).
Proof.
  intros Hy He.
  destruct Hy as [p s ? ? ?|p s q command cb ? ? ? ?|p s m command cb ? ? ? ?
                 |p s m cb d Hq Hm Ha Hf]; sys_simpl; simpl in He |- *; try done.
  destruct (message_result_pending m d p) as (Hq' & Hm' & _).
  apply attended_settled; [congruence|by rewrite Hm', Hm, delete_singleton_eq|].
  apply (message_result_sound m d cb); [by rewrite Hm, lookup_singleton_eq|done..].
Qed.

Lemma attended_step e y :
  attended home y → sys_enabled home e y → attentive home e y →
  attended home (sys_handle e y).
Proof.
  intros Hy He Ha. destruct e as [b|q tabs| |d| |o|e].
  - by apply attended_click.
  - by apply attended_tabs.
  - by apply attended_handle.
  - simpl in *. by destruct Hy; simpl in *.
  - by apply attended_respond.
  - simpl in *. destruct (end_result_pending o (panel y)) as (Hq & Hm & _ & Hst).
    apply (attended_same y); [done..|right; by apply undecided_class, Hst|done].
  - destruct He as [He _]. apply (attended_same y); simpl; auto using next_isAnalyzing.
Qed.

Lemma attended_reachable cls text vs (tm : N) y :
  cls ≠ "status-running" →
  sys_reachable_under home (attentive home) cls text vs tm y → attended home y.
Proof.
  intros Hcls. induction 1 as [|e y _ IH He Ha]; [|by apply attended_step].
  apply attended_settled; [done..|]. split; [done|]. done.
Qed.

Lemma sys_run_attentive_reachable cls text vs (tm : N) es y y' :
  sys_reachable_under home (attentive home) cls text vs tm y →
  sys_run_attentive home es y = true → sys_run home es y = Some y' →
  sys_reachable_under home (attentive home) cls text vs tm y'.
Proof.
  revert y. induction es as [|e es IH]; intros y Hy; simpl; [by intros _ [= <-]|].
  intros [[He%bool_decide_eq_true Ha]%andb_true_iff Hes]%andb_true_iff.
  rewrite decide_True by done. apply IH; [|done]. constructor; [done..|].
  destruct e as [b|q [|t tabs]| |d| |o|e]; simpl; try done.
  - by apply bool_decide_eq_true in Ha.
  - intros t' [= <-] Hi. rewrite Hi in Ha. by apply bool_decide_eq_true in Ha.
Qed.
End status_lemmas.

#[export] Hint Resolve attended_step undecided_sound fits_undecided : monitor.

(** ** Theorems *)

(** C23: the status line can be trusted when the operator is attentive.
    If the popup did not open showing "running", the operator clicks only
    while the popup waits for nothing, and a Meet page in the active tab is
    the page of the script, then whenever the popup waits for no query and
    no message nothing is in transit, and the status says Running only
    while [isAnalyzing] is true and Stopped only while it is false. *)
Theorem status_sound home cls text vs (tm : N) y :
  cls ≠ "status-running" →
  sys_reachable_under home (attentive home) cls text vs tm y → answered y →
  to_tab y = [] ∧ to_panel y = [] ∧ sound_status (panel y) (script y).
Proof.
  intros Hcls Hy Hs. apply (attended_settled_inv home); [|done].
  by apply (attended_reachable home cls text vs tm).
Qed.

Lemma status_sound_witness :
  ∃ y, sys_run 5 start_session opened = Some y ∧
       statusClass (panel y) = "status-running" ∧
       to_tab y = [] ∧ to_panel y = [] ∧ sound_status (panel y) (script y).
Proof.
  eexists. split; [by vm_compute|]. split; [by vm_compute|].
  apply (status_sound 5 "status-stopped" "Status: Idle" [sample_video] 1000);
    [done| |by vm_compute].
  by apply (sys_run_attentive_reachable 5 _ _ _ _ start_session opened);
    [constructor|vm_compute|vm_compute].
Defined.


