(* ===== verification/Completion.v ===== *)
(** * Completion: every command of the popup completes

    A click starts a pipeline of callbacks: the tab query, the message to
    the tab, the listener of the content script, the response, and for End
    Session the request to [/end_session].  [pending_work] counts the
    steps the browser still has to take for the commands under way: three
    for a pending query, two for a message on its way to a tab, one for a
    response on its way back, one for a pending request.  Every step of
    the browser uses one up, a task of the content script leaves the count
    alone, and only a click adds to it.  So the pipeline cannot loop or
    get stuck: in any order the steps end with the popup waiting for
    nothing and nothing in transit, and for an attentive operator with a
    status line that is sound. *)

From S2P Require Import Prelude Js Dom Sampler Overlay Scheduler Invariants Barrier.
From stdpp Require Import relations well_founded.
From S2P Require Import Lifecycle Safety Quiescence Popup Panel System Status.

(** ** Definitions *)

(** The steps the browser takes for the popup. *)
Definition transfer (e : sys_event) : Prop :=
  match e with
  | Tabs _ _ | Handle | Elsewhere _ | Respond | Ended _ => True
  | User _ | Script _ => False
  end.

#[export] Instance transfer_dec e : Decision (transfer e).
Proof. destruct e; simpl; apply _. Defined.

(** The steps still to take for the commands under way. *)
Definition pending_work (y : system) : nat :=
  3 * size (queries (panel y)) + 2 * length (to_tab y) + length (to_panel y)
  + ending (panel y).

(** The popup waits for nothing and nothing is in transit. *)
Definition settled (y : system) : Prop := idle y ∧ to_tab y = [] ∧ to_panel y = [].

#[export] Instance attentive_dec home e y : Decision (attentive home e y).
Proof.
  destruct e as [b|q tabs| | | | |]; simpl; try apply _.
  destruct (head tabs) as [t|]; [|left; by intros t [=]].
  destruct (decide (includes "meet.google.com" (tab_url t) = true → tab_id t = home))
    as [Ht|Ht]; [left; by intros t' [= <-]|right; intros Hx; by apply Ht, Hx].
Defined.

(** One step of the browser for the popup, the active Meet tab being the
    tab of the script. *)
Inductive transfer_step (home : nat) : relation system :=
| transfer_step_event e y :
    transfer e → sys_enabled home e y → attentive home e y →
    transfer_step home y (sys_handle e y).

(** The executable form. *)
Fixpoint transfer_run (home : nat) (es : list sys_event) (y : system) : option system :=
  match es with
  | [] => Some y
  | e :: es' =>
      if decide (transfer e ∧ sys_enabled home e y ∧ attentive home e y)
      then transfer_run home es' (sys_handle e y) else None
  end.

(** The operator has clicked on End Session. *)
Definition end_clicked : system := sys_handle (User EndBtn) opened.

(** ** Lemmas *)

Section completion.
Context (home : nat).
Implicit Types (y : system) (e : sys_event) (p : popup).

Lemma posted_length p p' : length (posted p p') ≤ 1.
Proof. unfold posted. repeat case_match; simpl; lia. Qed.

Lemma tabs_result_queries q tabs p :
  is_Some (queries p !! q) → queries (tabs_result q tabs p) = delete q (queries p).
Proof.
  intros [[command cb] Hq]. unfold tabs_result. rewrite Hq.
  destruct tabs as [|t ?]; [done|]. by destruct (includes _ _).
Qed.

Lemma tabs_result_ending q tabs p : ending (tabs_result q tabs p) = ending p.
Proof. apply (tabs_result_pending q tabs p). Qed.

Lemma end_result_ending o p : ending (end_result o p) = pred (ending p).
Proof.
  unfold end_result. destruct (ending p) as [|n] eqn:He; [by rewrite He|].
  destruct o as [|st message rs]; [done|]. case_decide; [|done].
  set (p2 := setStatus _ _ _).
  destruct (displayDownloadLinks_pending rs p2) as (_ & _ & _ & _ & Hp3).
  destruct (displayDownloadLinks rs p2) as [p3 ok]. simpl in Hp3.
  by destruct ok.
Qed.

Lemma transfer_decreases e y :
  transfer e → sys_enabled home e y →
  pending_work (sys_handle e y) < pending_work y.
Proof.
  unfold pending_work. destruct e as [b|q tabs| |d| |o|e]; simpl; try done; intros _.
  - intros Hq. rewrite tabs_result_queries, tabs_result_ending by done.
    rewrite map_size_delete_Some by done. rewrite length_app.
    pose proof (posted_length (panel y) (tabs_result q tabs (panel y))).
    assert (size (queries (panel y)) ≠ 0); [|lia].
    apply map_size_non_empty_iff. intros He. rewrite He in Hq. by destruct Hq.
  - destruct (to_tab y) as [|msg rest]; [done|]. intros _.
    destruct (onMessage _ _) as [[r|] s']; simpl; rewrite ?length_app; simpl; lia.
  - destruct (to_tab y) as [|msg rest]; [done|]. intros _. simpl.
    rewrite length_app. simpl. lia.
  - destruct (to_panel y) as [|[m d] rest]; [done|]. intros _. simpl.
    destruct (message_result_pending m d (panel y)) as (-> & _ & _ & ->). lia.
  - intros He. destruct (end_result_pending o (panel y)) as (-> & _).
    rewrite end_result_ending. lia.
Qed.

Lemma transfer_step_wf : well_founded (flip (transfer_step home)).
Proof.
  apply (wf_projected lt pending_work); [|apply lt_wf].
  intros y' y [e y0 Ht He _]. by apply transfer_decreases.
Qed.

Lemma transfer_run_bound es y y' :
  transfer_run home es y = Some y' → length es + pending_work y' ≤ pending_work y.
Proof.
  revert y. induction es as [|e es IH]; intros y; simpl; [by intros [= ->]|].
  case_decide as He; [|done]. intros Hr%IH.
  pose proof (transfer_decreases e y (proj1 He) (proj1 (proj2 He))). lia.
Qed.

(** With work to do there is a step to take. *)
Lemma work_enabled y : pending_work y ≠ 0 → red (transfer_step home) y.
Proof.
  intros Hw. destruct (map_choose_or_empty (queries (panel y))) as [(q & c & Hq)|Hq].
  { exists (sys_handle (Tabs q []) y). constructor; simpl; [done|by rewrite Hq|done]. }
  destruct (to_tab y) as [|msg rest] eqn:Ht.
  2:{ destruct (decide (msg_tab msg = home));
        [exists (sys_handle Handle y)|exists (sys_handle (Elsewhere LastError) y)];
        constructor; simpl; by rewrite ?Ht. }
  destruct (to_panel y) as [|md rest] eqn:Hp.
  2:{ exists (sys_handle Respond y). constructor; simpl; by rewrite ?Hp. }
  exists (sys_handle (Ended EndFailed) y). constructor; simpl; [done| |done].
  unfold pending_work in Hw. rewrite Hq, Ht, Hp, map_size_empty in Hw. simpl in Hw. lia.
Qed.

(** No work is left exactly when the popup waits for nothing and nothing
    is in transit. *)
Lemma settled_no_work y : linked y → pending_work y = 0 ↔ settled y.
Proof.
  intros Hl. unfold pending_work, settled, idle, answered. split.
  - intros H0.
    assert (queries (panel y) = ∅) as Hq by (apply map_size_empty_iff; lia).
    assert (to_tab y = []) as Ht by (apply length_zero_iff_nil; lia).
    assert (to_panel y = []) as Hp by (apply length_zero_iff_nil; lia).
    split_and!; [done| |lia|done..].
    apply map_empty. intros m. apply eq_None_not_Some.
    intros Hm%(lk_pending _ Hl). unfold handles in Hm. rewrite Ht, Hp in Hm.
    by inversion Hm.
  - intros (((Hq & Hm) & He) & Ht & Hp). rewrite Hq, Ht, Hp, He, map_size_empty. done.
Qed.
End completion.

(** ** Theorems *)

(** C26: every command completes.  Let the operator be attentive and
    let the browser take its steps for the popup in any order (answer a
    tab query, deliver a message to its tab, deliver a response, end the
    request to [/end_session]).  Then inevitably the popup waits for
    nothing, nothing is in transit, and the status line is sound; a run
    of such steps is never longer than [pending_work], which after a click
    in a settled popup is three, and four for End Session. *)
Theorem commands_complete home cls text vs (tm : N) y :
  cls ≠ "status-running" →
  sys_reachable_under home (attentive home) cls text vs tm y →
  eventually (transfer_step home)
    (λ y', settled y' ∧ sound_status (panel y') (script y')) y ∧
  (∀ es y', transfer_run home es y = Some y' →
            length es + pending_work y' ≤ pending_work y) ∧
  (settled y → ∀ b, pending_work (sys_handle (User b) y)
                    = if decide (b = EndBtn) then 4 else 3).
Proof.
  intros Hcls Hy. split_and!.
  - revert Hy.
    apply (wf_eventually (transfer_step home) (transfer_step home)
             (sys_reachable_under home (attentive home) cls text vs tm)).
    + apply transfer_step_wf.
    + intros a b Ha Hab. split; [done|]. destruct Hab as [e a0 _ He Hat].
      by apply sys_reachable_step.
    + intros a Ha. destruct (decide (pending_work a = 0)) as [H0|H0];
        [right|left; by apply work_enabled].
      apply settled_no_work in H0; [|by eapply linked_reachable].
      split; [done|]. destruct H0 as ([Hans _] & _).
      by apply (attended_settled_inv home), Hans; apply (attended_reachable home cls text vs tm).
  - intros es y'. apply transfer_run_bound.
  - intros (((Hq & Hm) & He) & Ht & Hp) b. unfold pending_work. simpl.
    rewrite Ht, Hp. destruct (click_pending b (panel y)) as (-> & _).
    rewrite Hq, insert_empty, map_size_singleton.
    destruct b; simpl; rewrite ?He; done.
Qed.

Lemma commands_complete_witness :
  pending_work end_clicked = 4 ∧
  (∃ y', transfer_run 5 [Tabs 0 [meet_tab]; Handle; Respond; Ended EndFailed] end_clicked
         = Some y' ∧ settled y' ∧ status (panel y') = ("status-error", "Error: Backend is unreachable.")) ∧
  eventually (transfer_step 5)
    (λ y', settled y' ∧ sound_status (panel y') (script y')) end_clicked ∧
  (∀ es y', transfer_run 5 es end_clicked = Some y' →
            length es + pending_work y' ≤ pending_work end_clicked) ∧
  (settled end_clicked → ∀ b, pending_work (sys_handle (User b) end_clicked)
                              = if decide (b = EndBtn) then 4 else 3).
Proof.
  split; [by vm_compute|]. split; [eexists; split; [by vm_compute|]; by vm_compute|].
  apply (commands_complete 5 "status-stopped" "Status: Idle" [sample_video] 1000);
    [done|].
  apply sys_reachable_step; [constructor|done|by vm_compute].
Defined.
