(* ===== verification/Reopen.v ===== *)
(** * Reopen: the popup is closed and opened again

    A popup lives as long as it is shown.  When it is opened again its
    document loads anew, the listener of [DOMContentLoaded] runs the body
    of [src/popup.js] once more, and what the old popup waited for is lost
    with it: its callbacks never run.  The content script is not told, and
    nothing in [src/popup.js] asks it for its state.

    [reopening] is reachability in the composed system when the popup may
    be opened again at any moment at which none of its messages is on its
    way to a tab.  The components still run as they run alone and the
    channel stays linked to the popup's callbacks.  The status line stays
    sound for an attentive operator exactly when the status class of
    [popup.html] says nothing about the run state; a popup that opens as
    Stopped is wrong about a script that runs. *)

From S2P Require Import Prelude Js Dom Sampler Overlay Scheduler Invariants Barrier.
From S2P Require Import Lifecycle Safety Popup Panel System Status.

(** ** Definitions *)

(** The popup is opened again: the state [DOMContentLoaded] leaves, the
    responses to the old popup dropped; the script is as it was. *)
Definition reopen (cls text : string) (y : system) : system :=
  System (initial_popup cls text) (script y) [] [].

Section reopening.
Context (home : nat).

Inductive reopening (D : sys_event → system → Prop)
    (cls text : string) (vs : list video) (tm : N) : system → Prop :=
| reopening_init : reopening D cls text vs tm (sys_initial cls text vs tm)
| reopening_step e y :
    reopening D cls text vs tm y → sys_enabled home e y → D e y →
    reopening D cls text vs tm (sys_handle e y)
| reopening_again y :
    reopening D cls text vs tm y → to_tab y = [] →
    reopening D cls text vs tm (reopen cls text y).
End reopening.

(** Start on the Meet tab and its answer. *)
Definition started_session : list sys_event :=
  [ User StartBtn; Tabs 0 [meet_tab]; Handle; Respond ].

(** ** Lemmas *)

Section reopening_lemmas.
Context (home : nat) (D : sys_event → system → Prop) (cls text : string).
Context (vs : list video) (tm : N).
Implicit Types (y : system).

Lemma sys_reachable_reopening y :
  sys_reachable_under home D cls text vs tm y → reopening home D cls text vs tm y.
Proof. induction 1; [constructor|by constructor]. Qed.

(** The script does not notice. *)
Lemma reopening_script y :
  reopening home D cls text vs tm y → reachable vs tm (script y).
Proof.
  induction 1 as [|e y _ IH He _|y _ IH _]; [constructor| |done].
  destruct (script_projection home e y He) as [->|(e' & He' & ->)]; [done|].
  eapply reachable_step; [done|by constructor].
Qed.

(** Every popup of the session is a popup reachable from [popup.html]. *)
Lemma reopening_panel y :
  reopening home D cls text vs tm y → panel_reachable cls text (panel y).
Proof.
  induction 1 as [|e y _ IH He _|y _ IH _]; [constructor| |constructor].
  destruct (panel_projection home e y He) as [->|(e' & He' & ->)]; [done|].
  by constructor.
Qed.

Lemma reopening_linked y : reopening home D cls text vs tm y → linked y.
Proof.
  induction 1 as [|e y Hy IH He _|y _ IH _]; [apply linked_initial| |].
  - eapply linked_step; [|done..]. by eapply wf_panel_reachable, reopening_panel.
  - by apply (linked_same (sys_initial cls text [] 0)), linked_initial.
Qed.
End reopening_lemmas.

Section reopening_status.
Context (home : nat) (cls text : string) (vs : list video) (tm : N).

(** A popup that opens with a status that says nothing is sound whatever
    the script does. *)
Lemma attended_reopen y :
  undecided (initial_popup cls text) → attended home (reopen cls text y).
Proof. intros Hu. apply attended_settled; [done..|]. by apply undecided_sound. Qed.

Lemma attended_reopening y :
  undecided (initial_popup cls text) →
  reopening home (attentive home) cls text vs tm y → attended home y.
Proof.
  intros Hu. induction 1 as [|e y _ IH He Ha|y _ IH _];
    [|by apply attended_step|by apply attended_reopen].
  apply (attended_reopen (sys_initial cls text vs tm) Hu).
Qed.
End reopening_status.

#[export] Hint Resolve reopening_script reopening_panel reopening_linked : monitor.

(** ** Theorems *)

(** C24: the status line across sessions of the popup.  Let the popup be
    closed and opened again at will, each time none of its messages is on
    its way, and let [popup.html] open with a status class that is neither
    Running nor Stopped.  Then the script and each popup run as they run
    alone, the channel is linked to the callbacks of the popup that is
    open, and for an attentive operator the status line is sound whenever
    the popup waits for no query and no message. *)
Theorem status_sound_across_sessions home cls text vs (tm : N) y :
  cls ≠ "status-running" → cls ≠ "status-stopped" →
  reopening home (attentive home) cls text vs tm y →
  reachable vs tm (script y) ∧ panel_reachable cls text (panel y) ∧ linked y ∧
  (answered y →
   to_tab y = [] ∧ to_panel y = [] ∧ sound_status (panel y) (script y)).
Proof.
  intros Hr Hs Hy. split_and!; [by eapply reopening_script|by eapply reopening_panel
                              |by eapply reopening_linked|].
  apply (attended_settled_inv home). by apply (attended_reopening home cls text vs tm).
Qed.

Lemma status_sound_across_sessions_witness :
  ∃ y1, sys_run 5 started_session (sys_initial "status-idle" "Status: Idle" [sample_video] 1000)
        = Some y1 ∧
    let y := reopen "status-idle" "Status: Idle" y1 in
    isAnalyzing (script y) = true ∧ statusClass (panel y) = "status-idle" ∧
    reachable [sample_video] 1000 (script y) ∧
    panel_reachable "status-idle" "Status: Idle" (panel y) ∧ linked y ∧
    (answered y →
     to_tab y = [] ∧ to_panel y = [] ∧ sound_status (panel y) (script y)).
Proof.
  eexists. split; [by vm_compute|]. cbv zeta. do 2 (split; [by vm_compute|]).
  apply (status_sound_across_sessions 5 "status-idle" "Status: Idle" [sample_video] 1000);
    [done..|].
  apply reopening_again; [|by vm_compute]. apply sys_reachable_reopening.
  by apply (sys_run_attentive_reachable 5 _ _ _ _ started_session
              (sys_initial "status-idle" "Status: Idle" [sample_video] 1000));
    [constructor|vm_compute|vm_compute].
Defined.

(** A popup that opens as Stopped forgets a running script.  The
    operator starts the analysis, closes the popup and opens it again:
    the popup waits for nothing and shows what [popup.html] shows, on a
    script that is running. *)
Theorem reopened_popup_forgets :
  ∃ y1, sys_run 5 started_session opened = Some y1 ∧
    statusClass (panel y1) = "status-running" ∧
    let y := reopen "status-stopped" "Status: Idle" y1 in
    reopening 5 (attentive 5) "status-stopped" "Status: Idle" [sample_video] 1000 y ∧
    idle y ∧ status (panel y) = ("status-stopped", "Status: Idle") ∧
    isAnalyzing (script y) = true ∧ ¬ sound_status (panel y) (script y).
Proof.
  eexists. split; [by vm_compute|]. split; [by vm_compute|]. cbv zeta. split_and!.
  - apply reopening_again; [|by vm_compute]. apply sys_reachable_reopening.
    by apply (sys_run_attentive_reachable 5 _ _ _ _ started_session opened);
      [constructor|vm_compute|vm_compute].
  - by_compute.
  - by vm_compute.
  - by vm_compute.
  - intros [_ Hst]. by specialize (Hst eq_refl).
Qed.
