(* ===== verification/Session.v ===== *)
(** * Session: the popup, the script, the service and the clock in the long run

    [System] composes the popup and the content script and lets anybody
    act.  A session is the system left to itself after a click: the
    browser takes its steps for the popup ([browser_step]: the answer of
    the tab query with the Meet page of the script in the active tab, the
    delivery of a message to the listener, the delivery of a response,
    the end of the request to [/end_session]), and the script runs against
    the service and the clock ([script_step]: the [live_step] of
    [Liveness]).  The two interleave in any order ([session_step]).

    A session never ends while the script runs, so what it achieves is a
    property of its fair executions ([Fair]).  This file shows that there
    are such executions from every state: [turn] is one deterministic
    policy of the event loops (the browser first, then the tasks of the
    script, then the wait for the timer), and the execution [schedule]
    that repeats it is fair to the browser and to the script. *)

From stdpp Require Import relations.
From S2P Require Import Prelude Js Dom Sampler Overlay Scheduler Invariants Barrier.
From S2P Require Import Lifecycle Identity Quiescence Fair Backend Annotation Liveness.
From S2P Require Import Popup Panel System Status Completion.

(** ** Definitions *)

(** A Meet page in the tab [home]. *)
Definition meet_page (home : nat) : tab :=
  Tab home "https://meet.google.com/abc-defg-hij".

Section definitions.
Context `{Backend} (home : nat).

(** The active tab is a Meet page, the one the script lives in. *)
Definition on_meet (e : sys_event) : Prop :=
  match e with
  | Tabs _ tabs =>
      ∃ t, head tabs = Some t ∧ includes "meet.google.com" (tab_url t) = true ∧
           tab_id t = home
  | _ => True
  end.

(** A step of the browser for the popup. *)
Inductive browser_step : relation system :=
| browser_step_event e y :
    transfer e → sys_enabled home e y → on_meet e → browser_step y (sys_handle e y).

(** A step of the script against the service and the clock. *)
Inductive script_step : relation system :=
| script_step_live y s' :
    live_step (script y) s' →
    script_step y (System (panel y) s' (to_tab y) (to_panel y)).

Definition session_step : relation system :=
  λ y y', browser_step y y' ∨ script_step y y'.

(** The step the browser takes next for the popup, if there is one: the
    tab queries before the messages, the messages before the responses. *)
Definition browser_pick (y : system) : option sys_event :=
  match map_to_list (queries (panel y)), to_tab y, to_panel y with
  | (q, _) :: _, _, _ => Some (Tabs q [meet_page home])
  | [], msg :: _, _ =>
      Some (if decide (msg_tab msg = home) then Handle else Elsewhere LastError)
  | [], [], _ :: _ => Some Respond
  | [], [], [] => if decide (ending (panel y) = 0) then None else Some (Ended EndFailed)
  end.

(** The task the script runs next, if there is one: a due timer, then an
    answer of the service, then the frame; at rest, the wait for the timer. *)
Definition script_pick (s : state) : option event :=
  match map_to_list (due (now s) (timers s)),
        map_to_list (filter (λ kv, outcome_covered (answer_to kv.2)) (inflight s)),
        rafQueue (win s), map_to_list (timers s) with
  | (t, _) :: _, _, _, _ => Some (TimerFire t)
  | [], (r, rq) :: _, _, _ => Some (Settle r (answer_to rq))
  | [], [], _ :: _, _ => Some AnimationFrame
  | [], [], [], (t, d) :: _ =>
      if decide (inflight s = ∅) then Some (Tick (d - now s)) else None
  | [], [], [], [] => None
  end.

(** One turn of the event loops: the browser's step if it has one, else
    the script's, else nothing. *)
Definition turn (y : system) : system :=
  match browser_pick y with
  | Some e => sys_handle e y
  | None =>
      match script_pick (script y) with
      | Some e => sys_handle (Script e) y
      | None => y
      end
  end.

Definition schedule (y : system) (n : nat) : system := Nat.iter n turn y.
End definitions.

(** ** Lemmas *)

Section session.
Context `{Backend} (home : nat).
Implicit Types (y : system) (e : sys_event) (ev : event) (s : state).

Lemma on_meet_attentive e y : transfer e → on_meet home e → attentive home e y.
Proof.
  destruct e as [b|q tabs| | | | |]; simpl; try done.
  intros _ (t & Ht & _ & Hid) t' Ht' _. congruence.
Qed.

Lemma browser_transfer y y' : browser_step home y y' → transfer_step home y y'.
Proof. intros [e y0 Ht He Hm]. constructor; [done..|by apply on_meet_attentive]. Qed.

Lemma browser_step_work y y' : browser_step home y y' → pending_work y' < pending_work y.
Proof. intros [e y0 Ht He _]. by apply (transfer_decreases home). Qed.

(** A step of the script in the session is a task of the event loop other
    than a message. *)
Lemma live_step_event s s' :
  live_step s s' → ∃ ev, is_message ev = false ∧ enabled ev s ∧ s' = next ev s.
Proof.
  intros [s0 s1 Hs|s0 t d Hq Ht].
  - apply served_internal in Hs. inversion Hs as [s2 ev He Hi]; subst.
    exists ev. by destruct ev.
  - by exists (Tick (d - now s0)%N).
Qed.

(** The steps of a session are steps of the system, taken by an attentive
    browser. *)
Lemma session_step_sys y y' :
  session_step home y y' →
  ∃ e, sys_enabled home e y ∧ attentive home e y ∧ y' = sys_handle e y.
Proof.
  intros [[e y0 Ht He Hm]|[y0 s' (ev & Hm & He & ->)%live_step_event]].
  - exists e. split_and!; [done| |done]. by apply on_meet_attentive.
  - by exists (Script ev).
Qed.

(** So a session that begins in a state an attentive operator can bring
    about stays among these states: what [Status] shows of them holds
    along the session. *)
Lemma session_reachable cls text vs (tm : N) tr n :
  sys_reachable_under home (attentive home) cls text vs tm (tr 0) →
  execution (session_step home) tr →
  sys_reachable_under home (attentive home) cls text vs tm (tr n).
Proof.
  intros H0 Hx. induction n as [|n IH]; [done|].
  destruct (Hx n) as [->|(e & He & Ha & ->)%session_step_sys]; [done|].
  by apply sys_reachable_step.
Qed.

Lemma script_step_red y : red (script_step) y ↔ red live_step (script y).
Proof.
  split.
  - intros [y' Hy]. inversion Hy as [y0 s' Hs]; subst. by exists s'.
  - intros [s' Hs]. eexists. by constructor.
Qed.

Lemma script_step_task y y' : script_step y y' → live_step (script y) (script y').
Proof. by intros [y0 s' Hs]. Qed.

(** The steps of the script keep the environment orderly and leave the
    run flag alone. *)
Lemma live_step_orderly vs (tm : N) s s' :
  reachable_under orderly vs tm s → live_step s s' → reachable_under orderly vs tm s'.
Proof.
  intros Ho (ev & Hm & He & ->)%live_step_event.
  apply reachable_under_step; [done..|by destruct ev].
Qed.

Lemma live_step_isAnalyzing s s' : live_step s s' → isAnalyzing s' = isAnalyzing s.
Proof. intros (ev & Hm & He & ->)%live_step_event. by apply next_isAnalyzing. Qed.

(** With no work left for the browser and no task for the script, the
    session has no step to take. *)
Lemma session_nf y :
  pending_work y = 0 → nf live_step (script y) → nf (session_step home) y.
Proof.
  intros Hw Hnf [y' [Hb%browser_step_work|Hs%script_step_task]]; [lia|].
  apply Hnf. by eexists.
Qed.

(** With no work left for the browser, an execution of the session is an
    execution of the script. *)
Lemma resting_execution tr n :
  execution (session_step home) tr → (∀ k, n ≤ k → pending_work (tr k) = 0) →
  execution live_step (λ k, script (shift n tr k)).
Proof.
  intros Hx Hw k. unfold shift. rewrite Nat.add_succ_r.
  destruct (Hx (n + k)) as [->|[Hb%browser_step_work|Hs]];
    [by left| |right; by apply script_step_task].
  rewrite (Hw (n + k)) in Hb by lia. lia.
Qed.

(** Fairness to the script in the session is fairness in its own
    execution. *)
Lemma fair_script tr n :
  fair script_step tr → fair live_step (λ k, script (shift n tr k)).
Proof.
  intros Hf k Hk.
  destruct (fair_shift _ n tr Hf k) as (m & Hm & Hstep); [by apply script_step_red|].
  exists m. split; [done|].
  destruct Hstep as [Hs|Hs]; [left; by apply script_step_task|right].
  by rewrite <-script_step_red.
Qed.

Lemma browser_pick_Some y e :
  browser_pick home y = Some e → browser_step home y (sys_handle e y).
Proof.
  unfold browser_pick. intros Hp.
  destruct (map_to_list (queries (panel y))) as [|[q c] l] eqn:Hq.
  2:{ injection Hp as <-. constructor; simpl; [done| |by exists (meet_page home)].
      exists c. apply elem_of_map_to_list. rewrite Hq. by left. }
  destruct (to_tab y) as [|msg rest] eqn:Ht.
  2:{ injection Hp as <-. case_decide; constructor; simpl; by rewrite ?Ht. }
  destruct (to_panel y) as [|md rest] eqn:Hr.
  2:{ injection Hp as <-. constructor; simpl; by rewrite ?Hr. }
  case_decide; [done|]. injection Hp as <-. constructor; simpl; [done|lia|done].
Qed.

Lemma browser_pick_None y : browser_pick home y = None → pending_work y = 0.
Proof.
  unfold browser_pick, pending_work. intros Hp.
  destruct (map_to_list (queries (panel y))) as [|[q c] l] eqn:Hq; [|done].
  apply map_to_list_empty_iff in Hq.
  destruct (to_tab y); [|done]. destruct (to_panel y); [|done].
  case_decide as He; [|done]. by rewrite Hq, He, map_size_empty.
Qed.

Lemma script_pick_Some s ev : script_pick s = Some ev → live_step s (next ev s).
Proof.
  unfold script_pick. intros Hp.
  destruct (map_to_list (due _ _)) as [|[t d] l] eqn:Hd.
  2:{ injection Hp as <-. apply live_task, served_fire. exists d.
      assert (due (now s) (timers s) !! t = Some d) as Hf
        by (apply elem_of_map_to_list; rewrite Hd; by left).
      by apply map_lookup_filter_Some in Hf. }
  destruct (map_to_list (filter _ (inflight s))) as [|[r rq] l] eqn:Hi.
  2:{ injection Hp as <-.
      assert (filter (λ kv, outcome_covered (answer_to kv.2)) (inflight s) !! r = Some rq)
        as [Hr Hc]%map_lookup_filter_Some by (apply elem_of_map_to_list; rewrite Hi; by left).
      by apply live_task, served_settle. }
  destruct (rafQueue (win s)) as [|cb q] eqn:Hq.
  2:{ injection Hp as <-. apply live_task, served_frame. by rewrite Hq. }
  destruct (map_to_list (timers s)) as [|[t d] l] eqn:Ht; [done|].
  case_decide as He; [|done]. injection Hp as <-. apply (live_wait s t).
  - split_and!; [by apply map_to_list_empty_iff|done..].
  - apply elem_of_map_to_list. rewrite Ht. by left.
Qed.

Lemma script_pick_None s : script_pick s = None → ¬ red live_step s.
Proof.
  unfold script_pick. intros Hp.
  destruct (map_to_list (due _ _)) as [|[t d] l] eqn:Hd; [|done].
  apply map_to_list_empty_iff in Hd.
  destruct (map_to_list (filter _ (inflight s))) as [|[r rq] l] eqn:Hi; [|done].
  apply map_to_list_empty_iff in Hi.
  destruct (rafQueue (win s)) as [|cb q] eqn:Hq; [|done].
  intros [s' Hs]. inversion Hs as [s0 s1 Ht|s0 t d [_ [Hin _]] Ht]; subst.
  - inversion Ht as [s0 r rq Hr Hc|s0 Hraf|s0 t (d & Ht' & Hle)]; subst.
    + assert (filter (λ kv, outcome_covered (answer_to kv.2)) (inflight s) !! r = Some rq)
        as Hf by by apply map_lookup_filter_Some.
      by rewrite Hi in Hf.
    + done.
    + assert (due (now s) (timers s) !! t = Some d) as Hf by by apply map_lookup_filter_Some.
      by rewrite Hd in Hf.
  - destruct (map_to_list (timers s)) as [|[t' d'] l] eqn:Ht'.
    + apply map_to_list_empty_iff in Ht'. by rewrite Ht' in Ht.
    + by rewrite decide_True in Hp.
Qed.

(** A turn is a step of the session, or nothing can be done. *)
Lemma turn_step y : turn home y = y ∨ session_step home y (turn home y).
Proof.
  unfold turn. destruct (browser_pick home y) as [e|] eqn:Hb.
  { right. left. by apply browser_pick_Some. }
  destruct (script_pick (script y)) as [ev|] eqn:Hs; [|by left].
  right. right. simpl. constructor. by apply script_pick_Some.
Qed.

Lemma turn_browser y : red (browser_step home) y → browser_step home y (turn home y).
Proof.
  intros [y' Hy%browser_step_work]. unfold turn.
  destruct (browser_pick home y) as [e|] eqn:Hb; [by apply browser_pick_Some|].
  apply browser_pick_None in Hb. lia.
Qed.

Lemma turn_script y :
  red live_step (script y) →
  browser_step home y (turn home y) ∨ script_step y (turn home y).
Proof.
  intros Hred. unfold turn. destruct (browser_pick home y) as [e|] eqn:Hb.
  { left. by apply browser_pick_Some. }
  destruct (script_pick (script y)) as [ev|] eqn:Hs;
    [|by apply script_pick_None in Hs].
  right. simpl. constructor. by apply script_pick_Some.
Qed.

Lemma schedule_execution y : execution (session_step home) (schedule home y).
Proof. intros n. apply turn_step. Qed.

Lemma schedule_fair_browser y : fair (browser_step home) (schedule home y).
Proof. intros n Hn. exists n. split; [done|]. left. by apply turn_browser. Qed.

Lemma schedule_fair_script y : fair script_step (schedule home y).
Proof.
  intros n. remember (pending_work (schedule home y n)) as w eqn:Hw. revert n Hw.
  induction (lt_wf w) as [w _ IH]. intros n -> Hn.
  destruct (turn_script (schedule home y n)) as [Hb|Hs]; [by apply script_step_red| |].
  2:{ exists n. split; [done|]. by left. }
  destruct (script_pick (script (schedule home y (S n)))) as [ev|] eqn:Hp.
  - destruct (IH _ (browser_step_work _ _ Hb) (S n) eq_refl) as (m & ? & ?).
    { apply script_step_red. eexists. by eapply script_pick_Some. }
    exists m. split; [lia|done].
  - exists (S n). split; [lia|]. right. rewrite script_step_red.
    by apply script_pick_None.
Qed.
End session.

(** ** Theorems *)

(** A session has fair executions.  From every state of the system,
    repeating [turn] gives an infinite execution of the session (at every
    index a step of the browser or of the script, or no change) in which
    a step of the browser that can be taken is taken at once, and a step of
    the script that can be taken is taken after at most [pending_work]
    steps of the browser, unless by then the script has no step to take. *)
Theorem schedule_fair `{Backend} home y :
  schedule home y 0 = y ∧
  execution (session_step home) (schedule home y) ∧
  (∀ n, red (browser_step home) (schedule home y n) →
        browser_step home (schedule home y n) (schedule home y (S n))) ∧
  fair (browser_step home) (schedule home y) ∧
  fair script_step (schedule home y).
Proof.
  split_and!; [done|apply schedule_execution| |apply schedule_fair_browser
              |apply schedule_fair_script].
  intros n. apply turn_browser.
Qed.
