(* ===== verification/Command.v ===== *)
(** * Command: one command of the popup, from the click to the status line

    A click runs through four stages: the tab query is pending; the
    message is on its way to the listener; the response is on its way
    back; the callback has run.  [commanding] is the invariant of a
    session in which one such command is under way, for a command with
    callback [cb] that the listener answers with [r] whenever the script
    satisfies [Pre], leaving it in [Post].  The script keeps running its
    own tasks in between, so [Pre] and [Post] have to be stable under
    them.  On the side of the popup, [Q] holds of the status line and the
    pending request to [/end_session] until the callback has run, and
    [Fin] after it; the request may end at any stage.  With fairness to
    the browser the command reaches its last stage and stays there
    ([commanding_completes]).  [Startup] and [Shutdown] instantiate the
    section for the three buttons. *)

From stdpp Require Import relations.
From S2P Require Import Prelude Js Dom Sampler Overlay Scheduler Invariants Barrier.
From S2P Require Import Lifecycle Identity Quiescence Fair Backend Annotation Liveness.
From S2P Require Import Popup Panel System Status Completion Session.

(** ** Definitions *)

(** No request to [/end_session] is pending. *)
Definition not_ending (p : popup) : Prop := ending p = 0.

(** No request to [/end_session] is pending and the status line is [st]. *)
Definition showing (st : string * string) (p : popup) : Prop :=
  ending p = 0 ∧ status p = st.

Section definitions.
Context (home : nat) (command : string) (cb : callback) (r : reply).
Context (Pre Post : state → Prop) (Q Fin : popup → Prop).

(** The stages of the command. *)
Inductive commanding : system → Prop :=
| commanding_asked p s q :
    queries p = {[q := (command, cb)]} → messages p = ∅ → Q p → Pre s →
    commanding (System p s [] [])
| commanding_sent p s m :
    queries p = ∅ → messages p = {[m := cb]} → Q p → Pre s →
    commanding (System p s [Msg m home command] [])
| commanding_answered p s m :
    queries p = ∅ → messages p = {[m := cb]} → Q p → Post s →
    commanding (System p s [] [(m, Delivered (Some r))])
| commanding_shown p s :
    queries p = ∅ → messages p = ∅ → Fin p → Post s →
    commanding (System p s [] []).

(** The popup waits for nothing and shows the outcome of the command, and
    the script is as the command leaves it. *)
Definition completed (y : system) : Prop :=
  settled y ∧ Fin (panel y) ∧ Post (script y).
End definitions.

(** ** Lemmas *)

Lemma not_ending_status p p' : status p' = status p → ending p' = ending p → not_ending p → not_ending p'.
Proof. unfold not_ending. congruence. Qed.

Lemma not_ending_ended o p : 0 < ending p → not_ending p → not_ending (end_result o p).
Proof. unfold not_ending. lia. Qed.

Lemma showing_ended st o p : 0 < ending p → showing st p → showing st (end_result o p).
Proof. unfold showing. lia. Qed.

(** A click on Start or Stop leaves the popup not_ending. *)
Lemma not_ending_click b p : b ≠ EndBtn → not_ending p → not_ending (click b p).
Proof. intros Hb Hp. unfold not_ending. by destruct (click_status b p Hb) as [_ ->]. Qed.

Section command.
Context `{Backend} (home : nat) (command : string) (cb : callback) (r : reply).
Context (Pre Post : state → Prop) (Q Fin : popup → Prop).
Hypothesis Pre_live : ∀ s s', Pre s → live_step s s' → Pre s'.
Hypothesis Post_live : ∀ s s', Post s → live_step s s' → Post s'.
Hypothesis Pre_handle : ∀ s, Pre s →
  onMessage command s = (Some r, next (Message command) s) ∧
  Post (next (Message command) s).
Hypothesis Q_status : ∀ p p',
  status p' = status p → ending p' = ending p → Q p → Q p'.
Hypothesis Q_ended : ∀ o p, 0 < ending p → Q p → Q (end_result o p).
Hypothesis Fin_ended : ∀ o p, 0 < ending p → Fin p → Fin (end_result o p).
Hypothesis Q_shows : ∀ p, Q p → Fin (run_callback cb (Some r) p).
Implicit Types (y : system) (e : sys_event) (s : state) (p : popup).

Local Abbreviation commanding := (commanding home command cb r Pre Post Q Fin).

Lemma commanding_click b y :
  button_command b = (command, cb) → Q (click b (panel y)) →
  answered y → to_tab y = [] → to_panel y = [] → Pre (script y) →
  commanding (sys_handle (User b) y).
Proof.
  intros Hc HQ [Hq Hm] Ht Hp Hs. destruct y as [p s tt tp]. sys_simpl.
  subst. simpl. destruct (click_pending b p) as (Hq' & Hm' & _).
  apply (commanding_asked _ _ _ _ _ _ _ _ _ _ (nextQuery p)); [|congruence|done..].
  by rewrite Hq', Hq, insert_empty, Hc.
Qed.

(** The request to [/end_session] may end at any stage. *)
Lemma commanding_ended o y :
  commanding y → 0 < ending (panel y) → commanding (sys_handle (Ended o) y).
Proof.
  intros Hy He. destruct Hy as [p s q Hq Hms HQ Hs|p s m Hq Hms HQ Hs
                               |p s m Hq Hms HQ Hs|p s Hq Hms HF Hs];
    cbn [sys_handle panel script to_tab to_panel] in *;
    destruct (end_result_pending o p) as (Hq' & Hm' & _);
    [eapply commanding_asked|eapply commanding_sent|eapply commanding_answered
    |eapply commanding_shown]; rewrite ?Hq', ?Hm'; eauto.
Qed.

Lemma commanding_browser y y' :
  commanding y → browser_step home y y' → commanding y'.
Proof.
  intros Hy Hb. inversion Hb as [e y0 Ht He Hm]; subst. clear Hb.
  destruct e as [b|q' tabs| |d| |o|ev]; try done; [..|by apply commanding_ended];
    destruct Hy as [p s q Hq Hms HQ Hs|p s m Hq Hms HQ Hs|p s m Hq Hms HQ Hs
                   |p s Hq Hms HF Hs];
    cbn [sys_enabled sys_handle transfer on_meet panel script to_tab to_panel
         msg_command msg_handle msg_tab] in *;
    try done; try by (rewrite Hq, lookup_empty in He; destruct He).
  - destruct Hm as (t & Hh & Hi & <-). destruct tabs as [|t' tabs]; [done|].
    injection Hh as ->. rewrite Hq in He. apply lookup_singleton_is_Some in He as <-.
    destruct (posted_meet q t tabs p command cb)
      as (Hq' & Hm' & -> & Hst' & He'); [by rewrite Hq, lookup_singleton_eq|done|].
    simpl. apply commanding_sent; [|by rewrite Hm', Hms, insert_empty|eauto|done].
    by rewrite Hq', Hq, delete_singleton_eq.
  - destruct (Pre_handle s Hs) as [-> Hu]. simpl. by apply commanding_answered.
  - unfold message_result. rewrite Hms, lookup_singleton_eq. cbv zeta.
    set (p1 := Popup _ _ _ _ _ _ _ _ _ _).
    destruct (run_callback_pending cb (Some r) p1) as (Hq1 & Hm1 & _ & He1).
    apply commanding_shown; [by rewrite Hq1| |apply Q_shows; by apply (Q_status p)|done].
    by rewrite Hm1; simpl; rewrite delete_singleton_eq.
Qed.

Lemma commanding_script y y' :
  commanding y → script_step y y' → commanding y' ∧ pending_work y' = pending_work y.
Proof.
  intros Hy Hs. inversion Hs as [y0 s' Hl]; subst. split; [|done].
  destruct Hy; sys_simpl;
    [eapply commanding_asked|eapply commanding_sent|eapply commanding_answered
    |eapply commanding_shown]; eauto.
Qed.

Lemma commanding_step a b :
  commanding a → session_step home a b → commanding b ∧ pending_work b ≤ pending_work a.
Proof.
  intros Ha [Hb|Hb].
  - split; [by eapply commanding_browser|]. apply browser_step_work in Hb. lia.
  - by destruct (commanding_script a b Ha Hb) as [? ->].
Qed.

(** With no work left the command is in its last stage. *)
Lemma commanding_done y :
  commanding y → pending_work y = 0 → completed Post Fin y.
Proof.
  intros Hy Hw. destruct Hy as [p s q Hq|p s m|p s m|p s Hq Hms HF Hs];
    unfold pending_work in Hw; sys_simpl; simpl in Hw; try lia.
  - rewrite Hq, map_size_singleton in Hw. lia.
  - repeat split; try done. simpl. lia.
Qed.

(** Fairness to the browser brings the command to its last stage, where
    it stays. *)
Lemma commanding_completes tr :
  commanding (tr 0) → execution (session_step home) tr → fair (browser_step home) tr →
  ∃ n, ∀ k, n ≤ k → completed Post Fin (tr k) ∧ pending_work (tr k) = 0.
Proof.
  intros H0 Hx Hf.
  destruct (fair_measure (session_step home) (browser_step home) pending_work
              commanding (λ a, pending_work a = 0) tr Hx Hf commanding_step)
    with (n := 0) as (n & _ & Hn & Hw); [| |done|].
  - intros a b _ Hb. by apply (browser_step_work home).
  - intros a _. destruct (browser_pick home a) as [e|] eqn:E;
      [right; eexists; by apply browser_pick_Some|left; by apply (browser_pick_None home)].
  - exists n. intros k Hk.
    destruct (execution_invariant _ pending_work _ tr n k Hx commanding_step Hk Hn).
    assert (pending_work (tr k) = 0) by lia. split; [by apply commanding_done|done].
Qed.
End command.
