(* ===== verification/Startup.v ===== *)
(** * Startup: from the click on Start to the annotated page

    The whole extension in one statement.  The popup waits for nothing,
    the content script is stopped with no request of an earlier run in
    flight and sees a participant ([startable]); the operator clicks
    Start.  From then on the browser and the script take their steps in
    any order, the service answers, the clock advances while the script
    is at rest, and nobody is postponed for ever.  Then the popup comes to
    show "Analysis Running" and stays so, the script runs from then on,
    and within one delay of that and of every later moment it is at rest
    with every sampled participant the service judges annotated
    ([start_click_annotates]).

    The proof composes the files below it: [Command] for the way of the
    command through the popup, the channel and the listener, [Fair] for
    the two fairness arguments, and [Liveness] for the script once it
    runs.  The witness is the execution [schedule] of [Session]. *)

From stdpp Require Import relations.
From S2P Require Import Prelude Js Dom Sampler Overlay Scheduler Invariants Barrier.
From S2P Require Import Lifecycle Cycle Identity Gateway Quiescence Fair Backend.
From S2P Require Import Annotation Liveness Popup Panel System Status Completion Session.
From S2P Require Import Command.

(** ** Definitions *)

(** What the callback of [start] shows for a success (line 24 of
    [src/popup.js]). *)
Definition running_status : string * string :=
  ("status-running", "Status: Analysis Running...").

(** The popup of the examples after a click on Start. *)
Definition start_clicked : system := sys_handle (User StartBtn) opened.

Section definitions.
Context (vs : list video) (tm : N).

(** A stopped script that accepts [start]: no request of an earlier run
    is in flight, a participant passes the test of [startAnalysis], and no
    id was minted in this millisecond. *)
Record startable (s : state) : Prop := Startable {
  st_orderly : reachable_under orderly vs tm s;
  st_stopped : isAnalyzing s = false;
  st_drained : inflight s = ∅;
  st_video : ∃ v, v ∈ videos (win s) ∧ start_visible v = true;
  st_punctual : Forall (minted_before (now s)) (videos (win s))
}.

(** The script runs, in an orderly environment. *)
Definition underway (s : state) : Prop :=
  reachable_under orderly vs tm s ∧ isAnalyzing s = true.

(** The popup waits for nothing and shows Running, and the script runs. *)
Definition shown (y : system) : Prop :=
  settled y ∧ status (panel y) = running_status ∧ isAnalyzing (script y) = true.
End definitions.

(** ** Lemmas *)

Section startup.
Context `{Backend} (home : nat) (vs : list video) (tm : N).
Implicit Types (y : system) (s : state).

(** A stopped script has at most callbacks to run; they leave it
    startable. *)
Lemma startable_live s s' : startable vs tm s → live_step s s' → startable vs tm s'.
Proof.
  intros [Ho Hst Hd Hv Hp] Hs.
  pose proof (stopped_no_timer s (single_chain_orderly _ _ _ Ho) Hst) as Ht.
  inversion Hs as [s0 s1 Hstep|s0 t d Hq Ht']; subst; [|by rewrite Ht in Ht'].
  inversion Hstep as [s0 r rq Hr Hc|s0 Hraf|s0 t (d & Ht' & _)]; subst.
  - by rewrite Hd in Hr.
  - split; [by apply reachable_under_step|done|done|..];
      unfold next, handle; cbn [snd]; unfold set_win; cbn [win now];
      by rewrite animationFrame_videos.
  - by rewrite Ht in Ht'.
Qed.

Lemma underway_live s s' : underway vs tm s → live_step s s' → underway vs tm s'.
Proof.
  intros [Ho Hrun] Hs. split; [by eapply live_step_orderly|].
  by rewrite (live_step_isAnalyzing s).
Qed.

(** The listener accepts [start], and the script runs. *)
Lemma startable_start s :
  startable vs tm s →
  onMessage "start" s = (Some (Reply "success" None), next (Message "start") s) ∧
  underway vs tm (next (Message "start") s).
Proof.
  intros [Ho Hst Hd (v & Hv & Hvis) Hp].
  set (s2 := console_log "Monitor: Analysis started successfully." (set_isAnalyzing true s)).
  assert (onMessage "start" s = (Some (Reply "success" None), runAnalysisCycle s2)) as Hon.
  { unfold onMessage, startAnalysis. rewrite Hst.
    destruct (decide ("start" = "start")); [|done].
    case_decide as Hl; [exfalso|done].
    apply length_zero_iff_nil in Hl. apply (elem_of_nil v). rewrite <-Hl.
    by apply list_elem_of_filter. }
  assert (next (Message "start") s = runAnalysisCycle s2) as Hn
    by (unfold next, handle; by rewrite Hon).
  split; [by rewrite Hn|]. split.
  - apply reachable_under_step; [done..|]. split; by intros _ _.
  - by rewrite Hn, runAnalysisCycle_isAnalyzing.
Qed.

(** The callback of an accepted [start] shows Running. *)
Lemma start_callback_shows p :
  not_ending p →
  showing running_status (run_callback OnStart (Some (Reply "success" None)) p).
Proof. done. Qed.

Lemma started_shown y :
  completed (underway vs tm) (showing running_status) y →
  shown y ∧ underway vs tm (script y).
Proof. intros (Hy & [_ Hst] & Hu). split; [|done]. split_and!; [done..|apply Hu]. Qed.

(** Fairness to the browser brings the click on Start to the status
    Running, with the script running from then on. *)
Lemma start_click_shows y tr :
  settled y → startable vs tm (script y) → tr 0 = sys_handle (User StartBtn) y →
  execution (session_step home) tr → fair (browser_step home) tr →
  ∃ n, ∀ k, n ≤ k →
    shown (tr k) ∧ underway vs tm (script (tr k)) ∧ pending_work (tr k) = 0.
Proof.
  intros Hy Hs H0 Hx Hf.
  destruct (commanding_completes home "start" OnStart (Reply "success" None)
              (startable vs tm) (underway vs tm) not_ending (showing running_status)
              startable_live underway_live startable_start not_ending_status
              not_ending_ended (showing_ended _) start_callback_shows tr)
    as (n & Hn); [|done..|].
  { destruct Hy as ([? He] & ? & ?). rewrite H0.
    by apply commanding_click; [|apply not_ending_click|..]. }
  exists n. intros k [[? ?]%started_shown ?]%Hn. done.
Qed.

(** From every moment at which the script runs and the browser has no
    work left, fairness to the script brings the next annotated rest. *)
Lemma underway_refreshes tr i :
  execution (session_step home) tr → fair script_step tr →
  (∀ k, i ≤ k → pending_work (tr k) = 0) → underway vs tm (script (tr i)) →
  ∃ m, i ≤ m ∧ refreshed vs tm (now (script (tr i))) (script (tr m)).
Proof.
  intros Hx Hfs Hw [Ho Hrun].
  destruct (eventually_fair live_step (refreshed vs tm (now (script (tr i))))
              (λ k, script (shift i tr k)) 0) as (m & _ & Hm).
  - by apply (resting_execution home).
  - by apply fair_script.
  - apply running_refreshes. unfold shift. rewrite Nat.add_0_r. by split_and!.
  - exists (i + m). split; [lia|done].
Qed.
End startup.

(** ** Theorems *)

(** C1: from the click on Start to the annotated page.  Let the popup
    wait for nothing and the script be stopped, with no request in flight,
    a participant video that [startAnalysis] accepts and no id minted in
    this millisecond, and let the operator click Start.  Consider any
    execution from there in which the browser answers the tab query with
    the Meet page of the script and delivers messages and responses, the
    script runs its tasks against a service that answers every request,
    and the clock advances to the timer when the script is at rest; let
    the execution be fair to the browser and to the script.  Then there is
    a moment [n] from which on the popup waits for nothing and shows
    "Status: Analysis Running..." while the script runs; and after every
    moment [i] from then on there is a moment [m], at most one delay
    (1000 ms) later on the clock, at which the script is at rest with the
    next cycle armed and every sampled participant the service judges
    annotated by its overlay: the page is annotated again and again. *)
Theorem start_click_annotates `{Backend} home vs (tm : N) y tr :
  settled y → startable vs tm (script y) → tr 0 = sys_handle (User StartBtn) y →
  execution (session_step home) tr → fair (browser_step home) tr → fair script_step tr →
  ∃ n, (∀ k, n ≤ k → shown (tr k)) ∧
       ∀ i, n ≤ i → ∃ m, i ≤ m ∧ refreshed vs tm (now (script (tr i))) (script (tr m)).
Proof.
  intros Hy Hs H0 Hx Hfb Hfs.
  destruct (start_click_shows home vs tm y tr) as (n & Hn); [done..|].
  exists n. split; [intros k Hk; by apply Hn|]. intros i Hi.
  apply (underway_refreshes home); [done..| |by apply Hn].
  intros k Hk. apply Hn. lia.
Qed.

Lemma start_click_annotates_witness :
  status (panel (schedule (H := alice_service) 5 start_clicked 3)) = running_status ∧
  overlay_ids (win (script (schedule (H := alice_service) 5 start_clicked 5)))
  = ["overlay-participant-1000-0"] ∧
  ∃ n, (∀ k, n ≤ k → shown (schedule (H := alice_service) 5 start_clicked k)) ∧
       ∀ i, n ≤ i → ∃ m, i ≤ m ∧
         refreshed (H := alice_service) [sample_video] 1000
           (now (script (schedule (H := alice_service) 5 start_clicked i)))
           (script (schedule (H := alice_service) 5 start_clicked m)).
Proof.
  split; [by vm_compute|]. split; [by vm_compute|].
  apply (start_click_annotates (H := alice_service) 5 [sample_video] 1000 opened).
  - by_compute.
  - split; [constructor|done|done| |].
    + exists (with_monitorId None sample_video). split; [by left|done].
    + by repeat constructor.
  - done.
  - apply schedule_execution.
  - apply schedule_fair_browser.
  - apply schedule_fair_script.
Defined.
