(* ===== verification/Shutdown.v ===== *)
(** * Shutdown: from the click on Stop or End Session to a session at rest

    The counterpart of [Startup].  The operator clicks Stop or End
    Session while the popup waits for nothing; the script may be in any
    state an orderly environment can bring about, running or not, with
    requests in flight and callbacks queued.  In every fair execution the
    popup comes to show the outcome of the button ("Analysis Stopped", or
    the outcome of the request to [/end_session]), the script is stopped
    and holds no timer, the requests still in flight settle and their
    callbacks run, and then nothing happens any more: the execution stays
    in one state for ever ([stop_click_rests]).  A running session never
    ends; a stopped one does.

    Two things the state of rest does not promise.  It is not a clean
    page: [stopAnalysis] removes the overlays when the command arrives,
    and the answers that arrive after it draw theirs again; in the
    execution of the witness the overlay of the participant is on screen
    for ever under "Analysis Stopped".  And End Session does not stop the
    script before it asks for the reports: the request to [/end_session]
    and the message [stop] travel independently, so the reports can be
    ready while the script still runs and posts the next frame
    ([reports_before_stop]). *)

From stdpp Require Import relations.
From S2P Require Import Prelude Js Dom Sampler Overlay Scheduler Invariants Barrier.
From S2P Require Import Lifecycle Cycle Identity Gateway Quiescence Fair Backend.
From S2P Require Import Annotation Liveness Popup Panel System Status Completion Session.
From S2P Require Import Command Startup.

(** ** Definitions *)

(** What the callback of [stop] shows (line 31 of [src/popup.js]). *)
Definition stopped_status : string * string :=
  ("status-stopped", "Status: Analysis Stopped.").

(** What the click on End Session shows at once (line 37). *)
Definition generating_status : string * string :=
  ("status-generating", "Status: Generating reports...").

(** What the popup shows when the request to [/end_session] has ended
    (lines 42 to 46); an answer whose reports are no array ends in the
    [catch]. *)
Definition end_status (o : end_outcome) : string * string :=
  match o with
  | EndFailed => ("status-error", "Error: Backend is unreachable.")
  | EndData st message rs =>
      if decide (st = JStr "success") then
        match rs with
        | ReportsOther => ("status-error", "Error: Backend is unreachable.")
        | _ => ("status-generating", "Reports Ready for Download")
        end
      else ("status-error", "Error: " +:+ to_string message)
  end.

(** The status line a button leaves when its command is through. *)
Definition final_status (b : button) (st : string * string) : Prop :=
  match b with
  | StartBtn => st = running_status
  | StopBtn => st = stopped_status
  | EndBtn => ∃ o, st = end_status o
  end.

(** The popup after a click on End Session: the request is pending under
    "Generating reports", or it has ended and its outcome is shown. *)
Definition closing (p : popup) : Prop :=
  (ending p = 1 ∧ status p = generating_status) ∨
  (ending p = 0 ∧ ∃ o, status p = end_status o).

(** The session of the examples when the popup has come to show Running:
    the first request is still in flight.  Then a click on Stop. *)
Definition stop_clicked : system :=
  sys_handle (User StopBtn) (schedule (H := alice_service) 5 start_clicked 3).

(** The same session, and a click on End Session. *)
Definition end_session_clicked : system :=
  sys_handle (User EndBtn) (schedule (H := alice_service) 5 start_clicked 3).


Section definitions.
Context (vs : list video) (tm : N).

(** The script is stopped, in an orderly environment. *)
Definition halted (s : state) : Prop := reachable_under orderly vs tm s ∧ stopped s.

(** The popup waits for nothing and shows the outcome of the button; the
    script is stopped, holds no timer and has no task to run. *)
Definition at_rest (b : button) (y : system) : Prop :=
  settled y ∧ final_status b (status (panel y)) ∧ stopped (script y) ∧
  timers (script y) = ∅ ∧ quiescent (script y).
End definitions.

(** ** Lemmas *)

Lemma end_result_status o p n :
  ending p = S n → status (end_result o p) = end_status o ∧ ending (end_result o p) = n.
Proof.
  intros He. unfold end_result, end_status. rewrite He.
  destruct o as [|st message rs]; [done|]. case_decide; [|done].
  set (p2 := setStatus _ _ _).
  destruct (displayDownloadLinks_pending rs p2) as (Hs & _ & _ & _ & Hen).
  destruct rs as [|l|]; destruct (displayDownloadLinks _ p2) as [p3 ok] eqn:E;
    simpl in Hs, Hen; try (destruct l; injection E as <- <-); try injection E as <- <-; done.
Qed.

Lemma closing_status p p' :
  status p' = status p → ending p' = ending p → closing p → closing p'.
Proof. unfold closing. intros -> ->. done. Qed.

Lemma closing_ended o p : 0 < ending p → closing p → closing (end_result o p).
Proof.
  intros He [[H1 _]|[H0 _]]; [|lia].
  destruct (end_result_status o p 0 H1) as [Hs Hen]. right. split; [done|by exists o].
Qed.

Lemma closing_click p : not_ending p → closing (click EndBtn p).
Proof. unfold not_ending. intros He. left. split; [simpl; by rewrite He|done]. Qed.

Section shutdown.
Context `{Backend} (home : nat) (vs : list video) (tm : N).
Implicit Types (y : system) (s : state).

Lemma halted_live s s' : halted vs tm s → live_step s s' → halted vs tm s'.
Proof.
  intros [Ho Hst] Hs. split; [by eapply live_step_orderly|].
  unfold stopped. by rewrite (live_step_isAnalyzing s).
Qed.

(** The listener answers [stop] in every state, and the script is stopped. *)
Lemma orderly_stop s :
  reachable_under orderly vs tm s →
  onMessage "stop" s = (Some (Reply "stopped" None), next (Message "stop") s) ∧
  halted vs tm (next (Message "stop") s).
Proof.
  intros Ho. split; [done|]. split; [by apply reachable_under_step|].
  unfold stopped, next, handle, onMessage. simpl. unfold stopAnalysis.
  destruct (isAnalyzing s) eqn:Hrun; [|done]. simpl. by rewrite clearTimeout_isAnalyzing.
Qed.

Lemma halted_no_timer s : halted vs tm s → timers s = ∅.
Proof. intros [Ho Hst]. by apply stopped_no_timer; [eapply single_chain_orderly|]. Qed.

(** A stopped script comes to rest: the requests in flight settle and the
    queued callbacks run. *)
Lemma halted_rests s :
  halted vs tm s → eventually live_step (λ b, halted vs tm b ∧ quiescent b) s.
Proof.
  apply (wf_eventually_until live_step internal_step (halted vs tm));
    [apply internal_step_wf|].
  intros a Ha. destruct (decide (quiescent a)) as [Hq|Hq]; [by left|right]. split.
  { destruct (served_red vs tm a) as [b Hb]; [apply Ha|done|].
    exists b. by apply live_task. }
  intros b Hab. split; [|by eapply halted_live].
  inversion Hab as [a1 b1 Hstep|a1 t d _ Ht]; subst; [by apply served_internal|].
  by rewrite (halted_no_timer a) in Ht.
Qed.

(** At rest a stopped script has no step to take: no task, and no timer
    to wait for. *)
Lemma halted_stuck s : halted vs tm s → quiescent s → nf live_step s.
Proof.
  intros Ha Hq [b Hab]. inversion Hab as [a1 b1 Hstep|a1 t d _ Ht]; subst.
  - by apply (quiescent_no_task s b).
  - by rewrite (halted_no_timer s) in Ht.
Qed.

(** The way of [stop] through the popup, the channel and the listener,
    for the popup predicates of the button. *)
Lemma stop_completes cb (Q Fin : popup → Prop) b y tr :
  button_command b = ("stop", cb) →
  (∀ p p', status p' = status p → ending p' = ending p → Q p → Q p') →
  (∀ o p, 0 < ending p → Q p → Q (end_result o p)) →
  (∀ o p, 0 < ending p → Fin p → Fin (end_result o p)) →
  (∀ p, Q p → Fin (run_callback cb (Some (Reply "stopped" None)) p)) →
  (∀ p, not_ending p → Q (click b p)) →
  settled y → reachable_under orderly vs tm (script y) → tr 0 = sys_handle (User b) y →
  execution (session_step home) tr → fair (browser_step home) tr →
  ∃ n, ∀ k, n ≤ k → completed (halted vs tm) Fin (tr k) ∧ pending_work (tr k) = 0.
Proof.
  intros Hb HQ HQe HFe HQs HQc Hy Hs H0 Hx Hf.
  apply (commanding_completes home "stop" cb (Reply "stopped" None)
           (reachable_under orderly vs tm) (halted vs tm) Q Fin (live_step_orderly vs tm)
           halted_live orderly_stop HQ HQe HFe HQs tr); [|done..].
  destruct Hy as ([? He] & ? & ?). rewrite H0.
  by apply commanding_click; [|apply HQc|..].
Qed.

(** Once the command is through, fairness to the script brings the
    session to rest. *)
Lemma stopped_session_rests (Fin : popup → Prop) tr n :
  execution (session_step home) tr → fair script_step tr →
  (∀ k, n ≤ k → completed (halted vs tm) Fin (tr k) ∧ pending_work (tr k) = 0) →
  ∃ m, n ≤ m ∧ quiescent (script (tr m)) ∧ ∀ k, m ≤ k → tr k = tr m.
Proof.
  intros Hx Hfs Hn.
  destruct (eventually_fair live_step (λ b, halted vs tm b ∧ quiescent b)
              (λ k, script (shift n tr k)) 0) as (m & _ & Hh & Hq).
  - apply (resting_execution home); [done|]. intros k Hk. by apply Hn.
  - by apply fair_script.
  - apply halted_rests. unfold shift. rewrite Nat.add_0_r.
    by destruct (Hn n) as [(_ & _ & ?) _].
  - unfold shift in Hh, Hq. exists (n + m). split_and!; [lia|done|].
    intros k Hk. apply (execution_nf (session_step home)); [done| |done].
    apply session_nf; [apply Hn; lia|]. by eapply halted_stuck.
Qed.
End shutdown.

(** ** Theorems *)

(** C4: from the click on Stop or End Session to a session at rest.  Let
    the popup wait for nothing, the script be in any state of an orderly
    environment, and let the operator click Stop or End Session.  In every
    execution from there that is fair to the browser and to the script
    (the browser answers the tab query with the Meet page of the script,
    delivers messages and responses and ends the request to
    [/end_session] with any outcome; the script runs its tasks against a
    service that answers) there is a moment at which the popup waits for
    nothing and shows "Status: Analysis Stopped." after Stop, or what the
    outcome of the request makes it show after End Session, while the
    script is stopped with no timer pending, no request in flight and no
    callback queued; and from that moment on the state never changes
    again. *)
Theorem stop_click_rests `{Backend} home vs (tm : N) b y tr :
  b ≠ StartBtn → settled y → reachable_under orderly vs tm (script y) →
  tr 0 = sys_handle (User b) y →
  execution (session_step home) tr → fair (browser_step home) tr → fair script_step tr →
  ∃ n, at_rest b (tr n) ∧ ∀ k, n ≤ k → tr k = tr n.
Proof.
  intros Hb Hy Hs H0 Hx Hfb Hfs. destruct b; [done| |].
  - destruct (stop_completes home vs tm OnStop not_ending (showing stopped_status) StopBtn y tr)
      as (n & Hn);
      [done|apply not_ending_status|apply not_ending_ended|apply showing_ended|done
      |intros p; by apply not_ending_click|done..|].
    destruct (stopped_session_rests home vs tm (showing stopped_status) tr n)
      as (m & Hm & Hq & Hrest); [done..|].
    exists m. split; [|done]. destruct (Hn m Hm) as [(Hst & [_ Hp] & Hh) _].
    split_and!; [done|done|apply Hh|by eapply halted_no_timer|done].
  - destruct (stop_completes home vs tm NoCallback closing closing EndBtn y tr)
      as (n & Hn);
      [done|apply closing_status|apply closing_ended|apply closing_ended|done
      |apply closing_click|done..|].
    destruct (stopped_session_rests home vs tm closing tr n)
      as (m & Hm & Hq & Hrest); [done..|].
    exists m. split; [|done]. destruct (Hn m Hm) as [(Hst & Hp & Hh) _].
    split_and!; [done| |apply Hh|by eapply halted_no_timer|done].
    destruct Hst as ([_ He] & _). destruct Hp as [[? _]|[_ ?]]; [congruence|done].
Qed.

Lemma stop_click_rests_witness :
  size (inflight (script stop_clicked)) = 1 ∧
  (let y := schedule (H := alice_service) 5 stop_clicked 5 in
   turn (H := alice_service) 5 y = y ∧ status (panel y) = stopped_status ∧
   overlay_ids (win (script y)) = ["overlay-participant-1000-0"]) ∧
  (let y := schedule (H := alice_service) 5 end_session_clicked 6 in
   turn (H := alice_service) 5 y = y ∧ status (panel y) = end_status EndFailed) ∧
  (∃ n, at_rest StopBtn (schedule (H := alice_service) 5 stop_clicked n) ∧
        ∀ k, n ≤ k → schedule (H := alice_service) 5 stop_clicked k
                     = schedule (H := alice_service) 5 stop_clicked n) ∧
  (∃ n, at_rest EndBtn (schedule (H := alice_service) 5 end_session_clicked n) ∧
        ∀ k, n ≤ k → schedule (H := alice_service) 5 end_session_clicked k
                     = schedule (H := alice_service) 5 end_session_clicked n).
Proof.
  assert (reachable_under orderly [sample_video] 1000
            (script (schedule (H := alice_service) 5 start_clicked 3))) as Hs.
  { assert (script (schedule (H := alice_service) 5 start_clicked 3)
            = next (Message "start") (initial_state [sample_video] 1000)) as ->
      by (vm_compute; reflexivity).
    apply reachable_under_step; [constructor|done|].
    split; [by intros _ _|]. intros _ _. repeat constructor; by intros i. }
  split; [by vm_compute|]. split; [by vm_compute|]. split; [by vm_compute|].
  split;
    apply (stop_click_rests (H := alice_service) 5 [sample_video] 1000 _
             (schedule (H := alice_service) 5 start_clicked 3));
    first [done|by_compute|apply schedule_execution|apply schedule_fair_browser
          |apply schedule_fair_script].
Defined.

