(* ===== verification/Refusal.v ===== *)
(** * Refusal: a click on Start that the script refuses

    [startAnalysis] refuses in two cases: the script is running already,
    or no video of the page passes its test.  It answers with an error and
    a message and changes nothing.  This file follows the refusal through
    the system: in every execution that is fair to the browser the popup
    comes to show the message of the case as an error and stays so, and
    the run flag of the script is what it was when the operator clicked:
    a script that ran runs on, a script that was stopped stays stopped. *)

From stdpp Require Import relations.
From S2P Require Import Prelude Js Dom Sampler Overlay Scheduler Invariants Barrier.
From S2P Require Import Lifecycle Cycle Identity Gateway Quiescence Fair Backend.
From S2P Require Import Annotation Liveness Popup Panel System Status Completion Session.
From S2P Require Import Command Startup.

(** ** Definitions *)

(** The message of [startAnalysis] when it refuses in state [s] (lines 27
    and 31 of [src/content.js]). *)
Definition refusal (s : state) : string :=
  if isAnalyzing s then "Analysis is already running."
  else "No participant videos found.".

(** The reply that carries it. *)
Definition refusing (s : state) : reply := Reply "error" (Some (refusal s)).

(** What the callback of [start] shows for it (line 25 of [src/popup.js]). *)
Definition refused_status (s : state) : string * string :=
  ("status-error", "Error: " +:+ refusal s).

(** The page of the examples with a video that is not ready yet. *)
Definition loading_video : video :=
  Video 2 360 640 1280 720 (Rect 10 20 640 360) 7 None.

Definition start_clicked_early : system :=
  sys_handle (User StartBtn)
    (sys_initial "status-stopped" "Status: Idle" [loading_video] 1000).

Section definitions.
Context (vs : list video) (tm : N) (s0 : state).

(** The script is in an orderly environment, its run flag is that of [s0],
    and if it is stopped, no video passes the test of [startAnalysis]. *)
Definition unstartable (s : state) : Prop :=
  reachable_under orderly vs tm s ∧ isAnalyzing s = isAnalyzing s0 ∧
  (isAnalyzing s0 = false → Forall (λ v, start_visible v = false) (videos (win s))).

(** The popup waits for nothing and shows the refusal; the run flag is
    that of [s0]. *)
Definition refused (y : system) : Prop :=
  settled y ∧ status (panel y) = refused_status s0 ∧
  isAnalyzing (script y) = isAnalyzing s0.
End definitions.

(** ** Lemmas *)

Section refusal.
Context `{Backend} (home : nat) (vs : list video) (tm : N) (s0 : state).
Implicit Types (y : system) (s : state).

(** The tasks of a stopped script leave the videos alone. *)
Lemma stopped_live_videos s s' :
  reachable_under orderly vs tm s → isAnalyzing s = false → live_step s s' →
  videos (win s') = videos (win s).
Proof.
  intros Ho Hst Hs.
  pose proof (stopped_no_timer s (single_chain_orderly _ _ _ Ho) Hst) as Ht.
  inversion Hs as [s1 s2 Hstep|s1 t d Hq Ht']; subst; [|by rewrite Ht in Ht'].
  inversion Hstep as [s1 r rq Hr Hc|s1 Hraf|s1 t (d & Ht' & _)]; subst.
  - apply settle_videos.
  - unfold next, handle; cbn [snd]; unfold set_win; cbn [win].
    apply animationFrame_videos.
  - by rewrite Ht in Ht'.
Qed.

Lemma unstartable_live s s' :
  unstartable vs tm s0 s → live_step s s' → unstartable vs tm s0 s'.
Proof.
  intros (Ho & Hrun & Hv) Hs. split_and!.
  - by eapply live_step_orderly.
  - by rewrite (live_step_isAnalyzing s).
  - intros H0. rewrite (stopped_live_videos s); [by apply Hv|done|congruence|done].
Qed.

(** The listener refuses, with the message of the case, and changes
    nothing. *)
Lemma unstartable_start s :
  unstartable vs tm s0 s →
  onMessage "start" s = (Some (refusing s0), next (Message "start") s) ∧
  unstartable vs tm s0 (next (Message "start") s).
Proof.
  intros (Ho & Hrun & Hv).
  assert (onMessage "start" s = (Some (refusing s0), s)) as Hon.
  { unfold onMessage, startAnalysis, refusing, refusal. rewrite Hrun.
    destruct (decide ("start" = "start")); [|done].
    destruct (isAnalyzing s0) eqn:H0; [done|]. rewrite decide_True; [done|].
    destruct (filter _ _) as [|v l] eqn:E; [done|].
    assert (v ∈ filter (λ v, start_visible v = true) (videos (win s))) as Hin
      by (rewrite E; left).
    apply list_elem_of_filter in Hin as [Hvis Hin].
    rewrite Forall_forall in Hv. rewrite (Hv eq_refl v Hin) in Hvis. done. }
  assert (next (Message "start") s = s) as Hn by (unfold next, handle; by rewrite Hon).
  rewrite Hn. by split.
Qed.

(** The callback of a refused [start] shows the message as an error. *)
Lemma refused_callback_shows p :
  not_ending p → showing (refused_status s0) (run_callback OnStart (Some (refusing s0)) p).
Proof.
  intros Hp. split; [done|]. unfold refused_status, refusing, refusal.
  destruct (isAnalyzing s0); reflexivity.
Qed.
End refusal.

(** ** Theorems *)

(** C17: a refused start is reported and changes nothing.  Let the popup
    wait for nothing and the operator click Start while the script, in a
    state of an orderly environment, is running already or is stopped on
    a page none of whose videos passes the test of [startAnalysis] (ready
    and more than 100 pixels high).  In every execution that is fair to
    the browser there is a moment from which on the popup waits for
    nothing and shows, as an error, "Analysis is already running." in the
    first case and "No participant videos found." in the second, and the
    run flag of the script is what it was at the click. *)
Theorem start_click_refused `{Backend} home vs (tm : N) y tr :
  settled y → unstartable vs tm (script y) (script y) →
  tr 0 = sys_handle (User StartBtn) y →
  execution (session_step home) tr → fair (browser_step home) tr →
  ∃ n, ∀ k, n ≤ k → refused (script y) (tr k).
Proof.
  intros Hy Hs H0 Hx Hf.
  destruct (commanding_completes home "start" OnStart (refusing (script y))
              (unstartable vs tm (script y)) (unstartable vs tm (script y))
              not_ending (showing (refused_status (script y)))
              (unstartable_live vs tm _) (unstartable_live vs tm _)
              (unstartable_start vs tm _) not_ending_status not_ending_ended
              (showing_ended _) (refused_callback_shows _) tr) as (n & Hn); [|done..|].
  { destruct Hy as ([? He] & ? & ?). rewrite H0.
    by apply commanding_click; [|apply not_ending_click|..]. }
  exists n. intros k [(Hst & [_ Hp] & (_ & Hrun & _)) _]%Hn. done.
Qed.

Lemma start_click_refused_witness :
  status (panel (schedule (H := alice_service) 5 start_clicked_early 3))
  = ("status-error", "Error: No participant videos found.") ∧
  (∃ n, ∀ k, n ≤ k →
     refused (script (sys_initial "status-stopped" "Status: Idle" [loading_video] 1000))
       (schedule (H := alice_service) 5 start_clicked_early k)) ∧
  (∃ n, ∀ k, n ≤ k →
     refused (script (schedule (H := alice_service) 5 start_clicked 3))
       (schedule (H := alice_service) 5
          (sys_handle (User StartBtn) (schedule (H := alice_service) 5 start_clicked 3)) k)).
Proof.
  split; [by vm_compute|]. split.
  - apply (start_click_refused (H := alice_service) 5 [loading_video] 1000
             (sys_initial "status-stopped" "Status: Idle" [loading_video] 1000)).
    + by_compute.
    + split_and!; [constructor|done|]. intros _. by repeat constructor.
    + done.
    + apply schedule_execution.
    + apply schedule_fair_browser.
  - apply (start_click_refused (H := alice_service) 5 [sample_video] 1000
             (schedule (H := alice_service) 5 start_clicked 3)).
    + by_compute.
    + split_and!; [|done|by intros [=]].
      assert (script (schedule (H := alice_service) 5 start_clicked 3)
              = next (Message "start") (initial_state [sample_video] 1000)) as ->
        by (vm_compute; reflexivity).
      apply reachable_under_step; [constructor|done|].
      split; [by intros _ _|]. intros _ _. repeat constructor; by intros i.
    + done.
    + apply schedule_execution.
    + apply schedule_fair_browser.
Defined.
